(* ===== verification/_CoqProject ===== *)
-Q . S2P
Prelude.v
Go.v
Memory.v
Effects.v
Client.v
Sys.v
Cluster.v
Slots.v
Migration.v
Rebalance.v
Formation.v
Health.v
Api.v
Webhook.v
Resources.v
Config.v
Workloads.v
Credentials.v
Sha256.v
Metrics.v
Kube.v
ApiServer.v
RedisCtrl.v
SentinelCtrl.v
ClusterCtrl.v
DeepCopy.v
Addressing.v
Lifecycle.v
Ownership.v
Converge.v
Access.v
Telemetry.v
Tls.v
Main.v
Link.v
Progress.v
Rollout.v
