(* ===== verification/Prelude.v ===== *)
(** * Verification of the Kubernetes Redis operator

    The program (Go, under src/) is a Kubernetes operator for three custom
    resources: a standalone Redis, a Redis supervised by Sentinel, and a
    Redis Cluster.  Its parts, and the files that model them:

    - api/v1alpha1: the types of the resources ([Api]), their admission
      webhooks ([Webhook], one Module per kind) and the generated copies of
      objects in memory ([DeepCopy], over the memory model of [Memory]);
    - internal/resources: pure functions from a resource to the Kubernetes
      objects it wants - labels, ConfigMaps, Services, budgets, monitors
      ([Resources]), StatefulSets and Deployments ([Workloads]);
    - internal/redis: the [RedisClient] interface, the parsers of Redis
      replies and the client over go-redis ([Client]); the ClusterManager,
      which forms, scales and rebalances a Redis Cluster ([Cluster]); health
      checks and the SentinelManager ([Health]);
    - internal/metrics: the Prometheus collectors ([Metrics], metrics.go) and
      the recorder (recorder.go, in [Kube]);
    - internal/controller: the environment of the reconcilers and what they
      share ([Kube], [Sha256]), the three reconcilers ([RedisCtrl],
      [SentinelCtrl], [ClusterCtrl]) and their RBAC markers ([Access]);
    - cmd/main.go, the scheme of groupversion_info.go, SetupWithManager and
      SetupWebhookWithManager: [Main]; NewTLSConfig of client.go: [Tls].

    ** How code is modelled

    Pure Go functions are Rocq functions; [Go] holds the strings, integers
    and errors of the language and the library functions used (strconv, fmt,
    strings, sort).  Integers are [Z]; a result of an int32 or int64
    computation goes through [wrap32] or [wrap64] wherever it could leave the
    range.  Functions with effects are programs over a signature of calls
    ([Effects]): a tree of calls, each with a continuation for its answer.
    There are five signatures, three of them for the operator at work.
    [GoRedis] (in [Client]) is the go-redis library under the client; [SysSig] (in [Sys]) is what internal/redis
    calls: the methods of [RedisClient], the clock, the [select] on the
    context and a timer, and the order in which a map is ranged over;
    [KubeSig] (in [Kube]) is what internal/controller calls: the API server,
    the event recorder, the metrics, the clock, [RedisClient] and
    [ClusterManager].  [client.client_method] implements the first interface
    and [ClusterManager.implementation] the calls of [KubeSig] to the
    manager, method by method; [Link] composes the last two, so that an
    execution of a reconciler there is a sequence of API calls and of Redis
    commands.  [MainSig] (in [Main]) is what the process asks of the libraries
    until the manager runs, [FileSig] (in [Tls]) what NewTLSConfig reads.
    [within] is a judgement on programs - which calls they make and which
    results they have - that the effect discipline of [Access] instantiates,
    and [ensures] and [throughout] are its counterparts when the environment
    has a state.

    Nothing is assumed of the environment: [exec p t out] holds for every
    trace [t] of calls and answers that [p] can produce, and the theorems
    hold for all of them, errors of any call included.  A theorem that needs
    more of the environment says so: [Clock] (time does not go back and a
    timer waits), [KeyStore] (MIGRATE removes a key from the source),
    [KubeLaws] (finalizers and conditions of apimachinery), references that
    are set idempotently.  Types of Kubernetes that the operator only passes
    on, quantities and library functions on plain data are the parameters
    [KubeTypes] and [KubeLib]; [plain_types] and, in [ApiServer],
    [plain_lib] and [plain_laws] are concrete instances, in which, with
    concrete handlers ([agreeable], [apiserver], ...), the witnesses run.

    Go panics are [Halt (GoPanic _)].  A loop without a structural bound -
    polling until a deadline, migrating keys until none is left - takes fuel
    and ends in [Halt OutOfFuel] without it.  [poll_fuel timeout], one turn
    per two seconds of the timeout and one more, is enough for every polling
    loop under any [Clock] (WaitForClusterReady_returns, and the lemmas
    WaitForSentinelQuorum_quorum and WaitForMaster_reported), and one turn per
    batch of 100 keys and one more is enough for migrateKeys
    (migrateKeys_drains).

    Objects are values, except in [DeepCopy], where they are cells of a heap
    that refer to each other: there, what a copy of an object that changes
    afterwards denotes is proved, not assumed.  An object that a reconciler
    mutates in place is returned by the functions that mutate it; a call that sends an object answers with the server's
    version, which replaces it, as the client does.  Updates of one object by
    one reconciliation are therefore sequential in the model; several
    reconciliations happen one after the other ([exported_gauges], [rounds]),
    their concurrency is not modelled, and neither is any state of the API
    server between calls: every answer is arbitrary.  Only [Progress], which
    proves that a cluster becomes ready, assumes a server that keeps what it
    was sent ([agrees]).
    [reconcileRedis], [reconcileSentinel], [reconcileCluster] and
    [finishCluster] are the parts of [doReconcile] after the finalizer check;
    the reconcilers of Sentinel and Cluster have the kind in their names.

    ** What is proved

    - [Slots], [Migration], [Rebalance], [Formation]: cluster.go.  Slots are
      partitioned over the masters; collecting slots with early exits is
      equivalent to taking a prefix; a slot is migrated in the documented
      order, rolled back when that fails (with one exception) and emptied;
      what rebalancing moves, its bound, and when it moves nothing; the
      phases of forming a cluster, the even distribution of replicas, the
      removal of a node, the end of polling.
    - [Client], [Health], [Tls]: the parsers invert the text formats of Redis;
      every method uses one connection; polling for a quorum and for a master
      ends and is right; errors of loading certificates are reported.
    - [Webhook], [Config], [Workloads], [Sha256]: which resources are admitted
      (with the overflow of the node limit), storage is immutable, defaulting
      is idempotent; the configuration Redis reads is the user's over the
      defaults; selectors select the pods they are for; volumes are declared
      (but for clusters without storage); the hash has its documented shape.
      [Credentials]: no server is told a password or a certificate.
    - [Lifecycle], [Ownership], [Converge], [Rollout]: the controllers.  Which
      phases stick; the StatefulSet is scaled before the cluster; every live
      resource is looked at again; the finalizer is added before any object
      exists and removed only after the claims are gone; objects converge and
      keep their immutable fields; the status says what was counted; role
      labels name one master; only hot-reloadable parameters are pushed;
      failovers go to one replica per master.
    - [Access], [Telemetry]: a type-and-effect discipline for the reconcilers,
      from which follow that RBAC grants every request, that no metric panics,
      and which gauges are exported after any history.
    - [Addressing], [Link]: controller and manager together.  The life cycle
      of a cluster, run down to the commands sent to Redis, refines the state
      machine [step]; and because the addresses the controller uses are not
      those by which the cluster knows its nodes, scaling moves no slot.
    - [DeepCopy]: the generated copies share no memory with the original and
      denote the same value; so a patch is computed from the object as it was.
    - [Progress]: in a cooperating environment a new cluster is formed, becomes
      ready and stays so.
    - [Main]: the process starts completely or not at all; its controllers
      watch what they own; what their clients can reach.

    ** What is not modelled

    Logging; what the library does with the List kinds, of which the program
    only has the types and their copies; cancellation of a context except
    where the code selects on it; tests and manifests. *)

From stdpp Require Export base tactics list list_numbers gmap strings fin_maps sorting.
From Stdlib Require Export Ascii ZArith Lia.

#[global] Set Default Goal Selector "!".

(** ** Automation *)

(** [operator] collects the closing lemmas of every component,
    [operator_rw] the rewriting lemmas that normalise traces and maps. *)
Create HintDb operator discriminated.
Create Rewrite HintDb operator_rw.

(** Names the witness of every existential and splits every conjunction in
    the hypotheses. *)
Ltac deex :=
  repeat match goal with
  | H : ∃ x, _ |- _ => let y := fresh x in destruct H as [y H]
  | H : _ ∧ _ |- _ => destruct H
  end.

(** Case analysis on every boolean test of the goal, keeping the equation. *)
Ltac case_bool :=
  match goal with
  | |- context [if ?b then _ else _] =>
      match type of b with bool => destruct b eqn:? end
  end.

(** Turns boolean comparisons on integers in the context into propositions
    and closes the goal with [lia]. *)
Ltac blia :=
  repeat match goal with
  | H : (_ =? _)%Z = true |- _ => apply Z.eqb_eq in H
  | H : (_ =? _)%Z = false |- _ => apply Z.eqb_neq in H
  | H : (_ <? _)%Z = true |- _ => apply Z.ltb_lt in H
  | H : (_ <? _)%Z = false |- _ => apply Z.ltb_ge in H
  | H : (_ <=? _)%Z = true |- _ => apply Z.leb_le in H
  | H : (_ <=? _)%Z = false |- _ => apply Z.leb_gt in H
  end; try lia.

(** Decides a property of one character by trying all of them. *)
Ltac ascii_cases c := destruct c as [[] [] [] [] [] [] [] []]; vm_compute; congruence.

(** ** Lists *)

(** [zlen] is Go's [len]: the length of a slice as an [int]. *)
Definition zlen {A} (l : list A) : Z := Z.of_nat (length l).

(** The elements with their position, as [for i, x := range l] visits them. *)
Definition enumerate {A} (l : list A) : list (Z * A) :=
  imap (λ i x, (Z.of_nat i, x)) l.

Lemma zlen_nonneg {A} (l : list A) : (0 ≤ zlen l)%Z.
Proof. unfold zlen. lia. Qed.

Lemma zlen_app {A} (l k : list A) : zlen (l ++ k) = (zlen l + zlen k)%Z.
Proof. unfold zlen. rewrite length_app. lia. Qed.

Lemma zlen_cons {A} (x : A) l : zlen (x :: l) = (zlen l + 1)%Z.
Proof. unfold zlen. simpl. lia. Qed.

Lemma zlen_nil {A} : zlen (@nil A) = 0%Z.
Proof. done. Qed.

Lemma zlen_zero {A} (l : list A) : zlen l = 0%Z → l = [].
Proof. destruct l; [done|]. rewrite zlen_cons. pose proof (zlen_nonneg l). lia. Qed.

Lemma enumerate_snd {A} (l : list A) : (enumerate l).*2 = l.
Proof.
  unfold enumerate. rewrite fmap_imap. apply list_eq. intros i.
  rewrite list_lookup_imap. by destruct (l !! i).
Qed.

Lemma seqZ_singleton_app (m n : Z) :
  (0 ≤ n)%Z → seqZ m (n + 1) = seqZ m n ++ [(m + n)%Z].
Proof. intros Hn. rewrite seqZ_app by lia. f_equal. Qed.

Lemma omap_cons_eq {A B} (f : A → option B) x l :
  omap f (x :: l) = match f x with Some y => y :: omap f l | None => omap f l end.
Proof. done. Qed.

(** A partial function that inverts [g] on [l] recovers [l]. *)
Lemma omap_fmap_inverse {A B} (f : B → option A) (g : A → B) (l : list A) :
  Forall (λ x, f (g x) = Some x) l → omap f (g <$> l) = l.
Proof.
  induction 1 as [|x l Hx Hl IH]; [done|]. rewrite fmap_cons, omap_cons_eq, Hx. by f_equal.
Qed.

(** ** Maps *)

Lemma fold_insert_list (kvs : list (string * string)) (m : gmap string string) :
  NoDup kvs.*1 → fold_left (λ m kv, <[kv.1 := kv.2]> m) kvs m = list_to_map kvs ∪ m.
Proof.
  revert m. induction kvs as [|[k v] kvs IH]; intros m Hnd; simpl; [by rewrite map_empty_union|].
  simpl in Hnd. apply NoDup_cons in Hnd as [Hk Hnd]. rewrite IH by done.
  rewrite <- insert_union_l, <- insert_union_r; [done|]. by apply not_elem_of_list_to_map_1.
Qed.

(** Inserting the pairs of a map, in any order, builds the map. *)
Lemma fold_insert_perm (kvs : list (string * string)) (m : gmap string string) :
  kvs ≡ₚ map_to_list m → fold_left (λ m kv, <[kv.1 := kv.2]> m) kvs ∅ = m.
Proof.
  intros Hp. assert (NoDup kvs.*1) by (rewrite Hp; apply NoDup_fst_map_to_list).
  rewrite fold_insert_list by done. rewrite map_union_empty. rewrite <- (list_to_map_to_list m).
  by apply list_to_map_proper.
Qed.

(** String concatenation reduces on a constructor (stdpp blocks it). *)
#[global] Arguments String.append !s1 s2 : simpl nomatch.
