(* ===== verification/Go.v ===== *)
(** * The part of the Go language and standard library the operator uses

    Strings are byte strings (ASCII text; the Unicode white space and
    multi-byte quoting of the Go library are not reproduced), [int] and
    [int64] are integers in [[-2^63, 2^63)], [int32] in [[-2^31, 2^31)], and
    an [error] keeps the format and the arguments it was built from, so that
    a theorem can tell which [fmt.Errorf] produced it and [error_text] still
    renders the message the operator publishes. *)

From Stdlib Require Import DecimalString DecimalZ DecimalFacts.
From S2P Require Import Prelude.

Local Open Scope Z_scope.

(** ** Errors and results *)

(** [Errorf] is [fmt.Errorf] (a wrapped error is its last argument),
    [ApiStatus] an error answered by the Kubernetes API server with its
    reason, [ExtErr] any other error of code outside the repository. *)
Inductive error : Type :=
| Errorf (format : string) (args : list arg)
| ApiStatus (reason : string) (message : string)
| ExtErr (message : string)
with arg : Type :=
| AStr (s : string)
| AInt (z : Z)
| ADur (d : Z)
| AStrs (l : list string)
| AValue                    (* an argument whose rendering is not modelled *)
| AErr (e : error).

(** A Go pair [(T, error)] of which the code uses one side only. *)
Inductive result (A : Type) : Type := Ok (a : A) | Fail (e : error).
Arguments Ok {A} a.
Arguments Fail {A} e.

Definition is_ok {A} (r : result A) : bool :=
  match r with Ok _ => true | Fail _ => false end.

(** [err] of a call whose value is not used. *)
Definition err_of {A} (r : result A) : option error :=
  match r with Ok _ => None | Fail e => Some e end.

(** ** Machine integers *)

Definition wrap (w z : Z) : Z := (z + 2 ^ (w - 1)) mod 2 ^ w - 2 ^ (w - 1).
Definition wrap32 : Z → Z := wrap 32.
Definition wrap64 : Z → Z := wrap 64.
Definition int32_range (z : Z) : Prop := - 2 ^ 31 ≤ z < 2 ^ 31.
Definition int64_range (z : Z) : Prop := - 2 ^ 63 ≤ z < 2 ^ 63.

Lemma wrap32_id z : int32_range z → wrap32 z = z.
Proof.
  unfold int32_range, wrap32, wrap. intros H.
  rewrite Z.mod_small by (change (2 ^ (32 - 1)) with (2 ^ 31); change (2 ^ 32) with (2 * 2 ^ 31); lia).
  lia.
Qed.

Lemma wrap64_id z : int64_range z → wrap64 z = z.
Proof.
  unfold int64_range, wrap64, wrap. intros H.
  rewrite Z.mod_small by (change (2 ^ (64 - 1)) with (2 ^ 63); change (2 ^ 64) with (2 * 2 ^ 63); lia).
  lia.
Qed.

Lemma wrap32_range z : int32_range (wrap32 z).
Proof.
  unfold int32_range, wrap32, wrap.
  pose proof (Z.mod_pos_bound (z + 2 ^ (32 - 1)) (2 ^ 32) ltac:(lia)).
  change (2 ^ (32 - 1)) with (2 ^ 31) in *. change (2 ^ 32) with (2 * 2 ^ 31) in *. lia.
Qed.

(** ** Characters *)

Definition nl : ascii := "010"%char.
Definition quote_char : ascii := "034"%char.

(** White space of [unicode.IsSpace] in the ASCII range. *)
Definition is_space (c : ascii) : bool :=
  let n := N_of_ascii c in ((9 <=? n) && (n <=? 13))%N || (n =? 32)%N.

Definition is_digit (c : ascii) : bool :=
  let n := N_of_ascii c in ((48 <=? n) && (n <=? 57))%N.

(** ** Package strings *)

(** [strings.Index] with a one byte separator; [None] is [-1]. *)
Fixpoint index_byte (c : ascii) (s : string) : option nat :=
  match s with
  | EmptyString => None
  | String d s' => if Ascii.eqb c d then Some 0%nat else S <$> index_byte c s'
  end.

(** [strings.LastIndex] with a one byte separator. *)
Fixpoint last_index_byte (c : ascii) (s : string) : option nat :=
  match s with
  | EmptyString => None
  | String d s' =>
      match last_index_byte c s' with
      | Some i => Some (S i)
      | None => if Ascii.eqb c d then Some 0%nat else None
      end
  end.

(** The slices [s[:n]] and [s[n:]]. *)
Fixpoint str_take (n : nat) (s : string) : string :=
  match n, s with
  | S n', String c s' => String c (str_take n' s')
  | _, _ => EmptyString
  end.

Fixpoint str_drop (n : nat) (s : string) : string :=
  match n, s with
  | S n', String _ s' => str_drop n' s'
  | _, _ => s
  end.

#[global] Arguments str_take !n !s.
#[global] Arguments str_drop !n !s.

(** [strings.Split] with a one byte separator. *)
Fixpoint split_byte (c : ascii) (s : string) : list string :=
  match s with
  | EmptyString => [EmptyString]
  | String d s' =>
      if Ascii.eqb c d then EmptyString :: split_byte c s'
      else match split_byte c s' with
           | [] => [String d EmptyString]
           | w :: ws => String d w :: ws
           end
  end.

(** [strings.SplitN(s, c, 2)]. *)
Definition split_two (c : ascii) (s : string) : list string :=
  match index_byte c s with
  | None => [s]
  | Some i => [str_take i s; str_drop (S i) s]
  end.

Fixpoint trim_left (s : string) : string :=
  match s with
  | EmptyString => EmptyString
  | String c s' => if is_space c then trim_left s' else s
  end.

Fixpoint trim_right (s : string) : string :=
  match s with
  | EmptyString => EmptyString
  | String c s' =>
      match trim_right s' with
      | EmptyString => if is_space c then EmptyString else String c EmptyString
      | t => String c t
      end
  end.

(** [strings.TrimSpace]. *)
Definition trim_space (s : string) : string := trim_right (trim_left s).

(** [strings.Fields]. *)
Fixpoint fields_from (word : string) (s : string) : list string :=
  match s with
  | EmptyString => if String.eqb word "" then [] else [word]
  | String c s' =>
      if is_space c
      then (if String.eqb word "" then [] else [word]) ++ fields_from "" s'
      else fields_from (word ++ String c "") s'
  end.

Definition fields (s : string) : list string := fields_from "" s.

Definition has_prefix (p s : string) : bool := String.prefix p s.

(** [strings.Join]-like rendering of [%v] on a slice of strings. *)
Fixpoint join (sep : string) (l : list string) : string :=
  match l with
  | [] => ""
  | [x] => x
  | x :: l' => x +:+ sep +:+ join sep l'
  end.

(** ** Package strconv *)

(** [strconv.Itoa], and [%d] of a signed integer. *)
Definition itoa (z : Z) : string := NilZero.string_of_int (Z.to_int z).

(** An optionally signed, non-empty digit string. *)
Definition parse_digits (s : string) : option Z :=
  match s with
  | String c s' =>
      if Ascii.eqb c "+" then Z.of_uint <$> NilZero.uint_of_string s'
      else if Ascii.eqb c "-" then Z.opp ∘ Z.of_uint <$> NilZero.uint_of_string s'
      else Z.of_uint <$> NilZero.uint_of_string s
  | EmptyString => None
  end.

(** [strconv.Atoi] and [strconv.ParseInt(s, 10, 64)]: the value that is
    returned next to the error is 0 on a syntax error and the nearest
    representable integer on a range error. *)
Definition atoi (s : string) : Z * option error :=
  match parse_digits s with
  | None => (0, Some (Errorf "strconv.Atoi: parsing %q: invalid syntax" [AStr s]))
  | Some z =>
      if z <? - 2 ^ 63 then (- 2 ^ 63, Some (Errorf "strconv.Atoi: parsing %q: value out of range" [AStr s]))
      else if 2 ^ 63 - 1 <? z then (2 ^ 63 - 1, Some (Errorf "strconv.Atoi: parsing %q: value out of range" [AStr s]))
      else (z, None)
  end.

(** The longest prefix of digits. *)
Fixpoint take_digits (s : string) : string :=
  match s with
  | String c s' => if is_digit c then String c (take_digits s') else EmptyString
  | EmptyString => EmptyString
  end.

(** The leading blanks that [fmt.Sscanf] discards; a newline stops it with an
    error. *)
Fixpoint skip_blanks (s : string) : option string :=
  match s with
  | String c s' =>
      if Ascii.eqb c nl then None
      else if is_space c then skip_blanks s' else Some s
  | EmptyString => Some EmptyString
  end.

(** [fmt.Sscanf(s, "%d", &n)] with [n] an [int] or an [int64]: blanks, a
    sign and digits are consumed, whatever follows is ignored. *)
Definition sscanf_d (s : string) : result Z :=
  match skip_blanks s with
  | None => Fail (ExtErr "unexpected newline")
  | Some EmptyString => Fail (ExtErr "unexpected EOF")
  | Some (String c s') =>
      let tok :=
        if Ascii.eqb c "+" || Ascii.eqb c "-" then String c (take_digits s')
        else take_digits (String c s') in
      match parse_digits tok with
      | None => Fail (ExtErr "expected integer")
      | Some z => if (z <? - 2 ^ 63) || (2 ^ 63 - 1 <? z)
                  then Fail (ExtErr "integer out of range") else Ok z
      end
  end.

(** ** Package fmt: rendering of errors *)

Definition hex_digit (n : N) : string :=
  match String.get (N.to_nat n) "0123456789abcdef" with
  | Some c => String c ""
  | None => ""
  end.

(** [%q] on ASCII text. *)
Fixpoint quote_body (s : string) : string :=
  match s with
  | EmptyString => EmptyString
  | String c s' =>
      let n := N_of_ascii c in
      (if (n =? 7)%N then "\a" else if (n =? 8)%N then "\b"
       else if (n =? 12)%N then "\f" else if (n =? 10)%N then "\n"
       else if (n =? 13)%N then "\r" else if (n =? 9)%N then "\t"
       else if (n =? 11)%N then "\v" else if (n =? 92)%N then "\\"
       else if (n =? 34)%N then String "\" (String quote_char "")
       else if ((n <? 32) || (n =? 127))%N
            then "\x" +:+ hex_digit (n / 16) +:+ hex_digit (n mod 16)
       else String c "") +:+ quote_body s'
  end.

Definition quote (s : string) : string :=
  String quote_char (quote_body s +:+ String quote_char "").

(** The fractional digits of [u / 10 ^ prec] without trailing zeros, with
    their point ([fmtFrac] of package time). *)
Fixpoint frac_digits (prec : nat) (u : Z) (acc : string) : string :=
  match prec with
  | O => if String.eqb acc "" then "" else "." +:+ acc
  | S p =>
      let d := u mod 10 in
      frac_digits p (u / 10)
        (if (d =? 0) && String.eqb acc "" then "" else itoa d +:+ acc)
  end.

(** [time.Duration.String]; a duration is a number of nanoseconds. *)
Definition duration_text (d : Z) : string :=
  let u := Z.abs d in
  let sign := if d <? 0 then "-" else "" in
  if u =? 0 then "0s"
  else if u <? 1000 then sign +:+ itoa u +:+ "ns"
  else if u <? 1000000 then sign +:+ itoa (u / 1000) +:+ frac_digits 3 u "" +:+ "µs"
  else if u <? 1000000000 then sign +:+ itoa (u / 1000000) +:+ frac_digits 6 u "" +:+ "ms"
  else
    let s := u / 1000000000 in
    let m := s / 60 in
    let h := m / 60 in
    sign +:+ (if h =? 0 then "" else itoa h +:+ "h")
         +:+ (if m =? 0 then "" else itoa (m mod 60) +:+ "m")
         +:+ itoa (s mod 60) +:+ frac_digits 9 u "" +:+ "s".

(** [fmt.Sprintf]: every verb consumes one argument, rendered by the verb. *)
Fixpoint sprintf (f : string) (args : list (ascii → string)) : string :=
  match f with
  | EmptyString => EmptyString
  | String "%" (String v f') =>
      if Ascii.eqb v "%" then String "%" (sprintf f' args)
      else match args with
           | a :: args' => a v +:+ sprintf f' args'
           | [] => "%!" +:+ String v "(MISSING)" +:+ sprintf f' []
           end
  | String c f' => String c (sprintf f' args)
  end.

(** [err.Error()]. *)
Fixpoint error_text (e : error) : string :=
  match e with
  | Errorf f args => sprintf f (List.map arg_text args)
  | ApiStatus _ m => m
  | ExtErr m => m
  end
with arg_text (a : arg) : ascii → string :=
  match a with
  | AStr s => λ v, if Ascii.eqb v "q" then quote s else s
  | AInt z => λ _, itoa z
  | ADur d => λ _, duration_text d
  | AStrs l => λ _, "[" +:+ join " " l +:+ "]"
  | AValue => λ _, ""
  | AErr e => λ _, error_text e
  end.

Example duration_text_minute : duration_text 60000000000 = "1m0s".
Proof. reflexivity. Qed.

Example error_text_wrapped :
  error_text (Errorf "CLUSTER MEET replica %s: %w"
                [AStr "a:1"; AErr (Errorf "invalid address (no port): %s" [AStr "x"])])
  = "CLUSTER MEET replica a:1: invalid address (no port): x".
Proof. reflexivity. Qed.

(** ** Lemmas on strings *)

(** Every character of [s] satisfies [P]. *)
Fixpoint str_forall (P : ascii → bool) (s : string) : bool :=
  match s with
  | EmptyString => true
  | String c s' => P c && str_forall P s'
  end.

Definition not_char (c d : ascii) : bool := negb (Ascii.eqb c d).

Lemma str_forall_app P a b : str_forall P (a +:+ b) = str_forall P a && str_forall P b.
Proof. induction a as [|c a IH]; simpl; [done|]. by rewrite IH, andb_assoc. Qed.

Lemma str_forall_impl (P Q : ascii → bool) s :
  (∀ c, P c = true → Q c = true) → str_forall P s = true → str_forall Q s = true.
Proof.
  intros HPQ. induction s as [|c s IH]; simpl; [done|].
  rewrite !andb_true_iff. intros [Hc Hs]. auto.
Qed.

Lemma str_app_nil_r s : s +:+ "" = s.
Proof. induction s as [|c s IH]; [done|]. cbn [String.append]. by rewrite IH. Qed.

Lemma str_app_assoc a b c : (a +:+ b) +:+ c = a +:+ (b +:+ c).
Proof. induction a as [|d a IH]; [done|]. cbn [String.append]. by rewrite IH. Qed.

Lemma join_empty_cons x l : join "" (x :: l) = x +:+ join "" l.
Proof. destruct l as [|y l]; simpl; [by rewrite str_app_nil_r|done]. Qed.

Lemma str_take_app a b : str_take (String.length a) (a +:+ b) = a.
Proof. induction a as [|c a IH]; simpl; [by destruct b|]. by rewrite IH. Qed.

Lemma str_drop_app a b : str_drop (String.length a) (a +:+ b) = b.
Proof. induction a as [|c a IH]; simpl; [by destruct b|done]. Qed.

Lemma str_drop_app_S a c b : str_drop (S (String.length a)) (a +:+ String c b) = b.
Proof. induction a as [|d a IH]; [by destruct b|]. done. Qed.

Lemma index_byte_none c s : str_forall (not_char c) s = true → index_byte c s = None.
Proof.
  induction s as [|d s IH]; simpl; [done|]. unfold not_char at 1.
  destruct (Ascii.eqb c d); simpl; [done|]. intros H. by rewrite IH.
Qed.

Lemma index_byte_app c a b :
  str_forall (not_char c) a = true → index_byte c (a +:+ String c b) = Some (String.length a).
Proof.
  induction a as [|d a IH]; simpl; [by rewrite Ascii.eqb_refl|]. unfold not_char at 1.
  destruct (Ascii.eqb c d); simpl; [done|]. intros H. by rewrite IH.
Qed.

Lemma last_index_byte_none c s : str_forall (not_char c) s = true → last_index_byte c s = None.
Proof.
  induction s as [|d s IH]; simpl; [done|]. unfold not_char at 1.
  destruct (Ascii.eqb c d); simpl; [done|]. intros H. by rewrite IH.
Qed.

Lemma last_index_byte_app c a b :
  str_forall (not_char c) b = true → last_index_byte c (a +:+ String c b) = Some (String.length a).
Proof.
  intros Hb. induction a as [|d a IH]; simpl.
  - by rewrite last_index_byte_none, Ascii.eqb_refl.
  - by rewrite IH.
Qed.

Lemma split_byte_none c s : str_forall (not_char c) s = true → split_byte c s = [s].
Proof.
  induction s as [|d s IH]; simpl; [done|]. unfold not_char at 1.
  destruct (Ascii.eqb c d); simpl; [done|]. intros H. by rewrite IH.
Qed.

Lemma split_byte_app c a b :
  str_forall (not_char c) a = true → split_byte c (a +:+ String c b) = a :: split_byte c b.
Proof.
  induction a as [|d a IH]; simpl; [by rewrite Ascii.eqb_refl|]. unfold not_char at 1.
  destruct (Ascii.eqb c d); simpl; [done|]. intros H. by rewrite IH.
Qed.

(** ** Decimal numerals *)

Lemma uint_digits u : str_forall is_digit (NilEmpty.string_of_uint u) = true.
Proof. by induction u. Qed.

Lemma uint_digits' u : str_forall is_digit (NilZero.string_of_uint u) = true.
Proof. unfold NilZero.string_of_uint. destruct u; try done; apply uint_digits. Qed.

(** A numeral: an optional minus and digits. *)
Definition is_numeral_char (c : ascii) : bool := is_digit c || Ascii.eqb c "-".

Lemma itoa_chars z : str_forall is_numeral_char (itoa z) = true.
Proof.
  unfold itoa, NilZero.string_of_int. destruct (Z.to_int z) as [u|u]; simpl;
    apply (str_forall_impl is_digit); try apply uint_digits';
    intros c; unfold is_numeral_char; by intros ->.
Qed.

Lemma itoa_nonneg_digits z : 0 ≤ z → str_forall is_digit (itoa z) = true.
Proof.
  intros Hz. destruct z as [|p|p]; [done| |lia]. unfold itoa. simpl. apply uint_digits'.
Qed.

Lemma itoa_nonempty z : itoa z ≠ "".
Proof.
  unfold itoa, NilZero.string_of_int. destruct (Z.to_int z) as [u|u]; simpl; [|done].
  unfold NilZero.string_of_uint. by destruct u.
Qed.

Lemma parse_digits_uint u :
  u ≠ Decimal.Nil → parse_digits (NilZero.string_of_uint u) = Some (Z.of_uint u).
Proof.
  intros Hu. pose proof (NilZero.usu u Hu) as H.
  unfold parse_digits. destruct (NilZero.string_of_uint u) as [|c s] eqn:E; [done|].
  assert (is_digit c = true) as Hc.
  { pose proof (uint_digits' u) as Hd. rewrite E in Hd. simpl in Hd. by apply andb_true_iff in Hd as [??]. }
  destruct (Ascii.eqb c "+") eqn:E1; [apply Ascii.eqb_eq in E1; by subst|].
  destruct (Ascii.eqb c "-") eqn:E2; [apply Ascii.eqb_eq in E2; by subst|].
  by rewrite H.
Qed.

Lemma parse_digits_itoa z : parse_digits (itoa z) = Some z.
Proof.
  rewrite <- (DecimalZ.of_to z) at 2. unfold itoa, NilZero.string_of_int.
  destruct z as [|p|p]; [done| |].
  - change (Z.to_int (Z.pos p)) with (Decimal.Pos (Pos.to_uint p)).
    apply parse_digits_uint, DecimalPos.Unsigned.to_uint_nonnil.
  - change (Z.to_int (Z.neg p)) with (Decimal.Neg (Pos.to_uint p)). simpl.
    by rewrite NilZero.usu by apply DecimalPos.Unsigned.to_uint_nonnil.
Qed.

Lemma atoi_itoa z : int64_range z → atoi (itoa z) = (z, None).
Proof.
  unfold int64_range, atoi. intros Hz. rewrite parse_digits_itoa.
  destruct (z <? - 2 ^ 63) eqn:E1; [blia|]. destruct (2 ^ 63 - 1 <? z) eqn:E2; [blia|]. done.
Qed.

Lemma take_digits_id s : str_forall is_digit s = true → take_digits s = s.
Proof.
  induction s as [|c s IH]; simpl; [done|]. destruct (is_digit c); [|done].
  simpl. intros H. by rewrite IH.
Qed.

Lemma itoa_not c z : is_numeral_char c = false → str_forall (not_char c) (itoa z) = true.
Proof.
  intros Hc. eapply str_forall_impl; [|apply itoa_chars]. intros d Hd. unfold not_char.
  destruct (Ascii.eqb c d) eqn:E; [|done]. apply Ascii.eqb_eq in E. congruence.
Qed.

Lemma sscanf_itoa z : int64_range z → sscanf_d (itoa z) = Ok z.
Proof.
  unfold int64_range. intros Hz. unfold sscanf_d.
  pose proof (itoa_chars z) as Hc. pose proof (parse_digits_itoa z) as Hp.
  pose proof (itoa_nonneg_digits z) as Hd.
  destruct (itoa z) as [|c s] eqn:E; [by apply itoa_nonempty in E|].
  assert (skip_blanks (String c s) = Some (String c s)) as ->.
  { simpl in Hc. apply andb_true_iff in Hc as [Hc _]. simpl.
    destruct c as [[] [] [] [] [] [] [] []]; done. }
  assert ((if Ascii.eqb c "+" || Ascii.eqb c "-" then String c (take_digits s)
           else take_digits (String c s)) = String c s) as ->.
  { assert (str_forall is_digit s = true) as Hs.
    { destruct z as [|p|p]; [| |].
      - vm_compute in E. by injection E as <- <-.
      - specialize (Hd ltac:(lia)). simpl in Hd. by apply andb_true_iff in Hd as [??].
      - unfold itoa in E. simpl in E. injection E as <- <-. apply uint_digits'. }
    rewrite take_digits_id by done. simpl. rewrite take_digits_id by done.
    destruct (Ascii.eqb c "+") eqn:E1; [done|]. destruct (Ascii.eqb c "-") eqn:E2; [done|].
    simpl in Hc. apply andb_true_iff in Hc as [Hc _]. unfold is_numeral_char in Hc.
    rewrite E2, orb_false_r in Hc. by rewrite Hc. }
  rewrite Hp. destruct (z <? - 2 ^ 63) eqn:E1; [blia|]. destruct (2 ^ 63 - 1 <? z) eqn:E2; [blia|]. done.
Qed.

(** A bracket is no digit. *)
Lemma atoi_bracket s : ∃ e, snd (atoi (String "[" s)) = Some e.
Proof.
  unfold atoi, parse_digits. simpl. destruct (NilEmpty.uint_of_string s); simpl; eauto.
Qed.
