(* ===== verification/Memory.v ===== *)
(** * The memory of a Go program

    Objects in memory: a heap of typed cells, pointers, slices and maps as
    references into it, and the copying idioms of generated deep copies.  A
    denotation [rd h x v] says that the in-memory value [x] stands for the
    pure value [v] when its references are followed in [h], which may be only
    a part of the memory; [copies rd f] says that [f] builds, on fresh cells
    only, another in-memory value with the same denotation, and touches
    nothing else.

    Most of the development treats objects as values.  [DeepCopy] uses this
    file for the generated code and for the places where the operator changes
    an object of which it has taken a copy. *)

From S2P Require Import Prelude Go.

Definition loc := positive.

(** [*T]; [None] is nil. *)
Definition ptr (T : Type) : Type := option loc.

(** [[]T]: a window of a backing array; [None] is the nil slice. *)
Record slice (T : Type) := Slice { base : option loc; off : nat; len : nat }.
Arguments Slice {T} _ _ _.
Arguments base {T} _.
Arguments off {T} _.
Arguments len {T} _.

Section memory.
(** What a cell can hold. *)
Context {cell : Type}.

(** Values of a type [T] can be stored in a cell and recognised there. *)
Class Cell (T : Type) := {
  to_cell : T → cell;
  of_cell : cell → option T;
  of_to_cell x : of_cell (to_cell x) = Some x
}.

#[local] Abbreviation heap := (gmap loc cell).

(** A computation on memory; [None] is a panic: a nil dereference or an index
    out of range. *)
Definition mem (A : Type) : Type := heap → option (A * heap).

#[global] Instance mem_ret : MRet mem := λ A x h, Some (x, h).
#[global] Instance mem_bind : MBind mem := λ A B k m h, '(x, h') ← m h; k x h'.

Fixpoint mem_each {A} (l : list A) (f : A → mem unit) : mem unit :=
  match l with [] => mret tt | x :: l' => _ ← f x; mem_each l' f end.

(** ** Pointers *)

(** [new(T)] *)
Definition new {T} `{Cell T} (zero : T) : mem (ptr T) := λ h,
  let l := fresh (dom h) in Some (Some l, <[l := to_cell zero]> h).

(** [*p] *)
Definition load {T} `{Cell T} (p : ptr T) : mem T := λ h,
  l ← p; c ← h !! l; x ← of_cell c; Some (x, h).

(** [*p = x] *)
Definition store {T} `{Cell T} (p : ptr T) (x : T) : mem unit := λ h,
  '(_, _) ← load p h; l ← p; Some (tt, <[l := to_cell x]> h).

(** ** Slices *)

(** [make([]T, n)] *)
Definition make {T} `{Cell (list T)} (n : nat) (zero : T) : mem (slice T) :=
  p ← new (replicate n zero); mret (Slice p 0 n).

(** [s[i]] *)
Definition index {T} `{Cell (list T)} (s : slice T) (i : nat) : mem T := λ h,
  if decide (i < len s)%nat
  then '(a, _) ← load (T := list T) (base s) h; x ← a !! (off s + i)%nat; Some (x, h)
  else None.

(** [s[i] = x] *)
Definition set_index {T} `{Cell (list T)} (s : slice T) (i : nat) (x : T) : mem unit := λ h,
  if decide (i < len s)%nat
  then '(a, _) ← load (T := list T) (base s) h; store (base s) (<[(off s + i)%nat := x]> a) h
  else None.

(** [copy(dst, src)], for slices of different arrays *)
Definition go_copy {T} `{Cell (list T)} (dst src : slice T) : mem unit :=
  mem_each (seq 0 (min (len dst) (len src))) (λ i, x ← index src i; set_index dst i x).

(** ** Maps: [map[string]string] *)

Abbreviation strmap := (gmap string string).

(** The order in which [range] visits a map; it may be another one every time. *)
Class RangeOrder := {
  range_order : heap → strmap → list (string * string);
  range_order_all h m : range_order h m ≡ₚ map_to_list m
}.

(** ** The idioms of generated deep copies

    A method [DeepCopyInto(out)] is a function from [*in] to [*out]: in every
    call [out] is memory that only the copy refers to. *)

(** [if in != nil { out = new(T); in.DeepCopyInto(out) }]; with [mret] for [into]
    also the form that assigns the pointee. *)
Definition copy_ptr {T} `{Cell T} (zero : T) (into : T → mem T) (p : ptr T) : mem (ptr T) :=
  match p with
  | None => mret None
  | Some _ =>
      out ← new zero;
      x ← load p;
      y ← into x;
      _ ← store out y;
      mret out
  end.

(** [if in.X != nil { out.X = make([]T, len(in.X)); for i := range in.X {
    in.X[i].DeepCopyInto(&out.X[i]) } }] *)
Definition copy_slice {T} `{Cell (list T)} (zero : T) (into : T → mem T) (s : slice T) : mem (slice T) :=
  match base s with
  | None => mret s
  | Some _ =>
      out ← make (len s) zero;
      _ ← mem_each (seq 0 (len s)) (λ i, x ← index s i; y ← into x; set_index out i y);
      mret out
  end.

(** [if in.X != nil { out.X = make([]T, len(in.X)); copy(out.X, in.X) }] *)
Definition copy_flat_slice {T} `{Cell (list T)} (zero : T) (s : slice T) : mem (slice T) :=
  match base s with
  | None => mret s
  | Some _ => out ← make (len s) zero; _ ← go_copy out s; mret out
  end.

(** [m[k] = v] *)
Definition set_key `{Cell strmap} (m : ptr strmap) (k v : string) : mem unit :=
  old ← load m; store m (<[k := v]> old).

(** [if in.X != nil { out.X = make(map[string]string, len(in.X)); for key, val
    := range in.X { out.X[key] = val } }] *)
Definition copy_map `{Cell strmap} `{RangeOrder} (m : ptr strmap) : mem (ptr strmap) :=
  match m with
  | None => mret None
  | Some _ =>
      out ← new (∅ : strmap);
      src ← load m;
      order ← (λ h, Some (range_order h src, h)) : mem _;
      _ ← mem_each order (λ kv, set_key out kv.1 kv.2);
      mret out
  end.

(** ** Denotation *)

(** A denotation does not depend on the cells it does not need. *)
Class Monotone {M V} (rd : heap → M → V → Prop) : Prop :=
  mono h h' x v : h ⊆ h' → rd h x v → rd h' x v.

(** A pointer denotes what its cell holds, nil denotes [None]. *)
Definition reads_ptr {M V} `{Cell M} (rd : heap → M → V → Prop) (h : heap) (p : ptr M) (o : option V) : Prop :=
  match p, o with
  | None, None => True
  | Some l, Some v => ∃ x, h !! l = Some (to_cell x) ∧ rd h x v
  | _, _ => False
  end.

(** The elements of a slice; nil reads as empty. *)
Definition reads_slice {M V} `{Cell (list M)} (rd : heap → M → V → Prop) (h : heap) (s : slice M) (vs : list V)
  : Prop :=
  match base s with
  | None => vs = []
  | Some l => ∃ a, h !! l = Some (to_cell a) ∧ (off s + len s ≤ length a)%nat ∧
                   Forall2 (rd h) (take (len s) (drop (off s) a)) vs
  end.

(** A map; nil reads as empty. *)
Definition reads_map `{Cell strmap} (h : heap) (m : ptr strmap) (v : strmap) : Prop :=
  match m with
  | None => v = ∅
  | Some l => h !! l = Some (to_cell v)
  end.

(** A map where the program tells nil from empty. *)
Definition reads_option_map `{Cell strmap} (h : heap) (m : ptr strmap) (v : option strmap) : Prop :=
  match m, v with
  | None, None => True
  | Some l, Some v => h !! l = Some (to_cell v)
  | _, _ => False
  end.

(** [f] copies: the result denotes the same on cells that did not exist, and
    the cells that did exist are as they were. *)
Definition copies {M V} (rd : heap → M → V → Prop) (f : M → mem M) : Prop :=
  ∀ h x v, rd h x v → ∃ y n, f x h = Some (y, h ∪ n) ∧ h ##ₘ n ∧ rd n y v.

(** ** Composing copies *)

Lemma then_run {A B} (m : mem A) (k : A → mem B) h y h' r : m h = Some (y, h') → k y h' = r → (m ≫= k) h = r.
Proof. intros E <-. unfold mbind, mem_bind. by rewrite E. Qed.

(** [m], run in [h], succeeds, keeps the cells of [h], and its result
    satisfies [P] on the cells that are not in [h0]. *)
Definition allocates {A} (h0 h : heap) (m : mem A) (P : heap → A → Prop) : Prop :=
  ∃ y h', m h = Some (y, h') ∧ h ⊆ h' ∧ P (h' ∖ h0) y.

Lemma allocates_ret {A} h0 h (y : A) (P : heap → A → Prop) : P (h ∖ h0) y → allocates h0 h (mret y) P.
Proof. intros H. by exists y, h. Qed.

Lemma allocates_bind {A B} h0 h (m : mem A) (k : A → mem B) P Q :
  allocates h0 h m P →
  (∀ y h', h ⊆ h' → P (h' ∖ h0) y → allocates h0 h' (k y) Q) →
  allocates h0 h (m ≫= k) Q.
Proof.
  intros (y & h1 & E & Hs & HP) H. destruct (H y h1 Hs HP) as (z & h2 & E2 & Hs2 & HQ).
  exists z, h2. split_and!; [|by etrans|done]. by eapply then_run.
Qed.

Lemma fresh_cells_mono (h0 h h' : heap) : h ⊆ h' → h ∖ h0 ⊆ h' ∖ h0.
Proof.
  intros H. apply map_subseteq_spec. intros l c [Hl Hn]%lookup_difference_Some.
  apply lookup_difference_Some. split; [by eapply lookup_weaken|done].
Qed.

Lemma fresh_cells_anti (h0 h h' : heap) : h0 ⊆ h → h' ∖ h ⊆ h' ∖ h0.
Proof.
  intros H. apply map_subseteq_spec. intros l c [Hl Hn]%lookup_difference_Some.
  apply lookup_difference_Some. split; [done|by eapply lookup_weaken_None].
Qed.

Lemma copies_intro {M V} (rd : heap → M → V → Prop) f :
  (∀ h x v, rd h x v → allocates h h (f x) (λ n y, rd n y v)) → copies rd f.
Proof.
  intros H h x v Hx. destruct (H h x v Hx) as (y & h' & E & Hs & Hy).
  exists y, (h' ∖ h). rewrite map_difference_union by done.
  split_and!; [done|by apply map_disjoint_difference_r1|done].
Qed.

Lemma copies_allocates {M V} (rd : heap → M → V → Prop) `{!Monotone rd} f h0 h x v :
  copies rd f → h0 ⊆ h → rd h x v → allocates h0 h (f x) (λ n y, rd n y v).
Proof.
  intros Hf H0 Hx. destruct (Hf h x v Hx) as (y & n & E & Hd & Hy).
  exists y, (h ∪ n). split_and!; [done|by apply map_union_subseteq_l|].
  eapply mono; [|exact Hy]. apply map_subseteq_spec. intros l c Hl. apply lookup_difference_Some. split.
  - by apply lookup_union_Some_r.
  - eapply lookup_weaken_None; [|exact H0]. by eapply map_disjoint_Some_r.
Qed.

(** The same with the premises in the order in which a tactic can solve them. *)
Lemma allocates_copy {M V} (rd : heap → M → V → Prop) f h0 h x v :
  rd h x v → h0 ⊆ h → copies rd f → Monotone rd → allocates h0 h (f x) (λ n y, rd n y v).
Proof. intros. by apply copies_allocates. Qed.

(** *** The denotations are monotone *)

#[global] Instance reads_ptr_mono {M V} `{Cell M} (rd : heap → M → V → Prop) `{!Monotone rd} :
  Monotone (reads_ptr rd).
Proof.
  intros h h' [l|] [v|] Hs; simpl; try done. intros (x & Hl & Hx).
  exists x. split; [by eapply lookup_weaken|by eapply mono].
Qed.

#[global] Instance reads_slice_mono {M V} `{Cell (list M)} (rd : heap → M → V → Prop) `{!Monotone rd} :
  Monotone (reads_slice rd).
Proof.
  intros h h' s vs Hs. unfold reads_slice. destruct (base s) as [l|]; [|done]. intros (a & Hl & Hn & Ha).
  exists a. split_and!; [by eapply lookup_weaken|done|]. eapply Forall2_impl; [exact Ha|]. intros. by eapply mono.
Qed.

#[global] Instance reads_map_mono `{Cell strmap} : Monotone reads_map.
Proof. intros h h' [l|] v Hs; [|done]. intros Hl. by eapply lookup_weaken. Qed.

#[global] Instance reads_option_map_mono `{Cell strmap} : Monotone reads_option_map.
Proof. intros h h' [l|] [v|] Hs; try done. intros Hl. by eapply lookup_weaken. Qed.

(** ** The idioms copy *)

Lemma load_cell {T} `{Cell T} (h : heap) l (x : T) : h !! l = Some (to_cell x) → load (Some l) h = Some (x, h).
Proof. intros Hl. unfold load. simpl. rewrite Hl. simpl. by rewrite of_to_cell. Qed.

Lemma load_ptr {M V} `{Cell M} (rd : heap → M → V → Prop) h l v :
  reads_ptr rd h (Some l) (Some v) → ∃ x, load (T := M) (Some l) h = Some (x, h) ∧ rd h x v.
Proof. intros (x & Hl & Hx). exists x. split; [by apply load_cell|done]. Qed.

Lemma store_cell {T} `{Cell T} (h : heap) l (x y : T) :
  h !! l = Some (to_cell x) → store (Some l) y h = Some (tt, <[l := to_cell y]> h).
Proof. intros Hl. unfold store. by rewrite (load_cell h l x Hl). Qed.

Lemma index_cell {T} `{Cell (list T)} (h : heap) (s : slice T) l a i (x : T) :
  (i < len s)%nat → base s = Some l → h !! l = Some (to_cell a) → a !! (off s + i)%nat = Some x →
  index s i h = Some (x, h).
Proof.
  intros Hi Hb Hl Hx. unfold index. rewrite decide_True, Hb by done. rewrite (load_cell h l a Hl). simpl.
  by rewrite Hx.
Qed.

Lemma set_index_cell {T} `{Cell (list T)} (h : heap) (s : slice T) l a i (x : T) :
  (i < len s)%nat → base s = Some l → h !! l = Some (to_cell a) →
  set_index s i x h = Some (tt, <[l := to_cell (<[(off s + i)%nat := x]> a)]> h).
Proof.
  intros Hi Hb Hl. unfold set_index. rewrite decide_True, Hb by done. rewrite (load_cell h l a Hl). simpl.
  by apply (store_cell h l a).
Qed.

Lemma fresh_cell (h : heap) : h !! fresh (dom h) = None.
Proof. apply not_elem_of_dom, is_fresh. Qed.

(** A heap with a cell that the old one lacks extends the old one. *)
Lemma subseteq_insert_fresh (h h' : heap) l c : h !! l = None → h ⊆ h' → h ⊆ <[l := c]> h'.
Proof. intros Hl Hs. by apply insert_subseteq_r. Qed.

Lemma copy_ptr_copies {M V} `{Cell M} (rd : heap → M → V → Prop) `{!Monotone rd} zero into :
  copies rd into → copies (reads_ptr rd) (copy_ptr zero into).
Proof.
  intros Hf. apply copies_intro. intros h [lp|] o Hp; [|by apply allocates_ret; destruct o].
  destruct o as [v|]; [|done]. set (l := fresh (dom h)).
  pose proof (fresh_cell h) as Hl. fold l in Hl. set (h1 := <[l := to_cell zero]> h).
  assert (h ⊆ h1) as H01 by by apply insert_subseteq.
  destruct (load_ptr rd h1 lp v (reads_ptr_mono rd _ _ (Some lp) (Some v) H01 Hp)) as (x & E & Hx).
  destruct (copies_allocates rd into h1 h1 x v Hf (reflexivity h1) Hx) as (y & h2 & E2 & H12 & Hy).
  assert (h2 !! l = Some (to_cell zero)) as Hl2 by (eapply lookup_weaken; [apply lookup_insert_eq|done]).
  exists (Some l), (<[l := to_cell y]> h2). split_and!.
  - unfold copy_ptr. eapply then_run; [done|]. eapply then_run; [exact E|]. eapply then_run; [exact E2|].
    by eapply then_run; [exact (store_cell h2 l zero y Hl2)|].
  - apply subseteq_insert_fresh; [done|by etrans].
  - exists y. split; [apply lookup_difference_Some; by rewrite lookup_insert_eq|].
    eapply mono; [|exact Hy]. apply map_subseteq_spec. intros k c [Hk Hn]%lookup_difference_Some.
    apply lookup_difference_Some. destruct (decide (k = l)) as [->|Hne].
    + unfold h1 in Hn. by rewrite lookup_insert_eq in Hn.
    + rewrite lookup_insert_ne by done. split; [done|]. by eapply lookup_weaken_None.
Qed.

(** The backing array of a copy of which the first [i] elements are filled. *)
Definition filled {M V} `{Cell (list M)} (rd : heap → M → V → Prop) (h : heap) (l : loc) (n i : nat)
    (vs : list V) (h' : heap) : Prop :=
  h ⊆ h' ∧ ∃ a, h' !! l = Some (to_cell a) ∧ length a = n ∧
    Forall2 (rd (delete l h' ∖ h)) (take i a) (take i vs).

Lemma filled_step {M V} `{Cell (list M)} (rd : heap → M → V → Prop) `{!Monotone rd} into h s l i vs h' :
  copies rd into → reads_slice rd h s vs → base s ≠ None → h !! l = None → (i < len s)%nat →
  filled rd h l (len s) i vs h' →
  ∃ h'', (x ← index s i; y ← into x; set_index (Slice (Some l) 0 (len s)) i y) h' = Some (tt, h'') ∧
         filled rd h l (len s) (S i) vs h''.
Proof.
  intros Hf Hs Hb Hl Hi (H0 & a & Ha & Hn & Hfill). unfold reads_slice in Hs.
  destruct (base s) as [lb|] eqn:Eb; [|done]. destruct Hs as (arr & Harr & Hlen & Hall).
  assert (is_Some (arr !! (off s + i)%nat)) as [x Hx] by (apply lookup_lt_is_Some; lia).
  assert (take (len s) (drop (off s) arr) !! i = Some x) as Hxi
    by (rewrite lookup_take_lt by done; by rewrite lookup_drop).
  destruct (Forall2_lookup_l _ _ _ _ _ Hall Hxi) as (v & Hv & Hxv).
  destruct (copies_allocates rd into h' h' x v Hf (reflexivity h') (mono _ _ _ _ H0 Hxv)) as (y & h2 & E2 & H12 & Hy).
  pose proof (lookup_weaken _ _ _ _ Ha H12) as Ha2.
  exists (<[l := to_cell (<[i := y]> a)]> h2). split.
  - eapply then_run; [|eapply then_run; [exact E2|]].
    + eapply index_cell; [done|exact Eb|by eapply lookup_weaken|exact Hx].
    + by eapply (set_index_cell h2 (Slice (Some l) 0 (len s))).
  - split; [apply subseteq_insert_fresh; [done|by etrans]|]. exists (<[i := y]> a).
    rewrite lookup_insert_eq, length_insert, delete_insert_eq. split_and!; [done|done|].
    assert (is_Some (a !! i)) as [z Hz] by (apply lookup_lt_is_Some; lia).
    rewrite (take_S_r _ _ y) by (apply list_lookup_insert_eq; lia).
    rewrite (take_S_r _ _ v) by done. rewrite take_insert_ge by lia. apply Forall2_app.
    + eapply Forall2_impl; [exact Hfill|]. intros x' v' Hx'. eapply mono; [|exact Hx'].
      apply fresh_cells_mono. by apply delete_mono.
    + constructor; [|done]. eapply mono; [|exact Hy]. apply map_subseteq_spec.
      intros k c [Hk Hnk]%lookup_difference_Some. apply lookup_difference_Some.
      assert (k ≠ l) by (intros ->; by rewrite Ha in Hnk).
      rewrite lookup_delete_ne by done. split; [done|]. by eapply lookup_weaken_None.
Qed.

Lemma filled_loop {M V} `{Cell (list M)} (rd : heap → M → V → Prop) (body : nat → mem unit) h l n vs :
  (∀ i h', (i < n)%nat → filled rd h l n i vs h' →
     ∃ h'', body i h' = Some (tt, h'') ∧ filled rd h l n (S i) vs h'') →
  ∀ k i h', (i + k = n)%nat → filled rd h l n i vs h' →
    ∃ h'', mem_each (seq i k) body h' = Some (tt, h'') ∧ filled rd h l n n vs h''.
Proof.
  intros Hstep k. induction k as [|k IH]; intros i h' Hn Hf.
  - exists h'. split; [done|]. by assert (i = n) as -> by lia.
  - destruct (Hstep i h') as (h1 & E1 & H1); [lia|done|].
    destruct (IH (S i) h1) as (h2 & E2 & H2); [lia|done|].
    exists h2. split; [by eapply then_run|done].
Qed.

Lemma reads_slice_length {M V} `{Cell (list M)} (rd : heap → M → V → Prop) h s vs :
  reads_slice rd h s vs → base s ≠ None → length vs = len s.
Proof.
  unfold reads_slice. destruct (base s) as [l|]; [|done]. intros (a & _ & Hn & Ha) _.
  apply Forall2_length in Ha as <-. rewrite length_take, length_drop. lia.
Qed.

(** A loop that fills a new array, element by element, copies the slice. *)
Lemma fill_copies {M V} `{Cell (list M)} (rd : heap → M → V → Prop) `{!Monotone rd} zero
    (body : slice M → slice M → nat → mem unit) :
  (∀ h s l i vs h', reads_slice rd h s vs → base s ≠ None → h !! l = None → (i < len s)%nat →
     filled rd h l (len s) i vs h' →
     ∃ h'', body s (Slice (Some l) 0 (len s)) i h' = Some (tt, h'') ∧ filled rd h l (len s) (S i) vs h'') →
  copies (reads_slice rd) (λ s,
    match base s with
    | None => mret s
    | Some _ => out ← make (len s) zero; _ ← mem_each (seq 0 (len s)) (body s out); mret out
    end).
Proof.
  intros Hbody. apply copies_intro. intros h s vs Hs. destruct (base s) as [lb|] eqn:Eb.
  2: { apply allocates_ret. unfold reads_slice in *. by rewrite Eb in *. }
  assert (base s ≠ None) as Hb by by rewrite Eb.
  set (l := fresh (dom h)). pose proof (fresh_cell h) as Hl. fold l in Hl.
  set (h1 := <[l := to_cell (replicate (len s) zero)]> h).
  destruct (filled_loop rd (body s (Slice (Some l) 0 (len s))) h l (len s) vs (λ i h', Hbody h s l i vs h' Hs Hb Hl)
              (len s) 0 h1) as (h2 & E & H02 & a & Ha & Hn & Hall); [lia| |].
  { split; [by apply insert_subseteq|]. exists (replicate (len s) zero).
    unfold h1. rewrite lookup_insert_eq, length_replicate. split_and!; [done|done|constructor]. }
  exists (Slice (Some l) 0 (len s)), h2. split_and!; [|done|].
  - eapply then_run; [by unfold make; eapply then_run|]. by eapply then_run; [exact E|].
  - exists a. cbn [base off len]. split_and!; [by apply lookup_difference_Some|lia|].
    rewrite drop_0. rewrite (take_ge vs) in Hall by (by rewrite (reads_slice_length rd h s vs)).
    eapply Forall2_impl; [exact Hall|]. intros x v Hx. eapply mono; [|exact Hx].
    apply fresh_cells_mono, delete_subseteq.
Qed.

Lemma copy_slice_copies {M V} `{Cell (list M)} (rd : heap → M → V → Prop) `{!Monotone rd} zero into :
  copies rd into → copies (reads_slice rd) (copy_slice zero into).
Proof. intros Hf. eapply (fill_copies rd zero). intros. by eapply filled_step. Qed.

(** Values without references denote themselves. *)
Definition reads_flat {M} (_ : heap) (x v : M) : Prop := x = v.

#[global] Instance reads_flat_mono {M} : Monotone (@reads_flat M).
Proof. intros h h' x v _ H. exact H. Qed.

Lemma mret_copies {M} : copies (@reads_flat M) mret.
Proof. intros h x v <-. exists x, ∅. rewrite map_union_empty. split_and!; [done|apply map_disjoint_empty_r|done]. Qed.

Lemma copy_flat_slice_copies {M} `{Cell (list M)} zero : copies (reads_slice (@reads_flat M)) (copy_flat_slice zero).
Proof.
  intros h s vs Hs.
  destruct (fill_copies (@reads_flat M) zero (λ s out i, x ← index s i; set_index out i x)
              (λ h s l i vs h' Hs Hb Hl Hi Hf, filled_step _ mret h s l i vs h' mret_copies Hs Hb Hl Hi Hf) h s vs Hs)
    as (y & n & E & Hd & Hy).
  exists y, n. split_and!; [|done|done]. rewrite <- E. unfold copy_flat_slice, go_copy.
  destruct (base s); [|done]. unfold make. eapply then_run; [by eapply then_run|].
  symmetry. eapply then_run; [by eapply then_run|]. cbn [len]. by rewrite Nat.min_id.
Qed.

(** *** Maps *)

Lemma fill_map_run `{Cell strmap} order (l : loc) (m : strmap) (h : heap) :
  h !! l = Some (to_cell m) →
  mem_each order (λ kv, set_key (Some l) kv.1 kv.2) h =
  Some (tt, <[l := to_cell (fold_left (λ m kv, <[kv.1 := kv.2]> m) order m)]> h).
Proof.
  revert m h. induction order as [|[k v] order IH]; intros m h Hl.
  - simpl. by rewrite insert_id.
  - simpl. eapply then_run.
    + unfold set_key. eapply then_run; [by apply load_cell|]. by apply (store_cell h l m).
    + rewrite (IH (<[k := v]> m)) by apply lookup_insert_eq. by rewrite insert_insert_eq.
Qed.

Lemma copy_map_run `{Cell strmap} `{!RangeOrder} (h : heap) lm (m : strmap) :
  h !! lm = Some (to_cell m) →
  copy_map (Some lm) h = Some (Some (fresh (dom h)), <[fresh (dom h) := to_cell m]> h).
Proof.
  intros Hm. set (l := fresh (dom h)). pose proof (fresh_cell h) as Hl. fold l in Hl.
  unfold copy_map. eapply then_run; [done|]. fold l.
  assert (lm ≠ l) by (intros ->; by rewrite Hm in Hl).
  eapply then_run; [apply load_cell; by rewrite lookup_insert_ne|].
  eapply then_run; [done|].
  eapply then_run; [apply (fill_map_run _ l ∅), lookup_insert_eq|].
  rewrite insert_insert_eq. by rewrite (fold_insert_perm _ m) by apply range_order_all.
Qed.

Lemma copy_map_copies `{Cell strmap} `{!RangeOrder} : copies reads_map copy_map.
Proof.
  apply copies_intro. intros h [lm|] v Hm; [|by apply allocates_ret].
  pose proof (fresh_cell h) as Hl. eexists _, _. split_and!; [exact (copy_map_run h lm v Hm)|by apply insert_subseteq|].
  apply lookup_difference_Some. by rewrite lookup_insert_eq.
Qed.

Lemma copy_option_map_copies `{Cell strmap} `{!RangeOrder} : copies reads_option_map copy_map.
Proof.
  apply copies_intro. intros h [lm|] [v|] Hm; try done; [|by apply allocates_ret].
  pose proof (fresh_cell h) as Hl. eexists _, _. split_and!; [exact (copy_map_run h lm v Hm)|by apply insert_subseteq|].
  apply lookup_difference_Some. by rewrite lookup_insert_eq.
Qed.

End memory.
