(* ===== verification/Effects.v ===== *)
(** * Effectful Go code as programs over a call signature

    A Go function that talks to its environment is a finite tree of calls
    ([prog]): each node is one call of a signature [sig] (a method of an
    interface the code holds, a clock reading, a map iteration), and the
    continuation receives the answer.  [Halt] is a Go panic or an exhausted
    fuel.  The environment is arbitrary: [exec] relates a program to every
    trace it can produce for some answers, [wp] quantifies over all of them,
    and [run] evaluates it against a concrete stateful handler. *)

From S2P Require Import Prelude Go.

Record sig := Sig { op : Type; ans : op → Type }.

Variant halt := GoPanic (msg : string) | OutOfFuel.

Inductive prog (S : sig) (A : Type) : Type :=
| Ret (a : A)
| Halt (h : halt)
| Call (o : op S) (k : ans S o → prog S A).
Arguments Ret {S A} a.
Arguments Halt {S A} h.
Arguments Call {S A} o k.

Variant outcome (A : Type) : Type := Done (a : A) | Halted (h : halt).
Arguments Done {A} a.
Arguments Halted {A} h.

(** One call with its answer. *)
Record event (S : sig) := Ev { ev_op : op S; ev_ans : ans S ev_op }.
Arguments Ev {S} ev_op ev_ans.
Arguments ev_op {S} e.
Arguments ev_ans {S} e.

(** ** The monad *)

Fixpoint prog_bind {S A B} (f : A → prog S B) (p : prog S A) : prog S B :=
  match p with
  | Ret a => f a
  | Halt h => Halt h
  | Call o k => Call o (λ r, prog_bind f (k r))
  end.

#[global] Instance prog_ret {S} : MRet (prog S) := @Ret S.
#[global] Instance prog_mbind {S} : MBind (prog S) := λ A B f p, prog_bind f p.

Definition call {S : sig} (o : op S) : prog S (ans S o) := Call o Ret.
Definition panic {S A} (msg : string) : prog S A := Halt (GoPanic msg).

(** [if err != nil { return wrap(err) }], otherwise continue. *)
Definition bind_ok {S A B} (w : error → error) (f : A → prog S (result B))
    (p : prog S (result A)) : prog S (result B) :=
  prog_bind (λ r, match r with Ok a => f a | Fail e => Ret (Fail (w e)) end) p.

Declare Scope go_scope.
Delimit Scope go_scope with go.
Notation "x '←?' p ; k" := (bind_ok id (λ x, k) p)
  (at level 20, p at level 100, k at level 200, only parsing) : go_scope.
Notation "x '←?' p 'orelse' w ; k" := (bind_ok w (λ x, k) p)
  (at level 20, p at level 100, w at level 100, k at level 200, only parsing) : go_scope.
Open Scope go_scope.

(** [for _, x := range l], leaving the loop at the first error. *)
Fixpoint for_each {S A} (l : list A) (f : A → prog S (result unit)) : prog S (result unit) :=
  match l with
  | [] => Ret (Ok tt)
  | x :: l' => bind_ok id (λ _, for_each l' f) (f x)
  end.

(** The same with a local variable that the body assigns. *)
Fixpoint fold_each {S A V} (l : list A) (v : V) (f : V → A → prog S (result V))
  : prog S (result V) :=
  match l with
  | [] => Ret (Ok v)
  | x :: l' => bind_ok id (λ v', fold_each l' v' f) (f v x)
  end.

(** A loop whose body cannot leave it. *)
Fixpoint do_each {S A} (l : list A) (f : A → prog S unit) : prog S unit :=
  match l with
  | [] => Ret tt
  | x :: l' => prog_bind (λ _, do_each l' f) (f x)
  end.

(** ** Semantics *)

Fixpoint exec {S A} (p : prog S A) (t : list (event S)) (out : outcome A) : Prop :=
  match p with
  | Ret a => t = [] ∧ out = Done a
  | Halt h => t = [] ∧ out = Halted h
  | Call o k => ∃ r t', t = Ev o r :: t' ∧ exec (k r) t' out
  end.

Fixpoint wp {S A} (p : prog S A) (Q : list (event S) → outcome A → Prop) : Prop :=
  match p with
  | Ret a => Q [] (Done a)
  | Halt h => Q [] (Halted h)
  | Call o k => ∀ r, wp (k r) (λ t out, Q (Ev o r :: t) out)
  end.

Definition handler (S : sig) (W : Type) : Type := ∀ o : op S, W → ans S o * W.

Fixpoint run {S A W} (h : handler S W) (p : prog S A) (w : W)
  : outcome A * W * list (event S) :=
  match p with
  | Ret a => (Done a, w, [])
  | Halt x => (Halted x, w, [])
  | Call o k =>
      let '(r, w') := h o w in
      let '(out, w'', t) := run h (k r) w' in
      (out, w'', Ev o r :: t)
  end.

Definition result_of {S A W} (x : outcome A * W * list (event S)) : outcome A := x.1.1.
Definition world_of {S A W} (x : outcome A * W * list (event S)) : W := x.1.2.
Definition trace_of {S A W} (x : outcome A * W * list (event S)) : list (event S) := x.2.

(** A layer of the program implements the calls of the layer above. *)
Fixpoint interp {S T A} (h : ∀ o : op S, prog T (ans S o)) (p : prog S A) : prog T A :=
  match p with
  | Ret a => Ret a
  | Halt x => Halt x
  | Call o k => prog_bind (λ r, interp h (k r)) (h o)
  end.

(** ** Laws *)

Lemma wp_exec {S A} (p : prog S A) Q :
  wp p Q ↔ ∀ t out, exec p t out → Q t out.
Proof.
  revert Q. induction p as [a|h|o k IH]; intros Q; simpl.
  - split; [intros HQ t out [-> ->]; done | intros HQ; by apply HQ].
  - split; [intros HQ t out [-> ->]; done | intros HQ; by apply HQ].
  - split.
    + intros HQ t out (r & t' & -> & He). by apply (proj1 (IH r _) (HQ r)).
    + intros HQ r. apply IH. intros t out He. apply HQ. eauto.
Qed.

Lemma wp_mono {S A} (p : prog S A) (Q R : list (event S) → outcome A → Prop) :
  wp p Q → (∀ t out, Q t out → R t out) → wp p R.
Proof. rewrite !wp_exec. eauto. Qed.

Lemma exec_bind {S A B} (f : A → prog S B) (p : prog S A) t out :
  exec (prog_bind f p) t out ↔
    (∃ t1 a t2, t = t1 ++ t2 ∧ exec p t1 (Done a) ∧ exec (f a) t2 out)
    ∨ (∃ h, out = Halted h ∧ exec p t (Halted h)).
Proof.
  revert t. induction p as [a|h|o k IH]; intros t; simpl.
  - split.
    + intros He. left. exists [], a, t. done.
    + intros [(t1 & b & t2 & -> & [-> [= ->]] & He)|(h & -> & _ & ?)]; done.
  - split.
    + intros [-> ->]. right. eauto.
    + intros [(t1 & b & t2 & -> & [-> ?] & He)|(x & -> & -> & [= ->])]; done.
  - split.
    + intros (r & t' & -> & He). apply IH in He as [(t1 & a & t2 & -> & H1 & H2)|(h & -> & H1)].
      * left. exists (Ev o r :: t1), a, t2. split; [done|]. split; [|done]. by exists r, t1.
      * right. exists h. split; [done|]. by exists r, t'.
    + intros [(t1 & a & t2 & -> & (r & t' & -> & H1) & H2)|(h & -> & r & t' & -> & H1)].
      * exists r, (t' ++ t2). split; [done|]. apply IH. left. by exists t', a, t2.
      * exists r, t'. split; [done|]. apply IH. right. eauto.
Qed.

Lemma wp_bind {S A B} (f : A → prog S B) (p : prog S A) Q :
  wp (prog_bind f p) Q ↔
  wp p (λ t out, match out with
                 | Done a => wp (f a) (λ t2 out2, Q (t ++ t2) out2)
                 | Halted h => Q t (Halted h)
                 end).
Proof.
  revert Q. induction p as [a|h|o k IH]; intros Q; simpl; [done|done|].
  split; intros HQ r; apply (IH r (λ t out, Q (Ev o r :: t) out)), HQ.
Qed.

Lemma run_exec {S A W} (h : handler S W) (p : prog S A) w :
  exec p (trace_of (run h p w)) (result_of (run h p w)).
Proof.
  revert w. induction p as [a|x|o k IH]; intros w; simpl; [done|done|].
  destruct (h o w) as [r w']. specialize (IH r w').
  destruct (run h (k r) w') as [[out w''] t] eqn:E.
  exists r, t. split; [done|exact IH].
Qed.

(** A run with a known result is an execution with that result. *)
Lemma run_done {S A W} (h : handler S W) (p : prog S A) w out :
  result_of (run h p w) = out → exec p (trace_of (run h p w)) out.
Proof. intros <-. apply run_exec. Qed.

Lemma run_bind {S A B W} (h : handler S W) (f : A → prog S B) (p : prog S A) w :
  run h (prog_bind f p) w =
  match run h p w with
  | (Done a, w1, t1) => let '(out, w2, t2) := run h (f a) w1 in (out, w2, t1 ++ t2)
  | (Halted x, w1, t1) => (Halted x, w1, t1)
  end.
Proof.
  revert w. induction p as [a|x|o k IH]; intros w; simpl.
  - by destruct (run h (f a) w) as [[out w2] t2].
  - done.
  - destruct (h o w) as [r w']. rewrite IH.
    destruct (run h (k r) w') as [[[a|x] w1] t1]; [|done].
    by destruct (run h (f a) w1) as [[out w2] t2].
Qed.

(** The value and the final state of a sequence. *)
Lemma result_bind {S A B W} (h : handler S W) (f : A → prog S B) (p : prog S A) w a :
  result_of (run h p w) = Done a →
  result_of (run h (prog_bind f p) w) = result_of (run h (f a) (world_of (run h p w))).
Proof.
  unfold result_of, world_of. rewrite run_bind.
  destruct (run h p w) as [[out w1] t1]. simpl. intros ->. by destruct (run h (f a) w1) as [[o w2] t2].
Qed.

Lemma result_call {S A W} (h : handler S W) o (k : ans S o → prog S A) w :
  result_of (run h (Call o k) w) = result_of (run h (k (fst (h o w))) (snd (h o w))).
Proof.
  unfold result_of. simpl. destruct (h o w) as [r w']. simpl.
  by destruct (run h (k r) w') as [[out w2] t2].
Qed.

(** ** Inversion of executions *)

Lemma exec_bind_ok {S A B} w (f : A → prog S (result B)) (p : prog S (result A)) t out :
  exec (bind_ok w f p) t out ↔
    (∃ t1 a t2, t = t1 ++ t2 ∧ exec p t1 (Done (Ok a)) ∧ exec (f a) t2 out)
    ∨ (∃ e, out = Done (Fail (w e)) ∧ exec p t (Done (Fail e)))
    ∨ (∃ h, out = Halted h ∧ exec p t (Halted h)).
Proof.
  unfold bind_ok. rewrite exec_bind. split.
  - intros [(t1 & [a|e] & t2 & -> & H1 & H2)|H]; [left; eauto 10| |eauto].
    destruct H2 as [-> ->]. rewrite app_nil_r. eauto.
  - intros [(t1 & a & t2 & -> & H1 & H2)|[(e & -> & H)|H]]; [left| left |by right].
    + exists t1, (Ok a), t2. eauto.
    + exists t, (Fail e), []. rewrite app_nil_r. done.
Qed.

Lemma exec_for_each_cons {S A} (f : A → prog S (result unit)) x l t out :
  exec (for_each (x :: l) f) t out ↔
    (∃ t1 t2, t = t1 ++ t2 ∧ exec (f x) t1 (Done (Ok tt)) ∧ exec (for_each l f) t2 out)
    ∨ (out ≠ Done (Ok tt) ∧ exec (f x) t out).
Proof.
  simpl. rewrite exec_bind_ok. split.
  - intros [(t1 & [] & t2 & -> & H)|[(e & -> & H)|(h & -> & H)]]; [left; eauto|right; done|right; done].
  - intros [(t1 & t2 & -> & H1 & H2)|[Hne H]]; [left; exists t1, tt, t2; eauto|right].
    destruct out as [[[]|e]|h]; [done|left; eauto|right; eauto].
Qed.

(** A loop that ends without error ran its body to completion on every
    element, in order. *)
Lemma exec_for_each_ok {S A} (f : A → prog S (result unit)) l t :
  exec (for_each l f) t (Done (Ok tt)) ↔
  ∃ ts, t = concat ts ∧ Forall2 (λ x tx, exec (f x) tx (Done (Ok tt))) l ts.
Proof.
  revert t. induction l as [|x l IH]; intros t.
  - simpl. split; [intros [-> _]; exists []; done|].
    intros (ts & -> & H). apply Forall2_nil_inv_l in H as ->. done.
  - rewrite exec_for_each_cons. split.
    + intros [(t1 & t2 & -> & H1 & (ts & -> & H2)%IH)|[Hne _]]; [|done].
      exists (t1 :: ts). split; [done|]. by constructor.
    + intros (ts & -> & H). apply Forall2_cons_inv_l in H as (t1 & ts' & H1 & H2 & ->).
      left. exists t1, (concat ts'). split; [done|]. split; [done|]. apply IH. eauto.
Qed.

(** A loop that ends otherwise stopped at the first element whose body did
    not succeed, and its outcome is the outcome of the loop. *)
Lemma exec_for_each_stop {S A} (f : A → prog S (result unit)) l t out :
  exec (for_each l f) t out → out ≠ Done (Ok tt) →
  ∃ l1 x l2 t1 tx, l = l1 ++ x :: l2 ∧ t = t1 ++ tx ∧
    exec (for_each l1 f) t1 (Done (Ok tt)) ∧ exec (f x) tx out.
Proof.
  revert t. induction l as [|x l IH]; intros t; [intros [-> ->]; done|].
  rewrite exec_for_each_cons. intros [(t1 & t2 & -> & H1 & H2)|[_ H]] Hne.
  - destruct (IH _ H2 Hne) as (l1 & y & l2 & t3 & ty & -> & -> & H3 & H4).
    exists (x :: l1), y, l2, (t1 ++ t3), ty. rewrite (assoc_L (++)).
    split_and!; [done|done| |done]. apply exec_for_each_cons. left. eauto.
  - exists [], x, l, [], t. done.
Qed.

(** If the body succeeds whenever the answers it received satisfy [P], so does
    the loop. *)
Lemma exec_for_each_all {S A} (P : event S → Prop) (f : A → prog S (result unit)) l t out :
  (∀ x tx o, exec (f x) tx o → Forall P tx → o = Done (Ok tt)) →
  exec (for_each l f) t out → Forall P t → out = Done (Ok tt).
Proof.
  intros Hf. revert t. induction l as [|x l IH]; intros t; [by intros [_ ->]|].
  rewrite exec_for_each_cons. intros [(t1 & t2 & -> & H1 & H2)|[Hne H]] HP.
  - apply Forall_app in HP as [_ HP]. eauto.
  - destruct Hne. eauto.
Qed.

(** ** Traces *)

(** The events of a trace that an observation selects. *)
Definition observe {S B} (f : event S → option B) (t : list (event S)) : list B := omap f t.

Lemma observe_app {S B} (f : event S → option B) t1 t2 :
  observe f (t1 ++ t2) = observe f t1 ++ observe f t2.
Proof. apply omap_app. Qed.

Lemma observe_concat {S B} (f : event S → option B) ts :
  observe f (concat ts) = concat (observe f <$> ts).
Proof. induction ts as [|t ts IH]; [done|]. simpl. by rewrite observe_app, IH. Qed.

(** Every trace of [p] only makes calls satisfying [P]. *)
Definition only {S A} (P : op S → Prop) (p : prog S A) : Prop :=
  ∀ t out, exec p t out → Forall (λ e, P (ev_op e)) t.

Lemma only_ret {S A} (P : op S → Prop) (a : A) : only P (Ret a).
Proof. intros t out [-> _]. constructor. Qed.

Lemma only_halt {S A} (P : op S → Prop) h : only P (@Halt S A h).
Proof. intros t out [-> _]. constructor. Qed.

Lemma only_call {S A} (P : op S → Prop) o (k : ans S o → prog S A) :
  P o → (∀ r, only P (k r)) → only P (Call o k).
Proof.
  intros Ho Hk t out (r & t' & -> & He). constructor; [done|]. by eapply Hk.
Qed.

Lemma only_bind {S A B} (P : op S → Prop) (f : A → prog S B) p :
  only P p → (∀ a, only P (f a)) → only P (prog_bind f p).
Proof.
  intros Hp Hf t out [(t1 & a & t2 & -> & H1 & H2)|(h & -> & H)]%exec_bind; [|by eapply Hp].
  apply Forall_app. split; [by eapply Hp|by eapply Hf].
Qed.

Lemma only_bind_ok {S A B} (P : op S → Prop) w (f : A → prog S (result B)) p :
  only P p → (∀ a, only P (f a)) → only P (bind_ok w f p).
Proof. intros Hp Hf. apply only_bind; [done|]. intros [a|e]; [apply Hf|apply only_ret]. Qed.

Lemma only_for_each {S A} (P : op S → Prop) l (f : A → prog S (result unit)) :
  (∀ x, only P (f x)) → only P (for_each l f).
Proof.
  intros Hf. induction l as [|x l IH]; [apply only_ret|]. simpl. by apply only_bind_ok.
Qed.

Lemma only_fold_each {S A V} (P : op S → Prop) l v (f : V → A → prog S (result V)) :
  (∀ v x, only P (f v x)) → only P (fold_each l v f).
Proof.
  intros Hf. revert v. induction l as [|x l IH]; intros v; [apply only_ret|].
  simpl. apply only_bind_ok; [done|]. intros v'. apply IH.
Qed.

Lemma only_do_each {S A} (P : op S → Prop) l (f : A → prog S unit) :
  (∀ x, only P (f x)) → only P (do_each l f).
Proof.
  intros Hf. induction l as [|x l IH]; [apply only_ret|]. simpl. by apply only_bind.
Qed.

#[export] Hint Resolve only_ret only_halt only_call only_bind only_bind_ok
  only_for_each only_fold_each only_do_each : operator.

(** Decomposes a program into its calls; those the predicate does not decide
    remain. *)
Ltac only_tac :=
  repeat first
    [ apply only_ret | apply only_halt
    | apply only_call; [first [exact I|idtac]|intros ?]
    | apply only_for_each; intros ?
    | apply only_do_each; intros ?
    | apply only_bind; [|intros ?]
    | match goal with |- only _ (match ?x with _ => _ end) => destruct x end ].

(** Every value [p] returns satisfies [Q]. *)
Definition yields {S A} (Q : A → Prop) (p : prog S A) : Prop :=
  ∀ t a, exec p t (Done a) → Q a.

Lemma yields_ret {S A} (Q : A → Prop) (a : A) : Q a → yields Q (@Ret S A a).
Proof. by intros Ha t b [_ [= ->]]. Qed.

Lemma yields_halt {S A} (Q : A → Prop) h : yields Q (@Halt S A h).
Proof. by intros t b [_ ?]. Qed.

Lemma yields_call {S A} (Q : A → Prop) o (k : ans S o → prog S A) :
  (∀ r, yields Q (k r)) → yields Q (Call o k).
Proof. intros Hk t a (r & t' & -> & He). by eapply Hk. Qed.

Lemma yields_bind {S A B} (Q : B → Prop) (f : A → prog S B) p :
  (∀ a, yields Q (f a)) → yields Q (prog_bind f p).
Proof. intros Hf t b [(t1 & a & t2 & -> & H1 & H2)|(h & ? & _)]%exec_bind; [by eapply Hf|done]. Qed.

(** Explores every path of a program down to the values it returns. *)
Ltac yields_tac :=
  repeat first
    [ apply yields_halt | apply yields_ret
    | apply yields_call; intros ?
    | apply yields_bind; intros ?
    | match goal with |- yields _ (match ?x with _ => _ end) => destruct x eqn:? end ].

(** ** Effects *)

(** The judgement that a program has an effect: it only makes calls that
    satisfy [P] and only halts in a way that satisfies [H]. *)
Fixpoint within {S A} (P : op S → Prop) (H : halt → Prop) (p : prog S A) : Prop :=
  match p with
  | Ret _ => True
  | Halt h => H h
  | Call o k => P o ∧ ∀ r, within P H (k r)
  end.

(** The judgement is sound: executions have the effect. *)
Lemma within_exec {S A} (P : op S → Prop) H (p : prog S A) t out :
  within P H p → exec p t out → Forall (λ e, P (ev_op e)) t ∧ ∀ h, out = Halted h → H h.
Proof.
  revert t. induction p as [a|h|o k IH]; simpl; intros t Hw He.
  - destruct He as [-> ->]. done.
  - destruct He as [-> ->]. split; [done|]. by intros ? [= <-].
  - destruct Hw as [Ho Hk], He as (r & t' & -> & He).
    destruct (IH r t' (Hk r) He) as [H1 H2]. split; [by constructor|done].
Qed.

Lemma within_weaken {S A} (P Q : op S → Prop) (H I : halt → Prop) (p : prog S A) :
  (∀ o, P o → Q o) → (∀ h, H h → I h) → within P H p → within Q I p.
Proof. intros HP HH. induction p; simpl; naive_solver. Qed.

Lemma within_bind {S A B} (P : op S → Prop) H (f : A → prog S B) p :
  within P H p → (∀ a, within P H (f a)) → within P H (prog_bind f p).
Proof. intros Hp Hf. induction p; simpl in *; [apply Hf|done|naive_solver]. Qed.

Lemma within_bind_ok {S A B} (P : op S → Prop) H w (f : A → prog S (result B)) p :
  within P H p → (∀ a, within P H (f a)) → within P H (bind_ok w f p).
Proof. intros Hp Hf. apply within_bind; [done|]. intros [a|e]; [apply Hf|exact I]. Qed.

Lemma within_for_each {S A} (P : op S → Prop) H l (f : A → prog S (result unit)) :
  (∀ x, within P H (f x)) → within P H (for_each l f).
Proof. intros Hf. induction l as [|x l IH]; [exact I|]. simpl. by apply within_bind_ok. Qed.

Lemma within_do_each {S A} (P : op S → Prop) H l (f : A → prog S unit) :
  (∀ x, within P H (f x)) → within P H (do_each l f).
Proof. intros Hf. induction l as [|x l IH]; [exact I|]. simpl. by apply within_bind. Qed.

Ltac head_of p := match p with ?f _ => head_of f | _ => p end.

(** Derives the effect of a program from its syntax, unfolding the functions
    it calls.  [tac] is tried first on every part; the calls and halts that
    neither it nor computation decides remain. *)
Ltac within_syntax tac :=
  repeat first
    [ exact I | assumption | tac
    | apply within_for_each; intros ?
    | apply within_do_each; intros ?
    | apply within_bind_ok; [|intros ?]
    | apply within_bind; [|intros ?]
    | match goal with
      | |- within _ _ (match ?x with _ => _ end) => destruct x
      | |- within _ _ (Halt _) => hnf; first [exact I|reflexivity|fail 1]
      | |- within _ _ (Call _ _) => split; [first [exact I|reflexivity|idtac]|intros ?]
      | |- within _ _ ?p => let h := head_of p in is_const h; unfold h
      end
    | split; [first [assumption|reflexivity]|intros ?]
    | reflexivity ].

Ltac within_tac := within_syntax fail.

(** ** Layers *)

(** The trace [t] of the layer below is that of the calls [es] of the layer
    above, one after the other, each with its answer. *)
Fixpoint implements {S T} (h : ∀ o : op S, prog T (ans S o)) (es : list (event S)) (t : list (event T)) : Prop :=
  match es with
  | [] => t = []
  | e :: es' =>
      ∃ t1 t2, t = t1 ++ t2 ∧ exec (h (ev_op e)) t1 (Done (ev_ans e)) ∧ implements h es' t2
  end.

(** What a program returns over an implementation of its calls it returns
    over the calls, and the implementation ran for each of them. *)
Lemma exec_interp {S T A} (h : ∀ o : op S, prog T (ans S o)) (p : prog S A) t a :
  exec (interp h p) t (Done a) ↔ ∃ es, exec p es (Done a) ∧ implements h es t.
Proof.
  revert t. induction p as [b|x|o k IH]; intros t; simpl.
  - split; [intros [-> [= ->]]; by exists []|]. intros (es & [-> [= ->]] & ->). done.
  - split; [by intros [_ ?]|]. by intros (es & [_ ?] & _).
  - rewrite exec_bind. split.
    + intros [(t1 & r & t2 & -> & H1 & (es & H2 & H3)%IH)|(h' & ? & _)]; [|done].
      exists (Ev o r :: es). split; [eauto|]. by exists t1, t2.
    + intros (es & (r & es' & -> & H2) & (t1 & t2 & -> & H1 & H3)).
      left. exists t1, r, t2. split; [done|]. split; [done|]. apply IH. eauto.
Qed.

(** A property of traces that every implementation has, and that
    concatenation preserves, is one of every program over them. *)
Lemma interp_safe {S T A} (h : ∀ o : op S, prog T (ans S o)) (P : op S → Prop) (Q : list (event T) → Prop) H
    (p : prog S A) t out :
  Q [] → (∀ t1 t2, Q t1 → Q t2 → Q (t1 ++ t2)) → (∀ o t out, P o → exec (h o) t out → Q t) →
  within P H p → exec (interp h p) t out → Q t.
Proof.
  intros Qn Qa Qh. revert t. induction p as [b|x|o k IH]; simpl; intros t Hw He.
  - by destruct He as [-> _].
  - by destruct He as [-> _].
  - destruct Hw as [Ho Hk].
    apply exec_bind in He as [(t1 & r & t2 & -> & H1 & H2)|(x & -> & H1)]; [|by eapply Qh].
    apply Qa; [by eapply Qh|by eapply IH].
Qed.

Lemma implements_app {S T} (h : ∀ o : op S, prog T (ans S o)) es1 es2 t :
  implements h (es1 ++ es2) t → ∃ t1 t2, t = t1 ++ t2 ∧ implements h es1 t1 ∧ implements h es2 t2.
Proof.
  revert t. induction es1 as [|e es1 IH]; intros t; [by exists [], t|].
  intros (t1 & t2 & -> & H1 & (t3 & t4 & -> & H3 & H4)%IH). exists (t1 ++ t3), t4.
  rewrite (assoc_L (++)). split; [done|]. split; [|done]. by exists t1, t3.
Qed.

(** Each call ran somewhere. *)
Lemma implements_elem {S T} (h : ∀ o : op S, prog T (ans S o)) es t e :
  e ∈ es → implements h es t →
  ∃ t1 t2 t3, t = t1 ++ t2 ++ t3 ∧ exec (h (ev_op e)) t2 (Done (ev_ans e)).
Proof.
  intros He. revert t. induction He as [e es|e e' es _ IH]; intros t (t1 & t2 & -> & H1 & H2).
  - by exists [], t1, t2.
  - destruct (IH _ H2) as (t3 & t4 & t5 & -> & H3). exists (t1 ++ t3), t4, t5. by rewrite (assoc_L (++)).
Qed.

(** ** Environments as relations *)

Section environment.
Context {S : sig} {W : Type}.

(** [answers w o r w']: in the state [w] the environment may answer the call
    [o] with [r] and be in [w'] then. *)
Context (answers : W → ∀ o : op S, ans S o → W → Prop).

(** A trace that such an environment allows. *)
Fixpoint allowed_trace (w : W) (t : list (event S)) (w' : W) : Prop :=
  match t with
  | [] => w' = w
  | e :: t' => ∃ w1, answers w (ev_op e) (ev_ans e) w1 ∧ allowed_trace w1 t' w'
  end.

(** Whatever the environment answers, the program returns and [Q] holds of its
    result and the state it leaves. *)
Fixpoint ensures {A} (p : prog S A) (w : W) (Q : A → W → Prop) : Prop :=
  match p with
  | Ret a => Q a w
  | Halt _ => False
  | Call o k => ∀ r w1, answers w o r w1 → ensures (k r) w1 Q
  end.

Lemma ensures_exec {A} (p : prog S A) w Q t out w' :
  ensures p w Q → exec p t out → allowed_trace w t w' → ∃ a, out = Done a ∧ Q a w'.
Proof.
  revert w t. induction p as [a|h|o k IH]; simpl; intros w t Hp He Ht; [|done|].
  - destruct He as [-> ->]. simpl in Ht. subst. eauto.
  - destruct He as (r & t' & -> & He), Ht as (w1 & Ho & Ht). by eapply IH; [eapply Hp|..].
Qed.

Lemma ensures_mono {A} (p : prog S A) w (Q R : A → W → Prop) :
  ensures p w Q → (∀ a w', Q a w' → R a w') → ensures p w R.
Proof. intros Hp HQ. revert w Hp. induction p; simpl; eauto. Qed.

Lemma ensures_bind {A B} (f : A → prog S B) (p : prog S A) w Q :
  ensures p w (λ a w', ensures (f a) w' Q) → ensures (prog_bind f p) w Q.
Proof. revert w. induction p; simpl; eauto. Qed.

(** A program whose calls leave the state alone, whatever they answer. *)
Lemma ensures_inert {A} (P : op S → Prop) (p : prog S A) w (Q : A → W → Prop) :
  (∀ o r w w1, P o → answers w o r w1 → w1 = w) →
  within P (λ _, False) p → (∀ a, Q a w) → ensures p w Q.
Proof.
  intros HP Hp HQ. induction p as [a|h|o k IH]; simpl in *; [apply HQ|done|].
  intros r w1 Ho. destruct Hp as [Hp1 Hp2]. apply HP in Ho as ->; [|done]. by apply IH.
Qed.

(** A condition on the states before each call of a run. *)
Fixpoint throughout {A} (I : W → bool) (h : handler S W) (p : prog S A) (w : W) : bool :=
  match p with
  | Call o k => I w && (let '(r, w') := h o w in throughout I h (k r) w')
  | _ => true
  end.

(** A handler that answers, in those states, as the environment may. *)
Lemma run_allowed {A} (I : W → bool) (h : handler S W) (p : prog S A) w :
  (∀ o w, I w = true → answers w o (fst (h o w)) (snd (h o w))) →
  throughout I h p w = true →
  allowed_trace w (trace_of (run h p w)) (world_of (run h p w)).
Proof.
  intros Hh. revert w. induction p as [a|x|o k IH]; intros w; simpl; [done|done|].
  intros [HI Ht]%andb_true_iff. pose proof (Hh o w HI) as Ho.
  destruct (h o w) as [r w']. specialize (IH r w' Ht).
  destruct (run h (k r) w') as [[out w''] t]. exists w'. split; [exact Ho|exact IH].
Qed.

End environment.

(** ** Symbolic execution *)

(** Executes the next call of the program of [H : exec p t out]: names the
    answer and splits on whether it is an error. *)
Ltac exec_step H :=
  let r := fresh "r" in let t' := fresh "t" in
  hnf in H; destruct H as (r & t' & -> & H); cbv beta in H.

Ltac exec_step_ok H :=
  let r := fresh "r" in let t' := fresh "t" in
  hnf in H; destruct H as (r & t' & -> & H); destruct r as [r|r].

Ltac exec_simpl H := cbn [prog_bind mbind prog_mbind] in H.

(** The end of a program. *)
Ltac exec_done H := hnf in H; let H1 := fresh in destruct H as [-> H1]; try discriminate H1.

Lemma exec_do_each_cons {S A} (f : A → prog S unit) x l t out :
  exec (do_each (x :: l) f) t out ↔
    (∃ t1 t2, t = t1 ++ t2 ∧ exec (f x) t1 (Done tt) ∧ exec (do_each l f) t2 out)
    ∨ (∃ h, out = Halted h ∧ exec (f x) t (Halted h)).
Proof.
  simpl. rewrite exec_bind. split.
  - intros [(t1 & [] & t2 & -> & H)|H]; [left; eauto|by right].
  - intros [(t1 & t2 & -> & H1 & H2)|H]; [left; exists t1, tt, t2; eauto|by right].
Qed.
