(* ===== verification/Client.v ===== *)
(** * internal/redis/client.go

    The [RedisClient] interface as a call signature, the data types and the
    parsers of the replies, and the concrete client, which implements every
    method of the interface by one command of the go-redis library.  That
    library is outside the repository: its methods are the calls of the
    signature [GoRedis], answered by an arbitrary handler. *)

From S2P Require Import Prelude Go Effects.

Local Open Scope Z_scope.

(** ** Data types *)

Record ClusterInfo := {
  ci_State : string;
  ci_SlotsAssigned : Z;
  ci_SlotsOK : Z;
  ci_SlotsPFail : Z;
  ci_SlotsFail : Z;
  ci_KnownNodes : Z;
  ci_ClusterSize : Z;
  ci_CurrentEpoch : Z;
  ci_MyEpoch : Z;
  ci_StatsMessagesSent : Z;
  ci_StatsMessagesReceived : Z
}.

(** An inclusive range of hash slots. *)
Record SlotRange := { sr_Start : Z; sr_End : Z }.

Record ClusterNode := {
  cn_NodeID : string;
  cn_Addr : string;
  cn_Flags : list string;
  cn_MasterID : string;
  cn_PingSent : Z;
  cn_PongRecv : Z;
  cn_ConfigEpoch : Z;
  cn_LinkState : string;
  cn_Slots : list SlotRange
}.

#[global] Instance SlotRange_eq_dec : EqDecision SlotRange.
Proof. solve_decision. Defined.
#[global] Instance ClusterNode_eq_dec : EqDecision ClusterNode.
Proof. solve_decision. Defined.

(** ** The RedisClient interface *)

Module RedisClient.

Inductive method : Type :=
| Ping (addr : string)
| Info (addr section : string)
| ConfigSet (addr param value : string)
| ConfigGet (addr param : string)
| Save (addr : string)
| ClusterInfo (addr : string)
| ClusterNodes (addr : string)
| ClusterMeet (addr targetIP : string) (targetPort : Z)
| ClusterAddSlots (addr : string) (slots : list Z)
| ClusterDelSlots (addr : string) (slots : list Z)
| ClusterReplicate (addr masterNodeID : string)
| ClusterFailover (addr : string)
| ClusterForget (addr nodeID : string)
| ClusterReset (addr : string) (hard : bool)
| ClusterSetSlot (addr : string) (slot : Z) (subcommand nodeID : string)
| ClusterGetKeysInSlot (addr : string) (slot count : Z)
| ClusterCountKeysInSlot (addr : string) (slot : Z)
| Migrate (addr targetIP : string) (targetPort : Z) (key : string) (db timeoutMs : Z)
| SentinelMaster (addr masterName : string)
| SentinelGetMasterAddr (addr masterName : string)
| SentinelFailover (addr masterName : string)
| SentinelReset (addr pattern : string)
| ReplicaOf (addr masterHost : string) (masterPort : Z)
| Role (addr : string).

#[global] Instance method_eq_dec : EqDecision method.
Proof. solve_decision. Defined.

Definition reply (m : method) : Type :=
  match m with
  | Info _ _ | SentinelMaster _ _ => result (gmap string string)
  | ConfigGet _ _ | Role _ => result string
  | ClusterInfo _ => result Client.ClusterInfo
  | ClusterNodes _ => result (list ClusterNode)
  | ClusterGetKeysInSlot _ _ _ => result (list string)
  | ClusterCountKeysInSlot _ _ => result Z
  | SentinelGetMasterAddr _ _ => result (string * Z)
  | _ => result unit
  end.

(** The pod a method talks to. *)
Definition target (m : method) : string :=
  match m with
  | Ping a | Info a _ | ConfigSet a _ _ | ConfigGet a _ | Save a
  | ClusterInfo a | ClusterNodes a | ClusterMeet a _ _ | ClusterAddSlots a _
  | ClusterDelSlots a _ | ClusterReplicate a _ | ClusterFailover a
  | ClusterForget a _ | ClusterReset a _ | ClusterSetSlot a _ _ _
  | ClusterGetKeysInSlot a _ _ | ClusterCountKeysInSlot a _
  | Migrate a _ _ _ _ _ | SentinelMaster a _ | SentinelGetMasterAddr a _
  | SentinelFailover a _ | SentinelReset a _ | ReplicaOf a _ _ | Role a => a
  end.

End RedisClient.

(** ** Parsers *)

(** INFO output as a key-value map. *)
Definition parseInfoLine (m : gmap string string) (line : string) : gmap string string :=
  let line := trim_space line in
  if String.eqb line "" || has_prefix "#" line then m
  else match split_two ":" line with
       | [k; v] => <[trim_space k := trim_space v]> m
       | _ => m
       end.

Definition parseInfoOutput (raw : string) : gmap string string :=
  fold_left parseInfoLine (split_byte nl raw) ∅.

(** A missing key reads as the empty string. *)
Definition map_get (m : gmap string string) (k : string) : string := default "" (m !! k).

(** [if v, err := strconv.Atoi(s); err == nil { x = v }] on a field that
    starts at zero. *)
Definition atoi_or_zero (s : string) : Z :=
  match atoi s with (v, None) => v | (_, Some _) => 0 end.

Definition parseClusterInfo (raw : string) : result ClusterInfo :=
  let m := parseInfoOutput raw in
  Ok {| ci_State := map_get m "cluster_state";
        ci_SlotsAssigned := atoi_or_zero (map_get m "cluster_slots_assigned");
        ci_SlotsOK := atoi_or_zero (map_get m "cluster_slots_ok");
        ci_SlotsPFail := atoi_or_zero (map_get m "cluster_slots_pfail");
        ci_SlotsFail := atoi_or_zero (map_get m "cluster_slots_fail");
        ci_KnownNodes := atoi_or_zero (map_get m "cluster_known_nodes");
        ci_ClusterSize := atoi_or_zero (map_get m "cluster_size");
        ci_CurrentEpoch := 0; ci_MyEpoch := 0;
        ci_StatsMessagesSent := 0; ci_StatsMessagesReceived := 0 |}.

Definition parseSlotRange (s : string) : result SlotRange :=
  match index_byte "-" s with
  | Some idx =>
      match atoi (str_take idx s), atoi (str_drop (S idx) s) with
      | (start, None), (stop, None) => Ok {| sr_Start := start; sr_End := stop |}
      | _, _ => Fail (Errorf "invalid slot range: %s" [AStr s])
      end
  | None =>
      match atoi s with
      | (v, None) => Ok {| sr_Start := v; sr_End := v |}
      | _ => Fail (Errorf "invalid slot: %s" [AStr s])
      end
  end.

(** The loop over [parts[8:]]: a field that is no slot range is skipped. *)
Definition parseSlots (parts : list string) : list SlotRange :=
  omap (λ s, match parseSlotRange s with Ok sr => Some sr | Fail _ => None end) parts.

(** [parts[1]] without the cluster-bus port. *)
Definition strip_bus_port (addrFull : string) : string :=
  match index_byte "@" addrFull with
  | Some idx => str_take idx addrFull
  | None => addrFull
  end.

(** One line of CLUSTER NODES; [None] when the line is skipped. *)
Definition parseNodeLine (line : string) : option ClusterNode :=
  match fields (trim_space line) with
  | id :: addrFull :: flags :: master :: ping :: pong :: epoch :: link :: slots =>
      Some {| cn_NodeID := id;
              cn_Addr := strip_bus_port addrFull;
              cn_Flags := split_byte "," flags;
              cn_MasterID := master;
              cn_PingSent := atoi_or_zero ping;
              cn_PongRecv := atoi_or_zero pong;
              cn_ConfigEpoch := atoi_or_zero epoch;
              cn_LinkState := link;
              cn_Slots := parseSlots slots |}
  | _ => None
  end.

Definition parseClusterNodes (raw : string) : result (list ClusterNode) :=
  Ok (omap parseNodeLine (split_byte nl raw)).

(** ** The concrete client *)

(** The connection configuration; [TLS] is [tls.Config]. *)
Record ClientOptions (TLS : Type) := {
  opt_Password : string;
  opt_TLSConfig : option TLS;
  opt_DialTimeout : Z;
  opt_ReadTimeout : Z;
  opt_WriteTimeout : Z
}.
Arguments opt_Password {TLS}.
Arguments opt_TLSConfig {TLS}.
Arguments opt_DialTimeout {TLS}.
Arguments opt_ReadTimeout {TLS}.
Arguments opt_WriteTimeout {TLS}.

Definition second : Z := 1000000000.
Definition millisecond : Z := 1000000.

Definition DefaultClientOptions {TLS} : ClientOptions TLS :=
  {| opt_Password := ""; opt_TLSConfig := None;
     opt_DialTimeout := 5 * second;
     opt_ReadTimeout := 10 * second;
     opt_WriteTimeout := 10 * second |}.

(** The go-redis API as the client uses it: [NewClient], [Close] and the
    command methods of a connection. *)
Module GoRedis.

(** [goredis.Options]. *)
Record options (TLS : Type) := {
  Addr : string;
  Password : string;
  DialTimeout : Z;
  ReadTimeout : Z;
  WriteTimeout : Z;
  TLSConfig : option TLS
}.

(** An argument of [Do]. *)
Variant do_arg := DStr (s : string) | DInt (z : Z).

(** An untyped reply of [Do(...).Result()]: the client only looks for a
    slice whose first element is a string. *)
Inductive value := VString (s : string) | VSlice (l : list value) | VOther.

Inductive command : Type :=
| CPing | CInfo (sections : list string)
| CConfigSet (param value : string) | CConfigGet (param : string) | CSave
| CClusterInfo | CClusterNodes | CClusterMeet (host port : string)
| CClusterAddSlots (slots : list Z) | CClusterDelSlots (slots : list Z)
| CClusterReplicate (nodeID : string) | CClusterFailover
| CClusterForget (nodeID : string)
| CClusterGetKeysInSlot (slot count : Z) | CClusterCountKeysInSlot (slot : Z)
| CMigrate (host port key : string) (db timeout : Z)
| CDo (args : list do_arg)             (* Do(...).Err() *)
| CDoStringSlice (args : list do_arg)  (* Do(...).StringSlice() *)
| CDoResult (args : list do_arg).      (* Do(...).Result() *)

Definition answer (c : command) : Type :=
  match c with
  | CInfo _ | CClusterInfo | CClusterNodes => result string
  | CConfigGet _ => result (gmap string string)
  | CClusterGetKeysInSlot _ _ | CDoStringSlice _ => result (list string)
  | CClusterCountKeysInSlot _ => result Z
  | CDoResult _ => result value
  | _ => result unit
  end.

(** A connection is named by the number the library gives it. *)
Inductive lib_call (TLS : Type) : Type :=
| NewClient (o : options TLS)
| Command (conn : nat) (c : command)
| Close (conn : nat).
Arguments NewClient {TLS} o.
Arguments Command {TLS} conn c.
Arguments Close {TLS} conn.

Definition lib_answer {TLS} (c : lib_call TLS) : Type :=
  match c with
  | NewClient _ => nat
  | Command _ c => answer c
  | Close _ => unit
  end.

End GoRedis.

Import GoRedis.

Definition GoRedisSig (TLS : Type) : sig :=
  {| op := lib_call TLS; ans := lib_answer |}.

Module client.
Section methods.
Context {TLS : Type} (opts : ClientOptions TLS).

(** The [goredis.Options] of [newGoRedisClient]. *)
Definition newGoRedisClient (addr : string) : options TLS :=
  {| Addr := addr;
     Password := opt_Password opts;
     DialTimeout := opt_DialTimeout opts;
     ReadTimeout := opt_ReadTimeout opts;
     WriteTimeout := opt_WriteTimeout opts;
     TLSConfig := opt_TLSConfig opts |}.

(** [r := c.newGoRedisClient(addr); defer r.Close(); return f(r.Cmd(...))] *)
Definition on_conn {A} (addr : string) (c : command) (f : answer c → A)
  : prog (GoRedisSig TLS) A :=
  conn ← call (S := GoRedisSig TLS) (NewClient (newGoRedisClient addr));
  r ← call (S := GoRedisSig TLS) (Command conn c);
  _ ← call (S := GoRedisSig TLS) (Close conn);
  mret (f r).

(** Applies [f] to the value of a reply and passes an error on. *)
Definition on_ok {A B} (f : A → result B) (r : result A) : result B :=
  match r with Ok a => f a | Fail e => Fail e end.

(** [m[result[i]] = result[i+1]] for [i = 0, 2, ...]. *)
Fixpoint pairs_to_map (l : list string) (m : gmap string string) : gmap string string :=
  match l with
  | k :: v :: l' => pairs_to_map l' (<[k := v]> m)
  | _ => m
  end.

Definition sentinelMasterAddr (l : list string) : result (string * Z) :=
  match l with
  | ip :: p :: _ =>
      match atoi p with
      | (port, None) => Ok (ip, port)
      | (_, Some e) => Fail (Errorf "invalid port in SENTINEL response: %w" [AErr e])
      end
  | _ => Fail (Errorf "unexpected SENTINEL GET-MASTER-ADDR-BY-NAME response: %v" [AStrs l])
  end.

Definition roleOf (v : value) : result string :=
  match v with
  | VSlice (VString role :: _) => Ok role
  | _ => Fail (Errorf "unexpected ROLE response: %v" [AValue])
  end.

(** *** The methods of [client] *)

Definition Ping (addr : string) := on_conn addr CPing id.

Definition Info (addr section : string) :=
  on_conn addr (CInfo (if String.eqb section "" then [] else [section]))
    (on_ok (λ raw, Ok (parseInfoOutput raw))).

Definition ConfigSet (addr param value : string) := on_conn addr (CConfigSet param value) id.

Definition ConfigGet (addr param : string) :=
  on_conn addr (CConfigGet param)
    (on_ok (λ vals : gmap string string,
       match vals !! param with Some v => Ok v | None => Ok "" end)).

Definition Save (addr : string) := on_conn addr CSave id.

(** The method [ClusterInfo] (the record type bears the name). *)
Definition GetClusterInfo (addr : string) := on_conn addr CClusterInfo (on_ok parseClusterInfo).

Definition ClusterNodes (addr : string) := on_conn addr CClusterNodes (on_ok parseClusterNodes).

Definition ClusterMeet (addr targetIP : string) (targetPort : Z) :=
  on_conn addr (CClusterMeet targetIP (itoa targetPort)) id.

Definition ClusterAddSlots (addr : string) (slots : list Z) :=
  on_conn addr (CClusterAddSlots slots) id.

Definition ClusterDelSlots (addr : string) (slots : list Z) :=
  on_conn addr (CClusterDelSlots slots) id.

Definition ClusterReplicate (addr masterNodeID : string) :=
  on_conn addr (CClusterReplicate masterNodeID) id.

Definition ClusterFailover (addr : string) := on_conn addr CClusterFailover id.

Definition ClusterForget (addr nodeID : string) := on_conn addr (CClusterForget nodeID) id.

Definition ClusterReset (addr : string) (hard : bool) :=
  let resetType := if hard then "HARD" else "SOFT" in
  on_conn addr (CDo [DStr "CLUSTER"; DStr "RESET"; DStr resetType]) id.

Definition ClusterSetSlot (addr : string) (slot : Z) (subcommand nodeID : string) :=
  if negb (String.eqb nodeID "")
  then on_conn addr (CDo [DStr "CLUSTER"; DStr "SETSLOT"; DInt slot; DStr subcommand; DStr nodeID]) id
  else on_conn addr (CDo [DStr "CLUSTER"; DStr "SETSLOT"; DInt slot; DStr subcommand]) id.

Definition ClusterGetKeysInSlot (addr : string) (slot count : Z) :=
  on_conn addr (CClusterGetKeysInSlot slot count) id.

Definition ClusterCountKeysInSlot (addr : string) (slot : Z) :=
  on_conn addr (CClusterCountKeysInSlot slot) id.

Definition Migrate (addr targetIP : string) (targetPort : Z) (key : string) (db timeoutMs : Z) :=
  on_conn addr (CMigrate targetIP (itoa targetPort) key db (wrap64 (timeoutMs * millisecond))) id.

Definition SentinelMaster (addr masterName : string) :=
  on_conn addr (CDoStringSlice [DStr "SENTINEL"; DStr "MASTER"; DStr masterName])
    (on_ok (λ l, Ok (pairs_to_map l ∅))).

Definition SentinelGetMasterAddr (addr masterName : string) :=
  on_conn addr (CDoStringSlice [DStr "SENTINEL"; DStr "GET-MASTER-ADDR-BY-NAME"; DStr masterName])
    (on_ok sentinelMasterAddr).

Definition SentinelFailover (addr masterName : string) :=
  on_conn addr (CDo [DStr "SENTINEL"; DStr "FAILOVER"; DStr masterName]) id.

Definition SentinelReset (addr pattern : string) :=
  on_conn addr (CDo [DStr "SENTINEL"; DStr "RESET"; DStr pattern]) id.

Definition ReplicaOf (addr masterHost : string) (masterPort : Z) :=
  on_conn addr (CDo [DStr "REPLICAOF"; DStr masterHost; DStr (itoa masterPort)]) id.

Definition Role (addr : string) := on_conn addr (CDoResult [DStr "ROLE"]) (on_ok roleOf).

(** The client as an implementation of the interface. *)
Definition client_method (m : RedisClient.method)
  : prog (GoRedisSig TLS) (RedisClient.reply m) :=
  match m with
  | RedisClient.Ping addr => Ping addr
  | RedisClient.Info addr section => Info addr section
  | RedisClient.ConfigSet addr param value => ConfigSet addr param value
  | RedisClient.ConfigGet addr param => ConfigGet addr param
  | RedisClient.Save addr => Save addr
  | RedisClient.ClusterInfo addr => GetClusterInfo addr
  | RedisClient.ClusterNodes addr => ClusterNodes addr
  | RedisClient.ClusterMeet addr ip port => ClusterMeet addr ip port
  | RedisClient.ClusterAddSlots addr slots => ClusterAddSlots addr slots
  | RedisClient.ClusterDelSlots addr slots => ClusterDelSlots addr slots
  | RedisClient.ClusterReplicate addr nodeID => ClusterReplicate addr nodeID
  | RedisClient.ClusterFailover addr => ClusterFailover addr
  | RedisClient.ClusterForget addr nodeID => ClusterForget addr nodeID
  | RedisClient.ClusterReset addr hard => ClusterReset addr hard
  | RedisClient.ClusterSetSlot addr slot sub nodeID => ClusterSetSlot addr slot sub nodeID
  | RedisClient.ClusterGetKeysInSlot addr slot count => ClusterGetKeysInSlot addr slot count
  | RedisClient.ClusterCountKeysInSlot addr slot => ClusterCountKeysInSlot addr slot
  | RedisClient.Migrate addr ip port key db timeoutMs => Migrate addr ip port key db timeoutMs
  | RedisClient.SentinelMaster addr name => SentinelMaster addr name
  | RedisClient.SentinelGetMasterAddr addr name => SentinelGetMasterAddr addr name
  | RedisClient.SentinelFailover addr name => SentinelFailover addr name
  | RedisClient.SentinelReset addr pattern => SentinelReset addr pattern
  | RedisClient.ReplicaOf addr host port => ReplicaOf addr host port
  | RedisClient.Role addr => Role addr
  end.

End methods.
End client.
Import client(client_method, newGoRedisClient, on_conn).


(** ** The textual format of the replies

    Printers for the formats the parsers document, used to state that
    parsing is the inverse of printing. *)

Definition word (s : string) : bool :=
  negb (String.eqb s "") && str_forall (λ c, negb (is_space c)) s.

Definition printSlotRange (sr : SlotRange) : string :=
  if sr_Start sr =? sr_End sr then itoa (sr_Start sr)
  else itoa (sr_Start sr) +:+ "-" +:+ itoa (sr_End sr).

(** One line of CLUSTER NODES; [bus] is the cluster-bus port. *)
Definition printNode (bus : string) (n : ClusterNode) : string :=
  join " " ([cn_NodeID n; cn_Addr n +:+ "@" +:+ bus; join "," (cn_Flags n); cn_MasterID n;
             itoa (cn_PingSent n); itoa (cn_PongRecv n); itoa (cn_ConfigEpoch n); cn_LinkState n]
            ++ (printSlotRange <$> cn_Slots n)).

Fixpoint printLines (lines : list string) : string :=
  match lines with
  | [] => ""
  | l :: ls => l +:+ String nl (printLines ls)
  end.

Definition slot_range_ok (sr : SlotRange) : Prop :=
  0 ≤ sr_Start sr ∧ int64_range (sr_Start sr) ∧ int64_range (sr_End sr).

Definition node_ok (n : ClusterNode) : Prop :=
  word (cn_NodeID n) = true ∧
  word (cn_Addr n) = true ∧ str_forall (not_char "@") (cn_Addr n) = true ∧
  cn_Flags n ≠ [] ∧
  Forall (λ f, word f = true ∧ str_forall (not_char ",") f = true) (cn_Flags n) ∧
  word (cn_MasterID n) = true ∧ word (cn_LinkState n) = true ∧
  int64_range (cn_PingSent n) ∧ int64_range (cn_PongRecv n) ∧ int64_range (cn_ConfigEpoch n) ∧
  Forall slot_range_ok (cn_Slots n).

Example parseNodeLine_sample :
  parseNodeLine "07c3 10.0.0.1:6379@16379 myself,master - 0 1426238317239 2 connected 0-5460 [93-<-292f] 6000"
  = Some {| cn_NodeID := "07c3"; cn_Addr := "10.0.0.1:6379";
            cn_Flags := ["myself"; "master"]; cn_MasterID := "-";
            cn_PingSent := 0; cn_PongRecv := 1426238317239; cn_ConfigEpoch := 2;
            cn_LinkState := "connected";
            cn_Slots := [{| sr_Start := 0; sr_End := 5460 |}; {| sr_Start := 6000; sr_End := 6000 |}] |}.
Proof. vm_compute. reflexivity. Qed.

(** ** Lemmas on blanks and fields *)

Lemma fields_from_app w a s :
  str_forall (λ c, negb (is_space c)) a = true → fields_from w (a +:+ s) = fields_from (w +:+ a) s.
Proof.
  revert w. induction a as [|c a IH]; intros w; simpl.
  - by rewrite str_app_nil_r.
  - destruct (is_space c); [done|]. simpl. intros H. rewrite IH by done.
    by rewrite str_app_assoc.
Qed.

Lemma fields_from_space w s :
  word w = true → fields_from w (String " " s) = w :: fields_from "" s.
Proof. unfold word. simpl. by destruct (String.eqb w ""). Qed.

Lemma fields_join ws : Forall (λ w, word w = true) ws → fields (join " " ws) = ws.
Proof.
  unfold fields. induction 1 as [|w ws Hw Hws IH]; [done|].
  pose proof Hw as Hw'. unfold word in Hw'. apply andb_true_iff in Hw' as [Hne Hsp].
  destruct ws as [|w' ws].
  - simpl. rewrite <- (str_app_nil_r w) at 1. rewrite fields_from_app by done. simpl.
    by destruct (String.eqb w "").
  - change (join " " (w :: w' :: ws)) with (w +:+ String " " (join " " (w' :: ws))).
    rewrite fields_from_app by done. simpl String.append. by rewrite fields_from_space, IH.
Qed.

Lemma fields_trim_left s : fields_from "" (trim_left s) = fields_from "" s.
Proof.
  induction s as [|c s IH]; [done|]. simpl trim_left. destruct (is_space c) eqn:E; [|done].
  simpl. by rewrite E, IH.
Qed.

Lemma fields_trim_right w s : fields_from w (trim_right s) = fields_from w s.
Proof.
  revert w. induction s as [|c s IH]; intros w; [done|].
  simpl. destruct (trim_right s) as [|d t] eqn:Et.
  - destruct (is_space c) eqn:E.
    + rewrite <- IH. simpl. by rewrite app_nil_r.
    + simpl. rewrite E, <- IH. done.
  - change (fields_from w (String c (String d t)))
      with (if is_space c then (if String.eqb w "" then [] else [w]) ++ fields_from "" (String d t)
            else fields_from (w +:+ String c "") (String d t)).
    by rewrite !IH.
Qed.

Lemma fields_trim s : fields (trim_space s) = fields s.
Proof. unfold fields, trim_space. by rewrite fields_trim_right, fields_trim_left. Qed.

Lemma split_join c ws :
  ws ≠ [] → Forall (λ w, str_forall (not_char c) w = true) ws →
  split_byte c (join (String c "") ws) = ws.
Proof.
  intros Hne H. induction H as [|w ws Hw Hws IH]; [done|].
  destruct ws as [|w' ws]; [by apply split_byte_none|].
  change (join (String c "") (w :: w' :: ws)) with (w +:+ String c (join (String c "") (w' :: ws))).
  rewrite split_byte_app by done. by rewrite IH.
Qed.

Lemma split_printLines ls :
  Forall (λ l, str_forall (not_char nl) l = true) ls → split_byte nl (printLines ls) = ls ++ [""].
Proof.
  induction 1 as [|l ls Hl Hls IH]; [done|]. simpl printLines. by rewrite split_byte_app, IH.
Qed.

Lemma word_no_nl s : word s = true → str_forall (not_char nl) s = true.
Proof.
  unfold word. rewrite andb_true_iff. intros [_ H]. revert H. apply str_forall_impl.
  intros c. unfold not_char. destruct (Ascii.eqb nl c) eqn:E; [|done].
  apply Ascii.eqb_eq in E as <-. done.
Qed.

Lemma join_chars P sep ws :
  str_forall P sep = true → Forall (λ w, str_forall P w = true) ws → str_forall P (join sep ws) = true.
Proof.
  intros Hs. induction 1 as [|w ws Hw Hws IH]; [done|]. destruct ws as [|w' ws]; [done|].
  change (join sep (w :: w' :: ws)) with (w +:+ sep +:+ join sep (w' :: ws)).
  by rewrite !str_forall_app, Hw, Hs, IH.
Qed.

Lemma numeral_word z : word (itoa z) = true.
Proof.
  unfold word. apply andb_true_iff. split.
  - destruct (String.eqb (itoa z) "") eqn:E; [|done]. by apply String.eqb_eq, itoa_nonempty in E.
  - eapply str_forall_impl; [|apply itoa_chars].
    intros c. ascii_cases c.
Qed.

Lemma word_app a b : word a = true → str_forall (λ c, negb (is_space c)) b = true → word (a +:+ b) = true.
Proof.
  unfold word. rewrite !andb_true_iff. intros [Ha1 Ha2] Hb. split; [by destruct a|].
  by rewrite str_forall_app, Ha2, Hb.
Qed.

Lemma word_chars a : word a = true → str_forall (λ c, negb (is_space c)) a = true.
Proof. unfold word. rewrite andb_true_iff. by intros [_ ?]. Qed.

#[export] Hint Resolve numeral_word word_no_nl word_chars : operator.
#[export] Hint Rewrite str_take_app str_drop_app str_drop_app_S : operator_rw.

(** ** Round trips *)

Lemma parseSlotRange_print sr : slot_range_ok sr → parseSlotRange (printSlotRange sr) = Ok sr.
Proof.
  intros (H0 & Hs & He). unfold parseSlotRange, printSlotRange. destruct sr as [s e]. simpl in *.
  assert (str_forall (not_char "-") (itoa s) = true) as Hd.
  { eapply str_forall_impl; [|by apply itoa_nonneg_digits].
    intros c. ascii_cases c. }
  destruct (s =? e) eqn:E.
  - rewrite index_byte_none, atoi_itoa by done. blia. by subst.
  - simpl. rewrite index_byte_app by done. autorewrite with operator_rw.
    by rewrite !atoi_itoa by done.
Qed.

Lemma parseSlots_print srs : Forall slot_range_ok srs → parseSlots (printSlotRange <$> srs) = srs.
Proof.
  intros H. apply omap_fmap_inverse. eapply Forall_impl; [done|].
  intros sr Hsr. by rewrite parseSlotRange_print.
Qed.

Lemma printSlotRange_word sr : word (printSlotRange sr) = true.
Proof.
  unfold printSlotRange. case_bool; [apply numeral_word|].
  apply word_app; [apply numeral_word|]. simpl. auto with operator.
Qed.

Lemma atoi_or_zero_itoa z : int64_range z → atoi_or_zero (itoa z) = z.
Proof. intros Hz. unfold atoi_or_zero. by rewrite atoi_itoa. Qed.

Lemma strip_bus_port_print addr bus :
  str_forall (not_char "@") addr = true → strip_bus_port (addr +:+ "@" +:+ bus) = addr.
Proof.
  intros H. unfold strip_bus_port. simpl. rewrite index_byte_app by done.
  by autorewrite with operator_rw.
Qed.

Lemma join_comma_word fs :
  fs ≠ [] → Forall (λ f, word f = true) fs → word (join "," fs) = true.
Proof.
  intros Hne H. destruct H as [|f fs Hf Hfs]; [done|]. destruct fs as [|f' fs]; [done|].
  change (join "," (f :: f' :: fs)) with (f +:+ String "," (join "," (f' :: fs))).
  apply word_app; [done|]. cbn [str_forall]. apply andb_true_iff. split; [done|].
  apply join_chars; [done|].
  eapply Forall_impl; [done|]. auto with operator.
Qed.

(** The fields of a printed node are words. *)
Lemma node_fields_words bus n :
  word bus = true → node_ok n →
  Forall (λ w, word w = true)
    ([cn_NodeID n; cn_Addr n +:+ "@" +:+ bus; join "," (cn_Flags n); cn_MasterID n;
      itoa (cn_PingSent n); itoa (cn_PongRecv n); itoa (cn_ConfigEpoch n); cn_LinkState n]
     ++ (printSlotRange <$> cn_Slots n)).
Proof.
  intros Hbus (H1 & H2 & H3 & H4 & H5 & H6 & H7 & H8 & H9 & H10 & H11).
  apply Forall_app. split.
  - repeat constructor; auto with operator.
    + apply word_app; [done|]. simpl. auto with operator.
    + apply join_comma_word; [done|]. eapply Forall_impl; [done|]. by intros f [? _].
  - apply Forall_fmap, Forall_true. intros sr. apply printSlotRange_word.
Qed.

Lemma parseNodeLine_print bus n :
  word bus = true → node_ok n → parseNodeLine (printNode bus n) = Some n.
Proof.
  intros Hbus Hn. unfold parseNodeLine, printNode. rewrite fields_trim, fields_join by by apply node_fields_words.
  destruct Hn as (H1 & H2 & H3 & H4 & H5 & H6 & H7 & H8 & H9 & H10 & H11).
  cbn [app]. rewrite strip_bus_port_print, split_join, !atoi_or_zero_itoa, parseSlots_print by
    (done || (eapply Forall_impl; [done|]; by intros f [_ ?])).
  by destruct n.
Qed.

Lemma printNode_no_nl bus n :
  word bus = true → node_ok n → str_forall (not_char nl) (printNode bus n) = true.
Proof.
  intros Hbus Hn. apply join_chars; [done|].
  eapply Forall_impl; [by apply node_fields_words|]. auto with operator.
Qed.

(** C9: [parseClusterNodes] recovers the nodes from the CLUSTER NODES text it
    documents: for every list of well-formed nodes (ids, addresses and flags
    without blanks, slot ranges with non-negative bounds), printing one line
    per node, with the cluster-bus port behind the address, and parsing the
    text gives the list back, in order. *)
Theorem parseClusterNodes_roundtrip bus nodes :
  word bus = true → Forall node_ok nodes →
  parseClusterNodes (printLines (printNode bus <$> nodes)) = Ok nodes.
Proof.
  intros Hbus Hns. unfold parseClusterNodes. rewrite split_printLines.
  - rewrite omap_app, omap_fmap_inverse, app_nil_r; [done|].
    eapply Forall_impl; [done|]. intros n Hn. by apply parseNodeLine_print.
  - apply Forall_fmap. eapply Forall_impl; [done|]. intros n Hn. by apply printNode_no_nl.
Qed.

Definition sample_nodes : list ClusterNode :=
  [{| cn_NodeID := "aa"; cn_Addr := "10.0.0.1:6379"; cn_Flags := ["myself"; "master"];
      cn_MasterID := "-"; cn_PingSent := 0; cn_PongRecv := 7; cn_ConfigEpoch := 1;
      cn_LinkState := "connected";
      cn_Slots := [{| sr_Start := 0; sr_End := 5460 |}; {| sr_Start := 9; sr_End := 9 |}] |};
   {| cn_NodeID := "bb"; cn_Addr := "10.0.0.2:6379"; cn_Flags := ["slave"];
      cn_MasterID := "aa"; cn_PingSent := 1; cn_PongRecv := 8; cn_ConfigEpoch := 1;
      cn_LinkState := "connected"; cn_Slots := [] |}].

Lemma sample_nodes_ok : Forall node_ok sample_nodes.
Proof. repeat (constructor || split); try done; vm_compute; congruence. Qed.

Lemma parseClusterNodes_roundtrip_witness :
  parseClusterNodes (printLines (printNode "16379" <$> sample_nodes)) = Ok sample_nodes.
Proof. apply parseClusterNodes_roundtrip; [reflexivity|apply sample_nodes_ok]. Defined.

Lemma parseSlotRange_bracket s : ∃ e, parseSlotRange (String "[" s) = Fail e.
Proof.
  unfold parseSlotRange. simpl. destruct (index_byte "-" s) as [i|]; simpl.
  - destruct (atoi_bracket (str_take i s)) as [e He].
    destruct (atoi (String "[" (str_take i s))) as [v o]. simpl in He. subst o. eauto.
  - destruct (atoi_bracket s) as [e He].
    destruct (atoi (String "[" s)) as [v o]. simpl in He. subst o. eauto.
Qed.

(** The markers of a slot under migration, [[slot->-id]] and
    [[slot-<-id]], and any other field that starts with a bracket, are not
    slot ranges: wherever such a field stands among the slots of a node,
    [parseSlots] reads the same ranges as without it. *)
Lemma parseSlots_skips_markers pre s post :
  parseSlots (pre ++ String "[" s :: post) = parseSlots pre ++ parseSlots post.
Proof.
  unfold parseSlots. rewrite omap_app, omap_cons_eq.
  destruct (parseSlotRange_bracket s) as [e ->]. done.
Qed.

(** ** INFO output *)

Definition printInfoLine (kv : string * string) : string := kv.1 +:+ String ":" (kv.2 +:+ String "013" "").

Definition info_ok (kv : string * string) : Prop :=
  word kv.1 = true ∧ str_forall (not_char ":") kv.1 = true ∧ has_prefix "#" kv.1 = false ∧
  str_forall (λ c, negb (is_space c)) kv.2 = true.

Lemma trim_left_chars s : str_forall (λ c, negb (is_space c)) s = true → trim_left s = s.
Proof. destruct s as [|c s]; simpl; [done|]. by destruct (is_space c). Qed.

Lemma trim_right_chars s b :
  str_forall (λ c, negb (is_space c)) s = true → trim_right b = "" → trim_right (s +:+ b) = s.
Proof.
  intros Hs Hb. induction s as [|c s IH]; simpl; [done|]. simpl in Hs.
  destruct (is_space c) eqn:E; [done|]. rewrite IH by done. by destruct s.
Qed.

Lemma trim_space_chars s : str_forall (λ c, negb (is_space c)) s = true → trim_space s = s.
Proof.
  intros Hs. unfold trim_space. rewrite trim_left_chars by done.
  rewrite <- (str_app_nil_r s) at 1. by apply trim_right_chars.
Qed.

Lemma trim_space_line s :
  str_forall (λ c, negb (is_space c)) s = true → s ≠ "" → trim_space (s +:+ String "013" "") = s.
Proof.
  intros Hs Hne. unfold trim_space. destruct s as [|c s]; [done|].
  simpl in Hs. simpl trim_left. destruct (is_space c) eqn:E; [done|].
  apply (trim_right_chars (String c s)); simpl; [by rewrite E|done].
Qed.

Lemma has_prefix_one p c s : has_prefix (String p "") (String c s) = Ascii.eqb p c.
Proof.
  unfold has_prefix. cbn [String.prefix]. destruct (ascii_dec p c) as [->|Hne].
  - rewrite Ascii.eqb_refl. by destruct s.
  - symmetry. by apply Ascii.eqb_neq.
Qed.

Lemma parseInfoLine_print m kv :
  info_ok kv → parseInfoLine m (printInfoLine kv) = <[kv.1 := kv.2]> m.
Proof.
  destruct kv as [k v]. unfold info_ok, printInfoLine. simpl. intros (Hk & Hc & Hh & Hv).
  pose proof (word_chars _ Hk) as Hks.
  assert (k +:+ String ":" (v +:+ String "013" "") = (k +:+ String ":" v) +:+ String "013" "") as ->
    by by rewrite str_app_assoc.
  unfold parseInfoLine. rewrite trim_space_line.
  - assert (String.eqb (k +:+ String ":" v) "" || has_prefix "#" (k +:+ String ":" v) = false) as ->.
    { destruct k as [|c k]; [done|]. cbn [String.append]. rewrite has_prefix_one in *. done. }
    unfold split_two. rewrite index_byte_app, str_take_app, str_drop_app_S by done.
    by rewrite !trim_space_chars.
  - rewrite str_forall_app. simpl. by rewrite Hks, Hv.
  - by destruct k.
Qed.

Lemma parse_info_fold kvs m :
  Forall info_ok kvs →
  fold_left parseInfoLine (printInfoLine <$> kvs) m = fold_left (λ m kv, <[kv.1 := kv.2]> m) kvs m.
Proof.
  intros H. revert m. induction H as [|kv kvs Hkv Hkvs IH]; intros m; [done|].
  simpl. by rewrite parseInfoLine_print, IH.
Qed.

Lemma printInfoLine_no_nl kv : info_ok kv → str_forall (not_char nl) (printInfoLine kv) = true.
Proof.
  intros (Hk & _ & _ & Hv). unfold printInfoLine. rewrite !str_forall_app. cbn [str_forall].
  rewrite str_forall_app, word_no_nl by done. simpl. rewrite andb_true_r.
  eapply str_forall_impl; [|done]. intros c. ascii_cases c.
Qed.

(** C39: [parseInfoOutput] recovers every map from its INFO text: printing the
    entries in any order, one [key:value] line ended by CR LF each, under any
    [#] section header, and parsing gives the map back. *)
Theorem parseInfoOutput_roundtrip header (m : gmap string string) kvs :
  str_forall (not_char nl) header = true → kvs ≡ₚ map_to_list m → Forall info_ok kvs →
  parseInfoOutput (printLines (("#" +:+ header) :: (printInfoLine <$> kvs))) = m.
Proof.
  intros Hh Hp Hok. unfold parseInfoOutput. rewrite split_printLines.
  2: { constructor; [done|]. apply Forall_fmap. eapply Forall_impl; [done|].
       intros kv. apply printInfoLine_no_nl. }
  rewrite fold_left_app. simpl fold_left at 2.
  assert (parseInfoLine ∅ (String "#" header) = ∅) as ->.
  { unfold parseInfoLine, trim_space. simpl trim_left. simpl trim_right.
    destruct (trim_right header); cbn [String.eqb orb]; by rewrite has_prefix_one. }
  rewrite parse_info_fold by done.
  by apply fold_insert_perm.
Qed.

Lemma parseInfoOutput_roundtrip_witness :
  parseInfoOutput (printLines (("#" +:+ " Cluster") ::
     (printInfoLine <$> [("cluster_state", "ok"); ("cluster_size", "3")])))
  = {["cluster_state" := "ok"; "cluster_size" := "3"]}.
Proof.
  apply parseInfoOutput_roundtrip; [reflexivity| |repeat constructor].
  vm_compute. apply perm_swap.
Defined.

Lemma exec_on_conn {TLS A} (opts : ClientOptions TLS) addr c (f : answer c → A) t out :
  exec (on_conn opts addr c f) t out →
  ∃ conn c r a,
    t = [Ev (S := GoRedisSig TLS) (NewClient (newGoRedisClient opts addr)) conn;
         Ev (S := GoRedisSig TLS) (Command conn c) r;
         Ev (S := GoRedisSig TLS) (Close conn) tt]
    ∧ out = Done a.
Proof.
  intros (conn & t1 & -> & r & t2 & -> & [] & t3 & -> & -> & ->). by exists conn, c, r, (f r).
Qed.

(** A method only opens connections with the options of the client, and does
    not panic. *)
Lemma method_connects {TLS} (opts : ClientOptions TLS) m :
  within (S := GoRedisSig TLS)
    (λ o : lib_call TLS, match o with
                         | NewClient o => o = newGoRedisClient opts (RedisClient.target m)
                         | _ => True end)
    (λ _, False) (client_method opts m).
Proof.
  destruct m; cbn [client_method RedisClient.target];
    try (split; [done|intros ?; split; [done|intros ?; split; done]]).
  unfold client.ClusterSetSlot. destruct (negb _); (split; [done|intros ?; split; [done|intros ?; split; done]]).
Qed.

(** C40: No method of the client leaks a connection or talks to another pod:
    whatever the library answers, errors included, each call opens exactly
    one connection, to the address it was given and with the configured
    password, TLS and timeouts, sends exactly one command on it, closes it,
    and returns. *)
Theorem client_one_connection {TLS} (opts : ClientOptions TLS) m t out :
  exec (client_method opts m) t out →
  ∃ conn c r a,
    t = [Ev (S := GoRedisSig TLS) (NewClient (newGoRedisClient opts (RedisClient.target m))) conn;
         Ev (S := GoRedisSig TLS) (Command conn c) r;
         Ev (S := GoRedisSig TLS) (Close conn) tt]
    ∧ out = Done a.
Proof.
  intros H. destruct m; cbn [client_method RedisClient.target] in *; try by eapply exec_on_conn.
  unfold client.ClusterSetSlot in H. destruct (negb _); by eapply exec_on_conn.
Qed.

(** A library that opens connection 1 and refuses every command. *)
Definition refusing_lib {TLS} : handler (GoRedisSig TLS) unit :=
  λ o w, (match o return lib_answer o with
          | NewClient _ => 1%nat
          | Command _ c => ltac:(destruct c; exact (Fail (ExtErr "EOF")))
          | Close _ => tt
          end, w).

Lemma client_one_connection_witness :
  ∃ conn c r a,
    trace_of (run (@refusing_lib unit) (client_method DefaultClientOptions (RedisClient.Ping "h:6379")) tt)
    = [Ev (S := GoRedisSig unit) (NewClient (newGoRedisClient DefaultClientOptions "h:6379")) conn;
       Ev (S := GoRedisSig unit) (Command conn c) r;
       Ev (S := GoRedisSig unit) (Close conn) tt]
    ∧ result_of (run (@refusing_lib unit) (client_method DefaultClientOptions (RedisClient.Ping "h:6379")) tt)
      = Done a.
Proof.
  apply (client_one_connection DefaultClientOptions (RedisClient.Ping "h:6379")), run_exec.
Defined.
