(* ===== verification/Sys.v ===== *)
(** * The environment of internal/redis

    What the managers of internal/redis call: the methods of the
    [RedisClient] interface they hold, the clock ([time.Now], and the
    [select] on [ctx.Done()] and [time.After]), and the order in which Go
    visits the keys of a map.  The polling loops share one combinator, whose
    termination is proved for every environment whose clock advances. *)

From S2P Require Import Prelude Go Effects Client.

Local Open Scope Z_scope.

(** [SleepOrDone d] is [select { case <-ctx.Done(): return ctx.Err(); case
    <-time.After(d): }] and answers the error of a cancelled context.
    [Range ks] is the iteration order of a map with keys [ks], a permutation
    chosen anew by each loop. *)
Inductive sys_op : Type :=
| Redis (m : RedisClient.method)
| Now
| SleepOrDone (d : Z)
| Range (ks : list string).

Definition sys_ans (o : sys_op) : Type :=
  match o with
  | Redis m => RedisClient.reply m
  | Now => Z
  | SleepOrDone _ => option error
  | Range ks => {l : list string | l ≡ₚ ks}
  end.

Definition SysSig : sig := {| op := sys_op; ans := sys_ans |}.

Definition rcall (m : RedisClient.method) : prog SysSig (RedisClient.reply m) :=
  Call (S := SysSig) (Redis m) Ret.
Definition now : prog SysSig Z := Call (S := SysSig) Now Ret.
Definition sleep_or_done (d : Z) : prog SysSig (option error) :=
  Call (S := SysSig) (SleepOrDone d) Ret.
Definition range_keys {V} (m : gmap string V) : prog SysSig (list string) :=
  Call (S := SysSig) (Range (map_to_list m).*1) (λ r, Ret (`r)).

Definition ev (m : RedisClient.method) (r : RedisClient.reply m) : event SysSig :=
  Ev (S := SysSig) (Redis m) r.

(** The nodes a successful CLUSTER NODES reported. *)
Definition nodes_answer (e : event SysSig) : option (list ClusterNode) :=
  match e with
  | Ev o r => match o return sys_ans o → option (list ClusterNode) with
              | Redis (RedisClient.ClusterNodes _) =>
                  λ r, match r with Ok nodes => Some nodes | Fail _ => None end
              | _ => λ _, None
              end r
  end.

(** The method calls of a trace, in order. *)
Definition redis_calls (t : list (event SysSig)) : list RedisClient.method :=
  observe (λ e : event SysSig, match ev_op e : sys_op with Redis m => Some m | _ => None end) t.

(** Whether the answer of a method carries no error. *)
Definition method_ok (m : RedisClient.method) : RedisClient.reply m → bool :=
  match m with
  | RedisClient.Info _ _ | RedisClient.SentinelMaster _ _ => is_ok
  | RedisClient.ConfigGet _ _ | RedisClient.Role _ => is_ok
  | RedisClient.ClusterInfo _ => is_ok
  | RedisClient.ClusterNodes _ => is_ok
  | RedisClient.ClusterGetKeysInSlot _ _ _ => is_ok
  | RedisClient.ClusterCountKeysInSlot _ _ => is_ok
  | RedisClient.SentinelGetMasterAddr _ _ => is_ok
  | _ => is_ok
  end.

Definition reply_ok (e : event SysSig) : Prop :=
  match e with
  | Ev o r => match o return sys_ans o → Prop with
              | Redis m => λ r, method_ok m r = true
              | _ => λ _, True
              end r
  end.

Lemma exec_rcall m t out :
  exec (rcall m) t out ↔ ∃ r : RedisClient.reply m, t = [Ev (S := SysSig) (Redis m) r] ∧ out = Done r.
Proof.
  split.
  - intros (r & t' & -> & -> & ->). by exists r.
  - intros (r & -> & ->). by exists r, [].
Qed.

Lemma redis_calls_app t1 t2 : redis_calls (t1 ++ t2) = redis_calls t1 ++ redis_calls t2.
Proof. apply observe_app. Qed.

Lemma redis_calls_concat ts : redis_calls (concat ts) = concat (redis_calls <$> ts).
Proof. apply observe_concat. Qed.

(** ** Polling *)

Definition pollInterval : Z := 2 * second.

(** [for time.Now().Before(deadline) { attempt; select {...} }; return
    expired], where [v] is the local state the attempts update. *)
Fixpoint poll {A V} (fuel : nat) (deadline : Z) (v : V)
    (attempt : V → prog SysSig (V + A)) (expired : V → error) : prog SysSig (result A) :=
  match fuel with
  | O => Halt OutOfFuel
  | S fuel' =>
      t ← now;
      if t <? deadline then
        r ← attempt v;
        match r with
        | inr a => mret (Ok a)
        | inl v' =>
            c ← sleep_or_done pollInterval;
            match c with
            | Some e => mret (Fail e)
            | None => poll fuel' deadline v' attempt expired
            end
        end
      else mret (Fail (expired v))
  end.

Lemma poll_unfold {A V} fuel deadline (v : V) (attempt : V → prog SysSig (V + A)) expired :
  poll (S fuel) deadline v attempt expired =
  prog_bind (λ t, if t <? deadline then
    prog_bind (λ r, match r with
      | inr a => Ret (Ok a)
      | inl v' => prog_bind (λ c, match c with
                    | Some e => Ret (Fail e)
                    | None => poll fuel deadline v' attempt expired
                    end) (sleep_or_done pollInterval)
      end) (attempt v)
    else Ret (Fail (expired v))) now.
Proof. done. Qed.

(** A loop that ends with a value ended with a successful attempt. *)
Lemma poll_ok {A V} fuel deadline (v : V) (attempt : V → prog SysSig (V + A)) expired t a :
  exec (poll fuel deadline v attempt expired) t (Done (Ok a)) →
  ∃ t1 t2 v', t = t1 ++ t2 ∧ exec (attempt v') t2 (Done (inr a)).
Proof.
  revert v t. induction fuel as [|fuel IH]; intros v t H; [by destruct H|].
  rewrite poll_unfold in H. exec_step H. exec_simpl H. destruct (r <? deadline); [|exec_done H].
  apply exec_bind in H as [(t1 & [v'|a'] & t2 & -> & H1 & H2)|(h & ? & _)]; [| |done].
  - exec_step H2. exec_simpl H2. destruct r0 as [e|]; [exec_done H2|]. apply IH in H2 as (t3 & t4 & v2 & -> & H2).
    rewrite app_comm_cons, app_comm_cons, (assoc_L (++)). eauto.
  - exec_done H2. injection H as ->. rewrite app_nil_r. by exists [Ev (S := SysSig) Now r], t1, v.
Qed.

(** ** The clock *)

(** What Go promises of its clock: [time.Now] reads it, it never goes back,
    and [time.After(d)] does not fire before [d] has elapsed. *)
Class Clock {W} (h : handler SysSig W) := {
  clock : W → Z;
  clock_now w : fst (h Now w) = clock w;
  clock_mono o w : clock w ≤ clock (snd (h o w));
  clock_sleep d w : fst (h (SleepOrDone d) w) = None → clock w + d ≤ clock (snd (h (SleepOrDone d) w))
}.

(** A method handler completed with a clock that only sleeping advances and
    with the insertion order of maps. *)
Definition with_clock {W} (h : ∀ m : RedisClient.method, W → RedisClient.reply m * W)
  : handler SysSig (W * Z) :=
  λ o w, match o return sys_ans o * (W * Z) with
         | Redis m => let '(r, s) := h m w.1 in (r, (s, w.2))
         | Now => (w.2, w)
         | SleepOrDone d => (None, (w.1, w.2 + Z.max 0 d))
         | Range ks => (exist _ ks (Permutation_refl ks), w)
         end.

#[export] Instance with_clock_Clock {W} (h : ∀ m : RedisClient.method, W → RedisClient.reply m * W) :
  Clock (with_clock h).
Proof.
  refine {| clock := snd |}.
  - done.
  - intros [m| |d|ks] [s t]; simpl; try lia. destruct (h m s). simpl. lia.
  - intros d [s t] _. simpl. lia.
Defined.

Section clock.
Context {W : Type} (h : handler SysSig W) {C : Clock h}.

Lemma clock_run {A} (p : prog SysSig A) w : clock w ≤ clock (world_of (run h p w)).
Proof.
  revert w. induction p as [a|x|o k IH]; intros w; simpl; [done|done|].
  pose proof (clock_mono o w) as Hm. destruct (h o w) as [r w']. simpl in Hm.
  specialize (IH r w'). destruct (run h (k r) w') as [[out w''] t]. unfold world_of in *. simpl in *. lia.
Qed.

(** A program that never panics and never exhausts its fuel. *)
Definition returns {A} (p : prog SysSig A) : Prop :=
  ∀ w, ∃ a, result_of (run h p w) = Done a.

Lemma returns_ret {A} (a : A) : returns (Ret a).
Proof. intros w. by exists a. Qed.

Lemma returns_rcall m : returns (rcall m).
Proof. intros w. unfold rcall. simpl. destruct (h (Redis m) w) as [r w']. by exists r. Qed.

Lemma returns_bind {A B} (f : A → prog SysSig B) p :
  returns p → (∀ a, returns (f a)) → returns (prog_bind f p).
Proof.
  intros Hp Hf w. unfold result_of. rewrite run_bind. destruct (Hp w) as [a Ha].
  unfold result_of in Ha. destruct (run h p w) as [[out w1] t1]. simpl in Ha. subst out.
  destruct (Hf a w1) as [b Hb]. unfold result_of in Hb.
  destruct (run h (f a) w1) as [[out w2] t2]. by exists b.
Qed.

(** Enough fuel for a timeout: one attempt per interval, and one more turn for
    the last reading of the clock. *)
Definition poll_fuel (timeout : Z) : nat := S (Z.to_nat (timeout / pollInterval + 1)).

Lemma poll_returns {A V} n deadline (v : V) (attempt : V → prog SysSig (V + A)) expired w :
  (∀ v, returns (attempt v)) →
  deadline - clock w ≤ pollInterval * Z.of_nat n →
  ∃ r, result_of (run h (poll (S n) deadline v attempt expired) w) = Done r.
Proof.
  intros Hatt. revert v w. induction n as [|n IH]; intros v w Hd;
    rewrite poll_unfold; unfold now at 1; cbn [prog_bind]; rewrite result_call, clock_now;
    pose proof (clock_mono Now w) as Hm; set (w1 := snd (h Now w)) in *;
    (destruct (clock w <? deadline) eqn:Eb; [|by eexists]); [blia|].
  destruct (Hatt v w1) as [r Hr]. rewrite (result_bind _ _ _ _ _ Hr).
  pose proof (clock_run (attempt v) w1) as Hm2. set (w2 := world_of _) in *.
  destruct r as [v'|a]; [|by eexists].
  unfold sleep_or_done. cbn [prog_bind]. rewrite result_call.
  pose proof (clock_sleep pollInterval w2) as Hs.
  destruct (h (SleepOrDone pollInterval) w2) as [[e|] w3]; cbn [fst snd] in *; [by eexists|].
  specialize (Hs eq_refl). apply IH. lia.
Qed.

(** A polling loop started with [poll_fuel timeout] returns. *)
Lemma poll_timeout_returns {A V} timeout (v : V) (attempt : V → prog SysSig (V + A)) expired t0 w :
  0 ≤ timeout → (∀ v, returns (attempt v)) → t0 ≤ clock w →
  ∃ r, result_of (run h (poll (poll_fuel timeout) (t0 + timeout) v attempt expired) w) = Done r.
Proof.
  intros Ht Hatt Hw. apply poll_returns; [done|].
  unfold pollInterval, second in *.
  rewrite Z2Nat.id by (apply Z.add_nonneg_nonneg; [apply Z.div_pos; lia|lia]).
  pose proof (Z.mul_succ_div_gt timeout (2 * 1000000000)). lia.
Qed.

(** A whole waiting function: it reads the clock, polls until the timeout has
    passed, returns, and has a value only from a last, successful attempt. *)
Lemma waiting_returns {A V} timeout (v : V) (attempt : V → prog SysSig (V + A)) expired w :
  0 ≤ timeout → (∀ v, returns (attempt v)) →
  let r := run h (prog_bind (λ t0, poll (poll_fuel timeout) (t0 + timeout) v attempt expired) now) w in
  ∃ res, result_of r = Done res ∧
    ∀ a, res = Ok a → ∃ t1 t2 v', trace_of r = t1 ++ t2 ∧ exec (attempt v') t2 (Done (inr a)).
Proof.
  intros Ht Hatt r. pose proof (run_exec h (prog_bind (λ t0, poll (poll_fuel timeout) (t0 + timeout) v attempt expired) now) w) as He.
  fold r in He.
  assert (∃ res, result_of r = Done res) as [res Hres].
  { unfold r, now. cbn [prog_bind]. rewrite result_call, clock_now.
    apply poll_timeout_returns; [done|done|apply clock_mono]. }
  exists res. split; [done|]. intros a ->. rewrite Hres in He. destruct He as (t0 & t' & -> & He).
  apply poll_ok in He as (t1 & t2 & v' & -> & H). by exists (Ev (S := SysSig) Now t0 :: t1), t2, v'.
Qed.

End clock.

(** ** A concrete environment *)

(** A Redis that answers every command with success. *)
Definition agreeable (m : RedisClient.method) : unit → RedisClient.reply m * unit :=
  λ w, (match m return RedisClient.reply m with
        | RedisClient.Info _ _ | RedisClient.SentinelMaster _ _ => Ok ∅
        | RedisClient.ConfigGet _ _ | RedisClient.Role _ => Ok ""
        | RedisClient.ClusterInfo _ => Ok {| ci_State := "ok"; ci_SlotsAssigned := 16384; ci_SlotsOK := 16384;
                                 ci_SlotsPFail := 0; ci_SlotsFail := 0; ci_KnownNodes := 6; ci_ClusterSize := 3; ci_CurrentEpoch := 1; ci_MyEpoch := 1;
                                 ci_StatsMessagesSent := 0; ci_StatsMessagesReceived := 0 |}
        | RedisClient.ClusterNodes _ => Ok sample_nodes
        | RedisClient.ClusterGetKeysInSlot _ _ _ => Ok []
        | RedisClient.ClusterCountKeysInSlot _ _ => Ok 0
        | RedisClient.SentinelGetMasterAddr _ _ => Ok ("10.0.0.1", 6379)
        | _ => Ok tt
        end, w).
