(* ===== verification/Cluster.v ===== *)
(** * internal/redis/cluster.go

    The [ClusterManager]: formation of a Redis Cluster, distribution and
    migration of hash slots, addition and removal of nodes, and the polling
    of the cluster state, written against the [RedisClient] interface. *)

From S2P Require Import Prelude Go Effects Client Sys.

Local Open Scope Z_scope.

Definition totalHashSlots : Z := 16384.
Definition migrateTimeout : Z := 5000.
Definition migrateBatch : Z := 100.

(** A snapshot of the topology. *)
Record ClusterState := {
  cs_State : string;
  cs_SlotsAssigned : Z;
  cs_SlotsOK : Z;
  cs_SlotsPFail : Z;
  cs_SlotsFail : Z;
  cs_KnownNodes : Z;
  cs_Size : Z;
  cs_Nodes : list ClusterNode
}.

(** ** Helpers *)

Definition splitAddr (addr : string) : result (string * Z) :=
  match last_index_byte ":" addr with
  | None => Fail (Errorf "invalid address (no port): %s" [AStr addr])
  | Some idx =>
      match sscanf_d (str_drop (S idx) addr) with
      | Fail e => Fail (Errorf "invalid port in address %s: %w" [AStr addr; AErr e])
      | Ok port => Ok (str_take idx addr, port)
      end
  end.

Definition has_flag (f : string) (node : ClusterNode) : bool :=
  existsb (String.eqb f) (cn_Flags node).

Definition isMaster (node : ClusterNode) : bool := has_flag "master" node.

Definition masterNodeIDs (nodes : list ClusterNode) : list string :=
  omap (λ n, if isMaster n then Some (cn_NodeID n) else None) nodes.

Fixpoint selfNodeID (nodes : list ClusterNode) : string :=
  match nodes with
  | [] => ""
  | n :: nodes' => if has_flag "myself" n then cn_NodeID n else selfNodeID nodes'
  end.

Fixpoint nodeIDForAddr (nodes : list ClusterNode) (addr : string) : string :=
  match nodes with
  | [] => ""
  | n :: nodes' => if String.eqb (cn_Addr n) addr then cn_NodeID n else nodeIDForAddr nodes' addr
  end.

(** [for s := s0; s <= last && len(slots) < count; s++]: [room] is what the
    second guard still allows. *)
Fixpoint collectRange (room : nat) (s last : Z) : list Z :=
  match room with
  | O => []
  | S room' => if s <=? last then s :: collectRange room' (wrap64 (s + 1)) last else []
  end.

(** The ranges of one node, leaving the loop once [count] is reached. *)
Fixpoint collectRanges (count : Z) (slots : list Z) (srs : list SlotRange) : list Z :=
  match srs with
  | [] => slots
  | sr :: srs' =>
      let slots' := slots ++ collectRange (Z.to_nat (count - zlen slots)) (sr_Start sr) (sr_End sr) in
      if count <=? zlen slots' then slots' else collectRanges count slots' srs'
  end.

Definition collectSlots (nodes : list ClusterNode) (nodeID : string) (count : Z) : list Z :=
  fold_left (λ slots n,
    if String.eqb (cn_NodeID n) nodeID then collectRanges count slots (cn_Slots n) else slots)
    nodes [].

(** [for s := first; s <= last; s++ { slots = append(slots, s) }] *)
Definition slotsFromTo (first last : Z) : list Z := seqZ first (last - first + 1).

(** ** Slot assignment *)

(** [start] and [end] of the [i]-th of [n] masters. *)
Definition slotBounds (n i : Z) : Z * Z :=
  let slotsPerMaster := totalHashSlots / n in
  let start := i * slotsPerMaster in
  (start, if i =? n - 1 then totalHashSlots - 1 else start + slotsPerMaster - 1).

Definition AssignSlotsEvenly (masterAddrs : list string) : prog SysSig (result unit) :=
  let n := zlen masterAddrs in
  if n =? 0 then mret (Fail (Errorf "no master addresses provided" []))
  else
    for_each (enumerate masterAddrs) (λ '(i, addr),
      let '(start, stop) := slotBounds n i in
      _ ←? rcall (RedisClient.ClusterAddSlots addr (slotsFromTo start stop))
        orelse (λ e, Errorf "CLUSTER ADDSLOTS on %s (slots %d–%d): %w"
                       [AStr addr; AInt start; AInt stop; AErr e]);
      mret (Ok tt)).

(** ** Slot migration *)

Section fuel.
Context (fuel : nat).

(** The loop of [migrateKeys]; each turn moves one batch. *)
Fixpoint migrateKeysLoop (fuel : nat) (sourceAddr destIP : string) (destPort slot : Z)
  : prog SysSig (result unit) :=
  match fuel with
  | O => Halt OutOfFuel
  | S fuel' =>
      keys ←? rcall (RedisClient.ClusterGetKeysInSlot sourceAddr slot migrateBatch)
        orelse (λ e, Errorf "CLUSTER GETKEYSINSLOT %d: %w" [AInt slot; AErr e]);
      if zlen keys =? 0 then mret (Ok tt)
      else
        _ ←? for_each keys (λ key,
          _ ←? rcall (RedisClient.Migrate sourceAddr destIP destPort key 0 migrateTimeout)
            orelse (λ e, Errorf "MIGRATE key %q to %s:%d: %w"
                           [AStr key; AStr destIP; AInt destPort; AErr e]);
          mret (Ok tt));
        migrateKeysLoop fuel' sourceAddr destIP destPort slot
  end.

Definition migrateKeys := migrateKeysLoop fuel.

(** [_ = m.client.ClusterSetSlot(...)] *)
Definition setSlotIgnored (addr : string) (slot : Z) (sub nodeID : string) : prog SysSig unit :=
  _ ← rcall (RedisClient.ClusterSetSlot addr slot sub nodeID); mret tt.

Definition MigrateSlot (sourceAddr destAddr : string) (slot : Z) : prog SysSig (result unit) :=
  match splitAddr destAddr with
  | Fail e => mret (Fail e)
  | Ok (destIP, destPort) =>
      destNodes ←? rcall (RedisClient.ClusterNodes destAddr)
        orelse (λ e, Errorf "fetching dest nodes: %w" [AErr e]);
      let destNodeID := selfNodeID destNodes in
      if String.eqb destNodeID ""
      then mret (Fail (Errorf "could not determine destination node ID for %s" [AStr destAddr]))
      else
      srcNodes ←? rcall (RedisClient.ClusterNodes sourceAddr)
        orelse (λ e, Errorf "fetching source nodes: %w" [AErr e]);
      let srcNodeID := selfNodeID srcNodes in
      if String.eqb srcNodeID ""
      then mret (Fail (Errorf "could not determine source node ID for %s" [AStr sourceAddr]))
      else
      _ ←? rcall (RedisClient.ClusterSetSlot destAddr slot "IMPORTING" srcNodeID)
        orelse (λ e, Errorf "CLUSTER SETSLOT %d IMPORTING: %w" [AInt slot; AErr e]);
      r ← rcall (RedisClient.ClusterSetSlot sourceAddr slot "MIGRATING" destNodeID);
      match r with
      | Fail e =>
          _ ← setSlotIgnored destAddr slot "STABLE" "";
          mret (Fail (Errorf "CLUSTER SETSLOT %d MIGRATING: %w" [AInt slot; AErr e]))
      | Ok _ =>
          r ← migrateKeys sourceAddr destIP destPort slot;
          match r with
          | Fail e =>
              _ ← setSlotIgnored sourceAddr slot "STABLE" "";
              _ ← setSlotIgnored destAddr slot "STABLE" "";
              mret (Fail (Errorf "migrating keys in slot %d: %w" [AInt slot; AErr e]))
          | Ok _ =>
              allNodes ←? rcall (RedisClient.ClusterNodes sourceAddr)
                orelse (λ e, Errorf "fetching all nodes to commit slot %d: %w" [AInt slot; AErr e]);
              _ ← do_each allNodes (λ node, setSlotIgnored (cn_Addr node) slot "NODE" destNodeID);
              mret (Ok tt)
          end
      end
  end.

Definition MigrateSlotsRange (sourceAddr destAddr : string) (startSlot endSlot : Z)
  : prog SysSig (result unit) :=
  for_each (slotsFromTo startSlot endSlot) (λ slot, MigrateSlot sourceAddr destAddr slot).

(** ** Rebalancing *)

(** [total += sr.End - sr.Start + 1] over the ranges of a node. *)
Definition nodeSlotCount (node : ClusterNode) : Z :=
  fold_left (λ total sr, wrap64 (total + (sr_End sr - sr_Start sr + 1))) (cn_Slots node) 0.

(** [slotCounts] and [nodeAddrByID]: the slot count and the address of every
    master the cluster reports. *)
Definition masterTables (nodes : list ClusterNode) : gmap string Z * gmap string string :=
  fold_left (λ '(counts, addrs) node,
    if isMaster node
    then (<[cn_NodeID node := nodeSlotCount node]> counts,
          <[cn_NodeID node := cn_Addr node]> addrs)
    else (counts, addrs)) nodes (∅, ∅).

(** [needed] for a receiver that holds [toMove] slots. *)
Definition slotsNeeded (target excess toMove : Z) : Z :=
  let needed := wrap64 (target - toMove) in
  if excess <? needed then excess else needed.

(** The loop over the receivers of one donor; [excess] is its local variable. *)
Definition donateTo (target : Z) (slotCounts : gmap string Z) (donorID donorAddr : string)
    (donorNodes : list ClusterNode) (excess : Z) (receiverAddr : string)
  : prog SysSig (result Z) :=
  if String.eqb receiverAddr donorAddr || (excess <=? 0) then mret (Ok excess)
  else
    let receiverNodeID := nodeIDForAddr donorNodes receiverAddr in
    if String.eqb receiverNodeID "" then mret (Ok excess)
    else
      let toMove := default 0 (slotCounts !! receiverNodeID) in
      if target <=? toMove then mret (Ok excess)
      else
        let needed := slotsNeeded target excess toMove in
        _ ←? for_each (collectSlots donorNodes donorID needed) (λ slot,
               MigrateSlot donorAddr receiverAddr slot);
        mret (Ok (wrap64 (excess - needed))).

(** One turn of the loop over the donors. *)
Definition drainDonor (target : Z) (masterAddrs : list string) (slotCounts : gmap string Z)
    (nodeAddrByID : gmap string string) (donorID : string) : prog SysSig (result unit) :=
  let excess := wrap64 (default 0 (slotCounts !! donorID) - target) in
  if excess <=? 0 then mret (Ok tt)
  else
    let donorAddr := map_get nodeAddrByID donorID in
    donorNodes ←? rcall (RedisClient.ClusterNodes donorAddr);
    _ ←? fold_each masterAddrs excess
           (donateTo target slotCounts donorID donorAddr donorNodes);
    mret (Ok tt).

Definition RebalanceSlots (masterAddrs : list string) : prog SysSig (result unit) :=
  match masterAddrs with
  | [] => panic "runtime error: integer divide by zero"
  | firstAddr :: _ =>
      let target := totalHashSlots / zlen masterAddrs in
      nodes ←? rcall (RedisClient.ClusterNodes firstAddr);
      let '(slotCounts, nodeAddrByID) := masterTables nodes in
      donors ← range_keys slotCounts;
      for_each donors (drainDonor target masterAddrs slotCounts nodeAddrByID)
  end.

(** ** Nodes *)

Definition AddMaster (existingAddr newAddr : string) : prog SysSig (result unit) :=
  match splitAddr newAddr with
  | Fail e => mret (Fail e)
  | Ok (ip, port) => rcall (RedisClient.ClusterMeet existingAddr ip port)
  end.

(** CLUSTER FORGET of [removedID] on every other node; errors are ignored. *)
Definition forgetNode (nodes : list ClusterNode) (removedAddr removedID : string)
  : prog SysSig unit :=
  do_each nodes (λ node,
    if String.eqb (cn_Addr node) removedAddr then mret tt
    else _ ← rcall (RedisClient.ClusterForget (cn_Addr node) removedID); mret tt).

Definition RemoveMaster (clusterAddr removeAddr : string) : prog SysSig (result unit) :=
  nodes ←? rcall (RedisClient.ClusterNodes clusterAddr);
  let removeID := nodeIDForAddr nodes removeAddr in
  if String.eqb removeID ""
  then mret (Fail (Errorf "node %s not found in cluster" [AStr removeAddr]))
  else
    _ ←? rcall (RedisClient.ClusterReset removeAddr false)
      orelse (λ e, Errorf "CLUSTER RESET on %s: %w" [AStr removeAddr; AErr e]);
    _ ← forgetNode nodes removeAddr removeID;
    mret (Ok tt).

Definition AddReplica (replicaAddr masterAddr : string) : prog SysSig (result unit) :=
  match splitAddr replicaAddr with
  | Fail e => mret (Fail e)
  | Ok (ip, port) =>
      _ ←? rcall (RedisClient.ClusterMeet masterAddr ip port);
      nodes ←? rcall (RedisClient.ClusterNodes masterAddr);
      let masterID := nodeIDForAddr nodes masterAddr in
      if String.eqb masterID ""
      then mret (Fail (Errorf "master %s not found in cluster nodes" [AStr masterAddr]))
      else rcall (RedisClient.ClusterReplicate replicaAddr masterID)
  end.

Definition RemoveReplica (clusterAddr replicaAddr : string) : prog SysSig (result unit) :=
  nodes ←? rcall (RedisClient.ClusterNodes clusterAddr);
  let replicaID := nodeIDForAddr nodes replicaAddr in
  if String.eqb replicaID ""
  then mret (Fail (Errorf "replica %s not found in cluster" [AStr replicaAddr]))
  else
    _ ←? rcall (RedisClient.ClusterReset replicaAddr false)
      orelse (λ e, Errorf "CLUSTER RESET on %s: %w" [AStr replicaAddr; AErr e]);
    _ ← forgetNode nodes replicaAddr replicaID;
    mret (Ok tt).

(** ** State *)

Definition GetClusterState (addr : string) : prog SysSig (result ClusterState) :=
  info ←? rcall (RedisClient.ClusterInfo addr);
  nodes ←? rcall (RedisClient.ClusterNodes addr);
  mret (Ok {| cs_State := ci_State info;
              cs_SlotsAssigned := ci_SlotsAssigned info;
              cs_SlotsOK := ci_SlotsOK info;
              cs_SlotsPFail := ci_SlotsPFail info;
              cs_SlotsFail := ci_SlotsFail info;
              cs_KnownNodes := ci_KnownNodes info;
              cs_Size := ci_ClusterSize info;
              cs_Nodes := nodes |}).

Definition VerifySlotCoverage (addr : string) : prog SysSig (result bool) :=
  info ←? rcall (RedisClient.ClusterInfo addr);
  mret (Ok (ci_SlotsAssigned info =? totalHashSlots)).

(** One attempt of the two polling loops. *)
Definition pollInfo (addr : string) (accept : ClusterInfo → bool) (_ : unit)
  : prog SysSig (unit + unit) :=
  r ← rcall (RedisClient.ClusterInfo addr);
  match r with
  | Ok info => mret (if accept info then inr tt else inl tt)
  | Fail _ => mret (inl tt)
  end.

Definition WaitForClusterReady (addr : string) (timeout : Z) : prog SysSig (result unit) :=
  t0 ← now;
  poll fuel (t0 + timeout) tt (pollInfo addr (λ info, String.eqb (ci_State info) "ok"))
    (λ _, Errorf "cluster at %s did not reach state 'ok' within %s" [AStr addr; ADur timeout]).

Definition waitForKnownNodes (addr : string) (expected timeout : Z) : prog SysSig (result unit) :=
  t0 ← now;
  poll fuel (t0 + timeout) tt (pollInfo addr (λ info, expected <=? ci_KnownNodes info))
    (λ _, Errorf "cluster at %s did not reach %d known nodes within %s"
            [AStr addr; AInt expected; ADur timeout]).

(** ** Formation *)

(** CLUSTER MEET of one peer. *)
Definition meetPeer (addr peer : string) (bad_addr bad_meet : error → error)
  : prog SysSig (result unit) :=
  match splitAddr peer with
  | Fail e => mret (Fail (bad_addr e))
  | Ok (ip, port) =>
      _ ←? rcall (RedisClient.ClusterMeet addr ip port) orelse bad_meet;
      mret (Ok tt)
  end.

(** Step 1: every master meets every other one. *)
Definition meetMasters (masterAddrs : list string) : prog SysSig (result unit) :=
  for_each (enumerate masterAddrs) (λ '(i, addr),
    for_each (enumerate masterAddrs) (λ '(j, peer),
      if i =? j then mret (Ok tt)
      else meetPeer addr peer
             (λ e, Errorf "invalid master address %q: %w" [AStr peer; AErr e])
             (λ e, Errorf "CLUSTER MEET %s → %s: %w" [AStr addr; AStr peer; AErr e]))).

(** Step 3: the replicas meet the first master. *)
Definition meetReplicas (firstMaster : string) (replicaAddrs : list string)
  : prog SysSig (result unit) :=
  for_each replicaAddrs (λ rAddr,
    meetPeer firstMaster rAddr
      (λ e, Errorf "invalid replica address %q: %w" [AStr rAddr; AErr e])
      (λ e, Errorf "CLUSTER MEET replica %s: %w" [AStr rAddr; AErr e])).

(** Replica [i] follows the master at position [i % len(masterIDs)]. *)
Definition replicateRoundRobin (masterIDs replicaAddrs : list string)
  : prog SysSig (result unit) :=
  for_each (enumerate replicaAddrs) (λ '(i, rAddr),
    match masterIDs !! Z.to_nat (i `mod` zlen masterIDs) with
    | None => panic "runtime error: index out of range"
    | Some masterID =>
        _ ←? rcall (RedisClient.ClusterReplicate rAddr masterID)
          orelse (λ e, Errorf "CLUSTER REPLICATE %s → %s: %w" [AStr rAddr; AStr masterID; AErr e]);
        mret (Ok tt)
    end).

Definition FormCluster (masterAddrs replicaAddrs : list string) (replicasPerMaster : Z)
  : prog SysSig (result unit) :=
  if zlen masterAddrs <? 3
  then mret (Fail (Errorf "need at least 3 masters to form a cluster, got %d" [AInt (zlen masterAddrs)]))
  else
    match masterAddrs with
    | [] => panic "runtime error: index out of range"
    | first :: _ =>
        _ ←? meetMasters masterAddrs;
        _ ←? waitForKnownNodes first (zlen masterAddrs) (30 * second)
          orelse (λ e, Errorf "waiting for cluster formation: %w" [AErr e]);
        _ ←? AssignSlotsEvenly masterAddrs
          orelse (λ e, Errorf "assigning slots: %w" [AErr e]);
        _ ←? WaitForClusterReady first (60 * second)
          orelse (λ e, Errorf "waiting for cluster ready after slot assignment: %w" [AErr e]);
        if (zlen replicaAddrs =? 0) || (replicasPerMaster =? 0) then mret (Ok tt)
        else
          _ ←? meetReplicas first replicaAddrs;
          _ ←? waitForKnownNodes first (zlen masterAddrs + zlen replicaAddrs) (60 * second)
            orelse (λ e, Errorf "waiting for replicas to join: %w" [AErr e]);
          nodes ←? rcall (RedisClient.ClusterNodes first)
            orelse (λ e, Errorf "fetching cluster nodes: %w" [AErr e]);
          let masterIDs := masterNodeIDs nodes in
          if negb (zlen masterIDs =? zlen masterAddrs)
          then mret (Fail (Errorf "expected %d master IDs, found %d"
                             [AInt (zlen masterAddrs); AInt (zlen masterIDs)]))
          else replicateRoundRobin masterIDs replicaAddrs
    end.

End fuel.
