(* ===== verification/Slots.v ===== *)
(** * Distribution of the hash slots (theorems on cluster.go)

    [AssignSlotsEvenly] partitions the slot space over the masters;
    [collectSlots] takes the first slots of a node. *)

From S2P Require Import Prelude Go Effects Client Sys Cluster.

Local Open Scope Z_scope.

(** ** AssignSlotsEvenly *)

(** The slots of the [i]-th of [n] masters. *)
Definition chunk (n i : Z) : list Z :=
  slotsFromTo (fst (slotBounds n i)) (snd (slotBounds n i)).

Lemma chunk_inner n i :
  i ≠ n - 1 → chunk n i = seqZ (i * (totalHashSlots / n)) (totalHashSlots / n).
Proof.
  intros Hi. unfold chunk, slotsFromTo, slotBounds. cbn [fst snd].
  destruct (i =? n - 1) eqn:E; [blia|]. f_equal. lia.
Qed.

Lemma chunk_last n :
  chunk n (n - 1) = seqZ ((n - 1) * (totalHashSlots / n))
                      (totalHashSlots - (n - 1) * (totalHashSlots / n)).
Proof.
  unfold chunk, slotsFromTo, slotBounds. cbn [fst snd]. rewrite Z.eqb_refl. f_equal. lia.
Qed.

Lemma quota_bounds n : 0 < n → 0 ≤ totalHashSlots / n ∧ n * (totalHashSlots / n) ≤ totalHashSlots.
Proof.
  intros Hn. split; [by apply Z.div_pos|]. by apply Z.mul_div_le.
Qed.

(** The first [k] chunks, the last one excluded, cover a prefix. *)
Lemma chunks_prefix n (k : nat) :
  0 < n → Z.of_nat k ≤ n - 1 →
  concat ((λ i, chunk n (Z.of_nat i)) <$> seq 0 k) = seqZ 0 (Z.of_nat k * (totalHashSlots / n)).
Proof.
  intros Hn. destruct (quota_bounds n Hn) as [Hq _]. induction k as [|k IH]; intros Hk; [done|].
  rewrite seq_S, fmap_app, concat_app, IH by lia. cbn [fmap list_fmap concat].
  rewrite app_nil_r, Nat.add_0_l, chunk_inner by lia.
  replace (Z.of_nat (S k) * (totalHashSlots / n))
    with (Z.of_nat k * (totalHashSlots / n) + totalHashSlots / n) by lia.
  rewrite seqZ_app by nia. f_equal.
Qed.

Lemma chunks_cover (k : nat) :
  concat ((λ i, chunk (Z.of_nat (S k)) (Z.of_nat i)) <$> seq 0 (S k)) = seqZ 0 totalHashSlots.
Proof.
  rewrite seq_S, fmap_app, concat_app, chunks_prefix by lia. cbn [fmap list_fmap concat].
  rewrite app_nil_r, Nat.add_0_l.
  destruct (quota_bounds (Z.of_nat (S k))) as [Hq1 Hq2]; [lia|].
  replace (Z.of_nat k) with (Z.of_nat (S k) - 1) by lia. rewrite chunk_last.
  set (q := totalHashSlots / Z.of_nat (S k)) in *.
  replace totalHashSlots with ((Z.of_nat (S k) - 1) * q + (totalHashSlots - (Z.of_nat (S k) - 1) * q)) at 2 by lia.
  rewrite seqZ_app by nia. f_equal.
Qed.

Lemma chunk_size n i :
  0 < n → 0 ≤ i < n →
  totalHashSlots / n ≤ zlen (chunk n i) < totalHashSlots / n + n.
Proof.
  intros Hn Hi. destruct (quota_bounds n Hn) as [Hq1 Hq2].
  pose proof (Z.mul_succ_div_gt totalHashSlots n Hn) as Hgt.
  destruct (decide (i = n - 1)) as [->|Hne].
  - rewrite chunk_last. unfold zlen. rewrite length_seqZ. rewrite Z2Nat.id by nia. nia.
  - rewrite chunk_inner by done. unfold zlen. rewrite length_seqZ. rewrite Z2Nat.id by lia. lia.
Qed.

Lemma exec_assign_body n (ia : Z * string) t out :
  exec (let '(i, addr) := ia in
        let '(start, stop) := slotBounds n i in
        bind_ok (λ e, Errorf "CLUSTER ADDSLOTS on %s (slots %d–%d): %w"
                   [AStr addr; AInt start; AInt stop; AErr e])
          (λ _ : unit, mret (Ok tt))
          (rcall (RedisClient.ClusterAddSlots addr (slotsFromTo start stop)))) t out →
  redis_calls t = [RedisClient.ClusterAddSlots ia.2 (chunk n ia.1)] ∧
  (Forall reply_ok t → out = Done (Ok tt)).
Proof.
  destruct ia as [i addr]. unfold chunk. cbn [fst snd].
  destruct (slotBounds n i) as [start stop]. cbn [fst snd].
  rewrite exec_bind_ok. setoid_rewrite exec_rcall.
  intros [(t1 & [] & t2 & -> & (r & -> & Hr) & -> & ->)|[(e & -> & r & -> & Hr)|(h & -> & r & -> & Hr)]];
    split; try done; intros HF; apply Forall_cons in HF as [HF _]; injection Hr as <-; done.
Qed.

(** The ADDSLOTS calls of a complete assignment. *)
Definition assign_calls (masterAddrs : list string) : list RedisClient.method :=
  (λ ia, RedisClient.ClusterAddSlots ia.2 (chunk (zlen masterAddrs) ia.1)) <$> enumerate masterAddrs.

Lemma assign_loop n l t out :
  exec (for_each l (λ '(i, addr),
      let '(start, stop) := slotBounds n i in
      _ ←? rcall (RedisClient.ClusterAddSlots addr (slotsFromTo start stop))
        orelse (λ e, Errorf "CLUSTER ADDSLOTS on %s (slots %d–%d): %w"
                       [AStr addr; AInt start; AInt stop; AErr e]);
      mret (Ok tt))) t out →
  redis_calls t `prefix_of` ((λ ia, RedisClient.ClusterAddSlots ia.2 (chunk n ia.1)) <$> l) ∧
  (out = Done (Ok tt) →
   redis_calls t = (λ ia, RedisClient.ClusterAddSlots ia.2 (chunk n ia.1)) <$> l).
Proof.
  revert t. induction l as [|ia l IH]; intros t; [intros [-> ->]; done|].
  rewrite exec_for_each_cons. intros [(t1 & t2 & -> & H1 & H2)|[Hne H]].
  - apply exec_assign_body in H1 as [H1 _]. destruct (IH _ H2) as [H3 H4].
    rewrite redis_calls_app, H1, fmap_cons. simpl. split; [by apply prefix_cons|].
    intros Ho. by rewrite H4.
  - apply exec_assign_body in H as [H _]. rewrite H, fmap_cons. split; [|done].
    apply prefix_cons, prefix_nil.
Qed.

Lemma concat_assign_chunks (masterAddrs : list string) :
  masterAddrs ≠ [] →
  concat ((λ ia, chunk (zlen masterAddrs) ia.1) <$> enumerate masterAddrs) = seqZ 0 totalHashSlots.
Proof.
  intros Hne. destruct (length masterAddrs) as [|k] eqn:E; [by destruct masterAddrs|].
  rewrite <- (chunks_cover k). f_equal. unfold zlen, enumerate. rewrite E.
  rewrite fmap_imap. apply list_eq. intros i. rewrite list_lookup_imap, list_lookup_fmap.
  destruct (decide (i < S k)%nat) as [Hi|Hi].
  - rewrite lookup_seq_lt by done. destruct (lookup_lt_is_Some_2 masterAddrs i) as [x Hx]; [lia|].
    by rewrite Hx.
  - rewrite lookup_seq_ge by lia. rewrite (proj2 (lookup_ge_None masterAddrs i)) by lia. done.
Qed.

(** C4: [AssignSlotsEvenly] partitions the hash-slot space.  When it returns
    nil it has called CLUSTER ADDSLOTS once per master, in the order of the
    masters, with chunks that laid end to end are exactly 0, 1, ..., 16383 -
    no slot left out, none given twice - and of which each holds at least
    [16384 / n] and fewer than [16384 / n + n] slots.  It returns nil
    whenever every call succeeds, and on any error the calls made are a
    prefix of that sequence. *)
Theorem AssignSlotsEvenly_partition masterAddrs t out :
  masterAddrs ≠ [] → exec (AssignSlotsEvenly masterAddrs) t out →
  let n := zlen masterAddrs in
  ∃ chunks,
    length chunks = length masterAddrs ∧
    concat chunks = seqZ 0 totalHashSlots ∧
    Forall (λ c, totalHashSlots / n ≤ zlen c < totalHashSlots / n + n) chunks ∧
    redis_calls t `prefix_of` zip_with RedisClient.ClusterAddSlots masterAddrs chunks ∧
    (out = Done (Ok tt) → redis_calls t = zip_with RedisClient.ClusterAddSlots masterAddrs chunks) ∧
    (Forall reply_ok t → out = Done (Ok tt)).
Proof.
  intros Hne He n.
  exists ((λ ia, chunk n ia.1) <$> enumerate masterAddrs).
  assert (0 < n) as Hn.
  { unfold n, zlen. destruct masterAddrs; [done|]. simpl. lia. }
  assert (zip_with RedisClient.ClusterAddSlots masterAddrs
            ((λ ia, chunk n ia.1) <$> enumerate masterAddrs) = assign_calls masterAddrs) as ->.
  { unfold assign_calls. rewrite <- (enumerate_snd masterAddrs) at 1.
    rewrite zip_with_fmap_r, zip_with_fmap_l. by rewrite zip_with_diag. }
  unfold AssignSlotsEvenly in He. fold n in He.
  destruct (n =? 0) eqn:E; [blia|].
  split; [by rewrite length_fmap; unfold enumerate; rewrite length_imap|].
  split; [by apply concat_assign_chunks|].
  split. { apply Forall_fmap, Forall_forall. intros [i a] Hin. apply chunk_size; [done|].
    unfold enumerate in Hin. apply elem_of_lookup_imap in Hin as (j & y & [= -> ->] & Hj).
    apply lookup_lt_Some in Hj. unfold n, zlen. simpl. lia. }
  destruct (assign_loop _ _ _ _ He) as [H1 H2]. split; [done|]. split; [done|].
  intros HF. eapply exec_for_each_all; [|exact He|exact HF].
  intros ia tx o Hx HFx. by apply (exec_assign_body n ia) in Hx as [_ Hx]; apply Hx.
Qed.

Lemma AssignSlotsEvenly_partition_witness :
  let masterAddrs := ["a:1"; "b:1"; "c:1"] in
  let r := run (with_clock agreeable) (AssignSlotsEvenly masterAddrs) (tt, 0) in
  result_of r = Done (Ok tt) ∧
  ∃ chunks, concat chunks = seqZ 0 totalHashSlots ∧
    redis_calls (trace_of r) = zip_with RedisClient.ClusterAddSlots masterAddrs chunks.
Proof.
  intros masterAddrs r.
  destruct (AssignSlotsEvenly_partition masterAddrs (trace_of r) (result_of r))
    as (chunks & _ & Hc & _ & _ & Ht & _); [discriminate|apply run_exec|].
  split; [reflexivity|]. exists chunks. split; [exact Hc|]. apply Ht. reflexivity.
Defined.

(** ** collectSlots *)

(** The slots CLUSTER NODES reports for a node, range by range. *)
Definition node_slots (node : ClusterNode) : list Z :=
  concat ((λ sr, slotsFromTo (sr_Start sr) (sr_End sr)) <$> cn_Slots node).

Definition slots_of (nodes : list ClusterNode) (nodeID : string) : list Z :=
  concat ((λ n, if String.eqb (cn_NodeID n) nodeID then node_slots n else []) <$> nodes).

(** A range whose bounds are below the largest [int]. *)
Definition range_ok (sr : SlotRange) : Prop :=
  - 2 ^ 63 ≤ sr_Start sr ∧ sr_End sr < 2 ^ 63 - 1.

Lemma collectRange_take room s last :
  - 2 ^ 63 ≤ s → last < 2 ^ 63 - 1 → collectRange room s last = take room (slotsFromTo s last).
Proof.
  intros Hs Hl. revert s Hs. induction room as [|room IH]; intros s Hs; simpl; [by rewrite take_0|].
  unfold slotsFromTo in *. destruct (s <=? last) eqn:E.
  - rewrite wrap64_id by (unfold int64_range; blia). rewrite IH by blia.
    rewrite (seqZ_cons s) by blia. simpl. do 3 f_equal; lia.
  - rewrite seqZ_nil by blia. done.
Qed.

Lemma take_app_room {A} (count : Z) (l k : list A) :
  take (Z.to_nat count) (take (Z.to_nat count) l ++ k) =
  take (Z.to_nat count) l ++ take (Z.to_nat (count - zlen (take (Z.to_nat count) l))) k.
Proof.
  rewrite take_app, take_take, Nat.min_id. f_equal. f_equal. unfold zlen.
  rewrite length_take. lia.
Qed.

Lemma collectRanges_take count all srs :
  Forall range_ok srs →
  collectRanges count (take (Z.to_nat count) all) srs =
  take (Z.to_nat count) (all ++ concat ((λ sr, slotsFromTo (sr_Start sr) (sr_End sr)) <$> srs)).
Proof.
  intros H. revert all. induction H as [|sr srs [Hs He] Hsrs IH]; intros all; simpl.
  - by rewrite app_nil_r.
  - rewrite collectRange_take by done. set (r := slotsFromTo _ _).
    rewrite <- take_app_room.
    assert (∀ k : list Z, take (Z.to_nat count) (take (Z.to_nat count) all ++ k)
              = take (Z.to_nat count) (all ++ k)) as Hn.
    { intros k. rewrite !take_app, take_take, Nat.min_id. f_equal. f_equal.
      rewrite length_take. lia. }
    rewrite !Hn. rewrite (assoc_L (++) all r). case_bool; [|apply IH].
    rewrite (take_app_le (all ++ r)); [done|].
    unfold zlen in *. rewrite length_take in *. blia.
Qed.

(** C37: [collectSlots] returns exactly the first [count] slots that CLUSTER
    NODES reports for the node, in order: never more than asked, never a slot
    of another node, and all the node has when it has fewer. *)
Theorem collectSlots_first nodes nodeID count :
  Forall (λ n, Forall range_ok (cn_Slots n)) nodes →
  collectSlots nodes nodeID count = take (Z.to_nat count) (slots_of nodes nodeID).
Proof.
  intros H. unfold collectSlots, slots_of.
  assert (∀ all, fold_left (λ slots n,
      if String.eqb (cn_NodeID n) nodeID then collectRanges count slots (cn_Slots n) else slots)
      nodes (take (Z.to_nat count) all) =
    take (Z.to_nat count) (all ++ concat ((λ n, if String.eqb (cn_NodeID n) nodeID then node_slots n else []) <$> nodes)))
    as Hg.
  { induction H as [|n nodes Hn Hns IH]; intros all; simpl; [by rewrite app_nil_r|].
    destruct (String.eqb (cn_NodeID n) nodeID); [|apply IH].
    by rewrite collectRanges_take, IH, (assoc_L (++)). }
  specialize (Hg []). by rewrite take_nil in Hg.
Qed.

Lemma collectSlots_first_witness :
  Forall (λ n, Forall range_ok (cn_Slots n)) sample_nodes ∧
  collectSlots sample_nodes "aa" 2 = [0; 1].
Proof.
  assert (Forall (λ n, Forall range_ok (cn_Slots n)) sample_nodes) as H
    by (repeat constructor; vm_compute; congruence).
  split; [exact H|]. rewrite (collectSlots_first _ _ _ H). reflexivity.
Defined.
