(* ===== verification/Migration.v ===== *)
(** * Migration of one hash slot (theorems on cluster.go)

    The order of the SETSLOT, GETKEYSINSLOT and MIGRATE calls of
    [MigrateSlot] on success, its rollback on failure, and that
    [migrateKeys] empties the slot and terminates on a Redis that behaves as
    documented. *)

From S2P Require Import Prelude Go Effects Client Sys Cluster.

Local Open Scope Z_scope.

Section migration.
Context (sourceAddr destAddr destIP : string) (destPort slot : Z).

(** The calls of [migrateKeys] when it succeeds: batches of keys, each key of
    a batch moved in order, until the source reports no key left. *)
Inductive key_batches : list (event SysSig) → Prop :=
| kb_done :
    key_batches [ev (RedisClient.ClusterGetKeysInSlot sourceAddr slot migrateBatch) (Ok [])]
| kb_more keys t :
    keys ≠ [] → key_batches t →
    key_batches
      (ev (RedisClient.ClusterGetKeysInSlot sourceAddr slot migrateBatch) (Ok keys)
       :: ((λ key, ev (RedisClient.Migrate sourceAddr destIP destPort key 0 migrateTimeout) (Ok tt)) <$> keys)
       ++ t).

Definition moveKey (key : string) : prog SysSig (result unit) :=
  _ ←? rcall (RedisClient.Migrate sourceAddr destIP destPort key 0 migrateTimeout)
    orelse (λ e, Errorf "MIGRATE key %q to %s:%d: %w"
                   [AStr key; AStr destIP; AInt destPort; AErr e]);
  mret (Ok tt).

Lemma migrateKeysLoop_unfold n :
  migrateKeysLoop (S n) sourceAddr destIP destPort slot =
  (keys ←? rcall (RedisClient.ClusterGetKeysInSlot sourceAddr slot migrateBatch)
     orelse (λ e, Errorf "CLUSTER GETKEYSINSLOT %d: %w" [AInt slot; AErr e]);
   if zlen keys =? 0 then mret (Ok tt)
   else _ ←? for_each keys moveKey; migrateKeysLoop n sourceAddr destIP destPort slot).
Proof. done. Qed.

Lemma moveKeys_ok keys t :
  exec (for_each keys moveKey) t (Done (Ok tt)) →
  t = (λ key, ev (RedisClient.Migrate sourceAddr destIP destPort key 0 migrateTimeout) (Ok tt)) <$> keys.
Proof.
  revert t. induction keys as [|key keys IH]; intros t; [by intros [-> _]|].
  rewrite exec_for_each_cons. intros [(t1 & t2 & -> & H1 & H2)|[Hne _]]; [|done].
  exec_step_ok H1; exec_done H1. rewrite (IH _ H2). by destruct r.
Qed.

Lemma migrateKeys_ok n t :
  exec (migrateKeysLoop n sourceAddr destIP destPort slot) t (Done (Ok tt)) → key_batches t.
Proof.
  revert t. induction n as [|n IH]; intros t H; [by destruct H|].
  rewrite migrateKeysLoop_unfold in H. exec_step_ok H; [|exec_done H].
  exec_simpl H. destruct (zlen r =? 0) eqn:E.
  - exec_done H. blia. apply zlen_zero in E as ->. constructor.
  - apply exec_bind_ok in H as [(t1 & [] & t2 & -> & H1 & H2)|[(e & ? & _)|(h & ? & _)]]; [|done|done].
    rewrite (moveKeys_ok _ _ H1). constructor; [|by apply IH]. by intros ->.
Qed.

(** The SETSLOT calls of a trace: node, subcommand and node ID. *)
Definition setslots (t : list (event SysSig)) : list (string * string * string) :=
  omap (λ m, match m with
             | RedisClient.ClusterSetSlot addr _ sub id => Some (addr, sub, id)
             | _ => None
             end) (redis_calls t).

Lemma setslots_app t1 t2 : setslots (t1 ++ t2) = setslots t1 ++ setslots t2.
Proof. unfold setslots. by rewrite redis_calls_app, omap_app. Qed.

Lemma setslots_around l t l' : setslots t = [] → setslots (l ++ t ++ l') = setslots l ++ setslots l'.
Proof. intros H. by rewrite !setslots_app, H. Qed.

Lemma moveKeys_setslots keys t out : exec (for_each keys moveKey) t out → setslots t = [].
Proof.
  revert t. induction keys as [|key keys IH]; intros t; [by intros [-> _]|].
  rewrite exec_for_each_cons. intros [(t1 & t2 & -> & H1 & H2)|[_ H1]].
  - rewrite setslots_app, (IH _ H2), app_nil_r. exec_step_ok H1; by destruct H1 as [-> _].
  - exec_step_ok H1; by destruct H1 as [-> _].
Qed.

Lemma migrateKeys_setslots n t out :
  exec (migrateKeysLoop n sourceAddr destIP destPort slot) t out → setslots t = [].
Proof.
  revert t out. induction n as [|n IH]; intros t out H; [by destruct H as [-> _]|].
  rewrite migrateKeysLoop_unfold in H. exec_step_ok H; [|by destruct H as [-> _]].
  exec_simpl H. destruct (zlen r =? 0); [by destruct H as [-> _]|].
  change (setslots t0 = []).
  apply exec_bind_ok in H as [(t1 & [] & t2 & -> & H1 & H2)|[(e & -> & H)|(h & -> & H)]].
  - by rewrite setslots_app, (moveKeys_setslots _ _ _ H1), (IH _ _ H2).
  - by apply moveKeys_setslots in H.
  - by apply moveKeys_setslots in H.
Qed.

End migration.


(** The loop that commits the slot never stops early. *)
Lemma exec_commit nodes slot id t out :
  exec (do_each nodes (λ node, setSlotIgnored (cn_Addr node) slot "NODE" id)) t out →
  out = Done tt ∧
  redis_calls t = (λ n, RedisClient.ClusterSetSlot (cn_Addr n) slot "NODE" id) <$> nodes.
Proof.
  revert t. induction nodes as [|n nodes IH]; intros t; [by intros [-> ->]|].
  rewrite exec_do_each_cons. intros [(t1 & t2 & -> & H1 & H2)|(h & -> & H1)]; [|by exec_step H1; exec_done H1].
  exec_step H1. exec_done H1. destruct (IH _ H2) as [-> H3]. split; [done|].
  rewrite redis_calls_app, H3. done.
Qed.

(** C5: The order of a successful migration.  When [MigrateSlot] returns nil
    it has read the node IDs of both ends from their own CLUSTER NODES, set
    the slot IMPORTING (from the source) on the destination before MIGRATING
    (to the destination) on the source, moved every batch of keys the source
    listed until it listed none, and only then committed the slot with
    SETSLOT NODE, to the destination's ID, on every node of the source's
    view, the calls being made in exactly that order and no others. *)
Theorem MigrateSlot_commit fuel sourceAddr destAddr slot t :
  exec (MigrateSlot fuel sourceAddr destAddr slot) t (Done (Ok tt)) →
  ∃ destIP destPort destNodes srcNodes allNodes keys commit,
    splitAddr destAddr = Ok (destIP, destPort) ∧
    selfNodeID srcNodes ≠ "" ∧ selfNodeID destNodes ≠ "" ∧
    t = [ev (RedisClient.ClusterNodes destAddr) (Ok destNodes);
         ev (RedisClient.ClusterNodes sourceAddr) (Ok srcNodes);
         ev (RedisClient.ClusterSetSlot destAddr slot "IMPORTING" (selfNodeID srcNodes)) (Ok tt);
         ev (RedisClient.ClusterSetSlot sourceAddr slot "MIGRATING" (selfNodeID destNodes)) (Ok tt)]
        ++ keys ++ ev (RedisClient.ClusterNodes sourceAddr) (Ok allNodes) :: commit ∧
    key_batches sourceAddr destIP destPort slot keys ∧
    redis_calls commit =
      (λ n, RedisClient.ClusterSetSlot (cn_Addr n) slot "NODE" (selfNodeID destNodes)) <$> allNodes.
Proof.
  unfold MigrateSlot. destruct (splitAddr destAddr) as [[ip port]|e]; intros H; [|exec_done H].
  exec_step_ok H; [|exec_done H]. exec_simpl H.
  destruct (String.eqb (selfNodeID r) "") eqn:E1; [exec_done H|].
  exec_step_ok H; [|exec_done H]. exec_simpl H.
  destruct (String.eqb (selfNodeID r0) "") eqn:E2; [exec_done H|].
  exec_step_ok H; [|exec_done H]. exec_step_ok H; [|exec_step H; exec_done H].
  exec_simpl H.
  apply exec_bind in H as [(tk & [[]|e] & t2 & -> & H1 & H2)|(h & ? & _)]; [| |done].
  - exec_step_ok H2; [|exec_done H2]. exec_simpl H2.
    apply exec_bind in H2 as [(tn & [] & t4 & -> & H3 & H4)|(h & ? & _)]; [|done].
    exec_done H4. apply exec_commit in H3 as [_ H3]. rewrite app_nil_r.
    exists ip, port, r, r0, r3, tk, tn. apply String.eqb_neq in E1, E2. destruct r1, r2.
    split_and!; try done. by eapply migrateKeys_ok.
  - exec_step H2. exec_step H2. exec_done H2.
Qed.

(** C6: Rollback of a failed migration.  When [MigrateSlot] returns an error
    the slot was committed nowhere (no SETSLOT NODE was sent), and its
    SETSLOT calls were one of: none; IMPORTING alone, refused; IMPORTING and
    a refused MIGRATING followed by STABLE on the destination; IMPORTING and
    MIGRATING followed, after a failure to move the keys, by STABLE on the
    source and then on the destination.  The one path without rollback is a
    failing CLUSTER NODES after all keys have moved, which leaves the slot
    IMPORTING and MIGRATING. *)
Theorem MigrateSlot_rollback fuel sourceAddr destAddr slot t e :
  exec (MigrateSlot fuel sourceAddr destAddr slot) t (Done (Fail e)) →
  setslots t = [] ∨
  ∃ srcID destID,
    let importing := (destAddr, "IMPORTING", srcID) in
    let migrating := (sourceAddr, "MIGRATING", destID) in
    setslots t = [importing] ∨
    setslots t = [importing; migrating; (destAddr, "STABLE", "")] ∨
    setslots t = [importing; migrating; (sourceAddr, "STABLE", ""); (destAddr, "STABLE", "")] ∨
    (setslots t = [importing; migrating] ∧
     ∃ keys e', last t = Some (ev (RedisClient.ClusterNodes sourceAddr) (Fail e')) ∧
       (∃ destIP destPort, key_batches sourceAddr destIP destPort slot keys) ∧ keys `suffix_of` removelast t).
Proof.
  unfold MigrateSlot. destruct (splitAddr destAddr) as [[ip port]|e']; intros H; [|exec_done H; by left].
  exec_step_ok H; [|exec_done H; by left]. exec_simpl H.
  destruct (String.eqb (selfNodeID r) "") eqn:E1; [exec_done H; by left|].
  exec_step_ok H; [|exec_done H; by left]. exec_simpl H.
  destruct (String.eqb (selfNodeID r0) "") eqn:E2; [exec_done H; by left|]. right.
  exists (selfNodeID r0), (selfNodeID r).
  exec_step_ok H; [|exec_done H; by left]. right.
  exec_step_ok H; [|exec_step H; exec_done H; by left]. right.
  exec_simpl H.
  apply exec_bind in H as [(tk & [[]|e'] & t2 & -> & H1 & H2)|(h & ? & _)]; [| |done].
  - right. exec_step_ok H2.
    + exec_simpl H2. apply exec_bind in H2 as [(tn & [] & t4 & -> & H3 & H4)|(h & ? & _)]; [|done].
      exec_done H4.
    + exec_done H2. pose proof (migrateKeys_setslots _ _ _ _ _ _ _ H1) as Hk.
      apply migrateKeys_ok in H1. split.
      * exact (setslots_around [_; _; _; _] tk [_] Hk).
      * exists tk, r3. split_and!.
        -- rewrite !app_comm_cons, last_snoc. done.
        -- by exists ip, port.
        -- rewrite !app_comm_cons, removelast_last. by eexists [_; _; _; _].
  - left. exec_step H2. exec_step H2. exec_done H2.
    exact (setslots_around [_; _; _; _] tk [_; _] (migrateKeys_setslots _ _ _ _ _ _ _ H1)).
Qed.

(** ** migrateKeys on a Redis that behaves as documented *)

(** What Redis promises of the keys of a slot: CLUSTER GETKEYSINSLOT answers
    with as many different keys of the slot as asked for, or all of them, and
    changes nothing; a MIGRATE that succeeds deletes the key from the source
    and nothing else. *)
Class KeyStore {W} (h : handler SysSig W) := {
  keys_in : W → string → Z → gset string;
  keys_listed addr slot n w l :
    fst (h (Redis (RedisClient.ClusterGetKeysInSlot addr slot n)) w) = Ok l →
    NoDup l ∧ list_to_set l ⊆ keys_in w addr slot ∧
    length l = (Z.to_nat n `min` size (keys_in w addr slot))%nat;
  keys_read addr slot n w :
    keys_in (snd (h (Redis (RedisClient.ClusterGetKeysInSlot addr slot n)) w)) = keys_in w;
  keys_moved addr slot ip port key db timeout w :
    key ∈ keys_in w addr slot →
    fst (h (Redis (RedisClient.Migrate addr ip port key db timeout)) w) = Ok tt →
    keys_in (snd (h (Redis (RedisClient.Migrate addr ip port key db timeout)) w)) addr slot
    = keys_in w addr slot ∖ {[key]}
}.

Section drain.
Context {W : Type} (h : handler SysSig W) {K : KeyStore h}.
Context (sourceAddr destIP : string) (destPort slot : Z).

Lemma moveKeys_run keys w :
  NoDup keys → list_to_set keys ⊆ keys_in w sourceAddr slot →
  ∃ r w' t, run h (for_each keys (moveKey sourceAddr destIP destPort)) w = (Done r, w', t) ∧
    (r = Ok tt → keys_in w' sourceAddr slot = keys_in w sourceAddr slot ∖ list_to_set keys).
Proof.
  revert w. induction keys as [|key keys IH]; intros w Hnd Hsub.
  - eexists _, w, _. split; [done|]. intros _. simpl. set_solver.
  - apply NoDup_cons in Hnd as [Hk Hnd]. simpl in Hsub.
    pose proof (keys_moved sourceAddr slot destIP destPort key 0 migrateTimeout w) as Hm.
    simpl. destruct (h _ w) as [r w1] eqn:E. simpl in Hm. destruct r as [[]|e]; simpl.
    + specialize (Hm ltac:(set_solver) eq_refl).
      destruct (IH w1 Hnd) as (r & w2 & t & Hr & Hw); [set_solver|].
      rewrite Hr. eexists _, _, _. split; [done|]. intros Hok. rewrite (Hw Hok), Hm. set_solver.
    + eexists _, _, _. split; [done|]. discriminate.
Qed.

Lemma listed_all w n l :
  fst (h (Redis (RedisClient.ClusterGetKeysInSlot sourceAddr slot n)) w) = Ok l →
  0 < n → l = [] → keys_in w sourceAddr slot = ∅.
Proof.
  intros Hl Hn ->. apply keys_listed in Hl as (_ & _ & Hlen). simpl in Hlen.
  apply leibniz_equiv, size_empty_iff. lia.
Qed.

Lemma listed_rest w n l :
  fst (h (Redis (RedisClient.ClusterGetKeysInSlot sourceAddr slot n)) w) = Ok l →
  size (keys_in w sourceAddr slot ∖ list_to_set l)
  = (size (keys_in w sourceAddr slot) - Z.to_nat n)%nat.
Proof.
  intros Hl. apply keys_listed in Hl as (Hnd & Hsub & Hlen).
  rewrite size_difference by done. rewrite size_list_to_set by done. lia.
Qed.

#[local] Arguments migrateKeysLoop : simpl never.

(** C27: [migrateKeys] terminates and empties the slot: on a Redis that keeps
    its promises, a slot with at most [100 * n] keys is done within [n + 1]
    turns of the loop (the fuel), whatever batches Redis chooses; if the
    result is nil no key of the slot is left on the source. *)
Theorem migrateKeys_drains n w :
  Z.of_nat (size (keys_in w sourceAddr slot)) ≤ migrateBatch * Z.of_nat n →
  ∃ r, result_of (run h (migrateKeys (S n) sourceAddr destIP destPort slot) w) = Done r ∧
    (r = Ok tt →
     keys_in (world_of (run h (migrateKeys (S n) sourceAddr destIP destPort slot) w)) sourceAddr slot = ∅).
Proof.
  unfold result_of, world_of, migrateKeys. revert w. induction n as [|n IH]; intros w Hsz;
    rewrite migrateKeysLoop_unfold; simpl;
    pose proof (listed_all w migrateBatch) as Hall; pose proof (listed_rest w migrateBatch) as Hrest;
    pose proof (keys_listed sourceAddr slot migrateBatch w) as Hget;
    pose proof (keys_read sourceAddr slot migrateBatch w) as Hread;
    destruct (h _ w) as [r w1] eqn:E; cbn [fst snd] in *; (destruct r as [l|e]; simpl; [|by eexists]);
    specialize (Hall l eq_refl eq_refl); specialize (Hrest l eq_refl);
    destruct (Hget l eq_refl) as (Hnd & Hsub & Hlen); rewrite <- Hread in *;
    (destruct (zlen l =? 0) eqn:Ez; [blia; apply zlen_zero in Ez; eexists; split; [done|]; by intros _; apply Hall|]).
  - exfalso. unfold zlen, migrateBatch in *. apply Z.eqb_neq in Ez. lia.
  - destruct (moveKeys_run l w1 Hnd Hsub) as (r & w2 & t & Hr & Hw).
    unfold bind_ok. rewrite run_bind, Hr. destruct r as [[]|e]; cbv beta iota; [|by eexists].
    specialize (Hw eq_refl). destruct (IH w2) as (r & Hr2 & Hw2).
    { rewrite Hw, Hrest. unfold migrateBatch in *. lia. }
    revert Hr2 Hw2.
    destruct (run h (migrateKeysLoop (S n) sourceAddr destIP destPort slot) w2) as [[out w3] t3].
    intros Hr2 Hw2. exists r. exact (conj Hr2 Hw2).
Qed.

End drain.

(** A source node whose keys of slot 7 are the state. *)
Definition one_slot (m : RedisClient.method) (w : gset string)
  : RedisClient.reply m * gset string :=
  match m return RedisClient.reply m * gset string with
  | RedisClient.ClusterGetKeysInSlot addr slot n =>
      (Ok (if String.eqb addr "s:1" && (slot =? 7) then take (Z.to_nat n) (elements w) else []), w)
  | RedisClient.Migrate addr _ _ key _ _ =>
      (Ok tt, if String.eqb addr "s:1" then w ∖ {[key]} else w)
  | m => (fst (agreeable m tt), w)
  end.

#[export] Instance one_slot_KeyStore : KeyStore (with_clock one_slot).
Proof.
  refine {| keys_in w addr slot := if String.eqb addr "s:1" && (slot =? 7) then w.1 else ∅ |}.
  - intros addr slot n [w c] l. simpl. intros [= <-]. case_bool.
    + split_and!.
      * eapply sublist_NoDup; [apply (NoDup_elements w)|apply sublist_take].
      * intros x. rewrite elem_of_list_to_set. intros Hx%elem_of_take.
        destruct Hx as (i & Hx & _). apply elem_of_elements. by eapply list_elem_of_lookup_2.
      * rewrite length_take. done.
    + split_and!; [constructor|set_solver|]. rewrite size_empty. simpl. lia.
  - intros addr slot n [w c]. done.
  - intros addr slot ip port key db timeout [w c]. simpl.
    destruct (String.eqb addr "s:1"); simpl; [|set_solver].
    destruct (slot =? 7); set_solver.
Defined.

Lemma migrateKeys_drains_witness :
  let w : gset string * Z := ({["a"; "b"; "c"]}, 0) in
  ∃ r, result_of (run (with_clock one_slot) (migrateKeys 2 "s:1" "d" 1 7) w) = Done r ∧
    (r = Ok tt →
     keys_in (world_of (run (with_clock one_slot) (migrateKeys 2 "s:1" "d" 1 7) w)) "s:1" 7 = ∅).
Proof. intros w. apply (migrateKeys_drains (with_clock one_slot) "s:1" "d" 1 7 1 w). vm_compute. discriminate. Defined.

(** A node whose CLUSTER NODES shows itself, and which refuses MIGRATE. *)
Definition stuck_keys (m : RedisClient.method) (w : unit) : RedisClient.reply m * unit :=
  match m return RedisClient.reply m * unit with
  | RedisClient.ClusterGetKeysInSlot _ _ _ => (Ok ["k"], w)
  | RedisClient.Migrate _ _ _ _ _ _ => (Fail (ExtErr "IOERR"), w)
  | m => agreeable m w
  end.

Lemma MigrateSlot_commit_witness :
  let r := run (with_clock one_slot) (MigrateSlot 2 "s:1" "d:1" 7) ({["a"]}, 0) in
  result_of r = Done (Ok tt) ∧
  ∃ pre keys post, trace_of r = pre ++ keys ++ post ∧ key_batches "s:1" "d" 1 7 keys.
Proof.
  intros r. split; [vm_compute; reflexivity|].
  destruct (MigrateSlot_commit 2 "s:1" "d:1" 7 (trace_of r))
    as (ip & port & dn & sn & an & keys & commit & Hs & _ & _ & Ht & Hk & _).
  - exact (run_exec (with_clock one_slot) (MigrateSlot 2 "s:1" "d:1" 7) ({["a"]}, 0)).
  - vm_compute in Hs. injection Hs as <- <-. rewrite Ht. eexists _, keys, _. split; [reflexivity|exact Hk].
Defined.

Lemma MigrateSlot_rollback_witness :
  let r := run (with_clock stuck_keys) (MigrateSlot 2 "s:1" "d:1" 7) (tt, 0) in
  (∃ e, result_of r = Done (Fail e)) ∧
  setslots (trace_of r) =
    [("d:1", "IMPORTING", "aa"); ("s:1", "MIGRATING", "aa"); ("s:1", "STABLE", ""); ("d:1", "STABLE", "")].
Proof.
  intros r. pose proof (run_exec (with_clock stuck_keys) (MigrateSlot 2 "s:1" "d:1" 7) (tt, 0)) as He.
  split; [by eexists|].
  destruct (MigrateSlot_rollback 2 "s:1" "d:1" 7 _ _ He) as [H|H]; vm_compute in H; [discriminate|].
  reflexivity.
Defined.
