(* ===== verification/Rebalance.v ===== *)
(** * Rebalancing (theorems on RebalanceSlots of cluster.go)

    What one donor gives and to whom, that it never gives more than its
    excess, and the situations in which [RebalanceSlots] moves nothing. *)

From S2P Require Import Prelude Go Effects Client Sys Cluster.

Local Open Scope Z_scope.

(** The slots a trace starts to move: destination and slot of each
    SETSLOT IMPORTING. *)
Definition importing (t : list (event SysSig)) : list (string * Z) :=
  omap (λ m, match m with
             | RedisClient.ClusterSetSlot addr slot sub _ =>
                 if String.eqb sub "IMPORTING" then Some (addr, slot) else None
             | _ => None
             end) (redis_calls t).

Lemma importing_app t1 t2 : importing (t1 ++ t2) = importing t1 ++ importing t2.
Proof. unfold importing. by rewrite redis_calls_app, omap_app. Qed.

Lemma importing_none : zlen (importing []) = 0.
Proof. done. Qed.

(** A program that starts no migration. *)
Definition quiet {A} (p : prog SysSig A) : Prop := ∀ t out, exec p t out → importing t = [].

Lemma quiet_ret {A} (a : A) : quiet (Ret a).
Proof. by intros t out [-> _]. Qed.

Lemma quiet_halt {A} h : quiet (@Halt SysSig A h).
Proof. by intros t out [-> _]. Qed.

Lemma quiet_call {A} o (k : ans SysSig o → prog SysSig A) :
  match o : sys_op with Redis (RedisClient.ClusterSetSlot _ _ "IMPORTING" _) => False | _ => True end →
  (∀ r, quiet (k r)) → quiet (Call o k).
Proof.
  intros Ho Hk t out (r & t' & -> & H). specialize (Hk _ _ _ H).
  change (importing ([Ev o r] ++ t') = []). rewrite importing_app, Hk, app_nil_r.
  destruct o as [m| | |]; try done. destruct m; try done. cbn.
  destruct (String.eqb_spec subcommand "IMPORTING") as [->|]; done.
Qed.

Lemma quiet_bind {A B} (f : A → prog SysSig B) p : quiet p → (∀ a, quiet (f a)) → quiet (prog_bind f p).
Proof.
  intros Hp Hf t out [(t1 & a & t2 & -> & H1 & H2)|(h & -> & H)]%exec_bind; [|by eapply Hp].
  by rewrite importing_app, (Hp _ _ H1), (Hf _ _ _ H2).
Qed.

Lemma quiet_bind_ok {A B} w (f : A → prog SysSig (result B)) p :
  quiet p → (∀ a, quiet (f a)) → quiet (bind_ok w f p).
Proof. intros Hp Hf. apply quiet_bind; [done|]. intros [a|e]; [apply Hf|apply quiet_ret]. Qed.

Lemma quiet_for_each {A} l (f : A → prog SysSig (result unit)) :
  (∀ x, quiet (f x)) → quiet (for_each l f).
Proof.
  intros Hf. induction l as [|x l IH]; [apply quiet_ret|]. simpl. by apply quiet_bind_ok.
Qed.

Lemma quiet_do_each {A} l (f : A → prog SysSig unit) : (∀ x, quiet (f x)) → quiet (do_each l f).
Proof.
  intros Hf. induction l as [|x l IH]; [apply quiet_ret|]. simpl. by apply quiet_bind.
Qed.

Create HintDb quiet discriminated.
#[local] Hint Resolve quiet_ret quiet_halt quiet_bind quiet_bind_ok quiet_for_each quiet_do_each : quiet.

Lemma quiet_setSlot addr slot sub id : sub ≠ "IMPORTING" → quiet (setSlotIgnored addr slot sub id).
Proof.
  intros Hs. apply quiet_call; [|intros; apply quiet_ret].
  repeat (done || match goal with |- match ?x with _ => _ end => destruct x end).
Qed.

Lemma quiet_migrateKeys fuel src ip port slot : quiet (migrateKeys fuel src ip port slot).
Proof.
  unfold migrateKeys. induction fuel as [|fuel IH]; [apply quiet_halt|]. simpl.
  apply quiet_bind_ok; [by apply quiet_call; [|intros; apply quiet_ret]|]. intros keys.
  destruct (zlen keys =? 0); [apply quiet_ret|].
  apply quiet_bind_ok; [|by intros _]. apply quiet_for_each. intros key.
  apply quiet_bind_ok; [by apply quiet_call; [|intros; apply quiet_ret]|]. intros _. apply quiet_ret.
Qed.

(** What follows the IMPORTING call of [MigrateSlot]. *)
Lemma importing_once {A} addr slot id (k : result unit → prog SysSig A) t out :
  (∀ r, quiet (k r)) →
  exec (prog_bind k (rcall (RedisClient.ClusterSetSlot addr slot "IMPORTING" id))) t out →
  importing t = [(addr, slot)].
Proof.
  intros Hk H. exec_step H. specialize (Hk _ _ _ H).
  change (importing ([Ev (S := SysSig) (Redis (RedisClient.ClusterSetSlot addr slot "IMPORTING" id)) r] ++ t0)
          = [(addr, slot)]).
  by rewrite importing_app, Hk.
Qed.

(** [MigrateSlot] starts the migration of its slot or of none, and of its slot
    when it succeeds. *)
Lemma MigrateSlot_importing fuel src dst slot t out :
  exec (MigrateSlot fuel src dst slot) t out →
  importing t = [(dst, slot)] ∨ (importing t = [] ∧ out ≠ Done (Ok tt)).
Proof.
  unfold MigrateSlot. destruct (splitAddr dst) as [[ip port]|e']; intros H; [|exec_done H; right; by subst].
  exec_step_ok H; [|exec_done H; right; by subst]. exec_simpl H.
  destruct (String.eqb (selfNodeID r) ""); [exec_done H; right; by subst|].
  exec_step_ok H; [|exec_done H; right; by subst]. exec_simpl H.
  destruct (String.eqb (selfNodeID r0) ""); [exec_done H; right; by subst|]. left.
  apply importing_once in H; [exact H|]. intros [[]|e]; [|apply quiet_ret].
  apply quiet_call; [done|]. intros [[]|e].
  - apply quiet_bind; [apply quiet_migrateKeys|]. intros [[]|e].
    + apply quiet_bind_ok; [by apply quiet_call; [|intros; apply quiet_ret]|]. intros nodes.
      apply quiet_bind; [|intros; apply quiet_ret]. apply quiet_do_each. intros n. by apply quiet_setSlot.
    + apply quiet_bind; [by apply quiet_setSlot|]. intros _.
      apply quiet_bind; [by apply quiet_setSlot|]. intros _. apply quiet_ret.
  - apply quiet_bind; [by apply quiet_setSlot|]. intros _. apply quiet_ret.
Qed.

(** ** One receiver *)

Lemma migrate_all_importing fuel src dst slots t out :
  exec (for_each slots (λ slot, MigrateSlot fuel src dst slot)) t out →
  importing t `prefix_of` ((λ s, (dst, s)) <$> slots) ∧
  (out = Done (Ok tt) → importing t = (λ s, (dst, s)) <$> slots).
Proof.
  revert t. induction slots as [|s slots IH]; intros t; [intros [-> ->]; done|].
  rewrite exec_for_each_cons. intros [(t1 & t2 & -> & H1 & H2)|[Hne H1]];
    apply MigrateSlot_importing in H1 as [H1|[H1 Ho]]; try done.
  - destruct (IH _ H2) as [H3 H4]. rewrite importing_app, H1, fmap_cons. simpl.
    split; [by apply prefix_cons|]. intros Ho. by rewrite H4.
  - rewrite H1, fmap_cons. split; [|done]. apply prefix_cons, prefix_nil.
  - rewrite H1. split; [apply prefix_nil|done].
Qed.

Lemma length_collectRange room s last : (length (collectRange room s last) ≤ room)%nat.
Proof.
  revert s. induction room as [|room IH]; intros s; simpl; [lia|]. case_bool; simpl; [|lia].
  specialize (IH (wrap64 (s + 1))). lia.
Qed.

Lemma length_collectRanges count slots srs :
  zlen slots ≤ Z.max 0 count → zlen (collectRanges count slots srs) ≤ Z.max 0 count.
Proof.
  revert slots. induction srs as [|sr srs IH]; intros slots Hs; simpl; [done|].
  pose proof (length_collectRange (Z.to_nat (count - zlen slots)) (sr_Start sr) (sr_End sr)) as Hl.
  set (r := collectRange _ _ _) in *.
  assert (zlen (slots ++ r) ≤ Z.max 0 count) by (rewrite zlen_app; unfold zlen in *; lia).
  case_bool; [done|by apply IH].
Qed.

Lemma length_collectSlots nodes id count : zlen (collectSlots nodes id count) ≤ Z.max 0 count.
Proof.
  unfold collectSlots. assert (zlen (@nil Z) ≤ Z.max 0 count) as H by (rewrite zlen_nil; lia).
  revert H. generalize (@nil Z). induction nodes as [|n nodes IH]; intros slots H; simpl; [done|].
  apply IH. case_bool; [by apply length_collectRanges|done].
Qed.

(** The receivers that [donateTo] serves. *)
Definition wants (target : Z) (slotCounts : gmap string Z) (donorAddr : string)
    (donorNodes : list ClusterNode) (excess : Z) (receiverAddr : string) : Prop :=
  let id := nodeIDForAddr donorNodes receiverAddr in
  receiverAddr ≠ donorAddr ∧ 0 < excess ∧ id ≠ "" ∧ default 0 (slotCounts !! id) < target.

(** C28: What a donor does for one receiver.  A receiver that is the donor
    itself, unknown to the cluster, or already at the target is skipped, as
    is every receiver once the excess is used up.  Otherwise the donor
    migrates, in order, the slots [collectSlots] selects for the smaller of
    its excess and what the receiver lacked when the rebalancing started -
    the counts read at the beginning, not those after earlier donors gave -
    and the excess left is reduced by that number. *)
Theorem donateTo_moves fuel target slotCounts donorID donorAddr donorNodes excess receiverAddr t excess' :
  0 ≤ target < 2 ^ 62 → 0 ≤ excess < 2 ^ 62 → map_Forall (λ _ c, 0 ≤ c) slotCounts →
  exec (donateTo fuel target slotCounts donorID donorAddr donorNodes excess receiverAddr) t
    (Done (Ok excess')) →
  (wants target slotCounts donorAddr donorNodes excess receiverAddr ∧
   let lacking := target - default 0 (slotCounts !! nodeIDForAddr donorNodes receiverAddr) in
   importing t = (λ s, (receiverAddr, s)) <$> collectSlots donorNodes donorID (Z.min lacking excess) ∧
   excess' = excess - Z.min lacking excess)
  ∨ (¬ wants target slotCounts donorAddr donorNodes excess receiverAddr ∧ t = [] ∧ excess' = excess).
Proof.
  intros Ht He Hc. unfold donateTo, wants.
  destruct (String.eqb_spec receiverAddr donorAddr) as [->|Hr]; simpl.
  { intros [-> [= ->]]. right. split; [tauto|done]. }
  destruct (excess <=? 0) eqn:E.
  { intros [-> [= ->]]. right. split; [|done]. intros (_ & ? & _). blia. }
  set (id := nodeIDForAddr donorNodes receiverAddr).
  destruct (String.eqb_spec id "") as [Hid|Hid].
  { intros [-> [= ->]]. right. split; [tauto|done]. }
  destruct (target <=? default 0 (slotCounts !! id)) eqn:E2.
  { intros [-> [= ->]]. right. split; [|done]. intros (_ & _ & _ & ?). blia. }
  assert (0 ≤ default 0 (slotCounts !! id)) as Hpos.
  { destruct (slotCounts !! id) as [c|] eqn:Ec; simpl; [by eapply Hc|lia]. }
  assert (slotsNeeded target excess (default 0 (slotCounts !! id))
          = Z.min (target - default 0 (slotCounts !! id)) excess) as ->.
  { unfold slotsNeeded. rewrite wrap64_id by (unfold int64_range; blia). case_bool; blia. }
  intros [(t1 & [] & t2 & -> & H1 & H2)|[(e & ? & _)|(h & ? & _)]]%exec_bind_ok; [|done|done].
  exec_done H2. injection H as ->. rewrite app_nil_r.
  apply migrate_all_importing in H1 as [_ H1]. left. split; [blia; split_and!; done || lia|].
  split; [by apply H1|]. rewrite wrap64_id by (unfold int64_range; blia). done.
Qed.

(** ** One donor *)

Section donor.
Context (fuel : nat) (target : Z) (slotCounts : gmap string Z).
Context (Ht : 0 ≤ target < 2 ^ 62) (Hc : map_Forall (λ _ c, 0 ≤ c < 2 ^ 62) slotCounts).

Lemma count_bounds id : 0 ≤ default 0 (slotCounts !! id) < 2 ^ 62.
Proof. destruct (slotCounts !! id) as [c|] eqn:E; simpl; [by eapply Hc|lia]. Qed.

Lemma donateTo_bound donorID donorAddr donorNodes excess receiverAddr t out :
  0 ≤ excess < 2 ^ 62 →
  exec (donateTo fuel target slotCounts donorID donorAddr donorNodes excess receiverAddr) t out →
  zlen (importing t) ≤ excess ∧
  ∀ excess', out = Done (Ok excess') → 0 ≤ excess' < 2 ^ 62 ∧ zlen (importing t) ≤ excess - excess'.
Proof.
  intros He. unfold donateTo.
  assert (∀ t out, exec (S := SysSig) (Ret (Ok excess)) t out → zlen (importing t) ≤ excess ∧
    ∀ excess', out = Done (Ok excess') → 0 ≤ excess' < 2 ^ 62 ∧ zlen (importing t) ≤ excess - excess') as Hskip.
  { intros t' out' [-> ->]. rewrite importing_none. split; [lia|]. intros e' [= <-]. lia. }
  case_bool; [apply Hskip|]. apply orb_false_iff in Heqb as [_ Hx].
  case_bool; [apply Hskip|]. case_bool; [apply Hskip|].
  pose proof (count_bounds (nodeIDForAddr donorNodes receiverAddr)) as Hcb.
  set (toMove := default 0 _) in *.
  assert (0 < slotsNeeded target excess toMove ≤ excess) as Hn.
  { unfold slotsNeeded. rewrite wrap64_id by (unfold int64_range; blia). case_bool; blia. }
  pose proof (length_collectSlots donorNodes donorID (slotsNeeded target excess toMove)) as Hl.
  assert (∀ t1 o, exec (for_each (collectSlots donorNodes donorID (slotsNeeded target excess toMove))
     (λ slot, MigrateSlot fuel donorAddr receiverAddr slot)) t1 o →
     zlen (importing t1) ≤ slotsNeeded target excess toMove) as Hm.
  { intros t1 o H1. apply migrate_all_importing in H1 as [H1%prefix_length _].
    rewrite length_fmap in H1. unfold zlen in *. lia. }
  intros [(t1 & [] & t2 & -> & H1 & H2)|[(e & -> & H1)|(h & -> & H1)]]%exec_bind_ok;
    apply Hm in H1; (split; [|intros excess' Ho]); try done; try lia.
  - exec_done H2. rewrite app_nil_r. lia.
  - destruct H2 as [-> Ho2]. rewrite app_nil_r. rewrite Ho in Ho2. injection Ho2 as ->.
    rewrite wrap64_id by (unfold int64_range; lia). lia.
Qed.

Lemma donate_all_bound donorID donorAddr donorNodes addrs excess t out :
  0 ≤ excess < 2 ^ 62 →
  exec (fold_each addrs excess (donateTo fuel target slotCounts donorID donorAddr donorNodes)) t out →
  zlen (importing t) ≤ excess.
Proof.
  revert excess t. induction addrs as [|addr addrs IH]; intros excess t He.
  { intros [-> _]. rewrite importing_none. lia. }
  simpl. intros [(t1 & e' & t2 & -> & H1 & H2)|[(e & -> & H)|(h & -> & H)]]%exec_bind_ok;
    [|by eapply donateTo_bound|by eapply donateTo_bound].
  apply donateTo_bound in H1 as [_ H1]; [|done]. destruct (H1 _ eq_refl) as [He' Hl].
  apply IH in H2; [|done]. rewrite importing_app, zlen_app. lia.
Qed.

(** C29: A donor never gives away more than its excess: whatever the cluster
    answers and however the turn of the donor ends, the slots whose migration
    starts number at most its count minus the target, and none when it is at
    or below the target. *)
Theorem drainDonor_bound masterAddrs nodeAddrByID donorID t out :
  exec (drainDonor fuel target masterAddrs slotCounts nodeAddrByID donorID) t out →
  zlen (importing t) ≤ Z.max 0 (default 0 (slotCounts !! donorID) - target).
Proof.
  unfold drainDonor. pose proof (count_bounds donorID).
  rewrite wrap64_id by (unfold int64_range; lia). case_bool; [intros [-> _]; rewrite importing_none; lia|].
  intros H1. exec_step_ok H1; [|destruct H1 as [-> _]; vm_compute zlen; lia].
  exec_simpl H1. change (importing (_ :: t0)) with (importing t0).
  apply exec_bind_ok in H1 as [(t1 & e' & t2 & -> & H1 & H2)|[(e & -> & H1)|(h & -> & H1)]];
    apply donate_all_bound in H1; try blia.
  destruct H2 as [-> _]. rewrite app_nil_r. blia.
Qed.

End donor.

(** ** The whole rebalancing *)

Lemma masterTables_counts (P : Z → Prop) nodes :
  Forall (λ n, isMaster n = true → P (nodeSlotCount n)) nodes →
  map_Forall (λ _ c, P c) (masterTables nodes).1.
Proof.
  unfold masterTables. intros H.
  assert (map_Forall (λ _ c, P c) (∅ : gmap string Z, ∅ : gmap string string).1) as H0
    by apply map_Forall_empty.
  revert H0. generalize (∅ : gmap string Z, ∅ : gmap string string).
  induction H as [|n nodes Hn Hns IH]; intros [counts addrs] Ha; simpl; [done|].
  apply IH. destruct (isMaster n) eqn:E; [|done]. apply map_Forall_insert_2; auto.
Qed.

Lemma drainDonor_skip fuel target addrs counts ids donorID t out :
  0 ≤ target ≤ totalHashSlots → map_Forall (λ _ c, 0 ≤ c ≤ target) counts →
  exec (drainDonor fuel target addrs counts ids donorID) t out → t = [] ∧ out = Done (Ok tt).
Proof.
  intros Ht Hc. unfold drainDonor.
  assert (0 ≤ default 0 (counts !! donorID) ≤ target) as Hd.
  { destruct (counts !! donorID) as [c|] eqn:E; simpl; [by eapply Hc|lia]. }
  unfold totalHashSlots in *. rewrite wrap64_id by (unfold int64_range; lia).
  case_bool; [done|blia].
Qed.

Lemma target_bounds (addrs : list string) :
  addrs ≠ [] → 0 ≤ totalHashSlots / zlen addrs ≤ totalHashSlots.
Proof.
  intros Hne. destruct addrs as [|a addrs]; [done|]. rewrite zlen_cons.
  pose proof (zlen_nonneg addrs). split; [apply Z.div_pos; unfold totalHashSlots; lia|].
  apply Z.div_le_upper_bound; unfold totalHashSlots; nia.
Qed.

(** C20: [RebalanceSlots] moves slots only away from masters above the
    target: when the first node reports every master at or below
    [16384 / len(masterAddrs)] it calls nothing but the one CLUSTER NODES and
    returns nil.  A master the caller wants to remove is such a master: the
    remaining addresses raise the target above what an evenly filled master
    holds, so scaling in drains nobody. *)
Theorem RebalanceSlots_balanced_noop fuel first rest t out :
  exec (RebalanceSlots fuel (first :: rest)) t out →
  (∀ nodes, head t ≫= nodes_answer = Some nodes →
     Forall (λ n, isMaster n = true →
               0 ≤ nodeSlotCount n ≤ totalHashSlots / zlen (first :: rest)) nodes) →
  redis_calls t = [RedisClient.ClusterNodes first] ∧ (Forall reply_ok t → out = Done (Ok tt)).
Proof.
  intros H Hn. pose proof (target_bounds (first :: rest) ltac:(done)) as Ht.
  exec_step_ok H.
  2: { destruct H as [-> ->]. split; [done|]. intros HF. by apply Forall_cons in HF as [HF _]. }
  specialize (Hn r eq_refl).
  exec_simpl H. pose proof (masterTables_counts (λ c, 0 ≤ c ≤ totalHashSlots / zlen (first :: rest)) _ Hn) as Hc. revert Hc H.
  destruct (masterTables r) as [counts ids]. simpl fst. intros Hc H.
  exec_step H. exec_simpl H.
  assert (redis_calls t = [] ∧ out = Done (Ok tt)) as [Hcalls ->].
  2: { split; [|done]. change (RedisClient.ClusterNodes first :: redis_calls t = [RedisClient.ClusterNodes first]). by rewrite Hcalls. }
  revert H. generalize (`r0). intros donors. revert t. induction donors as [|d donors IH]; intros t; [by intros [-> ->]|].
  rewrite exec_for_each_cons. intros [(t1 & t2 & -> & H1 & H2)|[Hne H1]];
    apply drainDonor_skip in H1 as [-> H1]; try done. by apply IH.
Qed.

(** Four masters with 4096 slots each. *)
Definition four_masters : list ClusterNode :=
  (λ '(id, addr, s), {| cn_NodeID := id; cn_Addr := addr; cn_Flags := ["master"]; cn_MasterID := "-";
     cn_PingSent := 0; cn_PongRecv := 0; cn_ConfigEpoch := 0; cn_LinkState := "connected";
     cn_Slots := [{| sr_Start := s; sr_End := s + 4095 |}] |}) <$>
  [("m0", "a:1", 0); ("m1", "b:1", 4096); ("m2", "c:1", 8192); ("m3", "d:1", 12288)].

Definition even_cluster (m : RedisClient.method) (w : unit) : RedisClient.reply m * unit :=
  match m return RedisClient.reply m * unit with
  | RedisClient.ClusterNodes _ => (Ok four_masters, w)
  | m => agreeable m w
  end.

(** Scaling in from four masters to three. *)
Lemma RebalanceSlots_balanced_noop_witness :
  let r := run (with_clock even_cluster) (RebalanceSlots 1 ["a:1"; "b:1"; "c:1"]) (tt, 0) in
  redis_calls (trace_of r) = [RedisClient.ClusterNodes "a:1"] ∧ result_of r = Done (Ok tt).
Proof.
  intros r.
  destruct (RebalanceSlots_balanced_noop 1 "a:1" ["b:1"; "c:1"] (trace_of r) (result_of r)) as [H1 H2].
  - apply run_exec.
  - intros nodes Hh. vm_compute in Hh. injection Hh as <-.
    repeat (constructor; [intros _; vm_compute; split; discriminate|]). constructor.
  - split; [exact H1|]. apply H2. vm_compute. repeat constructor.
Defined.

Lemma nodeIDForAddr_absent nodes addr :
  Forall (λ n, cn_Addr n ≠ addr) nodes → nodeIDForAddr nodes addr = "".
Proof.
  induction 1 as [|n nodes Hn _ IH]; simpl; [done|]. by destruct (String.eqb_spec (cn_Addr n) addr).
Qed.

(** No node of the answer has one of the addresses. *)
Definition unlisted (addrs : list string) (nodes : list ClusterNode) : Prop :=
  Forall (λ addr, Forall (λ n, cn_Addr n ≠ addr) nodes) addrs.

Lemma donateTo_unlisted fuel target counts id donorAddr nodes excess addr :
  Forall (λ n, cn_Addr n ≠ addr) nodes →
  donateTo fuel target counts id donorAddr nodes excess addr = Ret (Ok excess).
Proof. intros H. unfold donateTo. rewrite nodeIDForAddr_absent by done. by case_bool. Qed.

Lemma donate_unlisted fuel target counts id donorAddr nodes addrs excess t out :
  unlisted addrs nodes →
  exec (fold_each addrs excess (donateTo fuel target counts id donorAddr nodes)) t out →
  t = [] ∧ out = Done (Ok excess).
Proof.
  intros Hu. revert t. induction Hu as [|addr addrs Ha _ IH]; intros t; [done|]. simpl.
  rewrite donateTo_unlisted by done. apply IH.
Qed.

Lemma drainDonor_unlisted fuel target addrs counts ids id t out :
  exec (drainDonor fuel target addrs counts ids id) t out →
  Forall (unlisted addrs) (observe nodes_answer t) →
  Forall (λ m, ∃ a, m = RedisClient.ClusterNodes a) (redis_calls t) ∧
  (Forall reply_ok t → out = Done (Ok tt)).
Proof.
  unfold drainDonor. case_bool; [by intros [-> ->]|]. intros H Hu.
  exec_step_ok H.
  - exec_simpl H. apply Forall_cons in Hu as [Hu _]. cbv beta iota in H.
    apply exec_bind_ok in H as [(t1 & e' & t2 & -> & H1 & H2)|[(e & -> & H1)|(h & -> & H1)]];
      apply donate_unlisted in H1 as [-> H1]; try done.
    exec_done H2. split; [|done]. constructor; [by eexists|constructor].
  - destruct H as [-> ->]. split; [constructor; [by eexists|constructor]|].
    intros HF. by apply Forall_cons in HF as [HF _].
Qed.

(** [RebalanceSlots] knows receivers only by the addresses of CLUSTER NODES:
    if none of the addresses it is given appears among the nodes that the
    cluster reports it calls nothing but CLUSTER NODES, and returns nil when
    those calls succeed. *)
Lemma rebalance_unlisted fuel masterAddrs t out :
  masterAddrs ≠ [] →
  exec (RebalanceSlots fuel masterAddrs) t out →
  Forall (unlisted masterAddrs) (observe nodes_answer t) →
  Forall (λ m, ∃ a, m = RedisClient.ClusterNodes a) (redis_calls t) ∧
  (Forall reply_ok t → out = Done (Ok tt)).
Proof.
  intros Hne. destruct masterAddrs as [|first rest] eqn:Ea; [done|]. rewrite <- Ea. clear Hne.
  unfold RebalanceSlots. rewrite Ea at 1. intros H Hu.
  exec_step_ok H.
  2: { destruct H as [-> ->]. split; [constructor; [by eexists|constructor]|].
       intros HF. by apply Forall_cons in HF as [HF _]. }
  exec_simpl H. destruct (masterTables r) as [counts ids].
  exec_step H. exec_simpl H. apply Forall_cons in Hu as [_ Hu].
  change (Forall (unlisted masterAddrs) (observe nodes_answer t)) in Hu.
  assert (Forall (λ m, ∃ a, m = RedisClient.ClusterNodes a) (redis_calls t) ∧
          (Forall reply_ok t → out = Done (Ok tt))) as [Hcalls Hok].
  2: { split; [|intros HF; apply Forall_cons in HF as [_ HF]; apply Forall_cons in HF as [_ HF]; by apply Hok].
       change (Forall (λ m, ∃ a, m = RedisClient.ClusterNodes a) (RedisClient.ClusterNodes first :: redis_calls t)).
       constructor; [by eexists|done]. }
  revert H Hu. generalize (`r0). intros donors. revert t.
  induction donors as [|d donors IH]; intros t; [by intros [-> ->]|].
  rewrite exec_for_each_cons. intros [(t1 & t2 & -> & H1 & H2)|[Hne H1]] Hu.
  - rewrite observe_app in Hu. apply Forall_app in Hu as [Hu1 Hu2].
    apply drainDonor_unlisted in H1 as [H1 _]; [|done]. destruct (IH _ H2 Hu2) as [H3 H4].
    rewrite redis_calls_app. split; [by apply Forall_app|]. intros [_ HF]%Forall_app. auto.
  - by apply drainDonor_unlisted in H1.
Qed.

(** A cluster of one full master, one empty one, and nodes known by IP. *)
Definition two_masters : list ClusterNode :=
  [{| cn_NodeID := "m0"; cn_Addr := "10.0.0.1:6379"; cn_Flags := ["myself"; "master"]; cn_MasterID := "-";
      cn_PingSent := 0; cn_PongRecv := 0; cn_ConfigEpoch := 0; cn_LinkState := "connected";
      cn_Slots := [{| sr_Start := 0; sr_End := 16383 |}] |};
   {| cn_NodeID := "m1"; cn_Addr := "10.0.0.2:6379"; cn_Flags := ["master"]; cn_MasterID := "-";
      cn_PingSent := 0; cn_PongRecv := 0; cn_ConfigEpoch := 0; cn_LinkState := "connected";
      cn_Slots := [] |}].

Definition lopsided (m : RedisClient.method) (w : unit) : RedisClient.reply m * unit :=
  match m return RedisClient.reply m * unit with
  | RedisClient.ClusterNodes _ => (Ok two_masters, w)
  | m => agreeable m w
  end.

(** One receiver that lacks two slots, from a donor with an excess of three. *)
Lemma donateTo_moves_witness :
  let counts : gmap string Z := {["m0" := 16384; "m1" := 0]} in
  let r := run (with_clock lopsided)
             (donateTo 1 2 counts "m0" "10.0.0.1:6379" two_masters 3 "10.0.0.2:6379") (tt, 0) in
  result_of r = Done (Ok 1) ∧ importing (trace_of r) = [("10.0.0.2:6379", 0); ("10.0.0.2:6379", 1)].
Proof.
  intros counts r. split; [vm_compute; reflexivity|].
  destruct (donateTo_moves 1 2 counts "m0" "10.0.0.1:6379" two_masters 3 "10.0.0.2:6379" (trace_of r) 1)
    as [[_ [H _]]|[_ [H _]]].
  - lia.
  - lia.
  - intros k c. unfold counts. intros H. apply lookup_insert_Some in H as [[_ <-]|[_ H]]; [lia|].
    apply lookup_singleton_Some in H as [_ <-]. lia.
  - exact (run_exec (with_clock lopsided)
             (donateTo 1 2 counts "m0" "10.0.0.1:6379" two_masters 3 "10.0.0.2:6379") (tt, 0)).
  - rewrite H. reflexivity.
  - vm_compute in H. discriminate.
Defined.

Lemma drainDonor_bound_witness :
  let counts : gmap string Z := {["m0" := 16384]} in
  let r := run (with_clock lopsided)
             (drainDonor 1 16380 ["10.0.0.2:6379"] counts ∅ "m0") (tt, 0) in
  zlen (importing (trace_of r)) ≤ 4.
Proof.
  intros counts r. apply (drainDonor_bound 1 16380 counts) with (donorID := "m0") (masterAddrs := ["10.0.0.2:6379"])
    (nodeAddrByID := ∅) (out := result_of r).
  - lia.
  - intros k c H. apply lookup_singleton_Some in H as [_ <-]. lia.
  - apply run_exec.
Defined.
