(* ===== verification/Formation.v ===== *)
(** * Formation, membership and readiness of a cluster (theorems on cluster.go)

    The phases of [FormCluster] in order, the round-robin distribution of the
    replicas, the removal of a node, and the polling loops. *)

From S2P Require Import Prelude Go Effects Client Sys Cluster Slots.

Local Open Scope Z_scope.

(** ** Addresses *)

(** [splitAddr] inverts the concatenation [host:port] for every host, IPv6
    literals and empty hosts included, and every port an [int] holds. *)
Lemma split_host_port host port :
  int64_range port → splitAddr (host +:+ ":" +:+ itoa port) = Ok (host, port).
Proof.
  intros Hp. unfold splitAddr. simpl. rewrite last_index_byte_app.
  - by rewrite str_drop_app_S, str_take_app, sscanf_itoa.
  - eapply str_forall_impl; [|apply itoa_chars]. intros c. ascii_cases c.
Qed.

(** ** Polling *)

(** The state of the cluster in a CLUSTER INFO answer. *)
Definition info_answer (e : event SysSig) : option ClusterInfo :=
  match e with
  | Ev o r => match o return sys_ans o → option ClusterInfo with
              | Redis (RedisClient.ClusterInfo _) =>
                  λ r, match r with Ok info => Some info | Fail _ => None end
              | _ => λ _, None
              end r
  end.

Lemma pollInfo_ok addr accept v t :
  exec (pollInfo addr accept v) t (Done (inr tt)) →
  ∃ info, t = [ev (RedisClient.ClusterInfo addr) (Ok info)] ∧ accept info = true.
Proof.
  intros H. exec_step_ok H; [|exec_done H]. exec_simpl H. destruct (accept r) eqn:E; exec_done H.
  by exists r.
Qed.

Lemma pollInfo_returns {W} (h : handler SysSig W) addr accept v : returns h (pollInfo addr accept v).
Proof.
  intros w. unfold pollInfo, result_of. simpl.
  destruct (h _ w) as [r w']. destruct r as [info|e]; simpl; [case_bool|]; by eexists.
Qed.

(** C36: [WaitForClusterReady] terminates and does not lie: in every
    environment whose clock advances it returns (the fuel is one turn per
    two-second interval of the timeout), and it returns nil only if the last
    call it made was a CLUSTER INFO of that node that answered with state
    [ok]. *)
Theorem WaitForClusterReady_returns {W} (h : handler SysSig W) {C : Clock h} addr timeout w :
  0 ≤ timeout →
  let r := run h (WaitForClusterReady (poll_fuel timeout) addr timeout) w in
  ∃ res, result_of r = Done res ∧
    (res = Ok tt → ∃ info, last (trace_of r) = Some (ev (RedisClient.ClusterInfo addr) (Ok info)) ∧
                           ci_State info = "ok").
Proof.
  intros Ht r.
  destruct (waiting_returns h timeout tt (pollInfo addr (λ info, String.eqb (ci_State info) "ok"))
    (λ _, Errorf "cluster at %s did not reach state 'ok' within %s" [AStr addr; ADur timeout]) w Ht)
    as (res & Hr & Hok); [intros v; apply pollInfo_returns|].
  exists res. split; [exact Hr|]. intros ->. destruct (Hok tt eq_refl) as (t1 & t2 & v & Htr & H).
  apply pollInfo_ok in H as (info & -> & Hs). exists info.
  change (trace_of r = t1 ++ [ev (RedisClient.ClusterInfo addr) (Ok info)]) in Htr.
  rewrite Htr, last_snoc. split; [done|]. by apply String.eqb_eq.
Qed.

Lemma WaitForClusterReady_returns_witness :
  let r := run (with_clock agreeable) (WaitForClusterReady (poll_fuel (60 * second)) "a:1" (60 * second)) (tt, 0) in
  ∃ res, result_of r = Done res ∧
    (res = Ok tt → ∃ info, last (trace_of r) = Some (ev (RedisClient.ClusterInfo "a:1") (Ok info)) ∧
                           ci_State info = "ok").
Proof. apply (WaitForClusterReady_returns (with_clock agreeable)). unfold second. lia. Defined.

(** ** Replicas *)

(** The CLUSTER REPLICATE calls of a round-robin distribution. *)
Definition replicate_calls (masterIDs replicaAddrs : list string) : list RedisClient.method :=
  omap (λ '(i, addr), RedisClient.ClusterReplicate addr <$> masterIDs !! Z.to_nat (i `mod` zlen masterIDs))
    (enumerate replicaAddrs).

Lemma replicate_loop masterIDs l t out :
  masterIDs ≠ [] → Forall (λ ia : Z * string, 0 ≤ ia.1) l →
  exec (for_each l (λ '(i, rAddr),
    match masterIDs !! Z.to_nat (i `mod` zlen masterIDs) with
    | None => panic "runtime error: index out of range"
    | Some masterID =>
        _ ←? rcall (RedisClient.ClusterReplicate rAddr masterID)
          orelse (λ e, Errorf "CLUSTER REPLICATE %s → %s: %w" [AStr rAddr; AStr masterID; AErr e]);
        mret (Ok tt)
    end)) t out →
  (∃ r, out = Done r) ∧
  (out = Done (Ok tt) →
   redis_calls t = omap (λ '(i, addr), RedisClient.ClusterReplicate addr <$>
                           masterIDs !! Z.to_nat (i `mod` zlen masterIDs)) l).
Proof.
  intros Hne Hl. revert t. induction Hl as [|[i addr] l Hi Hl IH]; intros t; [by intros [-> ->]; eauto|].
  rewrite exec_for_each_cons, omap_cons_eq.
  destruct (lookup_lt_is_Some_2 masterIDs (Z.to_nat (i `mod` zlen masterIDs))) as [id Hid].
  { assert (0 < zlen masterIDs) by (destruct masterIDs; [done|rewrite zlen_cons; pose proof (zlen_nonneg masterIDs); lia]).
    pose proof (Z.mod_pos_bound i (zlen masterIDs)). unfold zlen in *. lia. }
  rewrite Hid. simpl. intros [(t1 & t2 & -> & H1 & H2)|[Hne' H1]].
  - exec_step_ok H1; exec_done H1. destruct (IH _ H2) as [H3 H4]. split; [done|].
    intros Ho. cbn. change (redis_calls t2) with (redis_calls t2). f_equal. by apply H4.
  - exec_step_ok H1; destruct H1 as [-> ->]; split; eauto; done.
Qed.

Lemma enumerate_nonneg {A} (l : list A) : Forall (λ ia : Z * A, 0 ≤ ia.1) (enumerate l).
Proof.
  apply Forall_forall. intros [i a] Hin. unfold enumerate in Hin.
  apply elem_of_lookup_imap in Hin as (j & y & [= -> ->] & _). simpl. lia.
Qed.

(** How many replicas a list of calls gives to a master. *)
Definition replicas_of (id : string) (calls : list RedisClient.method) : nat :=
  length (omap (λ m, match m with
                     | RedisClient.ClusterReplicate addr id' => if String.eqb id' id then Some addr else None
                     | _ => None
                     end) calls).

(** How many positions below [n] are congruent to [k] modulo [m]. *)
Fixpoint hits (m k n : nat) : nat :=
  match n with
  | O => O
  | S n' => hits m k n' + if (n' mod m =? k)%nat then 1 else 0
  end.

Lemma succ_divmod (m n : nat) :
  (0 < m)%nat →
  (S n / m = n / m + if (n mod m =? m - 1)%nat then 1 else 0)%nat ∧
  (S n mod m = if (n mod m =? m - 1)%nat then 0 else S (n mod m))%nat.
Proof.
  intros Hm. pose proof (Nat.div_mod_eq n m) as Hd. pose proof (Nat.mod_upper_bound n m ltac:(lia)) as Hb.
  destruct (n mod m =? m - 1)%nat eqn:E; [apply Nat.eqb_eq in E|apply Nat.eqb_neq in E].
  - pose proof (Nat.div_unique (S n) m (n / m + 1) 0) as H1.
    pose proof (Nat.mod_unique (S n) m (n / m + 1) 0) as H2. lia.
  - pose proof (Nat.div_unique (S n) m (n / m) (S (n mod m))) as H1.
    pose proof (Nat.mod_unique (S n) m (n / m) (S (n mod m))) as H2. lia.
Qed.

Lemma hits_spec m k n :
  (k < m)%nat → (hits m k n = n / m + if (k <? n mod m)%nat then 1 else 0)%nat.
Proof.
  intros Hk. induction n as [|n IH]; simpl hits.
  - rewrite Nat.Div0.div_0_l, Nat.Div0.mod_0_l. done.
  - destruct (succ_divmod m n ltac:(lia)) as [H1 H2]. rewrite IH, H1, H2.
    pose proof (Nat.mod_upper_bound n m ltac:(lia)).
    destruct (n mod m =? m - 1)%nat eqn:E1; destruct (k <? n mod m)%nat eqn:E2;
      destruct (n mod m =? k)%nat eqn:E3; rewrite ?Nat.eqb_eq, ?Nat.eqb_neq, ?Nat.ltb_lt, ?Nat.ltb_ge in *;
      try lia; destruct (k <? _)%nat eqn:E4; rewrite ?Nat.ltb_lt, ?Nat.ltb_ge in *; lia.
Qed.

Lemma enumerate_snoc {A} (l : list A) x : enumerate (l ++ [x]) = enumerate l ++ [(zlen l, x)].
Proof. unfold enumerate, zlen. rewrite imap_app. simpl. by rewrite Nat.add_0_r. Qed.

Lemma replicas_of_hits masterIDs replicaAddrs k id :
  NoDup masterIDs → masterIDs !! k = Some id →
  replicas_of id (replicate_calls masterIDs replicaAddrs) = hits (length masterIDs) k (length replicaAddrs).
Proof.
  intros Hnd Hk. unfold replicate_calls, replicas_of.
  induction replicaAddrs as [|addr l IH] using rev_ind; [done|].
  rewrite enumerate_snoc, !omap_app, length_app, IH, length_app, Nat.add_1_r. simpl.
  unfold zlen. rewrite <- Nat2Z.inj_mod, Nat2Z.id.
  pose proof (lookup_lt_Some _ _ _ Hk) as Hlt.
  destruct (lookup_lt_is_Some_2 masterIDs (length l mod length masterIDs)) as [id' Hid'].
  { apply Nat.mod_upper_bound. lia. }
  rewrite Hid'. simpl. destruct (String.eqb_spec id' id) as [->|Hne].
  - rewrite (NoDup_lookup _ _ _ _ Hnd Hid' Hk), Nat.eqb_refl. done.
  - destruct (length l mod length masterIDs =? k)%nat eqn:E; [|done].
    apply Nat.eqb_eq in E. rewrite E in Hid'. congruence.
Qed.

(** The replicas are spread evenly.  [replicateRoundRobin] never indexes
    out of range; when it returns nil it has attached every replica to one
    master, and with [rpm] replicas for each of the (distinct) masters, every
    master has got exactly [rpm] of them. *)
Lemma replicateRoundRobin_even masterIDs replicaAddrs rpm t out :
  masterIDs ≠ [] → NoDup masterIDs →
  length replicaAddrs = (rpm * length masterIDs)%nat →
  exec (replicateRoundRobin masterIDs replicaAddrs) t out →
  (∃ r, out = Done r) ∧
  (out = Done (Ok tt) → ∀ id, id ∈ masterIDs → replicas_of id (redis_calls t) = rpm).
Proof.
  intros Hne Hnd Hlen H. apply replicate_loop in H as [H1 H2]; [|done|apply enumerate_nonneg].
  split; [done|]. intros Ho id Hid. rewrite (H2 Ho).
  apply list_elem_of_lookup in Hid as [k Hk].
  change (replicas_of id (replicate_calls masterIDs replicaAddrs) = rpm).
  pose proof (lookup_lt_Some _ _ _ Hk) as Hlt.
  rewrite (replicas_of_hits _ _ k) by done. rewrite Hlen, hits_spec by done.
  rewrite Nat.Div0.mod_mul, Nat.div_mul by lia. simpl. lia.
Qed.

Lemma replicateRoundRobin_even_witness :
  let r := run (with_clock agreeable) (replicateRoundRobin ["m0"; "m1"] ["a:1"; "b:1"; "c:1"; "d:1"]) (tt, 0) in
  replicas_of "m0" (redis_calls (trace_of r)) = 2%nat ∧
  replicas_of "m1" (redis_calls (trace_of r)) = 2%nat.
Proof.
  intros r.
  destruct (replicateRoundRobin_even ["m0"; "m1"] ["a:1"; "b:1"; "c:1"; "d:1"] 2 (trace_of r) (result_of r)) as [_ H].
  - discriminate.
  - repeat constructor; set_solver.
  - reflexivity.
  - apply run_exec.
  - split; apply H; (reflexivity || set_solver).
Defined.

(** ** FormCluster *)

(** The calls of a trace that change the cluster or read its nodes: all but
    the CLUSTER INFO of the polling loops. *)
Definition changes (t : list (event SysSig)) : list RedisClient.method :=
  omap (λ m, match m with RedisClient.ClusterInfo _ => None | m => Some m end) (redis_calls t).

Lemma changes_app t1 t2 : changes (t1 ++ t2) = changes t1 ++ changes t2.
Proof. unfold changes. by rewrite redis_calls_app, omap_app. Qed.

(** CLUSTER MEET of [peer] by [addr]. *)
Definition meet_call (addr peer : string) : option RedisClient.method :=
  match splitAddr peer with
  | Ok (ip, port) => Some (RedisClient.ClusterMeet addr ip port)
  | Fail _ => None
  end.

Definition splits (addr : string) : Prop := is_ok (splitAddr addr) = true.

Lemma meetPeer_ok addr peer f g t :
  exec (meetPeer addr peer f g) t (Done (Ok tt)) →
  splits peer ∧ changes t = omap id [meet_call addr peer].
Proof.
  unfold meetPeer, meet_call, splits. destruct (splitAddr peer) as [[ip port]|e]; intros H; [|exec_done H].
  exec_step_ok H; exec_done H. done.
Qed.

(** A loop all of whose turns make the changes [g x]. *)
Lemma changes_for_each {A} (f : A → prog SysSig (result unit)) (g : A → list RedisClient.method)
    (P : A → Prop) l t :
  (∀ x tx, exec (f x) tx (Done (Ok tt)) → P x ∧ changes tx = g x) →
  exec (for_each l f) t (Done (Ok tt)) → Forall P l ∧ changes t = l ≫= g.
Proof.
  intros Hf. revert t. induction l as [|x l IH]; intros t; [by intros [-> _]|].
  rewrite exec_for_each_cons. intros [(t1 & t2 & -> & H1 & H2)|[Hne _]]; [|done].
  destruct (IH _ H2) as [HP Ht], (Hf _ _ H1) as [Hx H1x]. split; [by constructor|].
  by rewrite changes_app, Ht, H1x, bind_cons.
Qed.

(** Every master meets every other one. *)
Definition mesh_calls (masterAddrs : list string) : list RedisClient.method :=
  enumerate masterAddrs ≫= λ '(i, addr), enumerate masterAddrs ≫= λ '(j, peer),
    if i =? j then [] else omap id [meet_call addr peer].

Lemma meetMasters_ok masterAddrs t :
  exec (meetMasters masterAddrs) t (Done (Ok tt)) → changes t = mesh_calls masterAddrs.
Proof.
  intros H. eapply (changes_for_each _ _ (λ _, True)) in H as [_ H]; [exact H|].
  intros [i addr] tx Hx. eapply (changes_for_each _ _ (λ _, True)) in Hx as [_ Hx]; [by split; [|exact Hx]|].
  intros [j peer] ty Hy. split; [done|]. destruct (i =? j); [by exec_done Hy|]. by apply meetPeer_ok in Hy as [_ Hy].
Qed.

Lemma pollInfo_changes addr accept v t out : exec (pollInfo addr accept v) t out → changes t = [].
Proof.
  intros H. exec_step_ok H; exec_simpl H; [destruct (accept r)|]; by destruct H as [-> _].
Qed.

Lemma changes_now r t : changes (Ev (S := SysSig) Now r :: t) = changes t.
Proof. done. Qed.

Lemma changes_sleep d r t : changes (Ev (S := SysSig) (SleepOrDone d) r :: t) = changes t.
Proof. done. Qed.

Lemma poll_changes fuel deadline addr accept expired v t out :
  exec (poll fuel deadline v (pollInfo addr accept) expired) t out → changes t = [].
Proof.
  revert v t. induction fuel as [|fuel IH]; intros v t H; [by destruct H as [-> _]|].
  rewrite poll_unfold in H. exec_step H. exec_simpl H.
  destruct (r <? deadline); [|by destruct H as [-> _]].
  apply exec_bind in H as [(t1 & [v'|a'] & t2 & -> & H1 & H2)|(h & -> & H1)];
    apply pollInfo_changes in H1; rewrite changes_now, ?changes_app, H1.
  - exec_step H2. exec_simpl H2. rewrite changes_sleep.
    destruct r0 as [e|]; [by destruct H2 as [-> _]|]. by eapply IH.
  - by destruct H2 as [-> _].
  - done.
Qed.

(** What [FormCluster] does after the slots are assigned. *)
Definition replica_calls (first : string) (replicaAddrs masterIDs : list string) : list RedisClient.method :=
  omap (meet_call first) replicaAddrs ++ [RedisClient.ClusterNodes first] ++ replicate_calls masterIDs replicaAddrs.

Lemma meetReplicas_ok first replicaAddrs t :
  exec (meetReplicas first replicaAddrs) t (Done (Ok tt)) → changes t = omap (meet_call first) replicaAddrs.
Proof.
  intros H. eapply (changes_for_each _ (λ r, omap id [meet_call first r]) (λ _, True)) in H as [_ H].
  - rewrite H. clear H. induction replicaAddrs as [|r l IH]; [done|].
    rewrite bind_cons, IH, omap_cons_eq. simpl. by destruct (meet_call first r).
  - intros r tx Hx. by apply meetPeer_ok in Hx as [_ Hx].
Qed.

Lemma AssignSlotsEvenly_ok masterAddrs t :
  exec (AssignSlotsEvenly masterAddrs) t (Done (Ok tt)) → changes t = assign_calls masterAddrs.
Proof.
  unfold AssignSlotsEvenly. case_bool; intros H; [exec_done H|].
  apply assign_loop in H as [_ H]. unfold changes. rewrite H by done. unfold assign_calls.
  clear H. induction (enumerate masterAddrs) as [|ia l IH]; [done|]. rewrite !fmap_cons, omap_cons_eq. cbv beta iota. f_equal. exact IH.
Qed.

Lemma replicate_ok masterIDs replicaAddrs t :
  masterIDs ≠ [] → exec (replicateRoundRobin masterIDs replicaAddrs) t (Done (Ok tt)) →
  changes t = replicate_calls masterIDs replicaAddrs.
Proof.
  intros Hne H. apply replicate_loop in H as [_ H]; [|done|apply enumerate_nonneg].
  unfold changes. rewrite H by done. unfold replicate_calls.
  clear H. induction (enumerate replicaAddrs) as [|[i a] l IH]; [done|]. rewrite omap_cons_eq.
  destruct (masterIDs !! _); simpl; [|apply IH]. by f_equal.
Qed.

Lemma waitForKnownNodes_changes fuel addr n timeout t out :
  exec (waitForKnownNodes fuel addr n timeout) t out → changes t = [].
Proof. intros H. exec_step H. exec_simpl H. rewrite changes_now. by eapply poll_changes. Qed.

Lemma WaitForClusterReady_changes fuel addr timeout t out :
  exec (WaitForClusterReady fuel addr timeout) t out → changes t = [].
Proof. intros H. exec_step H. exec_simpl H. rewrite changes_now. by eapply poll_changes. Qed.

(** The success of one phase. *)
Lemma exec_phase {B} w (f : unit → prog SysSig (result B)) p t b :
  exec (bind_ok w f p) t (Done (Ok b)) →
  ∃ t1 t2, t = t1 ++ t2 ∧ exec p t1 (Done (Ok tt)) ∧ exec (f tt) t2 (Done (Ok b)).
Proof.
  intros [(t1 & [] & t2 & -> & H1 & H2)|[(e & ? & _)|(h & ? & _)]]%exec_bind_ok; [eauto|done|done].
Qed.

(** The replica phases of [FormCluster]. *)
Lemma form_replicas fuel first (masterAddrs replicaAddrs : list string) t :
  masterAddrs ≠ [] →
  exec (_ ←? meetReplicas first replicaAddrs;
        _ ←? waitForKnownNodes fuel first (zlen masterAddrs + zlen replicaAddrs) (60 * second)
          orelse (λ e, Errorf "waiting for replicas to join: %w" [AErr e]);
        nodes ←? rcall (RedisClient.ClusterNodes first)
          orelse (λ e, Errorf "fetching cluster nodes: %w" [AErr e]);
        let masterIDs := masterNodeIDs nodes in
        if negb (zlen masterIDs =? zlen masterAddrs)
        then mret (Fail (Errorf "expected %d master IDs, found %d"
                           [AInt (zlen masterAddrs); AInt (zlen masterIDs)]))
        else replicateRoundRobin masterIDs replicaAddrs) t (Done (Ok tt)) →
  ∃ nodes, nodes ∈ observe nodes_answer t ∧ zlen (masterNodeIDs nodes) = zlen masterAddrs ∧
    changes t = replica_calls first replicaAddrs (masterNodeIDs nodes).
Proof.
  intros Hne H. apply exec_phase in H as (t1 & t2 & -> & H1 & H).
  apply exec_phase in H as (t3 & t4 & -> & H3 & H). exec_step_ok H; [|exec_done H]. exec_simpl H.
  destruct (negb (zlen (masterNodeIDs r) =? zlen masterAddrs)) eqn:E; [exec_done H|].
  apply negb_false_iff, Z.eqb_eq in E. exists r. split; [|split; [done|]].
  - rewrite !observe_app, !elem_of_app. right. right. apply elem_of_cons. by left.
  - assert (masterNodeIDs r ≠ []) as Hids.
    { destruct masterAddrs as [|a l]; [done|]. intros Hn. rewrite Hn, zlen_cons in E.
      pose proof (zlen_nonneg l). change (zlen (@nil string)) with 0 in E. lia. }
    apply replicate_ok in H; [|done].
    apply waitForKnownNodes_changes in H3. apply meetReplicas_ok in H1.
    rewrite !changes_app, H1, H3. unfold replica_calls. rewrite <- H. done.
Qed.

(** C7: The phases of [FormCluster].  With fewer than three masters it
    returns an error and calls nothing.  When it returns nil, the calls it
    made besides polling CLUSTER INFO are, in this order: every master meets
    every other master; every master is assigned its chunk of the slots; and,
    if there are replicas to attach, every replica meets the first master,
    the nodes are read once, they list exactly as many masters as were
    given, and every replica is attached to one of them in turn. *)
Theorem FormCluster_phases fuel masterAddrs replicaAddrs replicasPerMaster t out :
  exec (FormCluster fuel masterAddrs replicaAddrs replicasPerMaster) t out →
  (zlen masterAddrs < 3 → t = [] ∧ ∃ e, out = Done (Fail e)) ∧
  (out = Done (Ok tt) →
   ∃ first rest, masterAddrs = first :: rest ∧ 3 ≤ zlen masterAddrs ∧
     if (zlen replicaAddrs =? 0) || (replicasPerMaster =? 0)
     then changes t = mesh_calls masterAddrs ++ assign_calls masterAddrs
     else ∃ nodes, nodes ∈ observe nodes_answer t ∧ zlen (masterNodeIDs nodes) = zlen masterAddrs ∧
       changes t = mesh_calls masterAddrs ++ assign_calls masterAddrs
                   ++ replica_calls first replicaAddrs (masterNodeIDs nodes)).
Proof.
  unfold FormCluster. destruct (zlen masterAddrs <? 3) eqn:E.
  { intros [-> ->]. split; [eauto|done]. }
  intros H. split; [blia|]. intros ->. destruct masterAddrs as [|first rest]; [done|].
  exists first, rest. split; [done|]. split; [blia|].
  apply exec_phase in H as (t1 & ? & -> & H1 & H). apply meetMasters_ok in H1.
  apply exec_phase in H as (t2 & ? & -> & H2 & H). apply waitForKnownNodes_changes in H2.
  apply exec_phase in H as (t3 & ? & -> & H3 & H). apply AssignSlotsEvenly_ok in H3.
  apply exec_phase in H as (t4 & t5 & -> & H4 & H). apply WaitForClusterReady_changes in H4.
  rewrite !changes_app, H1, H2, H3, H4. destruct (_ || _).
  - destruct H as [-> _]. by rewrite app_nil_r.
  - apply form_replicas in H as (nodes & Hin & Hlen & H); [|done].
    exists nodes. rewrite H. split_and!; [|done|done].
    rewrite !observe_app, !elem_of_app. tauto.
Qed.

(** Three masters, seen by a cluster that lists them. *)
Definition three_masters (m : RedisClient.method) (w : unit) : RedisClient.reply m * unit :=
  match m return RedisClient.reply m * unit with
  | RedisClient.ClusterNodes _ =>
      (Ok (flip (λ id addr, {| cn_NodeID := id; cn_Addr := addr; cn_Flags := ["master"]; cn_MasterID := "-";
             cn_PingSent := 0; cn_PongRecv := 0; cn_ConfigEpoch := 0; cn_LinkState := "connected";
             cn_Slots := [] |}) "10.0.0.1:6379" <$> ["m0"; "m1"; "m2"]), w)
  | m => agreeable m w
  end.

Lemma FormCluster_phases_witness :
  let r := run (with_clock three_masters) (FormCluster 2 ["a:1"; "b:1"; "c:1"] ["d:1"; "e:1"; "f:1"] 1) (tt, 0) in
  result_of r = Done (Ok tt) ∧
  ∃ nodes, changes (trace_of r) = mesh_calls ["a:1"; "b:1"; "c:1"] ++ assign_calls ["a:1"; "b:1"; "c:1"]
                   ++ replica_calls "a:1" ["d:1"; "e:1"; "f:1"] (masterNodeIDs nodes).
Proof.
  intros r.
  assert (result_of r = Done (Ok tt)) as Hr by (vm_compute; reflexivity).
  split; [exact Hr|].
  destruct (FormCluster_phases 2 ["a:1"; "b:1"; "c:1"] ["d:1"; "e:1"; "f:1"] 1 (trace_of r) (result_of r))
    as [_ H]; [apply run_exec|].
  destruct (H Hr) as (first & rest & Heq & _ & nodes & _ & _ & Hc). exists nodes.
  injection Heq as <- _. exact Hc.
Defined.

(** ** Removal *)

Lemma exec_forgetNode nodes addr id t out :
  exec (forgetNode nodes addr id) t out →
  out = Done tt ∧
  redis_calls t = (λ n, RedisClient.ClusterForget (cn_Addr n) id) <$> filter (λ n, cn_Addr n ≠ addr) nodes.
Proof.
  unfold forgetNode. revert t. induction nodes as [|n nodes IH]; intros t; [by intros [-> ->]|].
  rewrite exec_do_each_cons, filter_cons. destruct (String.eqb_spec (cn_Addr n) addr) as [Ha|Ha].
  - rewrite decide_False by tauto. intros [(t1 & t2 & -> & H1 & H2)|(h & -> & H1)]; exec_done H1.
    by apply IH.
  - rewrite decide_True by done.
    intros [(t1 & t2 & -> & H1 & H2)|(h & -> & H1)]; exec_step H1; exec_done H1.
    destruct (IH _ H2) as [-> H3]. split; [done|]. rewrite redis_calls_app, H3. done.
Qed.

(** [RemoveMaster] resets the node before the others forget it, and
    never the other way round.  When it returns nil it looked the node's ID
    up in the nodes the cluster reported, sent one soft CLUSTER RESET to the
    node, and then CLUSTER FORGET of that ID to every other node of the
    report and never to the removed node itself; when the lookup or the reset
    fails nothing is forgotten. *)
Lemma RemoveMaster_reset_then_forget clusterAddr removeAddr t out :
  exec (RemoveMaster clusterAddr removeAddr) t out →
  (out = Done (Ok tt) →
   ∃ nodes id, observe nodes_answer t = [nodes] ∧ id = nodeIDForAddr nodes removeAddr ∧ id ≠ "" ∧
     redis_calls t = RedisClient.ClusterNodes clusterAddr :: RedisClient.ClusterReset removeAddr false ::
       ((λ n, RedisClient.ClusterForget (cn_Addr n) id) <$> filter (λ n, cn_Addr n ≠ removeAddr) nodes)) ∧
  (out ≠ Done (Ok tt) →
   redis_calls t = [RedisClient.ClusterNodes clusterAddr] ∨
   redis_calls t = [RedisClient.ClusterNodes clusterAddr; RedisClient.ClusterReset removeAddr false]).
Proof.
  intros H. exec_step_ok H; [|destruct H as [-> ->]; split; [done|by left]].
  exec_simpl H. destruct (String.eqb_spec (nodeIDForAddr r removeAddr) "") as [Hid|Hid].
  { destruct H as [-> ->]. split; [done|by left]. }
  exec_step_ok H; [|destruct H as [-> ->]; split; [done|by right]]. exec_simpl H.
  apply exec_bind in H as [(t1 & [] & t2 & -> & H1 & H2)|(h & -> & H1)].
  - destruct H2 as [-> ->]. pose proof H1 as H1'. apply exec_forgetNode in H1 as [_ H1]. split; [|done]. intros _.
    exists r, (nodeIDForAddr r removeAddr). split_and!; try done.
    + rewrite app_nil_r. change (r :: observe nodes_answer t1 = [r]). f_equal.
      clear -H1'. unfold forgetNode in H1'. revert t1 H1'. generalize r at 1. 
      induction r0 as [|n nodes IH]; intros t1; [by intros [-> _]|].
      rewrite exec_do_each_cons. intros [(t2 & t3 & -> & H2 & H3)|(h & ? & _)]; [|done].
      rewrite observe_app, (IH _ H3), app_nil_r.
      destruct (String.eqb _ _); [exec_done H2|exec_step H2; exec_done H2]; done.
    + rewrite app_nil_r, <- H1. done.
  - by apply exec_forgetNode in H1 as [? _].
Qed.

Lemma RemoveMaster_reset_then_forget_witness :
  let r := run (with_clock agreeable) (RemoveMaster "10.0.0.1:6379" "10.0.0.2:6379") (tt, 0) in
  redis_calls (trace_of r) =
    [RedisClient.ClusterNodes "10.0.0.1:6379"; RedisClient.ClusterReset "10.0.0.2:6379" false;
     RedisClient.ClusterForget "10.0.0.1:6379" "bb"].
Proof.
  intros r.
  destruct (RemoveMaster_reset_then_forget "10.0.0.1:6379" "10.0.0.2:6379" (trace_of r) (result_of r)) as [H _];
    [apply run_exec|].
  destruct (H eq_refl) as (nodes & id & Hn & -> & _ & ->). vm_compute in Hn. injection Hn as <-.
  vm_compute. reflexivity.
Defined.
