(* ===== verification/Health.v ===== *)
(** * internal/redis/health.go and internal/redis/sentinel.go

    The liveness helpers ([WaitForPing], [GetRole], ...) and the
    [SentinelManager], with the theorems on their polling loops, on the
    quorum they wait for, and on the comparison of a replica's master. *)

From S2P Require Import Prelude Go Effects Client Sys.

Local Open Scope Z_scope.

Section fuel.
Context (fuel : nat).

(** ** health.go *)

(** [%w] of a possibly nil error. *)
Definition wrapped (e : option error) : arg :=
  match e with Some e => AErr e | None => AStr "%!w(<nil>)" end.

Definition pingAttempt (addr : string) (lastErr : option error) : prog SysSig (option error + unit) :=
  r ← rcall (RedisClient.Ping addr);
  match r with
  | Ok _ => mret (inr tt)
  | Fail e => mret (inl (Some e))
  end.

Definition WaitForPing (addr : string) (timeout : Z) : prog SysSig (result unit) :=
  t0 ← now;
  poll fuel (t0 + timeout) None (pingAttempt addr)
    (λ lastErr, Errorf "redis at %s did not respond to PING within %s: %w"
                  [AStr addr; ADur timeout; wrapped lastErr]).

Definition WaitForAllPings (addrs : list string) (timeout : Z) : prog SysSig (result unit) :=
  for_each addrs (λ addr, WaitForPing addr timeout).

Definition GetRole (addr : string) : prog SysSig (result string) := rcall (RedisClient.Role addr).

Definition IsHealthy (addr : string) : prog SysSig bool :=
  r ← rcall (RedisClient.Ping addr); mret (is_ok r).

Definition GetRedisVersion (addr : string) : prog SysSig (result string) :=
  info ←? rcall (RedisClient.Info addr "server")
    orelse (λ e, Errorf "INFO server on %s: %w" [AStr addr; AErr e]);
  match info !! "redis_version" with
  | None => mret (Fail (Errorf "redis_version not found in INFO server output" []))
  | Some version => mret (Ok version)
  end.

(** The integer [fmt.Sscanf] leaves in a variable that held 0: the scan of an
    INFO field, absent or unreadable fields counting as 0. *)
Definition scannedField (info : gmap string string) (key : string) : Z :=
  let v := map_get info key in
  if String.eqb v "" then 0
  else match sscanf_d v with Ok n => n | Fail _ => 0 end.

Definition CountConnectedClients (addr : string) : prog SysSig (result Z) :=
  info ←? rcall (RedisClient.Info addr "clients");
  mret (Ok (scannedField info "connected_clients")).

Definition GetReplicationLag (addr : string) : prog SysSig (result Z) :=
  info ←? rcall (RedisClient.Info addr "replication");
  mret (Ok (scannedField info "master_repl_offset")).

(** ** sentinel.go *)

Definition GetMaster (sentinelAddr masterName : string) : prog SysSig (result (string * Z)) :=
  rcall (RedisClient.SentinelGetMasterAddr sentinelAddr masterName).

Definition masterAttempt (sentinelAddr masterName : string) (_ : unit)
  : prog SysSig (unit + string * Z) :=
  r ← rcall (RedisClient.SentinelGetMasterAddr sentinelAddr masterName);
  match r with
  | Ok (ip, port) => mret (if String.eqb ip "" then inl tt else inr (ip, port))
  | Fail _ => mret (inl tt)
  end.

Definition WaitForMaster (sentinelAddr masterName : string) (timeout : Z)
  : prog SysSig (result (string * Z)) :=
  t0 ← now;
  poll fuel (t0 + timeout) tt (masterAttempt sentinelAddr masterName)
    (λ _, Errorf "sentinel at %s did not report a master for %q within %s"
            [AStr sentinelAddr; AStr masterName; ADur timeout]).

Definition TriggerFailover (sentinelAddr masterName : string) : prog SysSig (result unit) :=
  rcall (RedisClient.SentinelFailover sentinelAddr masterName).

Definition ResetMonitor (sentinelAddr pattern : string) : prog SysSig (result unit) :=
  rcall (RedisClient.SentinelReset sentinelAddr pattern).

Definition GetMasterInfo (sentinelAddr masterName : string) : prog SysSig (result (gmap string string)) :=
  rcall (RedisClient.SentinelMaster sentinelAddr masterName).

(** The decision of [IsReplicaOfMaster] on the INFO replication map. *)
Definition replicates (info : gmap string string) (masterAddr : string) : bool :=
  if negb (String.eqb (map_get info "role") "slave") then false
  else
    let '(masterPort, _) := atoi (map_get info "master_port") in
    String.eqb (map_get info "master_host" +:+ ":" +:+ itoa masterPort) masterAddr.

Definition IsReplicaOfMaster (addrToCheck masterAddr : string) : prog SysSig (result bool) :=
  info ←? rcall (RedisClient.Info addrToCheck "replication")
    orelse (λ e, Errorf "INFO replication on %s: %w" [AStr addrToCheck; AErr e]);
  mret (Ok (replicates info masterAddr)).

(** Whether a Sentinel reports the master as reachable. *)
Definition sentinelHealthy (info : gmap string string) : bool :=
  String.eqb (map_get info "status") "ok" || String.eqb (map_get info "flags") "master".

(** [healthy] after asking the Sentinels in turn. *)
Fixpoint countHealthy (sentinelAddrs : list string) (masterName : string) (healthy : Z)
  : prog SysSig Z :=
  match sentinelAddrs with
  | [] => mret healthy
  | addr :: addrs =>
      r ← rcall (RedisClient.SentinelMaster addr masterName);
      match r with
      | Fail _ => countHealthy addrs masterName healthy
      | Ok info => countHealthy addrs masterName (if sentinelHealthy info then healthy + 1 else healthy)
      end
  end.

Definition quorumAttempt (sentinelAddrs : list string) (masterName : string) (quorum : Z) (_ : unit)
  : prog SysSig (unit + unit) :=
  healthy ← countHealthy sentinelAddrs masterName 0;
  mret (if quorum <=? healthy then inr tt else inl tt).

Definition WaitForSentinelQuorum (sentinelAddrs : list string) (masterName : string) (quorum timeout : Z)
  : prog SysSig (result unit) :=
  t0 ← now;
  poll fuel (t0 + timeout) tt (quorumAttempt sentinelAddrs masterName quorum)
    (λ _, Errorf "sentinel quorum of %d not reached within %s" [AInt quorum; ADur timeout]).

End fuel.

(** ** Theorems *)

(** The master map in the answer to SENTINEL MASTER. *)
Definition master_answer (e : event SysSig) : option (gmap string string) :=
  match e with
  | Ev o r => match o return sys_ans o → option (gmap string string) with
              | Redis (RedisClient.SentinelMaster _ _) =>
                  λ r, match r with Ok info => Some info | Fail _ => None end
              | _ => λ _, None
              end r
  end.

(** The Sentinels of a trace that reported the master as reachable. *)
Definition healthy_answers (t : list (event SysSig)) : list (gmap string string) :=
  filter (λ info, sentinelHealthy info = true) (observe master_answer t).

Lemma healthy_answers_cons a name info t :
  healthy_answers (Ev (S := SysSig) (Redis (RedisClient.SentinelMaster a name)) (Ok info) :: t)
  = if sentinelHealthy info then info :: healthy_answers t else healthy_answers t.
Proof.
  change (filter (λ info, sentinelHealthy info = true) (info :: observe master_answer t)
          = if sentinelHealthy info then info :: healthy_answers t else healthy_answers t).
  rewrite filter_cons. destruct (sentinelHealthy info) eqn:E; [by rewrite decide_True|].
  rewrite decide_False by congruence. done.
Qed.

Lemma exec_countHealthy addrs name n t out :
  exec (countHealthy addrs name n) t out →
  out = Done (n + zlen (healthy_answers t)) ∧
  redis_calls t = (λ a, RedisClient.SentinelMaster a name) <$> addrs.
Proof.
  revert n t. induction addrs as [|a addrs IH]; intros n t.
  { intros [-> ->]. cbn. by rewrite Z.add_0_r. }
  intros H. exec_step_ok H; exec_simpl H; apply IH in H as [-> H].
  - split; [|by rewrite fmap_cons, <- H]. rewrite healthy_answers_cons.
    destruct (sentinelHealthy r); [rewrite zlen_cons|done]. f_equal. lia.
  - split; [done|]. by rewrite fmap_cons, <- H.
Qed.

Lemma countHealthy_returns {W} (h : handler SysSig W) addrs name n : returns h (countHealthy addrs name n).
Proof.
  revert n. induction addrs as [|a addrs IH]; intros n; [apply returns_ret|].
  apply returns_bind; [apply (returns_rcall h (RedisClient.SentinelMaster a name))|]. intros [info|e]; apply IH.
Qed.

(** [WaitForSentinelQuorum] counts a real quorum and terminates: in every
    environment whose clock advances it returns, and it returns nil only when
    its last round asked every Sentinel of the list, once and in order, and at
    least [quorum] of the answers of that round reported the master as
    reachable. *)
Lemma WaitForSentinelQuorum_quorum {W} (h : handler SysSig W) {C : Clock h} addrs name quorum timeout w :
  0 ≤ timeout →
  let r := run h (WaitForSentinelQuorum (poll_fuel timeout) addrs name quorum timeout) w in
  ∃ res, result_of r = Done res ∧
    (res = Ok tt → ∃ before round, trace_of r = before ++ round ∧
       redis_calls round = (λ a, RedisClient.SentinelMaster a name) <$> addrs ∧
       quorum ≤ zlen (healthy_answers round)).
Proof.
  intros Ht r.
  destruct (waiting_returns h timeout tt (quorumAttempt addrs name quorum)
    (λ _, Errorf "sentinel quorum of %d not reached within %s" [AInt quorum; ADur timeout]) w Ht)
    as (res & Hr & Hok).
  { intros v. apply returns_bind; [apply countHealthy_returns|]. intros n. apply returns_ret. }
  exists res. split; [exact Hr|]. intros ->. destruct (Hok tt eq_refl) as (t1 & t2 & v & Htr & H).
  apply exec_bind in H as [(t3 & n & t4 & -> & H1 & H2)|(x & ? & _)]; [|done].
  apply exec_countHealthy in H1 as [[= ->] H1]. destruct (quorum <=? _) eqn:E; exec_done H2.
  rewrite app_nil_r in Htr. exists t1, t3. split_and!; [exact Htr|done|blia].
Qed.

(** Three Sentinels, all of which see the master. *)
Definition quorate (m : RedisClient.method) (w : unit) : RedisClient.reply m * unit :=
  match m return RedisClient.reply m * unit with
  | RedisClient.SentinelMaster _ _ => (Ok {["flags" := "master"]}, w)
  | m => agreeable m w
  end.

Lemma WaitForSentinelQuorum_quorum_witness :
  let r := run (with_clock quorate) (WaitForSentinelQuorum (poll_fuel (10 * second)) ["a:1"; "b:1"; "c:1"] "mymaster" 2 (10 * second)) (tt, 0) in
  ∃ res, result_of r = Done res ∧
    (res = Ok tt → ∃ before round, trace_of r = before ++ round ∧
       redis_calls round = (λ a, RedisClient.SentinelMaster a "mymaster") <$> ["a:1"; "b:1"; "c:1"] ∧
       2 ≤ zlen (healthy_answers round)).
Proof. apply (WaitForSentinelQuorum_quorum (with_clock quorate)). unfold second. lia. Defined.

(** [WaitForMaster] never reports an empty master: in every environment
    whose clock advances it returns, and the address it returns is the one
    its last call received from Sentinel, with a non-empty host. *)
Lemma WaitForMaster_reported {W} (h : handler SysSig W) {C : Clock h} sentinelAddr name timeout w :
  0 ≤ timeout →
  let r := run h (WaitForMaster (poll_fuel timeout) sentinelAddr name timeout) w in
  ∃ res, result_of r = Done res ∧
    ∀ ip port, res = Ok (ip, port) →
      ip ≠ "" ∧ last (trace_of r) = Some (ev (RedisClient.SentinelGetMasterAddr sentinelAddr name) (Ok (ip, port))).
Proof.
  intros Ht r.
  destruct (waiting_returns h timeout tt (masterAttempt sentinelAddr name)
    (λ _, Errorf "sentinel at %s did not report a master for %q within %s"
            [AStr sentinelAddr; AStr name; ADur timeout]) w Ht) as (res & Hr & Hok).
  { intros v. apply returns_bind; [apply (returns_rcall h (RedisClient.SentinelGetMasterAddr sentinelAddr name))|].
    intros [[ip port]|e]; apply returns_ret. }
  exists res. split; [exact Hr|]. intros ip port ->. destruct (Hok _ eq_refl) as (t1 & t2 & v & Htr & H).
  exec_step_ok H; [|exec_done H]. exec_simpl H. destruct r0 as [ip' port'].
  destruct (String.eqb_spec ip' "") as [->|Hip]; exec_done H. injection H0 as -> ->.
  split; [done|].
  change (trace_of r = t1 ++ [ev (RedisClient.SentinelGetMasterAddr sentinelAddr name) (Ok (ip', port'))]) in Htr.
  by rewrite Htr, last_snoc.
Qed.

Lemma WaitForMaster_reported_witness :
  let r := run (with_clock agreeable) (WaitForMaster (poll_fuel (10 * second)) "s:26379" "mymaster" (10 * second)) (tt, 0) in
  ∃ res, result_of r = Done res ∧
    ∀ ip port, res = Ok (ip, port) →
      ip ≠ "" ∧ last (trace_of r) = Some (ev (RedisClient.SentinelGetMasterAddr "s:26379" "mymaster") (Ok (ip, port))).
Proof. apply (WaitForMaster_reported (with_clock agreeable)). unfold second. lia. Defined.

(** [IsReplicaOfMaster] compares the whole address: for a map that a
    replica reports (role [slave], a port in decimal), the answer is true
    exactly when the address asked about is the host, a colon and the port;
    for any other role it is false. *)
Lemma replicates_spec info masterAddr :
  replicates info masterAddr = true ↔
  map_get info "role" = "slave" ∧
  masterAddr = map_get info "master_host" +:+ ":" +:+ itoa (fst (atoi (map_get info "master_port"))).
Proof.
  unfold replicates. destruct (String.eqb_spec (map_get info "role") "slave") as [Hr|Hr]; simpl.
  - destruct (atoi _) as [port err]. simpl. rewrite String.eqb_eq. naive_solver.
  - naive_solver.
Qed.
