(* ===== verification/Api.v ===== *)
(** * api/v1alpha1: the types of the custom resources

    The specs and statuses of [Redis], [RedisSentinel] and [RedisCluster], the
    shared types and constants, and the part of the Kubernetes object model
    they embed.  What the operator only passes through (affinities,
    tolerations, quantities, ...) is abstract: the types and the library
    functions on them are the parameters gathered in [KubeTypes].

    A nil and an empty Go map are the same [gmap] except where the code
    distinguishes them ([RedisConfig]); a pointer is an [option]. *)

From S2P Require Import Prelude Go.

Local Open Scope Z_scope.

(** The Kubernetes libraries: [resource.Quantity] with its parser and order,
    and the types the operator never looks into. *)
Class KubeTypes := {
  Quantity : Type;
  ParseQuantity : string → result Quantity;
  MustParse : string → Quantity;
  (** the zero value that accompanies an error of [ParseQuantity] *)
  zeroQuantity : Quantity;
  (** [a.Cmp(b)]: -1, 0 or 1 *)
  Cmp : Quantity → Quantity → Z;
  ResourceClaim : Type;
  Affinity : Type;
  Toleration : Type;
  (** the fields of an object's metadata that the operator does not read *)
  MetaRest : Type;
  noMeta : MetaRest;
  (** [ctrl.SetControllerReference]: owner kind, name and metadata, and the
      metadata it extends with the owner reference *)
  SetControllerReference : string → string → MetaRest → MetaRest → result MetaRest;
  (** the fields of a workload's or a service's spec that it leaves alone *)
  SpecRest : Type;
  noSpec : SpecRest
}.

(** ** Kubernetes objects *)

Inductive ConditionStatus := ConditionTrue | ConditionFalse | ConditionUnknown.

#[global] Instance ConditionStatus_eq_dec : EqDecision ConditionStatus.
Proof. solve_decision. Defined.

(** [metav1.Condition]; times are nanoseconds. *)
Record Condition := {
  cond_Type : string;
  cond_Status : ConditionStatus;
  cond_ObservedGeneration : Z;
  cond_LastTransitionTime : Z;
  cond_Reason : string;
  cond_Message : string
}.

Section types.
Context {K : KubeTypes}.

(** [metav1.ObjectMeta]; [None] is the zero time. *)
Record ObjectMeta := {
  om_Name : string;
  om_Namespace : string;
  om_Labels : gmap string string;
  om_Annotations : gmap string string;
  om_Generation : Z;
  om_CreationTimestamp : option Z;
  om_DeletionTimestamp : option Z;
  om_Finalizers : list string;
  om_Rest : MetaRest
}.

(** A literal that sets the name, the namespace and the labels. *)
Definition meta (name namespace : string) (labels : gmap string string) : ObjectMeta :=
  {| om_Name := name; om_Namespace := namespace; om_Labels := labels; om_Annotations := ∅;
     om_Generation := 0; om_CreationTimestamp := None; om_DeletionTimestamp := None;
     om_Finalizers := []; om_Rest := noMeta |}.

Definition ResourceList := gmap string Quantity.

Record ResourceRequirements := {
  rr_Limits : ResourceList;
  rr_Requests : ResourceList;
  rr_Claims : list ResourceClaim
}.

(** ** Shared types *)

Record StorageSpec := {
  ss_ClassName : option string;
  ss_Size : string;
  ss_KeepAfterDeletion : bool
}.

Record AuthSpec := { auth_SecretName : string }.

Record TLSSpec := { tls_SecretName : string }.

Definition FinalizerName : string := "redis.example.com/finalizer".
Definition PhaseInitializing : string := "Initializing".
Definition PhaseReady : string := "Ready".
Definition PhaseFailed : string := "Failed".
Definition PhaseScaling : string := "Scaling".
Definition PhaseRecovering : string := "Recovering".
Definition DefaultRedisImage : string := "redis:7.2-alpine".
Definition DefaultExporterImage : string := "oliver006/redis_exporter:latest".

(** ** Redis *)

Record RedisSpec := {
  r_Image : string;
  r_Resources : ResourceRequirements;
  r_Storage : option StorageSpec;
  r_RedisConfig : option (gmap string string);
  r_Auth : option AuthSpec;
  r_TLS : option TLSSpec;
  r_EnableExporter : option bool;
  r_ExporterImage : string;
  r_Affinity : option Affinity;
  r_Tolerations : list Toleration;
  r_NodeSelector : gmap string string
}.

Record RedisStatus := {
  rst_Phase : string;
  rst_Message : string;
  rst_Conditions : list Condition;
  rst_RedisVersion : string;
  rst_ReadyReplicas : Z
}.

Record Redis := { redis_meta : ObjectMeta; redis_Spec : RedisSpec; redis_Status : RedisStatus }.

(** ** RedisSentinel *)

Record RedisSentinelSpec := {
  s_Replicas : Z;
  s_SentinelReplicas : Z;
  s_Image : string;
  s_SentinelImage : string;
  s_Resources : ResourceRequirements;
  s_SentinelResources : ResourceRequirements;
  s_Storage : option StorageSpec;
  s_RedisConfig : option (gmap string string);
  s_SentinelConfig : gmap string string;
  s_Auth : option AuthSpec;
  s_TLS : option TLSSpec;
  s_EnableExporter : option bool;
  s_ExporterImage : string;
  s_Affinity : option Affinity;
  s_Tolerations : list Toleration;
  s_NodeSelector : gmap string string
}.

Record RedisSentinelStatus := {
  sst_Phase : string;
  sst_Message : string;
  sst_Conditions : list Condition;
  sst_MasterNode : string;
  sst_ReadyReplicas : Z;
  sst_ReadySentinels : Z
}.

Record RedisSentinel := {
  sentinel_meta : ObjectMeta;
  sentinel_Spec : RedisSentinelSpec;
  sentinel_Status : RedisSentinelStatus
}.

(** ** RedisCluster *)

Record RedisClusterSpec := {
  c_Masters : Z;
  c_ReplicasPerMaster : Z;
  c_Image : string;
  c_Resources : ResourceRequirements;
  c_MasterResources : option ResourceRequirements;
  c_ReplicaResources : option ResourceRequirements;
  c_Storage : option StorageSpec;
  c_RedisConfig : option (gmap string string);
  c_Auth : option AuthSpec;
  c_TLS : option TLSSpec;
  c_EnableExporter : option bool;
  c_ExporterImage : string;
  c_MasterAffinity : option Affinity;
  c_MasterTolerations : list Toleration;
  c_MasterNodeSelector : gmap string string;
  c_ReplicaAffinity : option Affinity;
  c_ReplicaTolerations : list Toleration;
  c_ReplicaNodeSelector : gmap string string
}.

Record RedisNodeStatus := {
  ns_NodeID : string;
  ns_PodName : string;
  ns_IP : string;
  ns_Role : string;
  ns_Slots : string;
  ns_MasterRef : string;
  ns_Health : string
}.

Record RedisClusterStatus := {
  cst_Phase : string;
  cst_Message : string;
  cst_Conditions : list Condition;
  cst_ReadyMasters : Z;
  cst_ReadyReplicas : Z;
  cst_AssignedSlots : Z;
  cst_ClusterState : string;
  cst_Nodes : list RedisNodeStatus
}.

Record RedisCluster := {
  cluster_meta : ObjectMeta;
  cluster_Spec : RedisClusterSpec;
  cluster_Status : RedisClusterStatus
}.

(** [runtime.Object], as far as the webhooks tell objects apart. *)
Inductive Object :=
| ORedis (r : Redis)
| ORedisSentinel (rs : RedisSentinel)
| ORedisCluster (rc : RedisCluster)
| OOther.

End types.

(** A concrete instance: quantities are integers in decimal. *)
Definition plain_types : KubeTypes := {|
  Quantity := Z;
  ParseQuantity s := match parse_digits s with
                     | Some q => Ok q
                     | None => Fail (ExtErr "quantities must match the regular expression")
                     end;
  MustParse s := default 0 (parse_digits s);
  zeroQuantity := 0;
  Cmp a b := if a <? b then -1 else if a =? b then 0 else 1;
  ResourceClaim := string;
  Affinity := string;
  Toleration := string;
  MetaRest := unit;
  noMeta := tt;
  SetControllerReference _ _ _ m := Ok m;
  SpecRest := unit;
  noSpec := tt
|}.
