(* ===== verification/Webhook.v ===== *)
(** * api/v1alpha1/*_webhook.go: defaulting and validation

    [Default], [ValidateCreate], [ValidateUpdate] and [ValidateDelete] of the
    three resources.  A validation returns the warnings and the error of the
    Go function. *)

From S2P Require Import Prelude Go Api.

Local Open Scope Z_scope.

(** [(admission.Warnings, error)] *)
Definition admission : Type := list string * option error.
Definition allow : admission := ([], None).
Definition deny (f : string) (args : list arg) : admission := ([], Some (Errorf f args)).
Definition allowed (a : admission) : bool := match a.2 with None => true | Some _ => false end.

(** [if s == "" { s = d }] *)
Definition or_default (d s : string) : string := if String.eqb s "" then d else s.

(** [if z == 0 { z = d }] *)
Definition or_number (d z : Z) : Z := if z =? 0 then d else z.

(** [if p == nil { t := true; p = &t }] *)
Definition or_true (p : option bool) : option bool :=
  match p with None => Some true | Some b => Some b end.

(** [if _, ok := m[k]; !ok { m[k] = v }] *)
Definition set_missing (k v : string) (m : gmap string string) : gmap string string :=
  match m !! k with None => <[k := v]> m | Some _ => m end.

Section storage.
Context {K : KubeTypes}.

(** ** Storage *)

(** The checks of a storage spec that the three resources share. *)
Definition validateStorage (storage : option StorageSpec) (ok : admission) : admission :=
  match storage with
  | None => ok
  | Some st =>
      if String.eqb (ss_Size st) ""
      then deny "spec.storage.size must not be empty when storage is configured" []
      else match ParseQuantity (ss_Size st) with
           | Fail e => deny "spec.storage.size %q is not a valid resource.Quantity: %w"
                         [AStr (ss_Size st); AErr e]
           | Ok _ => ok
           end
  end.

(** The storage immutability checks; [cannotAdd] and [cannotRemove] are the
    messages of the resource. *)
Definition storageUpdate (cannotAdd cannotRemove : string) (old new : option StorageSpec) : admission :=
  match old, new with
  | None, Some _ => deny cannotAdd []
  | Some _, None => deny cannotRemove []
  | None, None => allow
  | Some o, Some n =>
      if negb (String.eqb (default "" (ss_ClassName o)) (default "" (ss_ClassName n)))
      then deny "spec.storage.storageClassName is immutable after creation" []
      else match ParseQuantity (ss_Size o), ParseQuantity (ss_Size n) with
           | Ok oldQty, Ok newQty =>
               if Cmp newQty oldQty <? 0
               then deny "spec.storage.size cannot be decreased (from %s to %s)"
                      [AStr (ss_Size o); AStr (ss_Size n)]
               else allow
           | _, _ => allow
           end
  end.

End storage.

(** ** Redis *)

Module RedisHook.
Section hook.
Context {K : KubeTypes}.

Definition Default (r : Redis) : Redis :=
  let s := redis_Spec r in
  {| redis_meta := redis_meta r;
     redis_Spec :=
       {| r_Image := or_default DefaultRedisImage (r_Image s);
          r_Resources := r_Resources s;
          r_Storage := r_Storage s;
          r_RedisConfig := r_RedisConfig s;
          r_Auth := r_Auth s;
          r_TLS := r_TLS s;
          r_EnableExporter := or_true (r_EnableExporter s);
          r_ExporterImage := or_default DefaultExporterImage (r_ExporterImage s);
          r_Affinity := r_Affinity s;
          r_Tolerations := r_Tolerations s;
          r_NodeSelector := r_NodeSelector s |};
     redis_Status := redis_Status r |}.

Definition validateSpec (r : Redis) : admission := validateStorage (r_Storage (redis_Spec r)) allow.

Definition ValidateCreate (r : Redis) : admission := validateSpec r.

Definition ValidateUpdate (r : Redis) (old : Object) : admission :=
  match old with
  | ORedis oldRedis =>
      match (validateSpec r).2 with
      | Some e => ([], Some e)
      | None =>
          storageUpdate
            "cannot add storage to an existing Redis instance; delete and recreate with storage configured"
            "cannot remove storage from an existing Redis instance"
            (r_Storage (redis_Spec oldRedis)) (r_Storage (redis_Spec r))
      end
  | _ => deny "unexpected type %T" [AValue]
  end.

Definition ValidateDelete (r : Redis) : admission := allow.

End hook.
End RedisHook.

(** ** RedisSentinel *)

Module SentinelHook.
Section hook.
Context {K : KubeTypes}.

Definition Default (rs : RedisSentinel) : RedisSentinel :=
  let s := sentinel_Spec rs in
  let image := or_default DefaultRedisImage (s_Image s) in
  {| sentinel_meta := sentinel_meta rs;
     sentinel_Spec :=
       {| s_Replicas := or_number 3 (s_Replicas s);
          s_SentinelReplicas := or_number 3 (s_SentinelReplicas s);
          s_Image := image;
          s_SentinelImage := or_default image (s_SentinelImage s);
          s_Resources := s_Resources s;
          s_SentinelResources := s_SentinelResources s;
          s_Storage := s_Storage s;
          s_RedisConfig := s_RedisConfig s;
          s_SentinelConfig := s_SentinelConfig s;
          s_Auth := s_Auth s;
          s_TLS := s_TLS s;
          s_EnableExporter := or_true (s_EnableExporter s);
          s_ExporterImage := or_default DefaultExporterImage (s_ExporterImage s);
          s_Affinity := s_Affinity s;
          s_Tolerations := s_Tolerations s;
          s_NodeSelector := s_NodeSelector s |};
     sentinel_Status := sentinel_Status rs |}.

Definition validateSentinelSpec (rs : RedisSentinel) : admission :=
  let s := sentinel_Spec rs in
  if s_Replicas s <? 3
  then deny "spec.replicas must be at least 3, got %d" [AInt (s_Replicas s)]
  else if s_SentinelReplicas s <? 3
  then deny "spec.sentinelReplicas must be at least 3, got %d" [AInt (s_SentinelReplicas s)]
  else if Z.rem (s_SentinelReplicas s) 2 =? 0
  then deny "spec.sentinelReplicas must be odd for quorum, got %d" [AInt (s_SentinelReplicas s)]
  else validateStorage (s_Storage s) allow.

Definition ValidateCreate (rs : RedisSentinel) : admission := validateSentinelSpec rs.

Definition ValidateUpdate (rs : RedisSentinel) (old : Object) : admission :=
  match old with
  | ORedisSentinel oldSentinel =>
      let s := sentinel_Spec rs in
      match (validateSentinelSpec rs).2 with
      | Some e => ([], Some e)
      | None =>
          if s_Replicas s <? 3
          then deny "cannot scale spec.replicas below 3, got %d" [AInt (s_Replicas s)]
          else if s_SentinelReplicas s <? 3
          then deny "cannot scale spec.sentinelReplicas below 3, got %d" [AInt (s_SentinelReplicas s)]
          else storageUpdate
                 "cannot add storage to an existing RedisSentinel instance"
                 "cannot remove storage from an existing RedisSentinel instance"
                 (s_Storage (sentinel_Spec oldSentinel)) (s_Storage s)
      end
  | _ => deny "unexpected type %T for old object" [AValue]
  end.

Definition ValidateDelete (rs : RedisSentinel) : admission := allow.

End hook.
End SentinelHook.

(** ** RedisCluster *)

Module ClusterHook.
Section hook.
Context {K : KubeTypes}.

Definition Default (rc : RedisCluster) : RedisCluster :=
  let s := cluster_Spec rc in
  let config := default ∅ (c_RedisConfig s) in
  {| cluster_meta := cluster_meta rc;
     cluster_Spec :=
       {| c_Masters := or_number 3 (c_Masters s);
          c_ReplicasPerMaster := c_ReplicasPerMaster s;
          c_Image := or_default DefaultRedisImage (c_Image s);
          c_Resources := c_Resources s;
          c_MasterResources := c_MasterResources s;
          c_ReplicaResources := c_ReplicaResources s;
          c_Storage := c_Storage s;
          c_RedisConfig :=
            Some (set_missing "appendonly" "yes" (set_missing "cluster-node-timeout" "15000" config));
          c_Auth := c_Auth s;
          c_TLS := c_TLS s;
          c_EnableExporter := or_true (c_EnableExporter s);
          c_ExporterImage := or_default DefaultExporterImage (c_ExporterImage s);
          c_MasterAffinity := c_MasterAffinity s;
          c_MasterTolerations := c_MasterTolerations s;
          c_MasterNodeSelector := c_MasterNodeSelector s;
          c_ReplicaAffinity := c_ReplicaAffinity s;
          c_ReplicaTolerations := c_ReplicaTolerations s;
          c_ReplicaNodeSelector := c_ReplicaNodeSelector s |};
     cluster_Status := cluster_Status rc |}.

(** [Masters + Masters*ReplicasPerMaster], an [int32]. *)
Definition totalNodes (s : RedisClusterSpec) : Z :=
  wrap32 (c_Masters s + wrap32 (c_Masters s * c_ReplicasPerMaster s)).

Definition validateClusterSpec (rc : RedisCluster) : admission :=
  let s := cluster_Spec rc in
  if c_Masters s <? 3
  then deny "spec.masters must be at least 3, got %d" [AInt (c_Masters s)]
  else if c_ReplicasPerMaster s <? 0
  then deny "spec.replicasPerMaster must be >= 0, got %d" [AInt (c_ReplicasPerMaster s)]
  else if 100 <? totalNodes s
  then deny "total node count %d exceeds the limit of 100" [AInt (totalNodes s)]
  else validateStorage (c_Storage s)
         (if Z.rem (c_Masters s) 2 =? 0
          then ([sprintf "spec.masters=%d is even; an odd number is recommended for quorum"
                   [arg_text (AInt (c_Masters s))]], None)
          else ([], None)).

Definition ValidateCreate (rc : RedisCluster) : admission := validateClusterSpec rc.

Definition ValidateUpdate (rc : RedisCluster) (old : Object) : admission :=
  match old with
  | ORedisCluster oldCluster =>
      let s := cluster_Spec rc in
      let oldMasters := c_Masters (cluster_Spec oldCluster) in
      match validateClusterSpec rc with
      | (warnings, Some e) => (warnings, Some e)
      | (_, None) =>
          if c_Masters s <? 3
          then deny "cannot scale spec.masters below 3" []
          else if (c_Masters s <? oldMasters) && (1 <? wrap32 (oldMasters - c_Masters s))
          then deny "cannot scale masters down by more than 1 at a time (current: %d, requested: %d)"
                 [AInt oldMasters; AInt (c_Masters s)]
          else if String.eqb (cst_Phase (cluster_Status oldCluster)) PhaseScaling
          then deny "cannot modify cluster while it is in %s phase" [AStr PhaseScaling]
          else storageUpdate
                 "cannot add storage to an existing RedisCluster instance"
                 "cannot remove storage from an existing RedisCluster instance"
                 (c_Storage (cluster_Spec oldCluster)) (c_Storage s)
      end
  | _ => deny "expected a RedisCluster object for the old resource" []
  end.

Definition ValidateDelete (rc : RedisCluster) : admission :=
  if String.eqb (cst_Phase (cluster_Status rc)) PhaseScaling
  then deny "cannot delete cluster while it is in %s phase" [AStr PhaseScaling]
  else allow.

End hook.
End ClusterHook.


(** ** Theorems *)

Section theorems.
Context {K : KubeTypes}.

Lemma or_default_idemp d s : d ≠ "" → or_default d (or_default d s) = or_default d s.
Proof.
  intros Hd. unfold or_default. destruct (String.eqb_spec s "") as [->|Hs].
  - by destruct (String.eqb_spec d "").
  - by destruct (String.eqb_spec s "").
Qed.

Lemma or_default_nonempty d s : d ≠ "" → or_default d s ≠ "".
Proof. intros Hd. unfold or_default. by destruct (String.eqb_spec s ""). Qed.

Lemma or_number_idemp d z : d ≠ 0 → or_number d (or_number d z) = or_number d z.
Proof. intros Hd. unfold or_number. destruct (z =? 0) eqn:E; case_bool; blia. Qed.

Lemma or_true_idemp p : or_true (or_true p) = or_true p.
Proof. by destruct p. Qed.

Lemma set_missing_present k v m : is_Some (m !! k) → set_missing k v m = m.
Proof. unfold set_missing. by intros [x ->]. Qed.

Lemma set_missing_lookup k v m : is_Some (set_missing k v m !! k).
Proof. unfold set_missing. destruct (m !! k) eqn:E; [by rewrite E|]. by rewrite lookup_insert_eq. Qed.

Lemma set_missing_mono k v m j : is_Some (m !! j) → is_Some (set_missing k v m !! j).
Proof.
  unfold set_missing. destruct (m !! k) eqn:E; [done|]. intros Hj. apply lookup_insert_is_Some'. by right.
Qed.

(** Defaulting is idempotent, so that an object admitted twice (on update,
    or after another mutating webhook) does not change again: for every
    resource, [Default] applied to its own result is the identity. *)
Lemma Default_idempotent :
  (∀ r : Redis, RedisHook.Default (RedisHook.Default r) = RedisHook.Default r) ∧
  (∀ rs : RedisSentinel, SentinelHook.Default (SentinelHook.Default rs) = SentinelHook.Default rs) ∧
  (∀ rc : RedisCluster, ClusterHook.Default (ClusterHook.Default rc) = ClusterHook.Default rc).
Proof.
  split_and!; intros r; unfold RedisHook.Default, SentinelHook.Default, ClusterHook.Default; cbn;
    f_equal; f_equal; try (apply or_default_idemp; done || by apply or_default_nonempty);
    try (by apply or_number_idemp); try apply or_true_idemp.
  - rewrite (or_default_idemp DefaultRedisImage) by done. by apply or_default_idemp, or_default_nonempty.
  - f_equal. rewrite (set_missing_present "cluster-node-timeout"), set_missing_present; [done| |].
    + apply set_missing_lookup.
    + apply set_missing_mono, set_missing_lookup.
Qed.

(** ** Storage *)

Lemma validateStorage_allowed st ok :
  allowed ok = true →
  allowed (validateStorage st ok) = true ↔
  ∀ s, st = Some s → ss_Size s ≠ "" ∧ is_ok (ParseQuantity (ss_Size s)) = true.
Proof.
  intros Hok. unfold validateStorage. destruct st as [s|]; [|naive_solver].
  destruct (String.eqb_spec (ss_Size s) "") as [He|He].
  - split; [done|]. intros H. destruct (H s eq_refl). done.
  - destruct (ParseQuantity (ss_Size s)) eqn:E; split; intros H; try done.
    + intros s' [= <-]. by rewrite E.
    + destruct (H s eq_refl) as [_ H']. by rewrite E in H'.
Qed.

(** What an update may do to the storage: neither add nor remove it, nor
    change its class, nor decrease a size that can be read. *)
Definition storage_kept (old new : option StorageSpec) : Prop :=
  match old, new with
  | None, None => True
  | Some o, Some n =>
      default "" (ss_ClassName o) = default "" (ss_ClassName n) ∧
      ∀ oq nq, ParseQuantity (ss_Size o) = Ok oq → ParseQuantity (ss_Size n) = Ok nq → 0 ≤ Cmp nq oq
  | _, _ => False
  end.

Lemma storageUpdate_allowed a r old new :
  allowed (storageUpdate a r old new) = true ↔ storage_kept old new.
Proof.
  unfold storageUpdate, storage_kept. destruct old as [o|], new as [n|]; try done.
  destruct (String.eqb_spec (default "" (ss_ClassName o)) (default "" (ss_ClassName n))) as [Hc|Hc];
    simpl; [|split; [done|by intros [? _]]].
  destruct (ParseQuantity (ss_Size o)) as [oq|], (ParseQuantity (ss_Size n)) as [nq|];
    try (split; [intros _; split; [done|congruence]|done]).
  destruct (Cmp nq oq <? 0) eqn:E; split; try done.
  - intros [_ H]. specialize (H _ _ eq_refl eq_refl). blia.
  - intros _. split; [done|]. intros ?? [= <-] [= <-]. blia.
Qed.

(** C30: The storage of a custom resource is immutable except for growing:
    an update of any of the three resources that the webhook admits keeps the
    storage present or absent, keeps its class, and does not decrease its
    size. *)
Theorem updates_keep_storage :
  (∀ r old, allowed (RedisHook.ValidateUpdate r (ORedis old)) = true →
     storage_kept (r_Storage (redis_Spec old)) (r_Storage (redis_Spec r))) ∧
  (∀ rs old, allowed (SentinelHook.ValidateUpdate rs (ORedisSentinel old)) = true →
     storage_kept (s_Storage (sentinel_Spec old)) (s_Storage (sentinel_Spec rs))) ∧
  (∀ rc old, allowed (ClusterHook.ValidateUpdate rc (ORedisCluster old)) = true →
     storage_kept (c_Storage (cluster_Spec old)) (c_Storage (cluster_Spec rc))).
Proof.
  split_and!; intros r old; unfold RedisHook.ValidateUpdate, SentinelHook.ValidateUpdate, ClusterHook.ValidateUpdate.
  - destruct (RedisHook.validateSpec r).2; [done|]. by rewrite storageUpdate_allowed.
  - destruct (SentinelHook.validateSentinelSpec r).2; [done|]. repeat case_bool; try done.
    by rewrite storageUpdate_allowed.
  - destruct (ClusterHook.validateClusterSpec r) as [w [e|]]; [done|]. repeat case_bool; try done.
    by rewrite storageUpdate_allowed.
Qed.

(** ** Cluster sizes *)

(** What an admitted cluster spec satisfies, and conversely. *)
Lemma cluster_spec_allowed rc :
  let s := cluster_Spec rc in
  allowed (ClusterHook.validateClusterSpec rc) = true ↔
  3 ≤ c_Masters s ∧ 0 ≤ c_ReplicasPerMaster s ∧ ClusterHook.totalNodes s ≤ 100 ∧
  ∀ st, c_Storage s = Some st → ss_Size st ≠ "" ∧ is_ok (ParseQuantity (ss_Size st)) = true.
Proof.
  intros s. unfold ClusterHook.validateClusterSpec. fold s.
  destruct (c_Masters s <? 3) eqn:E1; [split; [done|]; intros (? & _); blia|].
  destruct (c_ReplicasPerMaster s <? 0) eqn:E2; [split; [done|]; intros (_ & ? & _); blia|].
  destruct (100 <? ClusterHook.totalNodes s) eqn:E3; [split; [done|]; intros (_ & _ & ? & _); blia|].
  rewrite validateStorage_allowed by by case_bool.
  split; [intros H; split_and!; blia; done|by intros (_ & _ & _ & H)].
Qed.

Lemma totalNodes_exact s :
  3 ≤ c_Masters s → 0 ≤ c_ReplicasPerMaster s →
  c_Masters s * (c_ReplicasPerMaster s + 1) < 2 ^ 31 →
  ClusterHook.totalNodes s = c_Masters s * (c_ReplicasPerMaster s + 1).
Proof.
  intros Hm Hr Hb. unfold ClusterHook.totalNodes.
  rewrite (wrap32_id (_ * _)) by (unfold int32_range; nia).
  rewrite wrap32_id by (unfold int32_range; nia). nia.
Qed.

(** What is asked of a spec besides the node limit. *)
Definition wellformed_cluster (s : RedisClusterSpec) : Prop :=
  3 ≤ c_Masters s ∧ 0 ≤ c_ReplicasPerMaster s ∧
  ∀ st, c_Storage s = Some st → ss_Size st ≠ "" ∧ is_ok (ParseQuantity (ss_Size st)) = true.

(** C31: Exactly which clusters the limit of 100 nodes admits.  A spec with at
    least three masters, no negative number of replicas and a storage size that
    can be read, if any, is admitted on creation if and only if
    [masters + masters * replicasPerMaster], computed in 32 bits, is at most
    100, and no other spec is.  Where the true count fits in 32 bits that is
    the limit: 100 nodes are admitted, 101 are not.  Where it does not, the
    count wraps around: 65536 masters with 65535 replicas each count as no
    node at all and are admitted. *)
Theorem cluster_node_limit :
  (∀ rc, let s := cluster_Spec rc in
     allowed (ClusterHook.ValidateCreate rc) = true ↔
     wellformed_cluster s ∧ wrap32 (c_Masters s + wrap32 (c_Masters s * c_ReplicasPerMaster s)) ≤ 100) ∧
  (∀ rc, let s := cluster_Spec rc in
     wellformed_cluster s → c_Masters s * (c_ReplicasPerMaster s + 1) < 2 ^ 31 →
     allowed (ClusterHook.ValidateCreate rc) = true ↔ c_Masters s * (c_ReplicasPerMaster s + 1) ≤ 100) ∧
  (∀ rc, c_Masters (cluster_Spec rc) = 65536 → c_ReplicasPerMaster (cluster_Spec rc) = 65535 →
     c_Storage (cluster_Spec rc) = None → allowed (ClusterHook.ValidateCreate rc) = true).
Proof.
  assert (∀ rc, let s := cluster_Spec rc in allowed (ClusterHook.ValidateCreate rc) = true ↔
            wellformed_cluster s ∧ ClusterHook.totalNodes s ≤ 100) as Hiff.
  { intros rc s. unfold ClusterHook.ValidateCreate. rewrite cluster_spec_allowed. unfold wellformed_cluster. naive_solver. }
  split_and!.
  - exact Hiff.
  - intros rc s Hs Hb. rewrite Hiff. fold s. destruct Hs as (Hm & Hr & Hst).
    rewrite (totalNodes_exact s Hm Hr Hb). split; [by intros [_ ?]|by split].
  - intros rc Hm Hr Hs. apply Hiff. unfold wellformed_cluster, ClusterHook.totalNodes. rewrite Hm, Hr, Hs.
    split; [split_and!; [lia|lia|done]|]. vm_compute. congruence.
Qed.

(** Admission of a cluster update: with 32-bit master counts, an update
    is admitted exactly when the new spec is itself admissible, at most one
    master is removed, the cluster is not recorded as scaling, and the
    storage is kept.  So while the stored phase is [Scaling] every update is
    refused, also one that only changes metadata such as a finalizer. *)
Lemma cluster_update_allowed rc old :
  let s := cluster_Spec rc in
  let oldMasters := c_Masters (cluster_Spec old) in
  int32_range (c_Masters s) → int32_range oldMasters →
  allowed (ClusterHook.ValidateUpdate rc (ORedisCluster old)) = true ↔
  allowed (ClusterHook.ValidateCreate rc) = true ∧ oldMasters - c_Masters s ≤ 1 ∧
  cst_Phase (cluster_Status old) ≠ PhaseScaling ∧
  storage_kept (c_Storage (cluster_Spec old)) (c_Storage s).
Proof.
  intros s om Hs Ho. unfold ClusterHook.ValidateUpdate. fold s om.
  pose proof (cluster_spec_allowed rc) as Hspec. cbv zeta in Hspec. fold s in Hspec.
  change (ClusterHook.ValidateCreate rc) with (ClusterHook.validateClusterSpec rc).
  destruct (ClusterHook.validateClusterSpec rc) as [w [e|]]; [split; [done|by intros [? _]]|].
  destruct Hspec as [Hspec _]. destruct (Hspec eq_refl) as (Hm & _).
  destruct (c_Masters s <? 3) eqn:E1; [blia|].
  destruct ((c_Masters s <? om) && (1 <? wrap32 (om - c_Masters s))) eqn:E2.
  { apply andb_true_iff in E2 as [E2 E3]. split; [done|]. intros (_ & Hle & _).
    rewrite wrap32_id in E3 by (unfold int32_range in *; blia). blia. }
  assert (om - c_Masters s ≤ 1) as Hle.
  { apply andb_false_iff in E2 as [E2|E2]; [blia|].
    destruct (decide (om - c_Masters s < 0)) as [Hneg|Hpos]; [lia|].
    rewrite wrap32_id in E2 by (unfold int32_range in *; lia). blia. }
  destruct (String.eqb_spec (cst_Phase (cluster_Status old)) PhaseScaling) as [Hp|Hp];
    [split; [done|by intros (_ & _ & ? & _)]|].
  rewrite storageUpdate_allowed. split; [done|]. by intros (_ & _ & _ & H).
Qed.

(** An admitted RedisSentinel has at least three Redis pods and an odd
    number, at least three, of Sentinels; the quorum the configuration
    derives from it, [n / 2 + 1], is a strict majority of the Sentinels that
    they can still reach when a minority is down. *)
Lemma sentinel_create_majority rs :
  allowed (SentinelHook.ValidateCreate rs) = true →
  let n := s_SentinelReplicas (sentinel_Spec rs) in
  3 ≤ s_Replicas (sentinel_Spec rs) ∧ 3 ≤ n ∧ Z.odd n = true ∧
  ∃ minority, n = 2 * minority + 1 ∧ Z.quot n 2 + 1 = minority + 1 ∧ Z.quot n 2 + 1 ≤ n - minority.
Proof.
  intros H n. unfold SentinelHook.ValidateCreate, SentinelHook.validateSentinelSpec in H. fold n in H.
  destruct (_ <? 3) eqn:E1 in H; [done|]. destruct (n <? 3) eqn:E2; [done|].
  destruct (Z.rem n 2 =? 0) eqn:E3; [done|].
  assert (0 ≤ n) by blia. rewrite Z.quot_div_nonneg by lia.
  rewrite Z.rem_mod_nonneg in E3 by lia.
  pose proof (Z.div_mod n 2 ltac:(lia)) as Hd. pose proof (Z.mod_pos_bound n 2 ltac:(lia)) as Hb.
  split_and!; [blia|blia| |].
  - rewrite Zodd_mod. apply Z.eqb_eq. blia.
  - exists (n / 2). blia.
Qed.

End theorems.

(** ** Witnesses *)

Definition plain_requirements : ResourceRequirements (K := plain_types) :=
  {| rr_Limits := ∅; rr_Requests := ∅; rr_Claims := [] |}.

Definition storage_of (size : string) : StorageSpec :=
  {| ss_ClassName := Some "fast"; ss_Size := size; ss_KeepAfterDeletion := false |}.

Definition sample_cluster (masters rpm : Z) (storage : option StorageSpec) (phase : string)
  : RedisCluster (K := plain_types) :=
  {| cluster_meta := meta (K := plain_types) "rc" "default" ∅;
     cluster_Spec :=
       {| c_Masters := masters; c_ReplicasPerMaster := rpm; c_Image := ""; c_Resources := plain_requirements;
          c_MasterResources := None; c_ReplicaResources := None; c_Storage := storage;
          c_RedisConfig := None; c_Auth := None; c_TLS := None; c_EnableExporter := None;
          c_ExporterImage := ""; c_MasterAffinity := None; c_MasterTolerations := [];
          c_MasterNodeSelector := ∅; c_ReplicaAffinity := None; c_ReplicaTolerations := [];
          c_ReplicaNodeSelector := ∅ |};
     cluster_Status :=
       {| cst_Phase := phase; cst_Message := ""; cst_Conditions := []; cst_ReadyMasters := 0;
          cst_ReadyReplicas := 0; cst_AssignedSlots := 0; cst_ClusterState := ""; cst_Nodes := [] |} |}.

Definition sample_redis (storage : option StorageSpec) : Redis (K := plain_types) :=
  {| redis_meta := meta (K := plain_types) "r" "default" ∅;
     redis_Spec :=
       {| r_Image := ""; r_Resources := plain_requirements; r_Storage := storage; r_RedisConfig := None;
          r_Auth := None; r_TLS := None; r_EnableExporter := None; r_ExporterImage := "";
          r_Affinity := None; r_Tolerations := []; r_NodeSelector := ∅ |};
     redis_Status := {| rst_Phase := ""; rst_Message := ""; rst_Conditions := []; rst_RedisVersion := "";
                        rst_ReadyReplicas := 0 |} |}.

Definition sample_sentinel (replicas sentinels : Z) (storage : option StorageSpec)
  : RedisSentinel (K := plain_types) :=
  {| sentinel_meta := meta (K := plain_types) "rs" "default" ∅;
     sentinel_Spec :=
       {| s_Replicas := replicas; s_SentinelReplicas := sentinels; s_Image := ""; s_SentinelImage := "";
          s_Resources := plain_requirements; s_SentinelResources := plain_requirements; s_Storage := storage;
          s_RedisConfig := None; s_SentinelConfig := ∅; s_Auth := None; s_TLS := None;
          s_EnableExporter := None; s_ExporterImage := ""; s_Affinity := None; s_Tolerations := [];
          s_NodeSelector := ∅ |};
     sentinel_Status := {| sst_Phase := ""; sst_Message := ""; sst_Conditions := []; sst_MasterNode := "";
                           sst_ReadyReplicas := 0; sst_ReadySentinels := 0 |} |}.

Lemma updates_keep_storage_witness :
  storage_kept (K := plain_types) (Some (storage_of "10")) (Some (storage_of "20")) ∧
  storage_kept (K := plain_types) None None.
Proof.
  destruct (updates_keep_storage (K := plain_types)) as (H1 & H2 & H3). split.
  - apply (H1 (sample_redis (Some (storage_of "20"))) (sample_redis (Some (storage_of "10")))). reflexivity.
  - apply (H3 (sample_cluster 3 1 None "Ready") (sample_cluster 4 1 None "Ready")). reflexivity.
Defined.

(** At the limit and one above it, and far above it. *)
Lemma cluster_node_limit_witness :
  allowed (ClusterHook.ValidateCreate (sample_cluster 25 3 None "")) = true ∧
  allowed (ClusterHook.ValidateCreate (sample_cluster 101 0 None "")) ≠ true ∧
  allowed (ClusterHook.ValidateCreate (sample_cluster 65536 65535 None "")) = true.
Proof.
  destruct (cluster_node_limit (K := plain_types)) as (_ & H1 & H2). split_and!.
  - apply (H1 (sample_cluster 25 3 None "")); [by split_and!|reflexivity|by vm_compute].
  - intros H. apply (H1 (sample_cluster 101 0 None "")) in H; [by vm_compute in H|by split_and!|reflexivity].
  - apply H2; reflexivity.
Defined.

Lemma cluster_update_allowed_witness :
  allowed (ClusterHook.ValidateUpdate (sample_cluster 3 1 None "") (ORedisCluster (sample_cluster 4 1 None "Ready"))) = true ∧
  allowed (ClusterHook.ValidateUpdate (sample_cluster 3 1 None "") (ORedisCluster (sample_cluster 5 1 None "Ready"))) = false.
Proof.
  split.
  - apply (cluster_update_allowed (sample_cluster 3 1 None "") (sample_cluster 4 1 None "Ready"));
      [vm_compute; split; congruence|vm_compute; split; congruence|].
    split; [reflexivity|]. split; [simpl; lia|]. split; [discriminate|exact I].
  - apply not_true_iff_false.
    intros H%(cluster_update_allowed (sample_cluster 3 1 None "") (sample_cluster 5 1 None "Ready"));
      [|vm_compute; split; congruence|vm_compute; split; congruence].
    destruct H as (_ & H & _). simpl in H. lia.
Defined.

Lemma sentinel_create_majority_witness :
  ∃ minority, 5 = 2 * minority + 1 ∧ Z.quot 5 2 + 1 = minority + 1 ∧ Z.quot 5 2 + 1 ≤ 5 - minority.
Proof.
  destruct (sentinel_create_majority (sample_sentinel 3 5 None)) as (_ & _ & _ & H); [reflexivity|exact H].
Defined.
