(* ===== verification/Resources.v ===== *)
(** * internal/resources: names, labels, ConfigMaps, Services, budgets

    labels.go, configmap.go, service.go, pdb.go and servicemonitor.go: the
    Kubernetes objects the controllers want to exist, as functions of the
    custom resource. *)

From S2P Require Import Prelude Go Api.

Local Open Scope Z_scope.

(** ** labels.go *)

Definition labelName : string := "app.kubernetes.io/name".
Definition labelInstance : string := "app.kubernetes.io/instance".
Definition labelComponent : string := "app.kubernetes.io/component".
Definition labelManagedBy : string := "app.kubernetes.io/managed-by".
Definition labelPartOf : string := "app.kubernetes.io/part-of".
Definition labelCluster : string := "redis.example.com/cluster".
Definition ComponentMaster : string := "master".
Definition ComponentReplica : string := "replica".
Definition ComponentSentinel : string := "sentinel".
Definition ComponentRedis : string := "redis".
Definition RoleLabelKey : string := "redis.example.com/role".
Definition RoleMaster : string := "master".
Definition RoleReplica : string := "replica".

Definition CommonLabels (name component : string) : gmap string string :=
  {[ labelName := "redis"; labelInstance := name; labelComponent := component;
     labelManagedBy := "redis-operator"; labelPartOf := "redis"; labelCluster := name ]}.

Definition PodLabels (name component : string) : gmap string string := CommonLabels name component.

Definition StatefulSetName (crName component : string) : string :=
  if String.eqb component ComponentRedis || String.eqb component ComponentMaster then crName
  else crName +:+ "-" +:+ component.

Definition ClusterMasterStatefulSetName (crName : string) : string := crName +:+ "-masters".
Definition ClusterReplicaStatefulSetName (crName : string) : string := crName +:+ "-replicas".

Definition HeadlessServiceName (crName component : string) : string :=
  crName +:+ "-" +:+ component +:+ "-headless".

Definition PodFQDN (podName headlessSvcName namespace : string) : string :=
  podName +:+ "." +:+ headlessSvcName +:+ "." +:+ namespace +:+ ".svc.cluster.local".

(** ** configmap.go *)

Definition ConfigMapNameForRedis (crName : string) : string := crName +:+ "-config".
Definition ConfigMapNameForSentinel (crName : string) : string := crName +:+ "-sentinel-config".

(** [sort.Strings] *)
Definition sortStrings (l : list string) : list string := merge_sort String.le l.

Definition keys {V} (m : gmap string V) : list string := (map_to_list m).*1.

(** [fmt.Sprintf("%s %s\n", k, m[k])] *)
Definition confLine (m : gmap string string) (k : string) : string :=
  k +:+ " " +:+ default "" (m !! k) +:+ String nl "".

(** [renderConf] when the map is ranged over in the order [ks]. *)
Definition renderConfFrom (ks : list string) (m : gmap string string) : string :=
  join "" (confLine m <$> sortStrings ks).

Definition renderConf (m : gmap string string) : string := renderConfFrom (keys m) m.

(** [for k, v := range user { defaults[k] = v }] *)
Definition override (defaults user : gmap string string) : gmap string string := user ∪ defaults.

Definition redisDefaults (tlsEnabled : bool) : gmap string string :=
  (if tlsEnabled
   then {[ "port" := "0"; "tls-port" := "6379"; "tls-replication" := "yes"; "tls-cluster" := "yes" ]}
   else {[ "port" := "6379" ]})
  ∪ {[ "bind" := "0.0.0.0"; "protected-mode" := "no"; "dir" := "/data"; "appendonly" := "yes";
       "save" := "3600 1 900 10 300 100" ]}.

Definition defaultRedisConf (userConfig : gmap string string) (tlsEnabled : bool) : string :=
  renderConf (override (redisDefaults tlsEnabled) userConfig).

Definition clusterDefaults : gmap string string :=
  {[ "bind" := "0.0.0.0"; "protected-mode" := "no"; "port" := "6379"; "dir" := "/data";
     "appendonly" := "yes"; "save" := "3600 1 900 10 300 100"; "cluster-enabled" := "yes";
     "cluster-config-file" := "nodes.conf"; "cluster-node-timeout" := "15000";
     "cluster-announce-port" := "6379"; "cluster-announce-bus-port" := "16379" ]}.

(** [int(rs.Spec.SentinelReplicas/2) + 1] *)
Definition sentinelQuorum (sentinelReplicas : Z) : Z := Z.quot sentinelReplicas 2 + 1.

Definition sentinelDefaults (masterIP : string) (sentinelReplicas : Z) : gmap string string :=
  {[ "sentinel monitor mymaster" := masterIP +:+ " 6379 " +:+ itoa (sentinelQuorum sentinelReplicas);
     "sentinel down-after-milliseconds mymaster" := "5000";
     "sentinel failover-timeout mymaster" := "10000";
     "sentinel parallel-syncs mymaster" := "1" ]}.

Section builders.
Context {K : KubeTypes}.

Record ConfigMap := { cm_meta : ObjectMeta; cm_Data : gmap string string }.

Definition BuildRedisConfigMap (redis : Redis) : ConfigMap :=
  let name := om_Name (redis_meta redis) in
  {| cm_meta := meta (ConfigMapNameForRedis name) (om_Namespace (redis_meta redis))
                  (CommonLabels name ComponentRedis);
     cm_Data := {[ "redis.conf" := defaultRedisConf (default ∅ (r_RedisConfig (redis_Spec redis)))
                                     (bool_decide (is_Some (r_TLS (redis_Spec redis)))) ]} |}.

Definition BuildSentinelRedisConfigMap (rs : RedisSentinel) : ConfigMap :=
  let name := om_Name (sentinel_meta rs) in
  {| cm_meta := meta (ConfigMapNameForRedis name) (om_Namespace (sentinel_meta rs))
                  (CommonLabels name ComponentRedis);
     cm_Data := {[ "redis.conf" := defaultRedisConf (default ∅ (s_RedisConfig (sentinel_Spec rs)))
                                     (bool_decide (is_Some (s_TLS (sentinel_Spec rs)))) ]} |}.

Definition BuildSentinelConfigMap (rs : RedisSentinel) (masterIP : string) : ConfigMap :=
  let name := om_Name (sentinel_meta rs) in
  {| cm_meta := meta (ConfigMapNameForSentinel name) (om_Namespace (sentinel_meta rs))
                  (CommonLabels name ComponentSentinel);
     cm_Data := {[ "sentinel.conf" :=
                     renderConf (override (sentinelDefaults masterIP (s_SentinelReplicas (sentinel_Spec rs)))
                                   (s_SentinelConfig (sentinel_Spec rs))) ]} |}.

Definition BuildClusterConfigMap (rc : RedisCluster) : ConfigMap :=
  let name := om_Name (cluster_meta rc) in
  {| cm_meta := meta (ConfigMapNameForRedis name) (om_Namespace (cluster_meta rc))
                  (CommonLabels name ComponentRedis);
     cm_Data := {[ "redis.conf" :=
                     renderConf (override clusterDefaults (default ∅ (c_RedisConfig (cluster_Spec rc)))) ]} |}.

(** ** service.go *)

Definition RedisPort : Z := 6379.
Definition SentinelPort : Z := 26379.
Definition RedisClusterBus : Z := 16379.
Definition ExporterPort : Z := 9121.

Record ServicePort := {
  sp_Name : string; sp_Port : Z; sp_TargetPort : Z; sp_Protocol : string
}.

(** A literal with the same port on both sides, over TCP. *)
Definition tcpPort (name : string) (port : Z) : ServicePort :=
  {| sp_Name := name; sp_Port := port; sp_TargetPort := port; sp_Protocol := "TCP" |}.

Record ServiceSpec := {
  svc_Type : string;
  svc_ClusterIP : string;
  svc_Selector : gmap string string;
  svc_Ports : list ServicePort;
  svc_PublishNotReadyAddresses : bool;
  svc_Rest : SpecRest
}.

Record Service := { svc_meta : ObjectMeta; svc_Spec : ServiceSpec }.

Definition clusterIPService (name namespace : string) (labels selector : gmap string string)
    (ports : list ServicePort) : Service :=
  {| svc_meta := meta name namespace labels;
     svc_Spec := {| svc_Type := "ClusterIP"; svc_ClusterIP := ""; svc_Selector := selector;
                    svc_Ports := ports; svc_PublishNotReadyAddresses := false; svc_Rest := noSpec |} |}.

Definition BuildRedisService (redis : Redis) : Service :=
  let name := om_Name (redis_meta redis) in
  clusterIPService name (om_Namespace (redis_meta redis)) (CommonLabels name ComponentRedis)
    (PodLabels name ComponentRedis) [tcpPort "redis" RedisPort].

Definition BuildSentinelMasterService (rs : RedisSentinel) : Service :=
  let name := om_Name (sentinel_meta rs) in
  clusterIPService (name +:+ "-master") (om_Namespace (sentinel_meta rs)) (CommonLabels name ComponentMaster)
    {[ labelInstance := name; RoleLabelKey := RoleMaster ]} [tcpPort "redis" RedisPort].

Definition BuildSentinelReplicaService (rs : RedisSentinel) : Service :=
  let name := om_Name (sentinel_meta rs) in
  clusterIPService (name +:+ "-replica") (om_Namespace (sentinel_meta rs)) (CommonLabels name ComponentReplica)
    {[ labelInstance := name; RoleLabelKey := RoleReplica ]} [tcpPort "redis" RedisPort].

Definition BuildSentinelService (rs : RedisSentinel) : Service :=
  let name := om_Name (sentinel_meta rs) in
  clusterIPService (name +:+ "-sentinel") (om_Namespace (sentinel_meta rs)) (CommonLabels name ComponentSentinel)
    (PodLabels name ComponentSentinel) [tcpPort "sentinel" SentinelPort].

Definition with_annotations (annotations : gmap string string) (m : ObjectMeta) : ObjectMeta :=
  {| om_Name := om_Name m; om_Namespace := om_Namespace m; om_Labels := om_Labels m;
     om_Annotations := annotations; om_Generation := om_Generation m;
     om_CreationTimestamp := om_CreationTimestamp m; om_DeletionTimestamp := om_DeletionTimestamp m;
     om_Finalizers := om_Finalizers m; om_Rest := om_Rest m |}.

Definition BuildHeadlessService (name namespace component : string) : Service :=
  {| svc_meta := with_annotations
                   {[ "service.alpha.kubernetes.io/tolerate-unready-endpoints" := "true" ]}
                   (meta (HeadlessServiceName name component) namespace (CommonLabels name component));
     svc_Spec := {| svc_Type := "ClusterIP"; svc_ClusterIP := "None";
                    svc_Selector := PodLabels name component;
                    svc_Ports := [tcpPort "redis" RedisPort; tcpPort "cluster-bus" RedisClusterBus];
                    svc_PublishNotReadyAddresses := true; svc_Rest := noSpec |} |}.

Definition BuildClusterClientService (rc : RedisCluster) : Service :=
  let name := om_Name (cluster_meta rc) in
  clusterIPService name (om_Namespace (cluster_meta rc)) (CommonLabels name ComponentRedis)
    {[ labelInstance := name ]} [tcpPort "redis" RedisPort].

(** ** pdb.go *)

Record PodDisruptionBudget := {
  pdb_meta : ObjectMeta; pdb_MaxUnavailable : Z; pdb_Selector : gmap string string
}.

(** A budget of one unavailable pod of a component. *)
Definition onePodBudget (m : ObjectMeta) (suffix component : string) : PodDisruptionBudget :=
  {| pdb_meta := meta (om_Name m +:+ suffix) (om_Namespace m) (CommonLabels (om_Name m) component);
     pdb_MaxUnavailable := 1; pdb_Selector := PodLabels (om_Name m) component |}.

Definition BuildSentinelRedisPDB (rs : RedisSentinel) : PodDisruptionBudget :=
  onePodBudget (sentinel_meta rs) "-redis-pdb" ComponentRedis.
Definition BuildSentinelPDB (rs : RedisSentinel) : PodDisruptionBudget :=
  onePodBudget (sentinel_meta rs) "-sentinel-pdb" ComponentSentinel.
Definition BuildClusterMasterPDB (rc : RedisCluster) : PodDisruptionBudget :=
  onePodBudget (cluster_meta rc) "-masters-pdb" ComponentMaster.
Definition BuildClusterReplicaPDB (rc : RedisCluster) : PodDisruptionBudget :=
  onePodBudget (cluster_meta rc) "-replicas-pdb" ComponentReplica.

(** ** servicemonitor.go *)

Record Endpoint := { ep_Port : string; ep_Path : string; ep_Interval : string }.

Record ServiceMonitor := {
  sm_meta : ObjectMeta; sm_Selector : gmap string string; sm_Endpoints : list Endpoint
}.

Definition buildServiceMonitor (name namespace : string) (labels selector : gmap string string)
  : ServiceMonitor :=
  {| sm_meta := meta name namespace labels; sm_Selector := selector;
     sm_Endpoints := [{| ep_Port := "metrics"; ep_Path := "/metrics"; ep_Interval := "30s" |}] |}.

Definition BuildRedisServiceMonitor (redis : Redis) : ServiceMonitor :=
  let name := om_Name (redis_meta redis) in
  buildServiceMonitor (name +:+ "-monitor") (om_Namespace (redis_meta redis))
    (CommonLabels name ComponentRedis) (PodLabels name ComponentRedis).

Definition BuildSentinelServiceMonitor (rs : RedisSentinel) : ServiceMonitor :=
  let name := om_Name (sentinel_meta rs) in
  buildServiceMonitor (name +:+ "-monitor") (om_Namespace (sentinel_meta rs))
    (CommonLabels name ComponentRedis) (PodLabels name ComponentRedis).

Definition BuildClusterServiceMonitor (rc : RedisCluster) : ServiceMonitor :=
  let name := om_Name (cluster_meta rc) in
  buildServiceMonitor (name +:+ "-monitor") (om_Namespace (cluster_meta rc))
    (CommonLabels name ComponentRedis) {[ labelInstance := name ]}.

End builders.
