(* ===== verification/Config.v ===== *)
(** * Rendering of the configuration (theorems on configmap.go)

    The text of a ConfigMap does not depend on the order in which Go ranges
    over the map, and Redis reads back from it the defaults overridden by the
    user. *)

From S2P Require Import Prelude Go Api Webhook Resources.

Local Open Scope Z_scope.

Lemma sortStrings_Permutation l : sortStrings l ≡ₚ l.
Proof. apply merge_sort_Permutation. Qed.

Lemma sortStrings_proper l k : l ≡ₚ k → sortStrings l = sortStrings k.
Proof.
  intros H. apply (Sorted_unique String.le).
  - apply (Sorted_merge_sort String.le).
  - apply (Sorted_merge_sort String.le).
  - by rewrite !sortStrings_Permutation.
Qed.

#[global] Instance sortStrings_Proper : Proper ((≡ₚ) ==> eq) sortStrings.
Proof. intros l k. apply sortStrings_proper. Qed.

#[global] Instance renderConfFrom_Proper : Proper ((≡ₚ) ==> eq ==> eq) renderConfFrom.
Proof. intros l k H m ? <-. unfold renderConfFrom. by rewrite H. Qed.

Lemma keys_elem {V} (m : gmap string V) k : k ∈ keys m ↔ is_Some (m !! k).
Proof.
  unfold keys. rewrite list_elem_of_fmap. split.
  - intros ([k' v] & -> & H%elem_of_map_to_list). by exists v.
  - intros [v H]. exists (k, v). split; [done|]. by apply elem_of_map_to_list.
Qed.

Lemma keys_NoDup {V} (m : gmap string V) : NoDup (keys m).
Proof. apply NoDup_fst_map_to_list. Qed.

(** The rendered configuration is a function of the map alone: whatever
    order Go ranges over the keys in, [renderConf] produces the same text, so
    that the config hash changes only when the configuration does. *)
Lemma renderConf_order ks m : ks ≡ₚ keys m → renderConfFrom ks m = renderConf m.
Proof. intros H. unfold renderConf. by rewrite H. Qed.

Lemma renderConf_order_witness :
  renderConfFrom ["port"; "bind"] {["bind" := "0.0.0.0"; "port" := "6379"]}
  = renderConf {["bind" := "0.0.0.0"; "port" := "6379"]}.
Proof. apply renderConf_order. vm_compute. apply perm_swap || reflexivity. Defined.

(** How Redis reads a configuration: one directive per line, the name up to
    the first blank. *)
Definition readLine (l : string) : option (string * string) :=
  match split_two " " l with
  | [k; v] => Some (k, v)
  | _ => None
  end.

Definition readConf (text : string) : gmap string string :=
  list_to_map (omap readLine (split_byte nl text)).

(** A directive: a name without blanks, and a value on the same line. *)
Definition directive (k v : string) : Prop :=
  str_forall (not_char " ") k = true ∧ str_forall (not_char nl) k = true ∧
  str_forall (not_char nl) v = true.

(** A name and a value that make one line; the name may have blanks. *)
Definition one_line (k v : string) : Prop :=
  str_forall (not_char nl) k = true ∧ str_forall (not_char nl) v = true.

Lemma split_conf_lines m ks :
  Forall (λ k, one_line k (default "" (m !! k))) ks →
  split_byte nl (join "" (confLine m <$> ks)) =
  ((λ k, k +:+ " " +:+ default "" (m !! k)) <$> ks) ++ [""].
Proof.
  induction 1 as [|k ks (Hk2 & Hv) _ IH]; [done|].
  rewrite !fmap_cons, join_empty_cons. unfold confLine at 1.
  assert ((k +:+ " " +:+ default "" (m !! k) +:+ String nl "") +:+ join "" (confLine m <$> ks)
    = (k +:+ " " +:+ default "" (m !! k)) +:+ String nl (join "" (confLine m <$> ks))) as ->.
  { rewrite !str_app_assoc. done. }
  rewrite split_byte_app, IH; [done|].
  rewrite !str_forall_app. simpl. by rewrite Hk2, Hv.
Qed.

Lemma readConf_render m :
  map_Forall directive m → readConf (renderConf m) = m.
Proof.
  intros Hm. unfold readConf, renderConf, renderConfFrom.
  assert (Forall (λ k, directive k (default "" (m !! k))) (sortStrings (keys m))) as Hd.
  { apply Forall_forall. intros k. rewrite sortStrings_Permutation, keys_elem. intros [v Hv].
    rewrite Hv. by apply Hm. }
  rewrite split_conf_lines by (eapply Forall_impl; [exact Hd|]; by intros k (_ & ? & ?)).
  rewrite omap_app, app_nil_r.
  assert (omap readLine ((λ k, k +:+ " " +:+ default "" (m !! k)) <$> sortStrings (keys m))
          = (λ k, (k, default "" (m !! k))) <$> sortStrings (keys m)) as ->.
  { clear Hm. induction Hd as [|k ks (Hk1 & _ & _) _ IH]; [done|].
    rewrite !fmap_cons, omap_cons_eq, IH. unfold readLine, split_two. simpl.
    rewrite index_byte_app by done. by rewrite str_take_app, str_drop_app_S. }
  rewrite <- (list_to_map_to_list m) at 2. apply list_to_map_proper.
  - rewrite <- list_fmap_compose. simpl. rewrite list_fmap_id, sortStrings_Permutation. apply keys_NoDup.
  - rewrite sortStrings_Permutation. unfold keys. rewrite <- list_fmap_compose.
    apply reflexive_eq. rewrite <- (list_fmap_id (map_to_list m)) at 2.
    apply Forall_fmap_ext_1, Forall_forall. intros [k v] Hkv%elem_of_map_to_list. simpl. by rewrite Hkv.
Qed.

(** The lines of a rendered configuration, the empty end apart, are those of
    its entries. *)
Lemma conf_lines m l :
  map_Forall one_line m → l ∈ split_byte nl (renderConf m) →
  l = "" ∨ ∃ k v, m !! k = Some v ∧ l = k +:+ " " +:+ v.
Proof.
  intros Hm. unfold renderConf, renderConfFrom. rewrite split_conf_lines.
  - rewrite elem_of_app, list_elem_of_singleton. intros [H|H]; [right|by left].
    apply list_elem_of_fmap in H as (k & -> & Hk). rewrite sortStrings_Permutation, keys_elem in Hk.
    destruct Hk as [v Hv]. exists k, v. by rewrite Hv.
  - apply Forall_forall. intros k. rewrite sortStrings_Permutation, keys_elem. intros [v Hv]. rewrite Hv. by apply Hm.
Qed.

(** The defaults are directives. *)
Lemma redisDefaults_directives tls : map_Forall directive (redisDefaults tls).
Proof.
  intros k v H. assert (directive k v ∧ True) as [Hd _]; [|exact Hd]. revert H.
  assert (∀ l : list (string * string),
    Forall (λ kv, str_forall (not_char " ") kv.1 && str_forall (not_char nl) kv.1
                  && str_forall (not_char nl) kv.2 = true) l →
    (k, v) ∈ l → directive k v ∧ True) as Hl.
  { intros l Hl Hin. eapply Forall_forall in Hl; [|done]. simpl in Hl.
    apply andb_true_iff in Hl as [[H1 H2]%andb_true_iff H3]. done. }
  rewrite <- elem_of_map_to_list. apply Hl. destruct tls; vm_compute; repeat constructor.
Qed.

Lemma override_directives defaults user :
  map_Forall directive defaults → map_Forall directive user → map_Forall directive (override defaults user).
Proof. intros Hd Hu. unfold override. by apply map_Forall_union_2. Qed.

(** C38: What Redis runs with is what the user asked for, and the operator's
    defaults for the rest: for a user configuration of one-line directives,
    reading back the redis.conf that the operator renders gives, for every
    parameter, the user's value if there is one and the default otherwise;
    nothing else appears in the file. *)
Theorem redisConf_effective user tls k :
  map_Forall directive user →
  readConf (defaultRedisConf user tls) !! k =
  match user !! k with Some v => Some v | None => redisDefaults tls !! k end.
Proof.
  intros Hu. unfold defaultRedisConf.
  rewrite readConf_render by (apply override_directives; [apply redisDefaults_directives|done]).
  unfold override. destruct (user !! k) as [v|] eqn:E.
  - by apply lookup_union_Some_l.
  - by rewrite lookup_union_r.
Qed.

Lemma redisConf_effective_witness :
  readConf (defaultRedisConf {["maxmemory" := "256mb"; "appendonly" := "no"]} true) !! "appendonly" = Some "no" ∧
  readConf (defaultRedisConf {["maxmemory" := "256mb"; "appendonly" := "no"]} true) !! "tls-port" = Some "6379".
Proof.
  assert (map_Forall directive ({["maxmemory" := "256mb"; "appendonly" := "no"]} : gmap string string)) as H.
  { intros k v Hkv. apply lookup_insert_Some in Hkv as [[<- <-]|[_ Hkv]]; [done|].
    apply lookup_singleton_Some in Hkv as [<- <-]. done. }
  split; rewrite (redisConf_effective _ _ _ H); reflexivity.
Defined.

(** The defaults of a cluster turn cluster mode on and never announce an
    address of their own. *)
Lemma clusterDefaults_directives : map_Forall directive clusterDefaults.
Proof.
  intros k v H%elem_of_map_to_list.
  assert (Forall (λ kv, str_forall (not_char " ") kv.1 && str_forall (not_char nl) kv.1
                  && str_forall (not_char nl) kv.2 = true) (map_to_list clusterDefaults)) as Hl
    by (vm_compute; repeat constructor).
  eapply Forall_forall in Hl; [|exact H]. simpl in Hl.
  apply andb_true_iff in Hl as [[H1 H2]%andb_true_iff H3]. done.
Qed.
