(* ===== verification/Workloads.v ===== *)
(** * internal/resources/statefulset.go and deployment.go

    The pods of a Redis, Sentinel or cluster node and the StatefulSets and
    Deployments that run them. *)

From S2P Require Import Prelude Go Api Webhook Resources.

Local Open Scope Z_scope.

(** A text in double quotes. *)
Definition dquoted (s : string) : string := String quote_char (s +:+ String quote_char "").

(** Lines, each ended by a newline. *)
Definition script_of (lines : list string) : string := join "" ((λ l, l +:+ String nl "") <$> lines).

(** The inline script of the pre-stop hook. *)
Definition preStopScript : string :=
  "redis-cli SAVE || true; "
  +:+ "ROLE=$(redis-cli ROLE 2>/dev/null | head -1 || echo unknown); "
  +:+ "if [ " +:+ dquoted "$ROLE" +:+ " = " +:+ dquoted "master" +:+ " ] && [ -n "
  +:+ dquoted "$SENTINEL_SVC" +:+ " ]; then "
  +:+ "redis-cli -p 26379 -h " +:+ dquoted "$SENTINEL_SVC" +:+ " SENTINEL FAILOVER mymaster || true; "
  +:+ "sleep 5; fi".

(** The start command of a cluster node. *)
Definition announceScript : string :=
  "echo " +:+ dquoted "cluster-announce-ip ${POD_IP}"
  +:+ " >> /etc/redis/redis.conf && exec redis-server /etc/redis/redis.conf".

(** The script of the init container; pod 0 is the initial master. *)
Definition initScript (name headlessSvc namespace : string) : string :=
  String nl "" +:+ script_of
    ["set -e";
     "INDEX=$(echo $POD_NAME | rev | cut -d- -f1 | rev)";
     "if [ " +:+ dquoted "$INDEX" +:+ " = " +:+ dquoted "0" +:+ " ]; then";
     "  echo " +:+ dquoted "This is the master pod, no REPLICAOF needed.";
     "else";
     "  MASTER=" +:+ dquoted (PodFQDN (name +:+ "-0") headlessSvc namespace);
     "  echo " +:+ dquoted "Configuring REPLICAOF $MASTER 6379";
     "  echo " +:+ dquoted "replicaof $MASTER 6379" +:+ " >> /etc/redis/redis.conf";
     "fi"].

Section workloads.
Context {K : KubeTypes}.

(** ** Pods *)

Inductive EnvVarSource :=
| SecretKeyRef (name key : string)
| FieldRef (fieldPath : string).

Record EnvVar := { env_Name : string; env_Value : string; env_ValueFrom : option EnvVarSource }.

Definition envValue (name value : string) : EnvVar :=
  {| env_Name := name; env_Value := value; env_ValueFrom := None |}.
Definition envFrom (name : string) (source : EnvVarSource) : EnvVar :=
  {| env_Name := name; env_Value := ""; env_ValueFrom := Some source |}.

Record VolumeMount := { vm_Name : string; vm_MountPath : string; vm_ReadOnly : bool }.

Definition mount (name path : string) : VolumeMount :=
  {| vm_Name := name; vm_MountPath := path; vm_ReadOnly := false |}.

(** A probe that executes a command. *)
Record Probe := {
  pr_Command : list string;
  pr_InitialDelaySeconds : Z;
  pr_PeriodSeconds : Z;
  pr_TimeoutSeconds : Z;
  pr_FailureThreshold : Z
}.

Record ContainerPort := { cp_Name : string; cp_ContainerPort : Z; cp_Protocol : string }.

Record Container := {
  co_Name : string;
  co_Image : string;
  co_Command : list string;
  co_Resources : ResourceRequirements;
  co_Env : list EnvVar;
  co_VolumeMounts : list VolumeMount;
  co_LivenessProbe : option Probe;
  co_ReadinessProbe : option Probe;
  co_Ports : list ContainerPort;
  co_PreStop : option (list string)
}.

Inductive VolumeSource :=
| VConfigMap (name : string)
| VSecret (secretName : string)
| VEmptyDir.

Record Volume := { vo_Name : string; vo_Source : VolumeSource }.

Record PodSpec := {
  ps_Containers : list Container;
  ps_InitContainers : list Container;
  ps_Volumes : list Volume;
  ps_Affinity : option Affinity;
  ps_Tolerations : list Toleration;
  ps_NodeSelector : gmap string string
}.

Record PersistentVolumeClaim := {
  pvc_meta : ObjectMeta;
  pvc_AccessModes : list string;
  pvc_Requests : ResourceList;
  pvc_StorageClassName : option string
}.

Record PodTemplate := {
  pt_Labels : gmap string string;
  pt_Annotations : gmap string string;
  pt_Spec : PodSpec
}.

Record StatefulSetSpec := {
  sts_Replicas : Z;
  sts_ServiceName : string;
  sts_Selector : gmap string string;
  sts_Template : PodTemplate;
  sts_VolumeClaimTemplates : list PersistentVolumeClaim;
  sts_Rest : SpecRest
}.

Record StatefulSet := { sts_meta : ObjectMeta; sts_Spec : StatefulSetSpec }.

Record DeploymentSpec := {
  dep_Replicas : Z;
  dep_Selector : gmap string string;
  dep_Template : PodTemplate;
  dep_Rest : SpecRest
}.

Record Deployment := { dep_meta : ObjectMeta; dep_Spec : DeploymentSpec }.

(** ** Containers *)

Definition noResources : ResourceRequirements :=
  {| rr_Limits := ∅; rr_Requests := ∅; rr_Claims := [] |}.

Definition redisProbe : Probe :=
  {| pr_Command := ["redis-cli"; "PING"]; pr_InitialDelaySeconds := 10; pr_PeriodSeconds := 10;
     pr_TimeoutSeconds := 5; pr_FailureThreshold := 3 |}.

Definition redisReadinessProbe : Probe :=
  {| pr_Command := pr_Command redisProbe; pr_InitialDelaySeconds := 5; pr_PeriodSeconds := 5;
     pr_TimeoutSeconds := 3; pr_FailureThreshold := pr_FailureThreshold redisProbe |}.

Definition buildRedisContainer (image : string) (resources : ResourceRequirements)
    (auth : option AuthSpec) (tls : option TLSSpec) (hasStorage : bool) : Container :=
  {| co_Name := "redis";
     co_Image := if String.eqb image "" then DefaultRedisImage else image;
     co_Command := ["redis-server"; "/etc/redis/redis.conf"];
     co_Resources := resources;
     co_Env := match auth with
               | Some a => [envFrom "REDISCLI_AUTH" (SecretKeyRef (auth_SecretName a) "password")]
               | None => []
               end;
     co_VolumeMounts :=
       [mount "config" "/etc/redis"]
       ++ (if hasStorage then [mount "data" "/data"] else [])
       ++ (match tls with
           | Some _ => [{| vm_Name := "tls"; vm_MountPath := "/tls"; vm_ReadOnly := true |}]
           | None => []
           end);
     co_LivenessProbe := Some redisProbe;
     co_ReadinessProbe := Some redisReadinessProbe;
     co_Ports := [{| cp_Name := "redis"; cp_ContainerPort := RedisPort; cp_Protocol := "TCP" |}];
     co_PreStop := Some ["sh"; "-c"; preStopScript] |}.

Definition buildExporterContainer (exporterImage : string) (auth : option AuthSpec) : Container :=
  {| co_Name := "redis-exporter";
     co_Image := if String.eqb exporterImage "" then DefaultExporterImage else exporterImage;
     co_Command := [];
     co_Resources :=
       {| rr_Requests := {[ "cpu" := MustParse "50m"; "memory" := MustParse "64Mi" ]};
          rr_Limits := {[ "cpu" := MustParse "200m"; "memory" := MustParse "128Mi" ]};
          rr_Claims := [] |};
     co_Env :=
       envValue "REDIS_ADDR" ("redis://localhost:" +:+ itoa RedisPort)
       :: match auth with
          | Some a => [envFrom "REDIS_PASSWORD" (SecretKeyRef (auth_SecretName a) "password")]
          | None => []
          end;
     co_VolumeMounts := [];
     co_LivenessProbe := None;
     co_ReadinessProbe := None;
     co_Ports := [{| cp_Name := "metrics"; cp_ContainerPort := ExporterPort; cp_Protocol := "TCP" |}];
     co_PreStop := None |}.

Definition buildVolumes (configMapName : string) (tls : option TLSSpec) : list Volume :=
  {| vo_Name := "config"; vo_Source := VConfigMap configMapName |}
  :: match tls with
     | Some t => [{| vo_Name := "tls"; vo_Source := VSecret (tls_SecretName t) |}]
     | None => []
     end.

(** [enableExporter == nil || *enableExporter] *)
Definition exporterEnabled (enableExporter : option bool) : bool := default true enableExporter.

(** The pod of a Redis container [c], with the exporter beside it. *)
Definition redisPod (c : Container) (exporterImage : string) (enableExporter : option bool)
    (auth : option AuthSpec) (tls : option TLSSpec) (affinity : option Affinity)
    (tolerations : list Toleration) (nodeSelector : gmap string string) (configMapName : string) : PodSpec :=
  {| ps_Containers :=
       c :: (if exporterEnabled enableExporter then [buildExporterContainer exporterImage auth] else []);
     ps_InitContainers := [];
     ps_Volumes := buildVolumes configMapName tls;
     ps_Affinity := affinity;
     ps_Tolerations := tolerations;
     ps_NodeSelector := nodeSelector |}.

Definition buildRedisPodSpec (image exporterImage : string) (enableExporter : option bool)
    (resources : ResourceRequirements) (auth : option AuthSpec) (tls : option TLSSpec)
    (affinity : option Affinity) (tolerations : list Toleration) (nodeSelector : gmap string string)
    (configMapName : string) (hasStorage : bool) : PodSpec :=
  redisPod (buildRedisContainer image resources auth tls hasStorage)
    exporterImage enableExporter auth tls affinity tolerations nodeSelector configMapName.

(** The container of a cluster node: its own IP in the environment, announced
    by the start command. *)
Definition clusterContainer (c : Container) : Container :=
  {| co_Name := co_Name c; co_Image := co_Image c;
     co_Command := ["sh"; "-c"; announceScript];
     co_Resources := co_Resources c;
     co_Env := co_Env c ++ [envFrom "POD_IP" (FieldRef "status.podIP")];
     co_VolumeMounts := co_VolumeMounts c; co_LivenessProbe := co_LivenessProbe c;
     co_ReadinessProbe := co_ReadinessProbe c; co_Ports := co_Ports c; co_PreStop := co_PreStop c |}.

Definition buildClusterPodSpec (image exporterImage : string) (enableExporter : option bool)
    (resources : ResourceRequirements) (auth : option AuthSpec) (tls : option TLSSpec)
    (affinity : option Affinity) (tolerations : list Toleration) (nodeSelector : gmap string string)
    (configMapName : string) : PodSpec :=
  redisPod (clusterContainer (buildRedisContainer image resources auth tls true))
    exporterImage enableExporter auth tls affinity tolerations nodeSelector configMapName.

(** The storage request; an unreadable size counts as zero. *)
Definition buildPVCTemplates (storage : StorageSpec) : list PersistentVolumeClaim :=
  [{| pvc_meta := meta "data" "" ∅;
      pvc_AccessModes := ["ReadWriteOnce"];
      pvc_Requests := {[ "storage" := match ParseQuantity (ss_Size storage) with
                                      | Ok q => q | Fail _ => zeroQuantity end ]};
      pvc_StorageClassName := ss_ClassName storage |}].

(** [if Storage != nil { sts.Spec.VolumeClaimTemplates = ... }] *)
Definition claimTemplates (storage : option StorageSpec) : list PersistentVolumeClaim :=
  match storage with Some st => buildPVCTemplates st | None => [] end.

(** The init container that configures replication. *)
Definition buildSentinelInitContainer (rs : RedisSentinel) : Container :=
  let name := om_Name (sentinel_meta rs) in
  {| co_Name := "init-replication";
     co_Image := s_Image (sentinel_Spec rs);
     co_Command := ["sh"; "-c"; initScript name (HeadlessServiceName name ComponentRedis)
                                  (om_Namespace (sentinel_meta rs))];
     co_Resources := noResources;
     co_Env := [envFrom "POD_NAME" (FieldRef "metadata.name")];
     co_VolumeMounts := [mount "config" "/etc/redis"];
     co_LivenessProbe := None; co_ReadinessProbe := None; co_Ports := []; co_PreStop := None |}.

(** ** StatefulSets *)

(** The StatefulSet literal the four builders share. *)
Definition statefulSet (stsName crName namespace component : string) (replicas : Z) (podSpec : PodSpec)
    (storage : option StorageSpec) : StatefulSet :=
  {| sts_meta := meta stsName namespace (CommonLabels crName component);
     sts_Spec :=
       {| sts_Replicas := replicas;
          sts_ServiceName := HeadlessServiceName crName component;
          sts_Selector := PodLabels crName component;
          sts_Template := {| pt_Labels := PodLabels crName component; pt_Annotations := ∅; pt_Spec := podSpec |};
          sts_VolumeClaimTemplates := claimTemplates storage;
          sts_Rest := noSpec |} |}.

Definition BuildRedisStatefulSet (redis : Redis) : StatefulSet :=
  let name := om_Name (redis_meta redis) in
  let s := redis_Spec redis in
  statefulSet name name (om_Namespace (redis_meta redis)) ComponentRedis 1
    (buildRedisPodSpec (r_Image s) (r_ExporterImage s) (r_EnableExporter s) (r_Resources s) (r_Auth s)
       (r_TLS s) (r_Affinity s) (r_Tolerations s) (r_NodeSelector s) (ConfigMapNameForRedis name) true)
    (r_Storage s).

(** [podSpec.Containers[0].Env = append(...)] *)
Definition withSentinelSvc (host : string) (containers : list Container) : list Container :=
  match containers with
  | [] => []
  | c :: cs =>
      {| co_Name := co_Name c; co_Image := co_Image c; co_Command := co_Command c;
         co_Resources := co_Resources c; co_Env := co_Env c ++ [envValue "SENTINEL_SVC" host];
         co_VolumeMounts := co_VolumeMounts c; co_LivenessProbe := co_LivenessProbe c;
         co_ReadinessProbe := co_ReadinessProbe c; co_Ports := co_Ports c; co_PreStop := co_PreStop c |} :: cs
  end.

Definition BuildSentinelRedisStatefulSet (rs : RedisSentinel) : StatefulSet :=
  let name := om_Name (sentinel_meta rs) in
  let namespace := om_Namespace (sentinel_meta rs) in
  let s := sentinel_Spec rs in
  let p := buildRedisPodSpec (s_Image s) (s_ExporterImage s) (s_EnableExporter s) (s_Resources s) (s_Auth s)
             (s_TLS s) (s_Affinity s) (s_Tolerations s) (s_NodeSelector s) (ConfigMapNameForRedis name)
             (bool_decide (is_Some (s_Storage s))) in
  statefulSet name name namespace ComponentRedis (s_Replicas s)
    {| ps_Containers := withSentinelSvc (name +:+ "-sentinel." +:+ namespace +:+ ".svc.cluster.local")
                          (ps_Containers p);
       ps_InitContainers := [buildSentinelInitContainer rs];
       ps_Volumes := ps_Volumes p; ps_Affinity := ps_Affinity p; ps_Tolerations := ps_Tolerations p;
       ps_NodeSelector := ps_NodeSelector p |}
    (s_Storage s).

Definition BuildClusterMasterStatefulSet (rc : RedisCluster) : StatefulSet :=
  let name := om_Name (cluster_meta rc) in
  let s := cluster_Spec rc in
  statefulSet (ClusterMasterStatefulSetName name) name (om_Namespace (cluster_meta rc)) ComponentMaster
    (c_Masters s)
    (buildClusterPodSpec (c_Image s) (c_ExporterImage s) (c_EnableExporter s)
       (default (c_Resources s) (c_MasterResources s)) (c_Auth s) (c_TLS s) (c_MasterAffinity s)
       (c_MasterTolerations s) (c_MasterNodeSelector s) (ConfigMapNameForRedis name))
    (c_Storage s).

Definition BuildClusterReplicaStatefulSet (rc : RedisCluster) : StatefulSet :=
  let name := om_Name (cluster_meta rc) in
  let s := cluster_Spec rc in
  statefulSet (ClusterReplicaStatefulSetName name) name (om_Namespace (cluster_meta rc)) ComponentReplica
    (wrap32 (c_Masters s * c_ReplicasPerMaster s))
    (buildClusterPodSpec (c_Image s) (c_ExporterImage s) (c_EnableExporter s)
       (default (c_Resources s) (c_ReplicaResources s)) (c_Auth s) (c_TLS s) (c_ReplicaAffinity s)
       (c_ReplicaTolerations s) (c_ReplicaNodeSelector s) (ConfigMapNameForRedis name))
    (c_Storage s).

(** ** deployment.go *)

Definition deployment (depName crName namespace component : string) (replicas : Z) (podSpec : PodSpec)
  : Deployment :=
  {| dep_meta := meta depName namespace (CommonLabels crName component);
     dep_Spec :=
       {| dep_Replicas := replicas;
          dep_Selector := PodLabels crName component;
          dep_Template := {| pt_Labels := PodLabels crName component; pt_Annotations := ∅; pt_Spec := podSpec |};
          dep_Rest := noSpec |} |}.

(** The mount of /data that the loop over the containers appends. *)
Definition withDataMount (c : Container) : Container :=
  if String.eqb (co_Name c) "redis"
  then {| co_Name := co_Name c; co_Image := co_Image c; co_Command := co_Command c;
          co_Resources := co_Resources c; co_Env := co_Env c;
          co_VolumeMounts := co_VolumeMounts c ++ [mount "data" "/data"];
          co_LivenessProbe := co_LivenessProbe c; co_ReadinessProbe := co_ReadinessProbe c;
          co_Ports := co_Ports c; co_PreStop := co_PreStop c |}
  else c.

Definition BuildRedisDeployment (redis : Redis) : Deployment :=
  let name := om_Name (redis_meta redis) in
  let s := redis_Spec redis in
  let p := buildRedisPodSpec (r_Image s) (r_ExporterImage s) (r_EnableExporter s) (r_Resources s) (r_Auth s)
             (r_TLS s) (r_Affinity s) (r_Tolerations s) (r_NodeSelector s) (ConfigMapNameForRedis name) false in
  deployment name name (om_Namespace (redis_meta redis)) ComponentRedis 1
    {| ps_Containers := withDataMount <$> ps_Containers p;
       ps_InitContainers := ps_InitContainers p;
       ps_Volumes := ps_Volumes p ++ [{| vo_Name := "data"; vo_Source := VEmptyDir |}];
       ps_Affinity := ps_Affinity p; ps_Tolerations := ps_Tolerations p; ps_NodeSelector := ps_NodeSelector p |}.

Definition sentinelProbe : Probe :=
  {| pr_Command := ["redis-cli"; "-p"; "26379"; "PING"]; pr_InitialDelaySeconds := 15;
     pr_PeriodSeconds := 10; pr_TimeoutSeconds := 5; pr_FailureThreshold := 0 |}.

Definition sentinelContainer (rs : RedisSentinel) : Container :=
  let s := sentinel_Spec rs in
  let image := if String.eqb (s_SentinelImage s) "" then s_Image s else s_SentinelImage s in
  {| co_Name := "sentinel";
     co_Image := if String.eqb image "" then DefaultRedisImage else image;
     co_Command := ["redis-server"; "/etc/sentinel/sentinel.conf"; "--sentinel"];
     co_Resources := s_SentinelResources s;
     co_Env := match s_Auth s with
               | Some a => [envFrom "REDISCLI_AUTH" (SecretKeyRef (auth_SecretName a) "password")]
               | None => []
               end;
     co_VolumeMounts := [mount "sentinel-config" "/etc/sentinel"; mount "sentinel-data" "/data"];
     co_LivenessProbe := Some sentinelProbe;
     co_ReadinessProbe := Some sentinelProbe;
     co_Ports := [{| cp_Name := "sentinel"; cp_ContainerPort := SentinelPort; cp_Protocol := "TCP" |}];
     co_PreStop := None |}.

Definition BuildSentinelDeployment (rs : RedisSentinel) : Deployment :=
  let name := om_Name (sentinel_meta rs) in
  deployment (name +:+ "-sentinel") name (om_Namespace (sentinel_meta rs)) ComponentSentinel
    (s_SentinelReplicas (sentinel_Spec rs))
    {| ps_Containers := [sentinelContainer rs];
       ps_InitContainers := [];
       ps_Volumes := [{| vo_Name := "sentinel-config"; vo_Source := VConfigMap (ConfigMapNameForSentinel name) |};
                      {| vo_Name := "sentinel-data"; vo_Source := VEmptyDir |}];
       ps_Affinity := None; ps_Tolerations := []; ps_NodeSelector := ∅ |}.

End workloads.

(** ** Theorems *)

Section theorems.
Context {K : KubeTypes}.

(** Every volume that a container of the pod mounts is a volume of the pod or
    one of the claims: what the API server requires of a pod. *)
Definition mounts_declared (p : PodSpec) (claims : list PersistentVolumeClaim) : bool :=
  forallb (λ c, forallb (λ m,
      existsb (String.eqb (vm_Name m))
        ((vo_Name <$> ps_Volumes p) ++ ((λ pvc, om_Name (pvc_meta pvc)) <$> claims)))
    (co_VolumeMounts c)) (ps_Containers p ++ ps_InitContainers p).

Definition sts_pod (s : StatefulSet) : PodSpec := pt_Spec (sts_Template (sts_Spec s)).
Definition sts_claims (s : StatefulSet) : list PersistentVolumeClaim := sts_VolumeClaimTemplates (sts_Spec s).
Definition dep_pod (d : Deployment) : PodSpec := pt_Spec (dep_Template (dep_Spec d)).

(** C33: Which pods can be created.  Every volume mounted by a container of the
    standalone Deployment, of the standalone StatefulSet of an instance with
    storage, of the Sentinel Deployment and of the Sentinel Redis StatefulSet
    is declared, whatever the spec.  The pods of a cluster have that property
    exactly when the cluster has a storage section: without one their
    containers mount a volume [data] that neither the pod nor a claim
    declares. *)
Theorem workload_mounts :
  (∀ r : Redis, mounts_declared (dep_pod (BuildRedisDeployment r)) [] = true) ∧
  (∀ r : Redis, is_Some (r_Storage (redis_Spec r)) →
     mounts_declared (sts_pod (BuildRedisStatefulSet r)) (sts_claims (BuildRedisStatefulSet r)) = true) ∧
  (∀ rs : RedisSentinel, mounts_declared (dep_pod (BuildSentinelDeployment rs)) [] = true ∧
     mounts_declared (sts_pod (BuildSentinelRedisStatefulSet rs)) (sts_claims (BuildSentinelRedisStatefulSet rs)) = true) ∧
  (∀ rc : RedisCluster,
     mounts_declared (sts_pod (BuildClusterMasterStatefulSet rc)) (sts_claims (BuildClusterMasterStatefulSet rc))
       = bool_decide (is_Some (c_Storage (cluster_Spec rc))) ∧
     mounts_declared (sts_pod (BuildClusterReplicaStatefulSet rc)) (sts_claims (BuildClusterReplicaStatefulSet rc))
       = bool_decide (is_Some (c_Storage (cluster_Spec rc)))).
Proof.
  split_and!.
  - intros r. destruct r as [m [image res st conf auth tls ex exi aff tol sel] status].
    destruct tls, ex as [[]|]; reflexivity.
  - intros r. destruct r as [m [image res st conf auth tls ex exi aff tol sel] status]. simpl.
    intros [st' ->]. destruct tls, ex as [[]|]; reflexivity.
  - intros rs. split; [reflexivity|].
    destruct rs as [m [? ? ? ? ? ? st ? ? auth tls ex exi aff tol sel] status].
    destruct st, tls, ex as [[]|]; reflexivity.
  - intros rc. destruct rc as [m [? ? ? ? ? ? st ? auth tls ex ? ? ? ? ? ? ?] status].
    destruct st, tls, ex as [[]|]; split; reflexivity.
Qed.

(** A label selector matches the pods that carry all its labels. *)
Definition selects (selector labels : gmap string string) : Prop := selector ⊆ labels.

Lemma selects_two k1 v1 k2 v2 labels :
  k1 ≠ k2 → selects {[ k1 := v1; k2 := v2 ]} labels ↔ labels !! k1 = Some v1 ∧ labels !! k2 = Some v2.
Proof.
  intros Hk. unfold selects. rewrite map_subseteq_spec. split.
  - intros H. split; apply H; [by rewrite lookup_insert_eq|].
    rewrite lookup_insert_ne by done. by rewrite lookup_singleton_eq.
  - intros [H1 H2] k v [[<- <-]|[_ [<- <-]%lookup_singleton_Some]]%lookup_insert_Some; done.
Qed.

Lemma PodLabels_component name name' c c' : selects (PodLabels name c) (PodLabels name' c') → c = c'.
Proof.
  unfold selects. rewrite map_subseteq_spec. intros H.
  assert (PodLabels name' c' !! labelComponent = Some c) as Hc by by apply H.
  assert (PodLabels name' c' !! labelComponent = Some c') as Hc' by done. congruence.
Qed.

(** The labels of the pods of a StatefulSet or Deployment. *)
Definition sts_labels (s : StatefulSet) : gmap string string := pt_Labels (sts_Template (sts_Spec s)).
Definition dep_labels (d : Deployment) : gmap string string := pt_Labels (dep_Template (dep_Spec d)).

(** The Services of a RedisSentinel route by role: the master Service
    selects a Redis pod exactly when its role label says master, the replica
    Service exactly when it says replica, so that no pod is behind both and a
    pod without a role label is behind neither; neither ever selects a
    Sentinel pod, and the Sentinel Service selects the Sentinel pods and no
    Redis pod. *)
Lemma sentinel_services_route (rs : RedisSentinel) :
  let redisPods := sts_labels (BuildSentinelRedisStatefulSet rs) in
  let sentinelPods := dep_labels (BuildSentinelDeployment rs) in
  let master := svc_Selector (svc_Spec (BuildSentinelMasterService rs)) in
  let replica := svc_Selector (svc_Spec (BuildSentinelReplicaService rs)) in
  let sentinel := svc_Selector (svc_Spec (BuildSentinelService rs)) in
  (∀ role, selects master (<[RoleLabelKey := role]> redisPods) ↔ role = RoleMaster) ∧
  (∀ role, selects replica (<[RoleLabelKey := role]> redisPods) ↔ role = RoleReplica) ∧
  ¬ selects master redisPods ∧ ¬ selects replica redisPods ∧
  ¬ selects master sentinelPods ∧ ¬ selects replica sentinelPods ∧
  selects sentinel sentinelPods ∧ (∀ role, ¬ selects sentinel (<[RoleLabelKey := role]> redisPods)).
Proof.
  intros redisPods sentinelPods master replica sentinel.
  assert (∀ r, redisPods !! RoleLabelKey = Some r → False) as Hr by by intros r [=].
  assert (∀ r, sentinelPods !! RoleLabelKey = Some r → False) as Hs by by intros r [=].
  assert (∀ role, <[RoleLabelKey := role]> redisPods !! labelInstance
                  = Some (om_Name (sentinel_meta rs))) as Hi by done.
  unfold master, replica; cbn [BuildSentinelMasterService BuildSentinelReplicaService clusterIPService svc_Spec svc_Selector].
  split_and!; try (intros role; rewrite selects_two, lookup_insert_eq by done; naive_solver);
    try (rewrite selects_two by done; naive_solver).
  - unfold selects. reflexivity.
  - intros role H. unfold selects in H. rewrite map_subseteq_spec in H.
    specialize (H labelComponent ComponentSentinel eq_refl). discriminate H.
Qed.

(** C32: A StatefulSet, its headless Service, its disruption budget and its
    pods fit together in a cluster: the selectors of the master StatefulSet,
    of the master headless Service and of the master budget match the master
    pods and not the replica pods, and conversely for the replicas; the
    client Service matches both; and the name under which each StatefulSet
    registers its pods is the name of its headless Service. *)
Theorem cluster_objects_match (rc : RedisCluster) :
  let name := om_Name (cluster_meta rc) in
  let ns := om_Namespace (cluster_meta rc) in
  let masters := BuildClusterMasterStatefulSet rc in
  let replicas := BuildClusterReplicaStatefulSet rc in
  let mHeadless := BuildHeadlessService name ns ComponentMaster in
  let rHeadless := BuildHeadlessService name ns ComponentReplica in
  let client := svc_Selector (svc_Spec (BuildClusterClientService rc)) in
  Forall (λ sel, selects sel (sts_labels masters) ∧ ¬ selects sel (sts_labels replicas))
    [sts_Selector (sts_Spec masters); svc_Selector (svc_Spec mHeadless); pdb_Selector (BuildClusterMasterPDB rc)] ∧
  Forall (λ sel, selects sel (sts_labels replicas) ∧ ¬ selects sel (sts_labels masters))
    [sts_Selector (sts_Spec replicas); svc_Selector (svc_Spec rHeadless); pdb_Selector (BuildClusterReplicaPDB rc)] ∧
  selects client (sts_labels masters) ∧ selects client (sts_labels replicas) ∧
  sts_ServiceName (sts_Spec masters) = om_Name (svc_meta mHeadless) ∧
  sts_ServiceName (sts_Spec replicas) = om_Name (svc_meta rHeadless).
Proof.
  intros name ns masters replicas mHeadless rHeadless client.
  assert (∀ c c', c ≠ c' → selects (PodLabels name c) (PodLabels name c) ∧ ¬ selects (PodLabels name c) (PodLabels name c')) as Hsel.
  { intros c c' Hc. split; [done|]. by intros H%PodLabels_component. }
  assert (∀ c, selects client (PodLabels name c)) as Hclient.
  { intros c. unfold selects, client. apply map_singleton_subseteq_l. done. }
  split_and!; try done; try apply Hclient.
  - repeat constructor; apply (Hsel ComponentMaster ComponentReplica); done.
  - repeat constructor; apply (Hsel ComponentReplica ComponentMaster); done.
Qed.
End theorems.

Lemma workload_mounts_witness :
  mounts_declared (sts_pod (BuildRedisStatefulSet (sample_redis (Some (storage_of "10")))))
    (sts_claims (BuildRedisStatefulSet (sample_redis (Some (storage_of "10"))))) = true ∧
  mounts_declared (sts_pod (BuildClusterMasterStatefulSet (sample_cluster 3 1 None "")))
    (sts_claims (BuildClusterMasterStatefulSet (sample_cluster 3 1 None ""))) = false.
Proof.
  destruct (workload_mounts (K := plain_types)) as (_ & H1 & _ & H2). split.
  - apply H1. by eexists.
  - destruct (H2 (sample_cluster 3 1 None "")) as [H _]. exact H.
Defined.
