(* ===== verification/Credentials.v ===== *)
(** * Passwords and certificates (theorems on internal/resources)

    What the servers that the operator starts know of the [auth] and [tls]
    sections of a resource: the configuration they read and the command they
    are started with. *)

From S2P Require Import Prelude Go Api Webhook Resources Config Workloads.

Local Open Scope Z_scope.

Section credentials.
Context {K : KubeTypes}.

(** The configuration that Redis reads from a ConfigMap. *)
Definition redis_conf (cm : ConfigMap) : gmap string string :=
  readConf (default "" (cm_Data cm !! "redis.conf")).

(** The commands of the init containers of a pod, and of its servers, which
    are its containers but for the metrics exporter. *)
Definition init_commands (p : PodSpec) : list (list string) := co_Command <$> ps_InitContainers p.

Definition server_commands (p : PodSpec) : list (list string) :=
  co_Command <$> filter (λ c, co_Name c ≠ "redis-exporter") (ps_Containers p).

(** The parameters with which Redis demands a password, presents one to its
    master, and finds its certificates. *)
Definition credential_parameters : list string :=
  ["requirepass"; "masterauth"; "masteruser"; "user"; "aclfile"; "tls-cert-file"; "tls-key-file"; "tls-ca-cert-file";
   "tls-ca-cert-dir"].

(** The same for a Sentinel server, with its own TLS port and the password it
    presents to the servers it monitors.  Parameters of sentinel.conf can be
    several words. *)
Definition sentinel_parameters : list string :=
  ["requirepass"; "masterauth"; "masteruser"; "user"; "aclfile"; "tls-port"; "tls-replication"; "tls-cert-file";
   "tls-key-file"; "tls-ca-cert-file"; "tls-ca-cert-dir"; "sentinel auth-pass"; "sentinel auth-user";
   "sentinel sentinel-pass"; "sentinel sentinel-user"].

(** Whether a line sets a parameter. *)
Definition sets (k line : string) : bool := has_prefix (k +:+ " ") line.

(** The lines of sentinel.conf. *)
Definition sentinel_lines (cm : ConfigMap) : list string := split_byte nl (default "" (cm_Data cm !! "sentinel.conf")).

(** No default is a credential. *)
Lemma override_credential defaults user k :
  map_Forall directive defaults → map_Forall directive user → defaults !! k = None → user !! k = None →
  readConf (renderConf (override defaults user)) !! k = None.
Proof.
  intros Hd Hu Hk Hn. rewrite readConf_render by by apply override_directives.
  unfold override. by apply lookup_union_None.
Qed.

Lemma defaults_without_credentials k :
  k ∈ credential_parameters → (∀ tls, redisDefaults tls !! k = None) ∧ clusterDefaults !! k = None.
Proof.
  intros Hk. unfold credential_parameters in Hk.
  repeat (apply elem_of_cons in Hk as [->|Hk]; [split; [intros []|]; reflexivity|]).
  by apply not_elem_of_nil in Hk.
Qed.

(** The defaults of Sentinel are lines that set no credential. *)
Lemma sentinelDefaults_lines masterIP n k v :
  str_forall (not_char nl) masterIP = true → sentinelDefaults masterIP n !! k = Some v →
  one_line k v ∧ ∀ p, p ∈ sentinel_parameters → sets p (k +:+ " " +:+ v) = false.
Proof.
  intros Hip H. unfold sentinelDefaults in H.
  assert (∀ p, p ∈ sentinel_parameters → sets p (k +:+ " " +:+ v) = false) as Hset.
  { intros p Hp. unfold sentinel_parameters in Hp.
    repeat (apply lookup_insert_Some in H as [[<- <-]|[_ H]];
      [repeat (apply elem_of_cons in Hp as [->|Hp]; [reflexivity|]); by apply not_elem_of_nil in Hp|]).
    apply lookup_singleton_Some in H as [<- <-].
    repeat (apply elem_of_cons in Hp as [->|Hp]; [reflexivity|]). by apply not_elem_of_nil in Hp. }
  split; [|exact Hset].
  repeat (apply lookup_insert_Some in H as [[<- <-]|[_ H]];
    [split; [reflexivity|]; rewrite ?str_forall_app, ?Hip, ?(itoa_not nl) by reflexivity; reflexivity|]).
  by apply lookup_singleton_Some in H as [<- <-].
Qed.

Lemma sentinel_conf_sets rs masterIP p line :
  let user := s_SentinelConfig (sentinel_Spec rs) in
  p ∈ sentinel_parameters → str_forall (not_char nl) masterIP = true →
  map_Forall one_line user → map_Forall (λ k v, sets p (k +:+ " " +:+ v) = false) user →
  line ∈ sentinel_lines (BuildSentinelConfigMap rs masterIP) → sets p line = false.
Proof.
  intros user Hp Hip Hu Hk Hl. pose proof (sentinelDefaults_lines masterIP (s_SentinelReplicas (sentinel_Spec rs))) as Hd.
  change (line ∈ split_byte nl (renderConf (override (sentinelDefaults masterIP (s_SentinelReplicas (sentinel_Spec rs))) user)))
    in Hl.
  apply conf_lines in Hl as [->|(k & v & Hkv & ->)].
  - unfold sentinel_parameters in Hp. repeat (apply elem_of_cons in Hp as [->|Hp]; [reflexivity|]).
    by apply not_elem_of_nil in Hp.
  - apply lookup_union_Some_raw in Hkv as [Hkv|[_ Hkv]]; [by apply Hk|]. by apply (Hd k v Hip Hkv).
  - apply map_Forall_union_2; [done|]. intros k v Hkv. by apply (Hd k v Hip Hkv).
Qed.

(** C15: The [auth] section protects no server, and the [tls] section is never
    complete.  Whatever Secret a resource refers to, no server the operator
    starts - standalone, under Sentinel, of a cluster, or Sentinel itself - is
    told a password or where its certificates are.  Unless the user's own
    [redisConfig] sets such a parameter, it is absent from the redis.conf of
    the servers; unless the user's own [sentinelConfig] does, no line of
    sentinel.conf sets it, nor a TLS port or the password of the monitored
    servers.  The servers are started with that file alone, which the init
    container of a Sentinel setup and the start script of a cluster extend by
    an address only.  (The Secret reaches the environment of redis-cli, which
    the servers do not read.)  For a cluster the [tls] section does not even
    change the ports: the nodes listen on 6379 in clear text. *)
Theorem credentials_left_to_user k :
  (k ∈ credential_parameters →
   (∀ r : Redis, let user := default ∅ (r_RedisConfig (redis_Spec r)) in
      map_Forall directive user → user !! k = None → redis_conf (BuildRedisConfigMap r) !! k = None) ∧
   (∀ rs : RedisSentinel, let user := default ∅ (s_RedisConfig (sentinel_Spec rs)) in
      map_Forall directive user → user !! k = None → redis_conf (BuildSentinelRedisConfigMap rs) !! k = None) ∧
   (∀ rc : RedisCluster, let user := default ∅ (c_RedisConfig (cluster_Spec rc)) in
      map_Forall directive user → user !! k = None → redis_conf (BuildClusterConfigMap rc) !! k = None)) ∧
  (k ∈ sentinel_parameters →
   ∀ (rs : RedisSentinel) masterIP, let user := s_SentinelConfig (sentinel_Spec rs) in
     str_forall (not_char nl) masterIP = true → map_Forall one_line user →
     map_Forall (λ k' v, sets k (k' +:+ " " +:+ v) = false) user →
     ∀ line, line ∈ sentinel_lines (BuildSentinelConfigMap rs masterIP) → sets k line = false) ∧
  (∀ r : Redis, Forall (λ p, init_commands p = [] ∧ server_commands p = [["redis-server"; "/etc/redis/redis.conf"]])
     [sts_pod (BuildRedisStatefulSet r); dep_pod (BuildRedisDeployment r)]) ∧
  (∀ rs : RedisSentinel, let m := sentinel_meta rs in
     let redis := sts_pod (BuildSentinelRedisStatefulSet rs) in
     let sentinel := dep_pod (BuildSentinelDeployment rs) in
     init_commands redis = [["sh"; "-c"; initScript (om_Name m) (HeadlessServiceName (om_Name m) ComponentRedis) (om_Namespace m)]] ∧
     server_commands redis = [["redis-server"; "/etc/redis/redis.conf"]] ∧
     init_commands sentinel = [] ∧
     server_commands sentinel = [["redis-server"; "/etc/sentinel/sentinel.conf"; "--sentinel"]]) ∧
  (∀ rc : RedisCluster, let user := default ∅ (c_RedisConfig (cluster_Spec rc)) in
     Forall (λ p, init_commands p = [] ∧ server_commands p = [["sh"; "-c"; announceScript]])
       [sts_pod (BuildClusterMasterStatefulSet rc); sts_pod (BuildClusterReplicaStatefulSet rc)] ∧
     (map_Forall directive user →
      (user !! "port" = None → redis_conf (BuildClusterConfigMap rc) !! "port" = Some "6379") ∧
      (user !! "tls-port" = None → redis_conf (BuildClusterConfigMap rc) !! "tls-port" = None))).
Proof.
  split_and!.
  - intros [Hr Hc]%defaults_without_credentials. split_and!; intros r user Hu Hk; apply override_credential;
      first [apply redisDefaults_directives|apply clusterDefaults_directives|done|apply Hr].
  - intros Hk rs masterIP user Hip Hu Hs line. by apply sentinel_conf_sets.
  - intros r. do 2 (apply Forall_cons; split; [split; [done|]; unfold server_commands; cbn; by destruct (exporterEnabled _)|]).
    constructor.
  - intros rs. unfold server_commands. split_and!; cbn; try done; by destruct (exporterEnabled _).
  - intros rc user. split.
    { do 2 (apply Forall_cons; split; [split; [done|]; unfold server_commands; cbn; by destruct (exporterEnabled _)|]).
      constructor. }
    intros Hu. split; intros Hp; [|by apply override_credential; [apply clusterDefaults_directives| | |]].
    change (redis_conf (BuildClusterConfigMap rc)) with (readConf (renderConf (override clusterDefaults user))).
    rewrite readConf_render by (apply override_directives; [apply clusterDefaults_directives|done]).
    unfold override. by rewrite lookup_union_r.
Qed.

End credentials.

(** A cluster that asks for a password and for TLS. *)
Definition secured_cluster : RedisCluster (K := plain_types) :=
  let rc := sample_cluster 3 1 None "Ready" in
  let s := cluster_Spec rc in
  {| cluster_meta := cluster_meta rc;
     cluster_Spec :=
       {| c_Masters := c_Masters s; c_ReplicasPerMaster := c_ReplicasPerMaster s; c_Image := c_Image s;
          c_Resources := c_Resources s; c_MasterResources := c_MasterResources s;
          c_ReplicaResources := c_ReplicaResources s; c_Storage := c_Storage s; c_RedisConfig := c_RedisConfig s;
          c_Auth := Some {| auth_SecretName := "redis-auth" |};
          c_TLS := Some {| tls_SecretName := "redis-tls" |};
          c_EnableExporter := c_EnableExporter s; c_ExporterImage := c_ExporterImage s;
          c_MasterAffinity := c_MasterAffinity s; c_MasterTolerations := c_MasterTolerations s;
          c_MasterNodeSelector := c_MasterNodeSelector s; c_ReplicaAffinity := c_ReplicaAffinity s;
          c_ReplicaTolerations := c_ReplicaTolerations s; c_ReplicaNodeSelector := c_ReplicaNodeSelector s |};
     cluster_Status := cluster_Status rc |}.

Lemma credentials_left_to_user_witness :
  redis_conf (BuildClusterConfigMap secured_cluster) !! "requirepass" = None ∧
  redis_conf (BuildClusterConfigMap secured_cluster) !! "tls-port" = None ∧
  "sentinel parallel-syncs mymaster 1" ∈ sentinel_lines (BuildSentinelConfigMap (sample_sentinel 3 3 None) "rs-0") ∧
  ∀ line, line ∈ sentinel_lines (BuildSentinelConfigMap (sample_sentinel 3 3 None) "rs-0") →
    sets "sentinel auth-pass" line = false.
Proof.
  destruct (credentials_left_to_user (K := plain_types) "requirepass") as (H & _ & _ & _ & Hp).
  destruct (credentials_left_to_user (K := plain_types) "sentinel auth-pass") as (_ & Hs & _).
  assert (map_Forall directive (∅ : gmap string string)) as He by by intros k v Hv.
  split_and!.
  - destruct H as (_ & _ & H); [left|]. apply (H secured_cluster He). reflexivity.
  - destruct (Hp secured_cluster) as [_ Ht]. apply (Ht He). reflexivity.
  - apply (bool_decide_unpack _). vm_compute. exact I.
  - intros line. apply Hs; [apply (bool_decide_unpack _); vm_compute; exact I|reflexivity| |]; by intros k v Hv.
Defined.
