(* ===== verification/Sha256.v ===== *)
(** * crypto/sha256 and the config hash

    SHA-256 (FIPS 180-4) on byte strings, as Go's standard library computes
    it, and [configDataHash] of internal/controller/redis_controller.go, the
    16 hexadecimal digits that the controllers put on pod templates. *)

From S2P Require Import Prelude Go Resources Config.

Local Open Scope Z_scope.

(** ** 32-bit words, as integers in [[0, 2^32)] *)

Definition add32 (a b : Z) : Z := (a + b) mod 2 ^ 32.
Definition not32 (a : Z) : Z := 2 ^ 32 - 1 - a.
Definition rotr (a n : Z) : Z := Z.lor (Z.shiftr a n) (Z.shiftl a (32 - n) mod 2 ^ 32).

Definition Ch (x y z : Z) : Z := Z.lxor (Z.land x y) (Z.land (not32 x) z).
Definition Maj (x y z : Z) : Z := Z.lxor (Z.lxor (Z.land x y) (Z.land x z)) (Z.land y z).
Definition Sigma0 (x : Z) : Z := Z.lxor (Z.lxor (rotr x 2) (rotr x 13)) (rotr x 22).
Definition Sigma1 (x : Z) : Z := Z.lxor (Z.lxor (rotr x 6) (rotr x 11)) (rotr x 25).
Definition sigma0 (x : Z) : Z := Z.lxor (Z.lxor (rotr x 7) (rotr x 18)) (Z.shiftr x 3).
Definition sigma1 (x : Z) : Z := Z.lxor (Z.lxor (rotr x 17) (rotr x 19)) (Z.shiftr x 10).

Definition initialHash : list Z := [
   1779033703; 3144134277; 1013904242; 2773480762; 1359893119; 2600822924;
   528734635; 1541459225].

Definition roundConstants : list Z := [
   1116352408; 1899447441; 3049323471; 3921009573; 961987163; 1508970993;
   2453635748; 2870763221; 3624381080; 310598401; 607225278; 1426881987;
   1925078388; 2162078206; 2614888103; 3248222580; 3835390401; 4022224774;
   264347078; 604807628; 770255983; 1249150122; 1555081692; 1996064986;
   2554220882; 2821834349; 2952996808; 3210313671; 3336571891; 3584528711;
   113926993; 338241895; 666307205; 773529912; 1294757372; 1396182291;
   1695183700; 1986661051; 2177026350; 2456956037; 2730485921; 2820302411;
   3259730800; 3345764771; 3516065817; 3600352804; 4094571909; 275423344;
   430227734; 506948616; 659060556; 883997877; 958139571; 1322822218;
   1537002063; 1747873779; 1955562222; 2024104815; 2227730452; 2361852424;
   2428436474; 2756734187; 3204031479; 3329325298].

(** ** Padding and blocks *)

Fixpoint bytes_of (s : string) : list Z :=
  match s with
  | EmptyString => []
  | String c s' => Z.of_N (N_of_ascii c) :: bytes_of s'
  end.

(** The big-endian bytes of an integer below [2 ^ (8 * n)]. *)
Fixpoint big_endian (n : nat) (z : Z) : list Z :=
  match n with
  | O => []
  | S n' => (z / 2 ^ (8 * Z.of_nat n')) mod 256 :: big_endian n' z
  end.

Definition padded (bs : list Z) : list Z :=
  let zeros := Z.to_nat ((55 - zlen bs) mod 64) in
  bs ++ [128] ++ replicate zeros 0 ++ big_endian 8 (8 * zlen bs).

(** The words of a block, four bytes each. *)
Fixpoint words_of (bs : list Z) : list Z :=
  match bs with
  | a :: b :: c :: d :: bs' => (((a * 256 + b) * 256 + c) * 256 + d) :: words_of bs'
  | _ => []
  end.

(** The message schedule: [w] holds the words so far, newest first. *)
Fixpoint schedule (n : nat) (w : list Z) : list Z :=
  match n with
  | O => rev w
  | S n' =>
      let at_ i := nth i w 0 in
      schedule n' (add32 (add32 (sigma1 (at_ 1%nat)) (at_ 6%nat)) (add32 (sigma0 (at_ 14%nat)) (at_ 15%nat)) :: w)
  end.

Definition round (st : list Z) (kw : Z * Z) : list Z :=
  match st with
  | [a; b; c; d; e; f; g; h] =>
      let t1 := add32 (add32 (add32 h (Sigma1 e)) (Ch e f g)) (add32 kw.1 kw.2) in
      let t2 := add32 (Sigma0 a) (Maj a b c) in
      [add32 t1 t2; a; b; c; add32 d t1; e; f; g]
  | _ => st
  end.

Definition compress (st block : list Z) : list Z :=
  zip_with add32 st
    (fold_left round (zip roundConstants (schedule 48 (rev (words_of block)))) st).

(** The blocks of 64 bytes of a padded message. *)
Fixpoint blocks (n : nat) (bs : list Z) (st : list Z) : list Z :=
  match n with
  | O => st
  | S n' => blocks n' (drop 64 bs) (compress st (take 64 bs))
  end.

Definition sha256 (s : string) : list Z :=
  let bs := padded (bytes_of s) in
  concat (big_endian 4 <$> blocks (length bs / 64) bs initialHash).

(** [fmt.Sprintf("%x", bytes)] *)
Definition hex_bytes (bs : list Z) : string :=
  join "" ((λ b, hex_digit (Z.to_N (b / 16)) +:+ hex_digit (Z.to_N (b mod 16))) <$> bs).

(** ** configDataHash *)

(** What is written to the hash when the map is ranged over as [ks]. *)
Definition hashInput (ks : list string) (data : gmap string string) : string :=
  join "" ((λ k, k +:+ "=" +:+ default "" (data !! k) +:+ String nl "") <$> sortStrings ks).

Definition configDataHash (data : gmap string string) : string :=
  str_take 16 (hex_bytes (sha256 (hashInput (keys data) data))).

(** The test vectors of the standard. *)
Example sha256_empty :
  hex_bytes (sha256 "") = "e3b0c44298fc1c149afbf4c8996fb92427ae41e4649b934ca495991b7852b855".
Proof. vm_compute. reflexivity. Qed.

Example sha256_abc :
  hex_bytes (sha256 "abc") = "ba7816bf8f01cfea414140de5dae2223b00361a396177a9cb410ff61f20015ad".
Proof. vm_compute. reflexivity. Qed.

Example sha256_two_blocks :
  hex_bytes (sha256 "abcdbcdecdefdefgefghfghighijhijkijkljklmklmnlmnomnopnopq")
  = "248d6a61d20638b8e5c026930c3e6039a33ce45964ff2167f6ecedd419db06c1".
Proof. vm_compute. reflexivity. Qed.

(** ** Theorems *)

Lemma round_length st kw : length st = 8%nat → length (round st kw) = 8%nat.
Proof. intros H. do 8 (destruct st as [|? st]; [done|]). by destruct st. Qed.

Lemma rounds_length kws st : length st = 8%nat → length (fold_left round kws st) = 8%nat.
Proof. revert st. induction kws as [|kw kws IH]; intros st H; simpl; [done|]. by apply IH, round_length. Qed.

Lemma compress_length st b : length st = 8%nat → length (compress st b) = 8%nat.
Proof. intros H. unfold compress. rewrite length_zip_with, rounds_length by done. lia. Qed.

Lemma blocks_length n bs st : length st = 8%nat → length (blocks n bs st) = 8%nat.
Proof. revert bs st. induction n as [|n IH]; intros bs st H; simpl; [done|]. by apply IH, compress_length. Qed.

Lemma big_endian_bytes n z : length (big_endian n z) = n ∧ Forall (λ b, 0 ≤ b < 256) (big_endian n z).
Proof.
  induction n as [|n [IH1 IH2]]; simpl; [by split|]. split; [by f_equal|].
  constructor; [|done]. by apply Z.mod_pos_bound.
Qed.

Lemma sha256_bytes s : length (sha256 s) = 32%nat ∧ Forall (λ b, 0 ≤ b < 256) (sha256 s).
Proof.
  unfold sha256. set (st := blocks _ _ _).
  assert (length st = 8%nat) as Hst by by apply blocks_length. split.
  - do 8 (destruct st as [|? st]; [done|]). by destruct st.
  - clearbody st. clear Hst. induction st as [|w st IH]; [constructor|].
    rewrite fmap_cons, concat_cons. apply Forall_app. split; [|done]. apply big_endian_bytes.
Qed.

Definition is_hex (c : ascii) : bool :=
  is_digit c || ((97 <=? N_of_ascii c) && (N_of_ascii c <=? 102))%N.

Lemma hex_digit_hex n : (n < 16)%N → String.length (hex_digit n) = 1%nat ∧ str_forall is_hex (hex_digit n) = true.
Proof.
  intros Hn. assert (n ∈ (N.of_nat <$> seq 0 16)) as Hin.
  { apply list_elem_of_fmap. exists (N.to_nat n). rewrite N2Nat.id, elem_of_seq. split; [done|lia]. }
  revert Hin. clear Hn. simpl. rewrite !elem_of_cons, elem_of_nil. intros Hin. by repeat destruct Hin as [->|Hin].
Qed.

Lemma length_app_str a b : String.length (a +:+ b) = (String.length a + String.length b)%nat.
Proof. induction a as [|c a IH]; simpl; [done|]. by rewrite IH. Qed.

Lemma str_take_shape n s P :
  str_forall P s = true → String.length (str_take n s) = (n `min` String.length s)%nat ∧ str_forall P (str_take n s) = true.
Proof.
  revert s. induction n as [|n IH]; intros s Hs; [by destruct s|]. destruct s as [|c s]; [done|].
  simpl in *. destruct (P c); [|done]. destruct (IH s Hs) as [H1 H2]. by rewrite H1.
Qed.

Lemma hex_bytes_shape bs :
  Forall (λ b, 0 ≤ b < 256) bs →
  String.length (hex_bytes bs) = (2 * length bs)%nat ∧ str_forall is_hex (hex_bytes bs) = true.
Proof.
  unfold hex_bytes. induction 1 as [|b bs Hb _ [IH1 IH2]]; [done|].
  rewrite fmap_cons, join_empty_cons. rewrite !str_forall_app, IH2, !length_app_str, IH1.
  destruct (hex_digit_hex (Z.to_N (b / 16))) as [H1 H2].
  { assert (b / 16 < 16) by (apply Z.div_lt_upper_bound; lia). lia. }
  destruct (hex_digit_hex (Z.to_N (b mod 16))) as [H3 H4].
  { pose proof (Z.mod_pos_bound b 16). lia. }
  rewrite H1, H2, H3, H4. split; [simpl; lia|done].
Qed.

(** The config hash is a well-formed, deterministic label: it is always
    16 lower-case hexadecimal digits, and it is the same for every order in
    which Go may range over the ConfigMap data. *)
Lemma configDataHash_shape data :
  String.length (configDataHash data) = 16%nat ∧ str_forall is_hex (configDataHash data) = true ∧
  ∀ ks, ks ≡ₚ keys data → configDataHash data = str_take 16 (hex_bytes (sha256 (hashInput ks data))).
Proof.
  unfold configDataHash. destruct (sha256_bytes (hashInput (keys data) data)) as [Hl Hb].
  destruct (hex_bytes_shape _ Hb) as [H1 H2].
  destruct (str_take_shape 16 _ is_hex H2) as [H3 H4]. rewrite Hl in H1.
  split_and!; [by rewrite H3, H1|done|]. intros ks Hks. do 3 f_equal. unfold hashInput.
  by rewrite (sortStrings_proper ks (keys data)).
Qed.

Lemma configDataHash_shape_witness :
  configDataHash {["redis.conf" := "port 6379"]}
  = str_take 16 (hex_bytes (sha256 (hashInput ["redis.conf"] {["redis.conf" := "port 6379"]}))).
Proof. destruct (configDataHash_shape {["redis.conf" := "port 6379"]}) as (_ & _ & H). apply H. reflexivity. Defined.
