(* ===== verification/Metrics.v ===== *)
(** * internal/metrics/metrics.go

    The Prometheus collectors of the operator, with their names, types and
    labels, and the list that [init] registers.  The recorder (recorder.go),
    which needs the clock, is in [Kube].

    client_golang checks a collector when it is registered - the metric and
    label names are well formed, no label is reserved or repeated, no two
    collectors have the same name - and a series when it is used - one value
    per label - and panics otherwise.  [descriptor_ok] and [registry_ok] are
    the first of these checks, [WithLabelValues] in [Kube] is the second. *)

From S2P Require Import Prelude Go Effects.

(** ** Collectors *)

(** The vector types of the library. *)
Variant vec_type := CounterVec | GaugeVec | HistogramVec.

(** [prometheus.DefBuckets] is the only value the program uses. *)
Variant buckets := DefBuckets.

(** A collector with the options it was made from; a plain gauge has no
    labels. *)
Record Collector := {
  Name : string;
  Help : string;
  Vec : vec_type;
  Buckets : option buckets;
  Labels : list string
}.

#[global] Instance vec_type_eq_dec : EqDecision vec_type.
Proof. solve_decision. Defined.
#[global] Instance buckets_eq_dec : EqDecision buckets.
Proof. solve_decision. Defined.
#[global] Instance Collector_eq_dec : EqDecision Collector.
Proof. solve_decision. Defined.

Module prometheus.

Definition NewCounterVec (name help : string) (labels : list string) : Collector :=
  {| Name := name; Help := help; Vec := CounterVec; Buckets := None; Labels := labels |}.

Definition NewGaugeVec (name help : string) (labels : list string) : Collector :=
  {| Name := name; Help := help; Vec := GaugeVec; Buckets := None; Labels := labels |}.

Definition NewGauge (name help : string) : Collector := NewGaugeVec name help [].

Definition NewHistogramVec (name help : string) (b : buckets) (labels : list string) : Collector :=
  {| Name := name; Help := help; Vec := HistogramVec; Buckets := Some b; Labels := labels |}.

End prometheus.

Module metrics.
Import prometheus.

Definition ReconcileTotal : Collector :=
  NewCounterVec "redis_operator_reconcile_total" "Total number of reconciliation attempts."
    ["kind"; "result"].

Definition ReconcileDuration : Collector :=
  NewHistogramVec "redis_operator_reconcile_duration_seconds" "Duration of reconciliation loops in seconds."
    DefBuckets ["kind"].

Definition ReconcileErrors : Collector :=
  NewCounterVec "redis_operator_reconcile_errors_total" "Total number of reconciliation errors."
    ["kind"; "error_type"].

Definition ManagedClusters : Collector :=
  NewGauge "redis_operator_managed_clusters_total" "Total number of RedisCluster resources managed.".

Definition ManagedSentinels : Collector :=
  NewGauge "redis_operator_managed_sentinels_total" "Total number of RedisSentinel resources managed.".

Definition ManagedStandalone : Collector :=
  NewGauge "redis_operator_managed_standalone_total" "Total number of standalone Redis resources managed.".

Definition ClusterState : Collector :=
  NewGaugeVec "redis_cluster_state" "Redis cluster state: 1 = ok, 0 = fail." ["name"; "namespace"].

Definition ClusterAssignedSlots : Collector :=
  NewGaugeVec "redis_cluster_assigned_slots" "Number of hash slots assigned in the Redis cluster."
    ["name"; "namespace"].

Definition ClusterKnownNodes : Collector :=
  NewGaugeVec "redis_cluster_known_nodes" "Number of nodes known to the Redis cluster." ["name"; "namespace"].

Definition ClusterMasterCount : Collector :=
  NewGaugeVec "redis_cluster_master_count" "Number of master nodes in the Redis cluster." ["name"; "namespace"].

Definition ClusterReplicaCount : Collector :=
  NewGaugeVec "redis_cluster_replica_count" "Number of replica nodes in the Redis cluster." ["name"; "namespace"].

Definition ClusterScalingOperations : Collector :=
  NewCounterVec "redis_cluster_scaling_operations_total"
    "Total number of scaling operations performed on Redis clusters." ["name"; "namespace"; "direction"].

Definition ClusterScalingDuration : Collector :=
  NewHistogramVec "redis_cluster_scaling_duration_seconds" "Duration of cluster scaling operations in seconds."
    DefBuckets ["name"; "namespace"; "direction"].

Definition ClusterSlotMigrationTotal : Collector :=
  NewCounterVec "redis_cluster_slot_migration_total" "Total number of hash slot migrations performed."
    ["name"; "namespace"].

Definition ClusterSlotMigrationDuration : Collector :=
  NewHistogramVec "redis_cluster_slot_migration_duration_seconds"
    "Duration of hash slot migration operations in seconds." DefBuckets ["name"; "namespace"].

Definition ClusterFailoverTotal : Collector :=
  NewCounterVec "redis_cluster_failover_total" "Total number of failover events in Redis clusters."
    ["name"; "namespace"].

Definition ClusterFailoverDuration : Collector :=
  NewHistogramVec "redis_cluster_failover_duration_seconds" "Duration of failover operations in seconds."
    DefBuckets ["name"; "namespace"].

(** The arguments of [MustRegister] in [init]. *)
Definition registered : list Collector :=
  [ReconcileTotal; ReconcileDuration; ReconcileErrors; ManagedClusters; ManagedSentinels; ManagedStandalone;
   ClusterState; ClusterAssignedSlots; ClusterKnownNodes; ClusterMasterCount; ClusterReplicaCount;
   ClusterScalingOperations; ClusterScalingDuration; ClusterSlotMigrationTotal; ClusterSlotMigrationDuration;
   ClusterFailoverTotal; ClusterFailoverDuration].

End metrics.

(** ** What client_golang demands *)

Definition letter_ (c : ascii) : bool :=
  let n := N_of_ascii c in
  ((65 <=? n) && (n <=? 90) || (97 <=? n) && (n <=? 122) || (n =? 95))%N.

Definition digit (c : ascii) : bool := let n := N_of_ascii c in ((48 <=? n) && (n <=? 57))%N.

(** Every character of a string. *)
Fixpoint all_chars (p : ascii → bool) (s : string) : bool :=
  match s with EmptyString => true | String.String c s' => p c && all_chars p s' end.

(** [a-zA-Z_][a-zA-Z0-9_]*, the names of labels and (without the colons of
    recording rules) of metrics. *)
Definition identifier (s : string) : bool :=
  match s with
  | EmptyString => false
  | String.String c s' => letter_ c && all_chars (λ c, letter_ c || digit c) s'
  end.

(** A label the library reserves: those that begin with two underscores, and
    [le] in a histogram. *)
Definition reserved (ty : vec_type) (l : string) : bool :=
  String.prefix "__" l || (bool_decide (ty = HistogramVec) && String.eqb l "le").

Definition descriptor_ok (c : Collector) : bool :=
  identifier (Name c)
  && forallb (λ l, identifier l && negb (reserved (Vec c) l)) (Labels c)
  && bool_decide (NoDup (Labels c))
  && bool_decide (is_Some (Buckets c) ↔ Vec c = HistogramVec).

(** The series that a collector exports; a histogram exports three. *)
Definition exported (c : Collector) : list string :=
  match Vec c with
  | HistogramVec => [Name c +:+ "_bucket"; Name c +:+ "_sum"; Name c +:+ "_count"]
  | _ => [Name c]
  end.

Definition registry_ok (cs : list Collector) : bool :=
  forallb descriptor_ok cs && bool_decide (NoDup (cs ≫= exported)).

(** ** Series *)

(** Operations on one series of a collector; a duration is in nanoseconds. *)
Inductive metric_op :=
| CounterInc (c : Collector) (labels : list string)
| GaugeSet (c : Collector) (labels : list string) (value : Z)
| HistogramObserve (c : Collector) (labels : list string) (duration : Z)
| SeriesDelete (c : Collector) (labels : list string).

Definition metric_of (o : metric_op) : Collector :=
  match o with CounterInc c _ | GaugeSet c _ _ | HistogramObserve c _ _ | SeriesDelete c _ => c end.

Definition labels_of (o : metric_op) : list string :=
  match o with CounterInc _ l | GaugeSet _ l _ | HistogramObserve _ l _ | SeriesDelete _ l => l end.

(** The vector an operation is a method of; every vector can delete. *)
Definition vec_of (o : metric_op) : option vec_type :=
  match o with
  | CounterInc _ _ => Some CounterVec
  | GaugeSet _ _ _ => Some GaugeVec
  | HistogramObserve _ _ _ => Some HistogramVec
  | SeriesDelete _ _ => None
  end.

(** An operation on a registered collector of its type, with one value per
    label. *)
Definition metric_typed (o : metric_op) : bool :=
  bool_decide (metric_of o ∈ metrics.registered)
  && match vec_of o with Some ty => bool_decide (Vec (metric_of o) = ty) | None => true end
  && Nat.eqb (length (labels_of o)) (length (Labels (metric_of o))).

(** ** The exported gauges *)

(** The value of every gauge series that is exported. *)
Abbreviation gauges := (gmap (string * list string) Z).

Definition gauge_step (g : gauges) (o : metric_op) : gauges :=
  match o with
  | GaugeSet c l v => <[(Name c, l) := v]> g
  | SeriesDelete c l => delete (Name c, l) g
  | _ => g
  end.

Definition gauges_after (g : gauges) (os : list metric_op) : gauges := fold_left gauge_step os g.

Lemma gauges_after_app g os1 os2 : gauges_after g (os1 ++ os2) = gauges_after (gauges_after g os1) os2.
Proof. apply fold_left_app. Qed.

(** Operations on other series leave a series alone. *)
Lemma gauges_after_other g os (s : string * list string) :
  Forall (λ o, (Name (metric_of o), labels_of o) ≠ s) os → gauges_after g os !! s = g !! s.
Proof.
  intros H. revert g. induction H as [|o os Ho _ IH]; intros g; [done|].
  simpl. rewrite IH.
  destruct o; simpl in *; [done|by apply lookup_insert_ne|done|by apply lookup_delete_ne].
Qed.
