(* ===== verification/Kube.v ===== *)
(** * The environment of internal/controller

    What the reconcilers call: the Kubernetes API client, the event recorder,
    the Prometheus registry, the clock, the Redis client and the cluster
    manager, as one call signature.  The functions of controller-runtime and
    apimachinery on plain data are the parameters gathered in [KubeLib], with
    their documented behaviour in [KubeLaws]. *)

From S2P Require Import Prelude Go Effects Client Sys Cluster Api Resources Workloads Metrics.

Local Open Scope Z_scope.

(** ** Library functions *)

Class KubeLib := {
  (** [errors.IsNotFound] *)
  IsNotFound : error → bool;
  (** [controllerutil]: finalizers of an object *)
  ContainsFinalizer : list string → string → bool;
  AddFinalizer : list string → string → list string;
  RemoveFinalizer : list string → string → list string;
  (** [meta.SetStatusCondition] *)
  SetStatusCondition : list Condition → Condition → list Condition
}.

Class KubeLaws `{L : KubeLib} := {
  add_contains l f : ContainsFinalizer (AddFinalizer l f) f = true;
  remove_contains l f : ContainsFinalizer (RemoveFinalizer l f) f = false;
  remove_others l f g : g ≠ f → ContainsFinalizer (RemoveFinalizer l f) g = ContainsFinalizer l g;
  (** the list holds one condition of the type that was set, with the new
      status, reason, message and generation, and keeps the other types *)
  set_condition l c :
    ∃ t, filter (λ c', cond_Type c' = cond_Type c) (SetStatusCondition l c)
         = [{| cond_Type := cond_Type c; cond_Status := cond_Status c;
               cond_ObservedGeneration := cond_ObservedGeneration c; cond_LastTransitionTime := t;
               cond_Reason := cond_Reason c; cond_Message := cond_Message c |}];
  set_condition_others l c ty :
    ty ≠ cond_Type c →
    filter (λ c', cond_Type c' = ty) (SetStatusCondition l c) = filter (λ c', cond_Type c' = ty) l
}.

(** ** internal/redis as the controllers see it *)

Module ClusterManager.

Inductive method : Type :=
| FormCluster (masterAddrs replicaAddrs : list string) (replicasPerMaster : Z)
| AssignSlotsEvenly (masterAddrs : list string)
| MigrateSlot (sourceAddr destAddr : string) (slot : Z)
| MigrateSlotsRange (sourceAddr destAddr : string) (startSlot endSlot : Z)
| RebalanceSlots (masterAddrs : list string)
| AddMaster (existingAddr newAddr : string)
| RemoveMaster (clusterAddr removeAddr : string)
| AddReplica (replicaAddr masterAddr : string)
| RemoveReplica (clusterAddr replicaAddr : string)
| GetClusterState (addr : string)
| WaitForClusterReady (addr : string) (timeout : Z)
| VerifySlotCoverage (addr : string).

Definition reply (m : method) : Type :=
  match m with
  | GetClusterState _ => result ClusterState
  | VerifySlotCoverage _ => result bool
  | _ => result unit
  end.

(** [NewClusterManager]: every method of the interface by its implementation
    in cluster.go. *)
Definition implementation (fuel : nat) (m : method) : prog SysSig (reply m) :=
  match m with
  | FormCluster ms rs n => Cluster.FormCluster fuel ms rs n
  | AssignSlotsEvenly ms => Cluster.AssignSlotsEvenly ms
  | MigrateSlot src dst slot => Cluster.MigrateSlot fuel src dst slot
  | MigrateSlotsRange src dst s e => Cluster.MigrateSlotsRange fuel src dst s e
  | RebalanceSlots ms => Cluster.RebalanceSlots fuel ms
  | AddMaster a b => Cluster.AddMaster a b
  | RemoveMaster a b => Cluster.RemoveMaster a b
  | AddReplica a b => Cluster.AddReplica a b
  | RemoveReplica a b => Cluster.RemoveReplica a b
  | GetClusterState a => Cluster.GetClusterState a
  | WaitForClusterReady a t => Cluster.WaitForClusterReady fuel a t
  | VerifySlotCoverage a => Cluster.VerifySlotCoverage a
  end.

End ClusterManager.

(** ** The API server *)

(** [client.ObjectKey]: namespace and name. *)
Record ObjectKey := { key_Namespace : string; key_Name : string }.

Section kube.
Context {K : KubeTypes}.

Record Pod := {
  pod_meta : ObjectMeta;
  pod_PodIP : string;
  pod_Conditions : list (string * ConditionStatus)
}.

(** The kinds the controllers create and own. *)
Inductive owned := OConfigMap | OService | OStatefulSet | ODeployment | OBudget | OServiceMonitor.

Definition owned_type (k : owned) : Type :=
  match k with
  | OConfigMap => ConfigMap
  | OService => Service
  | OStatefulSet => StatefulSet
  | ODeployment => Deployment
  | OBudget => PodDisruptionBudget
  | OServiceMonitor => ServiceMonitor
  end.

(** The custom resources. *)
Inductive custom := CRedis | CSentinel | CCluster.

Definition custom_type (k : custom) : Type :=
  match k with CRedis => Redis | CSentinel => RedisSentinel | CCluster => RedisCluster end.

Inductive kube_op : Type :=
(** [client.Client]; a call that sends an object answers with the object as
    the server returns it, which replaces the one that was sent *)
| Get (k : custom) (key : ObjectKey)
| Update (k : custom) (obj : custom_type k)
| StatusUpdate (k : custom) (obj : custom_type k)
| PatchCluster (before after : RedisCluster)
| PatchPod (before after : Pod)
| ListPods (namespace : string) (labels : gmap string string)
| ListClaims (namespace : string) (labels : gmap string string)
| GetClaim (key : ObjectKey)
| GetSecret (key : ObjectKey)
| DeleteClaim (pvc : PersistentVolumeClaim)
(** [controllerutil.CreateOrUpdate] of the object of that kind, name and
    namespace with a mutate function *)
| CreateOrUpdate (k : owned) (key : ObjectKey) (mutate : owned_type k → result (owned_type k))
(** [record.EventRecorder] *)
| Event (eventType reason message : string)
| Metric (m : metric_op)
| TimeNow
| RangeMap (ks : list string)
| RedisCall (m : RedisClient.method)
| ManagerCall (m : ClusterManager.method).

Definition kube_ans (o : kube_op) : Type :=
  match o with
  | Get k _ | Update k _ | StatusUpdate k _ => result (custom_type k)
  | PatchCluster _ _ => result RedisCluster
  | PatchPod _ _ => result Pod
  | ListPods _ _ => result (list Pod)
  | ListClaims _ _ => result (list PersistentVolumeClaim)
  | GetClaim _ => result PersistentVolumeClaim
  | GetSecret _ | DeleteClaim _ | CreateOrUpdate _ _ _ => result unit
  | Event _ _ _ | Metric _ => unit
  | TimeNow => Z
  | RangeMap ks => {l : list string | l ≡ₚ ks}
  | RedisCall m => RedisClient.reply m
  | ManagerCall m => ClusterManager.reply m
  end.

Definition KubeSig : sig := {| op := kube_op; ans := kube_ans |}.

Definition kcall (o : kube_op) : prog KubeSig (kube_ans o) := Call (S := KubeSig) o Ret.

Definition event (eventType reason message : string) : prog KubeSig unit :=
  kcall (Event eventType reason message).

Definition krange {V} (m : gmap string V) : prog KubeSig (list string) :=
  Call (S := KubeSig) (RangeMap (keys m)) (λ r, Ret (`r)).

(** ** Results of a reconciliation *)

(** [ctrl.Result] *)
Record Result := { res_Requeue : bool; res_RequeueAfter : Z }.

Definition noResult : Result := {| res_Requeue := false; res_RequeueAfter := 0 |}.
Definition requeue : Result := {| res_Requeue := true; res_RequeueAfter := 0 |}.
Definition requeueAfter (d : Z) : Result := {| res_Requeue := false; res_RequeueAfter := d |}.

(** What [Reconcile] returns. *)
Definition outcome_of : Type := Result * option error.

(** [if err := p; err != nil { return ctrl.Result{}, err }] *)
Definition or_return {A} (k : A → prog KubeSig outcome_of) (p : prog KubeSig (result A))
  : prog KubeSig outcome_of :=
  prog_bind (λ r, match r with Ok a => k a | Fail e => Ret (noResult, Some e) end) p.

(** ** Metadata *)

Definition with_labels (labels : gmap string string) (m : ObjectMeta) : ObjectMeta :=
  {| om_Name := om_Name m; om_Namespace := om_Namespace m; om_Labels := labels;
     om_Annotations := om_Annotations m; om_Generation := om_Generation m;
     om_CreationTimestamp := om_CreationTimestamp m; om_DeletionTimestamp := om_DeletionTimestamp m;
     om_Finalizers := om_Finalizers m; om_Rest := om_Rest m |}.

Definition with_finalizers (fs : list string) (m : ObjectMeta) : ObjectMeta :=
  {| om_Name := om_Name m; om_Namespace := om_Namespace m; om_Labels := om_Labels m;
     om_Annotations := om_Annotations m; om_Generation := om_Generation m;
     om_CreationTimestamp := om_CreationTimestamp m; om_DeletionTimestamp := om_DeletionTimestamp m;
     om_Finalizers := fs; om_Rest := om_Rest m |}.

(** The owner of the objects a reconciler creates: kind and metadata of the
    custom resource. *)
Record Owner := { ow_Kind : string; ow_meta : ObjectMeta }.

(** [ctrl.SetControllerReference(owner, existing, scheme)] *)
Definition own (o : Owner) (m : ObjectMeta) : result ObjectMeta :=
  match SetControllerReference (ow_Kind o) (om_Name (ow_meta o)) (om_Rest (ow_meta o)) (om_Rest m) with
  | Fail e => Fail e
  | Ok rest =>
      Ok {| om_Name := om_Name m; om_Namespace := om_Namespace m; om_Labels := om_Labels m;
            om_Annotations := om_Annotations m; om_Generation := om_Generation m;
            om_CreationTimestamp := om_CreationTimestamp m; om_DeletionTimestamp := om_DeletionTimestamp m;
            om_Finalizers := om_Finalizers m; om_Rest := rest |}
  end.

Definition key_of (m : ObjectMeta) : ObjectKey :=
  {| key_Namespace := om_Namespace m; key_Name := om_Name m |}.

Definition result_map {A B} (f : A → B) (r : result A) : result B :=
  match r with Ok a => Ok (f a) | Fail e => Fail e end.

(** ** The mutate functions of the reconcilers *)

Definition isNew (m : ObjectMeta) : bool := bool_decide (om_CreationTimestamp m = None).

Definition mutateConfigMap (o : Owner) (desired existing : ConfigMap) : result ConfigMap :=
  result_map (λ m, {| cm_meta := m; cm_Data := cm_Data desired |})
    (own o (with_labels (om_Labels (cm_meta desired)) (cm_meta existing))).

(** The spec of a Service after the mutation: complete on creation; on update
    the selector, the ports and, if [publish], [PublishNotReadyAddresses]. *)
Definition mutateServiceSpec (publish : bool) (fresh : bool) (desired existing : ServiceSpec) : ServiceSpec :=
  if fresh then desired
  else {| svc_Type := svc_Type existing; svc_ClusterIP := svc_ClusterIP existing;
          svc_Selector := svc_Selector desired; svc_Ports := svc_Ports desired;
          svc_PublishNotReadyAddresses :=
            if publish then svc_PublishNotReadyAddresses desired else svc_PublishNotReadyAddresses existing;
          svc_Rest := svc_Rest existing |}.

(** Services with their annotations (headless and sentinel services). *)
Definition mutateService (o : Owner) (desired existing : Service) : result Service :=
  result_map (λ m, {| svc_meta := m;
                      svc_Spec := mutateServiceSpec true (isNew (svc_meta existing))
                                    (svc_Spec desired) (svc_Spec existing) |})
    (own o (with_annotations (om_Annotations (svc_meta desired))
              (with_labels (om_Labels (svc_meta desired)) (svc_meta existing)))).

(** The client Service of a standalone instance, which keeps its annotations. *)
Definition mutateClientService (o : Owner) (desired existing : Service) : result Service :=
  result_map (λ m, {| svc_meta := m;
                      svc_Spec := mutateServiceSpec false (isNew (svc_meta existing))
                                    (svc_Spec desired) (svc_Spec existing) |})
    (own o (with_labels (om_Labels (svc_meta desired)) (svc_meta existing))).

Definition mutateStatefulSetSpec (fresh : bool) (desired existing : StatefulSetSpec) : StatefulSetSpec :=
  if fresh then desired
  else {| sts_Replicas := sts_Replicas desired; sts_ServiceName := sts_ServiceName existing;
          sts_Selector := sts_Selector existing; sts_Template := sts_Template desired;
          sts_VolumeClaimTemplates := sts_VolumeClaimTemplates existing; sts_Rest := sts_Rest existing |}.

Definition mutateStatefulSet (o : Owner) (desired existing : StatefulSet) : result StatefulSet :=
  result_map (λ m, {| sts_meta := m;
                      sts_Spec := mutateStatefulSetSpec (isNew (sts_meta existing))
                                    (sts_Spec desired) (sts_Spec existing) |})
    (own o (with_labels (om_Labels (sts_meta desired)) (sts_meta existing))).

Definition mutateDeployment (o : Owner) (desired existing : Deployment) : result Deployment :=
  result_map (λ m, {| dep_meta := m;
                      dep_Spec :=
                        if isNew (dep_meta existing) then dep_Spec desired
                        else {| dep_Replicas := dep_Replicas (dep_Spec desired);
                                dep_Selector := dep_Selector (dep_Spec existing);
                                dep_Template := dep_Template (dep_Spec desired);
                                dep_Rest := dep_Rest (dep_Spec existing) |} |})
    (own o (with_labels (om_Labels (dep_meta desired)) (dep_meta existing))).

Definition mutatePDB (o : Owner) (desired existing : PodDisruptionBudget) : result PodDisruptionBudget :=
  result_map (λ m, {| pdb_meta := m; pdb_MaxUnavailable := pdb_MaxUnavailable desired;
                      pdb_Selector := pdb_Selector desired |})
    (own o (with_labels (om_Labels (pdb_meta desired)) (pdb_meta existing))).

Definition mutateServiceMonitor (o : Owner) (desired existing : ServiceMonitor) : result ServiceMonitor :=
  result_map (λ m, {| sm_meta := m; sm_Selector := sm_Selector desired; sm_Endpoints := sm_Endpoints desired |})
    (own o (with_labels (om_Labels (sm_meta desired)) (sm_meta existing))).

(** [desired.Spec.Template.Annotations[key] = value] *)
Definition annotateTemplate (k v : string) (t : PodTemplate) : PodTemplate :=
  {| pt_Labels := pt_Labels t; pt_Annotations := <[k := v]> (pt_Annotations t); pt_Spec := pt_Spec t |}.

Definition configHashAnnotation : string := "redis.example.com/config-hash".
Definition lastConfigHashAnnotation : string := "redis.example.com/last-config-hash".

Definition annotateStatefulSet (hash : string) (s : StatefulSet) : StatefulSet :=
  {| sts_meta := sts_meta s;
     sts_Spec := {| sts_Replicas := sts_Replicas (sts_Spec s); sts_ServiceName := sts_ServiceName (sts_Spec s);
                    sts_Selector := sts_Selector (sts_Spec s);
                    sts_Template := annotateTemplate configHashAnnotation hash (sts_Template (sts_Spec s));
                    sts_VolumeClaimTemplates := sts_VolumeClaimTemplates (sts_Spec s);
                    sts_Rest := sts_Rest (sts_Spec s) |} |}.

Definition annotateDeployment (hash : string) (d : Deployment) : Deployment :=
  {| dep_meta := dep_meta d;
     dep_Spec := {| dep_Replicas := dep_Replicas (dep_Spec d); dep_Selector := dep_Selector (dep_Spec d);
                    dep_Template := annotateTemplate configHashAnnotation hash (dep_Template (dep_Spec d));
                    dep_Rest := dep_Rest (dep_Spec d) |} |}.

(** ** Reconciliation of one owned object *)

Definition applyConfigMap (o : Owner) (desired : ConfigMap) : prog KubeSig (result unit) :=
  kcall (CreateOrUpdate OConfigMap (key_of (cm_meta desired)) (mutateConfigMap o desired)).
Definition applyService (o : Owner) (desired : Service) : prog KubeSig (result unit) :=
  kcall (CreateOrUpdate OService (key_of (svc_meta desired)) (mutateService o desired)).
Definition applyClientService (o : Owner) (desired : Service) : prog KubeSig (result unit) :=
  kcall (CreateOrUpdate OService (key_of (svc_meta desired)) (mutateClientService o desired)).
Definition applyStatefulSet (o : Owner) (desired : StatefulSet) : prog KubeSig (result unit) :=
  kcall (CreateOrUpdate OStatefulSet (key_of (sts_meta desired)) (mutateStatefulSet o desired)).
Definition applyDeployment (o : Owner) (desired : Deployment) : prog KubeSig (result unit) :=
  kcall (CreateOrUpdate ODeployment (key_of (dep_meta desired)) (mutateDeployment o desired)).
Definition applyPDB (o : Owner) (desired : PodDisruptionBudget) : prog KubeSig (result unit) :=
  kcall (CreateOrUpdate OBudget (key_of (pdb_meta desired)) (mutatePDB o desired)).
Definition applyServiceMonitor (o : Owner) (desired : ServiceMonitor) : prog KubeSig (result unit) :=
  kcall (CreateOrUpdate OServiceMonitor (key_of (sm_meta desired)) (mutateServiceMonitor o desired)).

(** ** Pods *)

(** The [PodReady] conditions that are true, over all pods of the list. *)
Definition countReadyPods (pods : list Pod) : Z :=
  fold_left (λ count p, fold_left (λ count c,
      if String.eqb c.1 "Ready" && bool_decide (c.2 = ConditionTrue) then count + 1 else count)
    (pod_Conditions p) count) pods 0.

Definition boolConditionStatus (ok : bool) : ConditionStatus := if ok then ConditionTrue else ConditionFalse.

(** Config parameters that CONFIG SET may change at run time. *)
Definition hotReloadableParams : list string :=
  ["maxmemory"; "maxmemory-policy"; "hz"; "loglevel"; "save"; "timeout"; "tcp-keepalive";
   "slowlog-log-slower-than"; "slowlog-max-len"].

Definition hotReloadable (k : string) : bool := existsb (String.eqb k) hotReloadableParams.

(** CONFIG SET of the hot-reloadable parameters on one address, in the order
    the map is ranged over; errors are only logged. *)
Definition pushConfig (addr : string) (config : gmap string string) : prog KubeSig unit :=
  ks ← krange config;
  do_each ks (λ k,
    if hotReloadable k
    then _ ← kcall (RedisCall (RedisClient.ConfigSet addr k (default "" (config !! k)))); mret tt
    else mret tt).

(** ** internal/metrics/recorder.go *)

Definition KindRedis : string := "Redis".
Definition KindSentinel : string := "RedisSentinel".
Definition KindCluster : string := "RedisCluster".

(** What the library panics with. *)
Definition cardinality : string := "inconsistent label cardinality".

(** [vec.WithLabelValues(lvs...)], followed by a method of the series it
    returns: it panics unless there is one value per label. *)
Definition WithLabelValues (vec : Collector) (lvs : list string) (method : prog KubeSig unit) : prog KubeSig unit :=
  if Nat.eqb (length lvs) (length (Labels vec)) then method else panic cardinality.

Definition Inc (vec : Collector) (lvs : list string) : prog KubeSig unit :=
  WithLabelValues vec lvs (kcall (Metric (CounterInc vec lvs))).

Definition Set_ (vec : Collector) (lvs : list string) (v : Z) : prog KubeSig unit :=
  WithLabelValues vec lvs (kcall (Metric (GaugeSet vec lvs v))).

(** [Observe(time.Since(start).Seconds())], in nanoseconds. *)
Definition ObserveSince (vec : Collector) (lvs : list string) (start : Z) : prog KubeSig unit :=
  WithLabelValues vec lvs (t ← kcall TimeNow; kcall (Metric (HistogramObserve vec lvs (t - start)))).

(** [vec.DeleteLabelValues(lvs...)] does not panic: without one value per
    label it finds no series. *)
Definition DeleteLabelValues (vec : Collector) (lvs : list string) : prog KubeSig unit :=
  kcall (Metric (SeriesDelete vec lvs)).

Definition RecordReconcile (kind : string) (start : Z) (err : option error) : prog KubeSig unit :=
  result ← match err with
           | Some _ => _ ← Inc metrics.ReconcileErrors [kind; "error"]; mret "error"
           | None => mret "success"
           end;
  _ ← Inc metrics.ReconcileTotal [kind; result];
  ObserveSince metrics.ReconcileDuration [kind] start.

Definition SetClusterMetrics (name namespace state : string) (slots nodes masters replicas : Z)
  : prog KubeSig unit :=
  let healthy := if String.eqb state "ok" then 1 else 0 in
  _ ← Set_ metrics.ClusterState [name; namespace] healthy;
  _ ← Set_ metrics.ClusterAssignedSlots [name; namespace] slots;
  _ ← Set_ metrics.ClusterKnownNodes [name; namespace] nodes;
  _ ← Set_ metrics.ClusterMasterCount [name; namespace] masters;
  Set_ metrics.ClusterReplicaCount [name; namespace] replicas.

Definition RecordClusterScaling (name namespace direction : string) (start : Z) : prog KubeSig unit :=
  _ ← Inc metrics.ClusterScalingOperations [name; namespace; direction];
  ObserveSince metrics.ClusterScalingDuration [name; namespace; direction] start.

Definition RecordClusterFailover (name namespace : string) : prog KubeSig unit :=
  Inc metrics.ClusterFailoverTotal [name; namespace].

Definition DeleteClusterMetrics (name namespace : string) : prog KubeSig unit :=
  _ ← DeleteLabelValues metrics.ClusterState [name; namespace];
  _ ← DeleteLabelValues metrics.ClusterAssignedSlots [name; namespace];
  _ ← DeleteLabelValues metrics.ClusterKnownNodes [name; namespace];
  _ ← DeleteLabelValues metrics.ClusterMasterCount [name; namespace];
  DeleteLabelValues metrics.ClusterReplicaCount [name; namespace].

(** [Reconcile]: the entry point of the three reconcilers. *)
Definition reconcileWith (kind : string) (doReconcile : ObjectKey → prog KubeSig outcome_of) (req : ObjectKey)
  : prog KubeSig outcome_of :=
  start ← kcall TimeNow;
  r ← doReconcile req;
  _ ← RecordReconcile kind start r.2;
  mret r.

End kube.

Notation "x '←!' p ; k" := (or_return (λ x, k) p)
  (at level 20, p at level 100, k at level 200, only parsing) : go_scope.
