(* ===== verification/ApiServer.v ===== *)
(** * A concrete API server and cluster

    Concrete instances of the library parameters of [Kube] - finalizers and
    conditions as lists - with their laws, and a handler of the reconcilers'
    calls that serves fixed objects: the environment in which the witnesses
    of the controllers' theorems run. *)

From S2P Require Import Prelude Go Effects Client Sys Cluster Api Resources Workloads Kube Webhook.

Local Open Scope Z_scope.

(** ** The library functions *)

Definition has (l : list string) (f : string) : bool := existsb (String.eqb f) l.

Definition restamp (t : Z) (c : Condition) : Condition :=
  {| cond_Type := cond_Type c; cond_Status := cond_Status c; cond_ObservedGeneration := cond_ObservedGeneration c;
     cond_LastTransitionTime := t; cond_Reason := cond_Reason c; cond_Message := cond_Message c |}.

#[export] Instance plain_lib : KubeLib := {|
  IsNotFound e := match e with ApiStatus r _ => String.eqb r "NotFound" | _ => false end;
  ContainsFinalizer := has;
  AddFinalizer l f := if has l f then l else l ++ [f];
  RemoveFinalizer l f := filter (λ g, g ≠ f) l;
  (* the transition time stays while the status does *)
  SetStatusCondition l c :=
    let old := head (filter (λ c', cond_Type c' = cond_Type c) l) in
    let t := match old with
             | Some o => if bool_decide (cond_Status o = cond_Status c) then cond_LastTransitionTime o
                         else cond_LastTransitionTime c
             | None => cond_LastTransitionTime c
             end in
    filter (λ c', cond_Type c' ≠ cond_Type c) l ++ [restamp t c]
|}.

Lemma has_elem l f : has l f = true ↔ f ∈ l.
Proof.
  unfold has. rewrite existsb_exists. split.
  - intros (x & Hx & ->%String.eqb_eq). by apply list_elem_of_In.
  - intros Hf. exists f. split; [by apply list_elem_of_In|apply String.eqb_refl].
Qed.

Lemma filter_others (ty : string) l : filter (λ c, cond_Type c = ty) (filter (λ c, cond_Type c ≠ ty) l) = [].
Proof.
  induction l as [|c l IH]; [done|]. destruct (decide (cond_Type c = ty)).
  - rewrite (filter_cons_False (λ c, cond_Type c ≠ ty)) by naive_solver. exact IH.
  - by rewrite (filter_cons_True (λ c, cond_Type c ≠ ty)), filter_cons_False by done.
Qed.

#[export] Instance plain_laws : KubeLaws.
Proof.
  split; cbn [ContainsFinalizer AddFinalizer RemoveFinalizer SetStatusCondition plain_lib].
  - intros l f. destruct (has l f) eqn:E; [done|]. apply has_elem. set_solver.
  - intros l f. apply not_true_iff_false. rewrite has_elem, list_elem_of_filter. naive_solver.
  - intros l f g Hne. apply eq_true_iff_eq. rewrite !has_elem, list_elem_of_filter. naive_solver.
  - intros l c. eexists. rewrite filter_app, filter_others, filter_cons_True, filter_nil by done. done.
  - intros l c ty Hne. rewrite filter_app, list_filter_filter, filter_cons_False, filter_nil, app_nil_r by done.
    apply list_filter_iff. naive_solver.
Qed.

(** ** The server *)

#[local] Existing Instance plain_types.

Record server := {
  sv_redis : result Redis;
  sv_sentinel : result RedisSentinel;
  sv_cluster : result RedisCluster;
  sv_state : result ClusterState;
  sv_pods : list Pod;
  sv_claims : list PersistentVolumeClaim
}.

(** Every write succeeds, a list answers with the fixed items, and Redis
    answers like [agreeable]. *)
Definition apiserver : handler KubeSig server := λ o w,
  (match o return kube_ans o with
   | Get k _ => match k return result (custom_type k) with
                | CRedis => sv_redis w
                | CSentinel => sv_sentinel w
                | CCluster => sv_cluster w
                end
   | Update k obj | StatusUpdate k obj => Ok obj
   | PatchCluster _ after => Ok after
   | PatchPod _ after => Ok after
   | ListPods _ _ => Ok (sv_pods w)
   | ListClaims _ _ => Ok (sv_claims w)
   | GetClaim _ => match sv_claims w with c :: _ => Ok c | [] => Fail (ApiStatus "NotFound" "") end
   | GetSecret _ | DeleteClaim _ | CreateOrUpdate _ _ _ => Ok tt
   | Event _ _ _ | Metric _ => tt
   | TimeNow => 0
   | RangeMap ks => exist _ ks (Permutation_refl ks)
   | RedisCall m => fst (agreeable m tt)
   | ManagerCall m => match m return ClusterManager.reply m with
                      | ClusterManager.GetClusterState _ => sv_state w
                      | ClusterManager.VerifySlotCoverage _ => Ok true
                      | _ => Ok tt
                      end
   end, w).

Definition ready_pod (name ip role : string) : Pod :=
  {| pod_meta := meta name "default" {[ RoleLabelKey := role ]}; pod_PodIP := ip;
     pod_Conditions := [("Ready", ConditionTrue)] |}.

(** A cluster resource with the finalizer, in some phase. *)
Definition live_cluster (masters rpm : Z) (phase : string) : RedisCluster :=
  let rc := sample_cluster masters rpm None phase in
  {| cluster_meta := with_finalizers [FinalizerName] (cluster_meta rc);
     cluster_Spec := cluster_Spec rc; cluster_Status := cluster_Status rc |}.

(** A cluster that works, of a given size. *)
Definition cluster_of_size (n : Z) : ClusterState :=
  {| cs_State := "ok"; cs_SlotsAssigned := 16384; cs_SlotsOK := 16384; cs_SlotsPFail := 0;
     cs_SlotsFail := 0; cs_KnownNodes := n; cs_Size := n; cs_Nodes := sample_nodes |}.

Definition serving (rc : RedisCluster) (state : result ClusterState) : server :=
  {| sv_redis := Ok (sample_redis None); sv_sentinel := Ok (sample_sentinel 3 3 None); sv_cluster := Ok rc;
     sv_state := state;
     sv_pods := [ready_pod "rc-0" "10.0.0.1" "master"; ready_pod "rc-1" "10.0.0.2" "replica";
                 ready_pod "rc-2" "10.0.0.3" "replica"; ready_pod "rc-3" "10.0.0.4" "replica"];
     sv_claims := [] |}.
