(* ===== verification/RedisCtrl.v ===== *)
(** * internal/controller/redis_controller.go

    The reconciler of standalone instances.  [hasClient] tells whether its
    [RedisClient] field is set. *)

From S2P Require Import Prelude Go Effects Client Api Resources Workloads Sha256 Kube.

Local Open Scope Z_scope.

Definition conditionReady : string := "Ready".
Definition reasonReady : string := "Ready".
Definition reasonReconciling : string := "Reconciling".

Section redis.
Context {K : KubeTypes} {L : KubeLib}.
Context (hasClient : bool).

Definition redisOwner (r : Redis) : Owner := {| ow_Kind := "Redis"; ow_meta := redis_meta r |}.

(** ** The object with one part replaced *)

Definition redis_with_meta (m : ObjectMeta) (r : Redis) : Redis :=
  {| redis_meta := m; redis_Spec := redis_Spec r; redis_Status := redis_Status r |}.

Definition redis_with_status (s : RedisStatus) (r : Redis) : Redis :=
  {| redis_meta := redis_meta r; redis_Spec := redis_Spec r; redis_Status := s |}.

Definition redis_status (phase : string) (conditions : list Condition) (ready : Z) (s : RedisStatus) : RedisStatus :=
  {| rst_Phase := phase; rst_Message := rst_Message s; rst_Conditions := conditions;
     rst_RedisVersion := rst_RedisVersion s; rst_ReadyReplicas := ready |}.

(** [Status.Phase = phase] *)
Definition redis_phase (phase : string) (r : Redis) : Redis :=
  redis_with_status (redis_status phase (rst_Conditions (redis_Status r)) (rst_ReadyReplicas (redis_Status r))
                       (redis_Status r)) r.

(** ** Status *)

Definition setFailedStatus (r : Redis) (reason msg : string) : prog KubeSig unit :=
  t ← kcall TimeNow;
  let cond := {| cond_Type := conditionReady; cond_Status := ConditionFalse;
                 cond_ObservedGeneration := om_Generation (redis_meta r); cond_LastTransitionTime := t;
                 cond_Reason := reason; cond_Message := msg |} in
  _ ← kcall (StatusUpdate CRedis
        (redis_with_status
           (redis_status PhaseFailed (SetStatusCondition (rst_Conditions (redis_Status r)) cond)
              (rst_ReadyReplicas (redis_Status r)) (redis_Status r)) r));
  mret tt.

(** The status that [updateStatus] writes for a number of ready pods. *)
Definition redisStatusFor (readyCount t : Z) (r : Redis) : Redis :=
  let s := redis_Status r in
  let ready := 0 <? readyCount in
  let cond :=
    {| cond_Type := conditionReady; cond_Status := boolConditionStatus ready;
       cond_ObservedGeneration := om_Generation (redis_meta r); cond_LastTransitionTime := t;
       cond_Reason := if ready then reasonReady else reasonReconciling;
       cond_Message := if ready then itoa readyCount +:+ "/1 pods ready"
                       else "waiting for pods to become ready" |} in
  let phase := if ready then PhaseReady
               else if negb (String.eqb (rst_Phase s) PhaseFailed) then PhaseInitializing
               else rst_Phase s in
  redis_with_status (redis_status phase (SetStatusCondition (rst_Conditions s) cond) readyCount s) r.

Definition updateStatus (r : Redis) : prog KubeSig (result unit) :=
  pods ←? kcall (ListPods (om_Namespace (redis_meta r)) (PodLabels (om_Name (redis_meta r)) ComponentRedis));
  t ← kcall TimeNow;
  _ ←? kcall (StatusUpdate CRedis (redisStatusFor (wrap32 (countReadyPods pods)) t r));
  mret (Ok tt).

(** ** Owned objects *)

Definition reconcileConfigMap (r : Redis) : prog KubeSig (result string) :=
  let desired := BuildRedisConfigMap r in
  _ ←? applyConfigMap (redisOwner r) desired;
  mret (Ok (configDataHash (cm_Data desired))).

Definition reconcileHeadlessService (r : Redis) : prog KubeSig (result unit) :=
  applyService (redisOwner r)
    (BuildHeadlessService (om_Name (redis_meta r)) (om_Namespace (redis_meta r)) ComponentRedis).

Definition reconcileStatefulSet (r : Redis) (configHash : string) : prog KubeSig (result unit) :=
  applyStatefulSet (redisOwner r) (annotateStatefulSet configHash (BuildRedisStatefulSet r)).

Definition reconcileDeployment (r : Redis) (configHash : string) : prog KubeSig (result unit) :=
  applyDeployment (redisOwner r) (annotateDeployment configHash (BuildRedisDeployment r)).

Definition reconcileService (r : Redis) : prog KubeSig (result unit) :=
  applyClientService (redisOwner r) (BuildRedisService r).

Definition reconcileServiceMonitor (r : Redis) : prog KubeSig (result unit) :=
  applyServiceMonitor (redisOwner r) (BuildRedisServiceMonitor r).

(** ** Hot reload *)

Definition redisAddr (r : Redis) : string :=
  om_Name (redis_meta r) +:+ "." +:+ om_Namespace (redis_meta r) +:+ ".svc.cluster.local:" +:+ itoa RedisPort.

Definition tryHotReload (r : Redis) : prog KubeSig unit :=
  match hasClient, r_RedisConfig (redis_Spec r) with
  | true, Some config =>
      secret ← match r_Auth (redis_Spec r) with
               | Some auth => kcall (GetSecret {| key_Namespace := om_Namespace (redis_meta r);
                                                  key_Name := auth_SecretName auth |})
               | None => mret (Ok tt)
               end;
      match secret with
      | Fail _ => mret tt
      | Ok _ => pushConfig (redisAddr r) config
      end
  | _, _ => mret tt
  end.

(** ** Deletion *)

(** The claim of the only pod of the StatefulSet. *)
Definition redisClaimKey (r : Redis) : ObjectKey :=
  {| key_Namespace := om_Namespace (redis_meta r);
     key_Name := "data-" +:+ om_Name (redis_meta r) +:+ "-0" |}.

(** Whether the claims go with the custom resource. *)
Definition dropsClaims (storage : option StorageSpec) : bool :=
  match storage with Some st => negb (ss_KeepAfterDeletion st) | None => false end.

(** [err != nil && !errors.IsNotFound(err)] *)
Definition ignoreNotFound (r : result unit) : result unit :=
  match r with Fail e => if IsNotFound e then Ok tt else Fail e | Ok _ => Ok tt end.

(** Deletes the claim if it can be read. *)
Definition dropRedisClaim (r : Redis) : prog KubeSig (result unit) :=
  if dropsClaims (r_Storage (redis_Spec r)) then
    pvc ← kcall (GetClaim (redisClaimKey r));
    match pvc with
    | Ok pvc => d ← kcall (DeleteClaim pvc); mret (ignoreNotFound d)
    | Fail _ => mret (Ok tt)
    end
  else mret (Ok tt).

Definition removeRedisFinalizer (r : Redis) : Redis :=
  redis_with_meta (with_finalizers (RemoveFinalizer (om_Finalizers (redis_meta r)) FinalizerName)
                     (redis_meta r)) r.

Definition handleDeletion (r : Redis) : prog KubeSig outcome_of :=
  if negb (ContainsFinalizer (om_Finalizers (redis_meta r)) FinalizerName) then mret (noResult, None)
  else
    _ ←! dropRedisClaim r;
    _ ← event "Normal" "Deleted" "Redis instance cleaned up";
    u ← kcall (Update CRedis (removeRedisFinalizer r));
    mret (noResult, err_of u).

(** ** Reconcile *)

(** The workload of an instance: a StatefulSet with its headless Service when
    it has storage, a Deployment otherwise. *)
Definition reconcileWorkload (r : Redis) (configHash : string) : prog KubeSig (result unit) :=
  match r_Storage (redis_Spec r) with
  | Some _ =>
      _ ←? reconcileHeadlessService r;
      reconcileStatefulSet r configHash
  | None => reconcileDeployment r configHash
  end.

(** The ServiceMonitor, whose error is only logged. *)
Definition tryServiceMonitor (enableExporter : option bool) (apply : prog KubeSig (result unit))
  : prog KubeSig unit :=
  match enableExporter with
  | Some true => _ ← apply; mret tt
  | _ => mret tt
  end.

(** From the ConfigMap to the status. *)
Definition reconcileRedis (r : Redis) : prog KubeSig outcome_of :=
  h ← reconcileConfigMap r;
  match h with
  | Fail e =>
      _ ← setFailedStatus r "ConfigMapFailed" (error_text e);
      mret (noResult, Some e)
  | Ok configHash =>
      _ ←! reconcileWorkload r configHash;
      _ ←! reconcileService r;
      _ ← tryServiceMonitor (r_EnableExporter (redis_Spec r)) (reconcileServiceMonitor r);
      _ ← tryHotReload r;
      _ ←! updateStatus r;
      mret (requeueAfter (30 * second), None)
  end.

Definition doReconcile (req : ObjectKey) : prog KubeSig outcome_of :=
  g ← kcall (Get CRedis req);
  match g with
  | Fail e => mret (noResult, if IsNotFound e then None else Some e)
  | Ok r =>
      if bool_decide (is_Some (om_DeletionTimestamp (redis_meta r))) then handleDeletion r
      else if negb (ContainsFinalizer (om_Finalizers (redis_meta r)) FinalizerName) then
        _ ←! kcall (Update CRedis
               (redis_with_meta (with_finalizers (AddFinalizer (om_Finalizers (redis_meta r)) FinalizerName)
                                   (redis_meta r)) r));
        mret (requeue, None)
      else if String.eqb (rst_Phase (redis_Status r)) "" then
        r' ←! kcall (StatusUpdate CRedis (redis_phase PhaseInitializing r));
        reconcileRedis r'
      else reconcileRedis r
  end.

Definition Reconcile (req : ObjectKey) : prog KubeSig outcome_of := reconcileWith KindRedis doReconcile req.

End redis.
