(* ===== verification/SentinelCtrl.v ===== *)
(** * internal/controller/redissentinel_controller.go

    The reconciler of Sentinel-supervised instances: its objects, the role
    labels that route clients to the master, and its status. *)

From S2P Require Import Prelude Go Effects Client Api Resources Workloads Sha256 Kube RedisCtrl.

Local Open Scope Z_scope.

Definition sentinelMasterName : string := "mymaster".

Section sentinel.
Context {K : KubeTypes} {L : KubeLib}.
Context (hasClient : bool).

Definition sentinelOwner (rs : RedisSentinel) : Owner :=
  {| ow_Kind := "RedisSentinel"; ow_meta := sentinel_meta rs |}.

Definition sentinel_with_meta (m : ObjectMeta) (rs : RedisSentinel) : RedisSentinel :=
  {| sentinel_meta := m; sentinel_Spec := sentinel_Spec rs; sentinel_Status := sentinel_Status rs |}.

Definition sentinel_with_status (s : RedisSentinelStatus) (rs : RedisSentinel) : RedisSentinel :=
  {| sentinel_meta := sentinel_meta rs; sentinel_Spec := sentinel_Spec rs; sentinel_Status := s |}.

Definition sentinel_status (phase : string) (conditions : list Condition) (s : RedisSentinelStatus)
  : RedisSentinelStatus :=
  {| sst_Phase := phase; sst_Message := sst_Message s; sst_Conditions := conditions;
     sst_MasterNode := sst_MasterNode s; sst_ReadyReplicas := sst_ReadyReplicas s;
     sst_ReadySentinels := sst_ReadySentinels s |}.

Definition sentinel_phase (phase : string) (rs : RedisSentinel) : RedisSentinel :=
  sentinel_with_status (sentinel_status phase (sst_Conditions (sentinel_Status rs)) (sentinel_Status rs)) rs.

(** [rs.Status.MasterNode = node] *)
Definition sentinel_master (node : string) (rs : RedisSentinel) : RedisSentinel :=
  let s := sentinel_Status rs in
  sentinel_with_status
    {| sst_Phase := sst_Phase s; sst_Message := sst_Message s; sst_Conditions := sst_Conditions s;
       sst_MasterNode := node; sst_ReadyReplicas := sst_ReadyReplicas s;
       sst_ReadySentinels := sst_ReadySentinels s |} rs.

(** ** Status *)

Definition setSentinelFailedStatus (rs : RedisSentinel) (reason msg : string) : prog KubeSig unit :=
  t ← kcall TimeNow;
  let cond := {| cond_Type := conditionReady; cond_Status := ConditionFalse;
                 cond_ObservedGeneration := om_Generation (sentinel_meta rs); cond_LastTransitionTime := t;
                 cond_Reason := reason; cond_Message := msg |} in
  _ ← kcall (StatusUpdate CSentinel
        (sentinel_with_status
           (sentinel_status PhaseFailed (SetStatusCondition (sst_Conditions (sentinel_Status rs)) cond)
              (sentinel_Status rs)) rs));
  mret tt.

(** The status that [updateSentinelStatus] writes for the numbers of ready
    Redis and Sentinel pods. *)
Definition sentinelStatusFor (readyRedis readySentinels t : Z) (rs : RedisSentinel) : RedisSentinel :=
  let s := sentinel_Status rs in
  let spec := sentinel_Spec rs in
  let allReady := (s_Replicas spec <=? wrap32 readyRedis) && (s_SentinelReplicas spec <=? wrap32 readySentinels) in
  let cond :=
    {| cond_Type := conditionReady; cond_Status := boolConditionStatus allReady;
       cond_ObservedGeneration := om_Generation (sentinel_meta rs); cond_LastTransitionTime := t;
       cond_Reason := if allReady then reasonReady else reasonReconciling;
       cond_Message := "redis: " +:+ itoa readyRedis +:+ "/" +:+ itoa (s_Replicas spec)
                       +:+ " ready, sentinels: " +:+ itoa readySentinels +:+ "/"
                       +:+ itoa (s_SentinelReplicas spec) +:+ " ready" |} in
  let phase := if allReady then PhaseReady
               else if negb (String.eqb (sst_Phase s) PhaseFailed) then PhaseInitializing
               else sst_Phase s in
  sentinel_with_status
    {| sst_Phase := phase; sst_Message := sst_Message s;
       sst_Conditions := SetStatusCondition (sst_Conditions s) cond; sst_MasterNode := sst_MasterNode s;
       sst_ReadyReplicas := wrap32 readyRedis; sst_ReadySentinels := wrap32 readySentinels |} rs.

Definition listPods (rs : RedisSentinel) (component : string) : prog KubeSig (result (list Pod)) :=
  kcall (ListPods (om_Namespace (sentinel_meta rs)) (PodLabels (om_Name (sentinel_meta rs)) component)).

Definition updateSentinelStatus (rs : RedisSentinel) : prog KubeSig (result unit) :=
  redisPods ←? listPods rs ComponentRedis;
  sentinelPods ←? listPods rs ComponentSentinel;
  t ← kcall TimeNow;
  _ ←? kcall (StatusUpdate CSentinel
                (sentinelStatusFor (countReadyPods redisPods) (countReadyPods sentinelPods) t rs));
  mret (Ok tt).

(** ** Owned objects *)

Definition reconcileRedisConfigMap (rs : RedisSentinel) : prog KubeSig (result string) :=
  let desired := BuildSentinelRedisConfigMap rs in
  _ ←? applyConfigMap (sentinelOwner rs) desired;
  mret (Ok (configDataHash (cm_Data desired))).

Definition reconcileSentinelConfigMap (rs : RedisSentinel) (masterFQDN : string) : prog KubeSig (result unit) :=
  applyConfigMap (sentinelOwner rs) (BuildSentinelConfigMap rs masterFQDN).

Definition reconcileRedisStatefulSet (rs : RedisSentinel) (configHash : string) : prog KubeSig (result unit) :=
  applyStatefulSet (sentinelOwner rs) (annotateStatefulSet configHash (BuildSentinelRedisStatefulSet rs)).

Definition reconcileSentinelDeployment (rs : RedisSentinel) : prog KubeSig (result unit) :=
  applyDeployment (sentinelOwner rs) (BuildSentinelDeployment rs).

Definition reconcileSentinelService (rs : RedisSentinel) (svc : Service) : prog KubeSig (result unit) :=
  applyService (sentinelOwner rs) svc.

Definition reconcilePDB (rs : RedisSentinel) (pdb : PodDisruptionBudget) : prog KubeSig (result unit) :=
  applyPDB (sentinelOwner rs) pdb.

Definition reconcileSentinelServiceMonitor (rs : RedisSentinel) : prog KubeSig (result unit) :=
  applyServiceMonitor (sentinelOwner rs) (BuildSentinelServiceMonitor rs).

(** ** Role labels *)

Definition sentinelAddr (rs : RedisSentinel) : string :=
  om_Name (sentinel_meta rs) +:+ "-sentinel." +:+ om_Namespace (sentinel_meta rs)
  +:+ ".svc.cluster.local:" +:+ itoa SentinelPort.

(** The pod with an IP, the first of the list. *)
Fixpoint podWithIP (ip : string) (pods : list Pod) (otherwise : string) : string :=
  match pods with
  | [] => otherwise
  | p :: ps => if String.eqb (pod_PodIP p) ip then om_Name (pod_meta p) else podWithIP ip ps otherwise
  end.

(** [masterPodName]: pod 0 unless Sentinel names another pod. *)
Definition findMasterPod (rs : RedisSentinel) : prog KubeSig string :=
  let pod0 := om_Name (sentinel_meta rs) +:+ "-0" in
  if negb hasClient then mret pod0
  else
    r ← kcall (RedisCall (RedisClient.SentinelGetMasterAddr (sentinelAddr rs) sentinelMasterName));
    match r with
    | Ok (masterHost, _) =>
        if String.eqb masterHost "" then mret pod0
        else
          pods ← listPods rs ComponentRedis;
          match pods with
          | Ok pods => mret (podWithIP masterHost pods pod0)
          | Fail _ => mret pod0
          end
    | Fail _ => mret pod0
    end.

Definition desiredRole (masterPodName : string) (p : Pod) : string :=
  if String.eqb (om_Name (pod_meta p)) masterPodName then RoleMaster else RoleReplica.

Definition pod_with_role (role : string) (p : Pod) : Pod :=
  {| pod_meta := with_labels (<[RoleLabelKey := role]> (om_Labels (pod_meta p))) (pod_meta p);
     pod_PodIP := pod_PodIP p; pod_Conditions := pod_Conditions p |}.

(** The patch of one pod. *)
Definition labelPod (masterPodName : string) (p : Pod) : prog KubeSig unit :=
  let role := desiredRole masterPodName p in
  if String.eqb (default "" (om_Labels (pod_meta p) !! RoleLabelKey)) role then mret tt
  else _ ← kcall (PatchPod p (pod_with_role role p)); mret tt.

(** Returns [rs] with its [Status.MasterNode]. *)
Definition reconcileRoleLabels (rs : RedisSentinel) : prog KubeSig RedisSentinel :=
  masterPodName ← findMasterPod rs;
  pods ← listPods rs ComponentRedis;
  match pods with
  | Fail _ => mret rs
  | Ok pods =>
      _ ← do_each pods (labelPod masterPodName);
      mret (sentinel_master masterPodName rs)
  end.

(** ** Deletion *)

(** Deletes the claims in order, stopping at the first error other than "not
    found". *)
Definition deleteClaims (pvcs : list PersistentVolumeClaim) : prog KubeSig (result unit) :=
  for_each pvcs (λ pvc, d ← kcall (DeleteClaim pvc); mret (ignoreNotFound d)).

(** [if List(...) == nil { delete every item }], when the storage goes. *)
Definition dropClaims (storage : option StorageSpec) (namespace : string) (labels : gmap string string)
  : prog KubeSig (result unit) :=
  if dropsClaims storage then
    pvcs ← kcall (ListClaims namespace labels);
    match pvcs with
    | Ok pvcs => deleteClaims pvcs
    | Fail _ => mret (Ok tt)
    end
  else mret (Ok tt).

Definition removeSentinelFinalizer (rs : RedisSentinel) : RedisSentinel :=
  sentinel_with_meta (with_finalizers (RemoveFinalizer (om_Finalizers (sentinel_meta rs)) FinalizerName)
                        (sentinel_meta rs)) rs.

(** [handleDeletion] of the Sentinel reconciler. *)
Definition handleSentinelDeletion (rs : RedisSentinel) : prog KubeSig outcome_of :=
  let m := sentinel_meta rs in
  if negb (ContainsFinalizer (om_Finalizers m) FinalizerName) then mret (noResult, None)
  else
    _ ← (if hasClient
         then _ ← kcall (RedisCall (RedisClient.SentinelReset (sentinelAddr rs) "*")); mret tt
         else mret tt);
    _ ←! dropClaims (s_Storage (sentinel_Spec rs)) (om_Namespace m) (PodLabels (om_Name m) ComponentRedis);
    _ ← event "Normal" "Deleted" "RedisSentinel instance cleaned up";
    u ← kcall (Update CSentinel (removeSentinelFinalizer rs));
    mret (noResult, err_of u).

(** ** Reconcile *)

Definition masterFQDN (rs : RedisSentinel) : string :=
  PodFQDN (om_Name (sentinel_meta rs) +:+ "-0")
    (HeadlessServiceName (om_Name (sentinel_meta rs)) ComponentRedis) (om_Namespace (sentinel_meta rs)).

(** The objects after the Redis ConfigMap, in order, up to the first error. *)
Definition reconcileSentinelObjects (rs : RedisSentinel) (configHash : string) : prog KubeSig (result unit) :=
  _ ←? reconcileSentinelConfigMap rs (masterFQDN rs);
  _ ←? reconcileRedisStatefulSet rs configHash;
  _ ←? reconcileSentinelDeployment rs;
  _ ←? reconcileSentinelService rs
         (BuildHeadlessService (om_Name (sentinel_meta rs)) (om_Namespace (sentinel_meta rs)) ComponentRedis);
  _ ←? for_each [BuildSentinelMasterService rs; BuildSentinelReplicaService rs; BuildSentinelService rs]
         (reconcileSentinelService rs);
  for_each [BuildSentinelRedisPDB rs; BuildSentinelPDB rs] (reconcilePDB rs).

Definition reconcileSentinel (rs : RedisSentinel) : prog KubeSig outcome_of :=
  h ← reconcileRedisConfigMap rs;
  match h with
  | Fail e =>
      _ ← setSentinelFailedStatus rs "ConfigMapFailed" (error_text e);
      mret (noResult, Some e)
  | Ok redisConfigHash =>
      _ ←! reconcileSentinelObjects rs redisConfigHash;
      _ ← tryServiceMonitor (s_EnableExporter (sentinel_Spec rs)) (reconcileSentinelServiceMonitor rs);
      rs' ← reconcileRoleLabels rs;
      _ ←! updateSentinelStatus rs';
      mret (requeueAfter (30 * second), None)
  end.

(** [doReconcile] of the Sentinel reconciler. *)
Definition doReconcileSentinel (req : ObjectKey) : prog KubeSig outcome_of :=
  g ← kcall (Get CSentinel req);
  match g with
  | Fail e => mret (noResult, if IsNotFound e then None else Some e)
  | Ok rs =>
      if bool_decide (is_Some (om_DeletionTimestamp (sentinel_meta rs))) then handleSentinelDeletion rs
      else if negb (ContainsFinalizer (om_Finalizers (sentinel_meta rs)) FinalizerName) then
        _ ←! kcall (Update CSentinel
               (sentinel_with_meta
                  (with_finalizers (AddFinalizer (om_Finalizers (sentinel_meta rs)) FinalizerName)
                     (sentinel_meta rs)) rs));
        mret (requeue, None)
      else if String.eqb (sst_Phase (sentinel_Status rs)) "" then
        rs' ←! kcall (StatusUpdate CSentinel (sentinel_phase PhaseInitializing rs));
        reconcileSentinel rs'
      else reconcileSentinel rs
  end.

(** [Reconcile] of the Sentinel reconciler. *)
Definition ReconcileSentinel (req : ObjectKey) : prog KubeSig outcome_of :=
  reconcileWith KindSentinel doReconcileSentinel req.

End sentinel.
