(* ===== verification/ClusterCtrl.v ===== *)
(** * internal/controller/rediscluster_controller.go

    The reconciler of Redis Clusters: its objects, the life cycle of the
    cluster (formation, recovery, scaling), the failover before a rolling
    restart, and its status.  [hasClient] and [hasManager] tell whether the
    [RedisClient] and [ClusterManager] fields are set. *)

From S2P Require Import Prelude Go Effects Client Cluster Api Resources Workloads Sha256 Kube RedisCtrl SentinelCtrl.

Local Open Scope Z_scope.

Section cluster.
Context {K : KubeTypes} {L : KubeLib}.
Context (hasClient hasManager : bool).

Definition clusterOwner (rc : RedisCluster) : Owner := {| ow_Kind := "RedisCluster"; ow_meta := cluster_meta rc |}.

Definition cluster_name (rc : RedisCluster) : string := om_Name (cluster_meta rc).
Definition cluster_ns (rc : RedisCluster) : string := om_Namespace (cluster_meta rc).
Definition masters (rc : RedisCluster) : Z := c_Masters (cluster_Spec rc).
Definition replicasPerMaster (rc : RedisCluster) : Z := c_ReplicasPerMaster (cluster_Spec rc).
Definition phase (rc : RedisCluster) : string := cst_Phase (cluster_Status rc).

Definition cluster_with_meta (m : ObjectMeta) (rc : RedisCluster) : RedisCluster :=
  {| cluster_meta := m; cluster_Spec := cluster_Spec rc; cluster_Status := cluster_Status rc |}.

Definition cluster_with_status (s : RedisClusterStatus) (rc : RedisCluster) : RedisCluster :=
  {| cluster_meta := cluster_meta rc; cluster_Spec := cluster_Spec rc; cluster_Status := s |}.

Definition cluster_status (ph : string) (conditions : list Condition) (s : RedisClusterStatus) : RedisClusterStatus :=
  {| cst_Phase := ph; cst_Message := cst_Message s; cst_Conditions := conditions;
     cst_ReadyMasters := cst_ReadyMasters s; cst_ReadyReplicas := cst_ReadyReplicas s;
     cst_AssignedSlots := cst_AssignedSlots s; cst_ClusterState := cst_ClusterState s; cst_Nodes := cst_Nodes s |}.

(** [rc.Status.Phase = ph] *)
Definition set_phase (ph : string) (rc : RedisCluster) : RedisCluster :=
  cluster_with_status (cluster_status ph (cst_Conditions (cluster_Status rc)) (cluster_Status rc)) rc.

(** ** Addresses *)

Definition clusterMasterAddr (rc : RedisCluster) (idx : Z) : string :=
  PodFQDN (ClusterMasterStatefulSetName (cluster_name rc) +:+ "-" +:+ itoa idx)
    (HeadlessServiceName (cluster_name rc) ComponentMaster) (cluster_ns rc)
  +:+ ":" +:+ itoa RedisPort.

Definition clusterReplicaAddr (rc : RedisCluster) (idx : Z) : string :=
  PodFQDN (ClusterReplicaStatefulSetName (cluster_name rc) +:+ "-" +:+ itoa idx)
    (HeadlessServiceName (cluster_name rc) ComponentReplica) (cluster_ns rc)
  +:+ ":" +:+ itoa RedisPort.

(** [make([]string, n)] filled by index. *)
Definition makeAddrs (n : Z) (addr : Z → string) : prog KubeSig (list string) :=
  if n <? 0 then panic "runtime error: makeslice: len out of range"
  else mret (addr <$> seqZ 0 n).

Definition allMasterAddrs (rc : RedisCluster) : prog KubeSig (list string) :=
  makeAddrs (masters rc) (clusterMasterAddr rc).

Definition totalReplicas (rc : RedisCluster) : Z := wrap32 (masters rc * replicasPerMaster rc).

Definition allReplicaAddrs (rc : RedisCluster) : prog KubeSig (list string) :=
  makeAddrs (totalReplicas rc) (clusterReplicaAddr rc).

(** [i*rc.Spec.ReplicasPerMaster + j] *)
Definition replicaIndex (rc : RedisCluster) (i j : Z) : Z := wrap32 (wrap32 (i * replicasPerMaster rc) + j).

(** ** Pods *)

Definition listClusterPods (rc : RedisCluster) (component : string) : prog KubeSig (result (list Pod)) :=
  kcall (ListPods (cluster_ns rc) (PodLabels (cluster_name rc) component)).

Definition allMasterPodsReady (rc : RedisCluster) : prog KubeSig bool :=
  pods ← listClusterPods rc ComponentMaster;
  match pods with
  | Fail _ => mret false
  | Ok pods => mret (masters rc <=? wrap32 (countReadyPods pods))
  end.

Definition allPodsReady (rc : RedisCluster) : prog KubeSig bool :=
  b ← allMasterPodsReady rc;
  if negb b then mret false
  else if replicasPerMaster rc =? 0 then mret true
  else
    pods ← listClusterPods rc ComponentReplica;
    match pods with
    | Fail _ => mret false
    | Ok pods => mret (totalReplicas rc <=? wrap32 (countReadyPods pods))
    end.

(** ** Owned objects *)

Definition reconcileClusterConfigMap (rc : RedisCluster) : prog KubeSig (result string) :=
  let desired := BuildClusterConfigMap rc in
  _ ←? applyConfigMap (clusterOwner rc) desired;
  mret (Ok (configDataHash (cm_Data desired))).

Definition reconcileClusterMasterStatefulSet (rc : RedisCluster) (configHash : string) : prog KubeSig (result unit) :=
  applyStatefulSet (clusterOwner rc) (annotateStatefulSet configHash (BuildClusterMasterStatefulSet rc)).

Definition reconcileClusterReplicaStatefulSet (rc : RedisCluster) (configHash : string) : prog KubeSig (result unit) :=
  applyStatefulSet (clusterOwner rc) (annotateStatefulSet configHash (BuildClusterReplicaStatefulSet rc)).

Definition reconcileClusterService (rc : RedisCluster) (svc : Service) : prog KubeSig (result unit) :=
  applyService (clusterOwner rc) svc.

Definition reconcileClusterPDB (rc : RedisCluster) (pdb : PodDisruptionBudget) : prog KubeSig (result unit) :=
  applyPDB (clusterOwner rc) pdb.

Definition reconcileClusterServiceMonitor (rc : RedisCluster) : prog KubeSig (result unit) :=
  applyServiceMonitor (clusterOwner rc) (BuildClusterServiceMonitor rc).

(** The objects after the ConfigMap, in order, up to the first error. *)
Definition reconcileClusterObjects (rc : RedisCluster) (configHash : string) : prog KubeSig (result unit) :=
  _ ←? reconcileClusterMasterStatefulSet rc configHash;
  _ ←? (if 0 <? replicasPerMaster rc then reconcileClusterReplicaStatefulSet rc configHash else mret (Ok tt));
  _ ←? for_each [BuildHeadlessService (cluster_name rc) (cluster_ns rc) ComponentMaster;
                 BuildHeadlessService (cluster_name rc) (cluster_ns rc) ComponentReplica;
                 BuildClusterClientService rc] (reconcileClusterService rc);
  for_each [BuildClusterMasterPDB rc; BuildClusterReplicaPDB rc] (reconcileClusterPDB rc).

(** ** Life cycle *)

Definition manager (m : ClusterManager.method) : prog KubeSig (ClusterManager.reply m) :=
  kcall (ManagerCall m).

(** What the life cycle returns: the resource with its new phase, and the
    result of the reconciliation. *)
Definition lifecycle_result : Type := RedisCluster * outcome_of.

Definition setClusterFailedStatus (rc : RedisCluster) (reason msg : string) : prog KubeSig RedisCluster :=
  t ← kcall TimeNow;
  let cond := {| cond_Type := conditionReady; cond_Status := ConditionFalse;
                 cond_ObservedGeneration := om_Generation (cluster_meta rc); cond_LastTransitionTime := t;
                 cond_Reason := reason; cond_Message := msg |} in
  let rc' := cluster_with_status
               (cluster_status PhaseFailed (SetStatusCondition (cst_Conditions (cluster_Status rc)) cond)
                  (cluster_Status rc)) rc in
  u ← kcall (StatusUpdate CCluster rc');
  mret (match u with Ok server => server | Fail _ => rc' end).

(** Attaches the replicas of master [i]; errors are only logged. *)
Definition attachReplicas (rc : RedisCluster) (i : Z) : prog KubeSig unit :=
  do_each (seqZ 0 (replicasPerMaster rc)) (λ j,
    _ ← manager (ClusterManager.AddReplica (clusterReplicaAddr rc (replicaIndex rc i j)) (clusterMasterAddr rc i));
    mret tt).

Definition scalingDone (rc : RedisCluster) (direction reason : string) (currentMasters start : Z)
  : prog KubeSig lifecycle_result :=
  _ ← RecordClusterScaling (cluster_name rc) (cluster_ns rc) direction start;
  _ ← event "Normal" reason
        ("Scaled from " +:+ itoa currentMasters +:+ " to " +:+ itoa (masters rc) +:+ " masters");
  mret (set_phase PhaseReady rc, (requeue, None)).

Definition reconcileScaleOut (rc : RedisCluster) (currentMasters : Z) : prog KubeSig lifecycle_result :=
  start ← kcall TimeNow;
  let rc := set_phase PhaseScaling rc in
  ready ← allMasterPodsReady rc;
  if negb ready then mret (rc, (requeueAfter (15 * second), None))
  else
    r ← for_each (seqZ currentMasters (masters rc - currentMasters)) (λ i,
          manager (ClusterManager.AddMaster (clusterMasterAddr rc 0) (clusterMasterAddr rc i)));
    match r with
    | Fail _ => mret (rc, (requeueAfter (30 * second), None))
    | Ok _ =>
        addrs ← allMasterAddrs rc;
        r ← manager (ClusterManager.RebalanceSlots addrs);
        match r with
        | Fail _ => mret (rc, (requeueAfter (30 * second), None))
        | Ok _ =>
            _ ← (if 0 <? replicasPerMaster rc
                 then do_each (seqZ currentMasters (masters rc - currentMasters)) (attachReplicas rc)
                 else mret tt);
            scalingDone rc "out" "ScaleOut" currentMasters start
        end
    end.

(** Removes master [i] and, before it, its replicas, whose errors are only
    logged. *)
Definition removeMasterAndReplicas (rc : RedisCluster) (i : Z) : prog KubeSig (result unit) :=
  _ ← (if 0 <? replicasPerMaster rc
       then do_each (seqZ 0 (replicasPerMaster rc)) (λ j,
              _ ← manager (ClusterManager.RemoveReplica (clusterMasterAddr rc 0)
                             (clusterReplicaAddr rc (replicaIndex rc i j)));
              mret tt)
       else mret tt);
  manager (ClusterManager.RemoveMaster (clusterMasterAddr rc 0) (clusterMasterAddr rc i)).

Definition reconcileScaleIn (rc : RedisCluster) (currentMasters : Z) : prog KubeSig lifecycle_result :=
  start ← kcall TimeNow;
  let rc := set_phase PhaseScaling rc in
  remainingAddrs ← makeAddrs (masters rc) (clusterMasterAddr rc);
  r ← manager (ClusterManager.RebalanceSlots remainingAddrs);
  match r with
  | Fail _ => mret (rc, (requeueAfter (30 * second), None))
  | Ok _ =>
      r ← for_each (rev (seqZ (masters rc) (currentMasters - masters rc))) (removeMasterAndReplicas rc);
      match r with
      | Fail _ => mret (rc, (requeueAfter (30 * second), None))
      | Ok _ => scalingDone rc "in" "ScaleIn" currentMasters start
      end
  end.

(** The cluster has no slots yet. *)
Definition formIfReady (rc : RedisCluster) : prog KubeSig lifecycle_result :=
  ready ← allPodsReady rc;
  if negb ready then mret (set_phase PhaseInitializing rc, (requeueAfter (15 * second), None))
  else
    masterAddrs ← allMasterAddrs rc;
    replicaAddrs ← allReplicaAddrs rc;
    r ← manager (ClusterManager.FormCluster masterAddrs replicaAddrs (replicasPerMaster rc));
    match r with
    | Fail e =>
        rc' ← setClusterFailedStatus rc "ClusterFormationFailed" (error_text e);
        _ ← event "Warning" "ClusterFormationFailed" (error_text e);
        mret (rc', (requeueAfter (30 * second), None))
    | Ok _ =>
        _ ← event "Normal" "ClusterFormed" "Redis Cluster formed successfully";
        mret (set_phase PhaseReady rc, (requeue, None))
    end.

(** The cluster reports [fail]. *)
Definition awaitRecovery (rc : RedisCluster) : prog KubeSig lifecycle_result :=
  if String.eqb (phase rc) PhaseRecovering then mret (rc, (requeueAfter (15 * second), None))
  else
    let rc := set_phase PhaseRecovering rc in
    _ ← RecordClusterFailover (cluster_name rc) (cluster_ns rc);
    _ ← event "Warning" "ClusterFailing" "Redis Cluster is in fail state; waiting for automatic recovery";
    mret (rc, (requeueAfter (15 * second), None)).

(** Leaves [Recovering] when the state is [ok]. *)
Definition noteRecovery (rc : RedisCluster) (state : ClusterState) : prog KubeSig RedisCluster :=
  if String.eqb (phase rc) PhaseRecovering && String.eqb (cs_State state) "ok" then
    _ ← event "Normal" "ClusterRecovered" "Redis Cluster has recovered";
    mret (set_phase PhaseReady rc)
  else mret rc.

(** Scales when the size the cluster reports is not the size of the spec. *)
Definition scaleIfNeeded (rc : RedisCluster) (state : ClusterState) : prog KubeSig lifecycle_result :=
  let currentMasters := wrap32 (cs_Size state) in
  if (0 <? currentMasters) && negb (currentMasters =? masters rc)
  then if currentMasters <? masters rc then reconcileScaleOut rc currentMasters
       else reconcileScaleIn rc currentMasters
  else mret (rc, (noResult, None)).

Definition reconcileClusterLifecycle (rc : RedisCluster) : prog KubeSig lifecycle_result :=
  if negb hasManager then mret (rc, (noResult, None))
  else
    s ← manager (ClusterManager.GetClusterState (clusterMasterAddr rc 0));
    match s with
    | Fail _ =>
        ready ← allMasterPodsReady rc;
        if negb ready then mret (set_phase PhaseInitializing rc, (requeueAfter (15 * second), None))
        else mret (rc, (requeueAfter (10 * second), None))
    | Ok state =>
        if cs_SlotsAssigned state =? 0 then formIfReady rc
        else if String.eqb (cs_State state) "fail" then awaitRecovery rc
        else rc' ← noteRecovery rc state; scaleIfNeeded rc' state
    end.

(** ** Failover before a rolling restart *)

(** The controller's own [isMaster]. *)
Definition nodeIsMaster (n : ClusterNode) : bool := existsb (λ f, String.eqb f "master") (cn_Flags n).

Definition cluster_with_annotation (k v : string) (rc : RedisCluster) : RedisCluster :=
  cluster_with_meta (with_annotations (<[k := v]> (om_Annotations (cluster_meta rc))) (cluster_meta rc)) rc.

(** A successful patch replaces the object in memory by the server's. *)
Definition recordLastConfigHash (rc : RedisCluster) (hash : string) : prog KubeSig RedisCluster :=
  if String.eqb (default "" (om_Annotations (cluster_meta rc) !! lastConfigHashAnnotation)) hash then mret rc
  else
    let rc' := cluster_with_annotation lastConfigHashAnnotation hash rc in
    p ← kcall (PatchCluster rc rc');
    mret (match p with Ok server => server | Fail _ => rc' end).

(** The IDs of the masters, as the keys of a map. *)
Definition masterIDSet (nodes : list ClusterNode) : gmap string bool :=
  fold_left (λ m n, if nodeIsMaster n then <[cn_NodeID n := true]> m else m) nodes ∅.

(** The first replica of a master. *)
Definition firstReplica (nodes : list ClusterNode) (masterID : string) : option ClusterNode :=
  head (filter (λ n, String.eqb (cn_MasterID n) masterID && negb (nodeIsMaster n) = true) nodes).

(** CLUSTER FAILOVER on one replica per master. *)
Definition failoverAll (nodes : list ClusterNode) : prog KubeSig unit :=
  ids ← krange (masterIDSet nodes);
  do_each ids (λ masterID,
    match firstReplica nodes masterID with
    | Some n => _ ← kcall (RedisCall (RedisClient.ClusterFailover (cn_Addr n))); mret tt
    | None => mret tt
    end).

(** Whether the configuration has a parameter that needs a restart. *)
Definition restartNeeded (rc : RedisCluster) : bool :=
  existsb (λ k, negb (hotReloadable k)) (keys (default ∅ (c_RedisConfig (cluster_Spec rc)))).

Definition tryClusterRollingFailover (rc : RedisCluster) (newConfigHash : string) : prog KubeSig RedisCluster :=
  if negb hasClient || negb hasManager then mret rc
  else
    let lastHash := default "" (om_Annotations (cluster_meta rc) !! lastConfigHashAnnotation) in
    if String.eqb lastHash "" || String.eqb lastHash newConfigHash then recordLastConfigHash rc newConfigHash
    else if negb (restartNeeded rc) then recordLastConfigHash rc newConfigHash
    else
      s ← manager (ClusterManager.GetClusterState (clusterMasterAddr rc 0));
      match s with
      | Fail _ => recordLastConfigHash rc newConfigHash
      | Ok state =>
          _ ← failoverAll (cs_Nodes state);
          _ ← event "Normal" "RollingFailover"
                "Pre-triggered CLUSTER FAILOVER on replicas before config-driven pod restart";
          recordLastConfigHash rc newConfigHash
      end.

(** ** Hot reload *)

Definition tryClusterHotReload (rc : RedisCluster) : prog KubeSig unit :=
  match hasClient, c_RedisConfig (cluster_Spec rc) with
  | true, Some config => do_each (seqZ 0 (masters rc)) (λ i, pushConfig (clusterMasterAddr rc i) config)
  | _, _ => mret tt
  end.

(** ** Status *)

(** The status entry of a node of CLUSTER NODES. *)
Definition nodeStatus (n : ClusterNode) : RedisNodeStatus :=
  {| ns_NodeID := cn_NodeID n; ns_PodName := ""; ns_IP := cn_Addr n;
     ns_Role := match cn_Flags n with
                | f :: _ => if String.eqb f "master" then "master" else "replica"
                | [] => "replica"
                end;
     ns_Slots := match head (cn_Slots n), last (cn_Slots n) with
                 | Some f, Some l => itoa (sr_Start f) +:+ "-" +:+ itoa (sr_End l)
                 | _, _ => ""
                 end;
     ns_MasterRef := ""; ns_Health := "ok" |}.

(** What the cluster itself reports: state, assigned slots and nodes. *)
Definition clusterView (rc : RedisCluster) : prog KubeSig (string * Z * list RedisNodeStatus) :=
  if negb hasManager then mret ("unknown", 0, [])
  else
    s ← manager (ClusterManager.GetClusterState (clusterMasterAddr rc 0));
    mret (match s with
          | Ok state => (cs_State state, wrap32 (cs_SlotsAssigned state), nodeStatus <$> cs_Nodes state)
          | Fail _ => ("unknown", 0, [])
          end).

(** The readiness of the cluster by its pods. *)
Definition podsReady (rc : RedisCluster) (readyMasters readyReplicas : Z) : bool :=
  (masters rc <=? readyMasters)
  && (if 0 <? replicasPerMaster rc then totalReplicas rc <=? readyReplicas else true).

(** The phase that [updateClusterStatus] leaves. *)
Definition nextPhase (current : string) (allReady : bool) (clusterState : string) : string :=
  if String.eqb current "" || (String.eqb current PhaseInitializing && allReady)
  then if allReady && String.eqb clusterState "ok" then PhaseReady else PhaseInitializing
  else current.

(** The status that [updateClusterStatus] writes. *)
Definition clusterStatusFor (rc : RedisCluster) (readyMasters readyReplicas t : Z) (clusterState : string)
    (assignedSlots : Z) (nodes : list RedisNodeStatus) : RedisCluster :=
  let s := cluster_Status rc in
  let allReady := podsReady rc readyMasters readyReplicas in
  let cond :=
    {| cond_Type := conditionReady; cond_Status := boolConditionStatus allReady;
       cond_ObservedGeneration := om_Generation (cluster_meta rc); cond_LastTransitionTime := t;
       cond_Reason := if allReady then reasonReady else reasonReconciling;
       cond_Message := "masters: " +:+ itoa readyMasters +:+ "/" +:+ itoa (masters rc)
                       +:+ " ready, replicas: " +:+ itoa readyReplicas +:+ "/" +:+ itoa (totalReplicas rc)
                       +:+ " ready, slots: " +:+ itoa assignedSlots +:+ "/16384, state: " +:+ clusterState |} in
  cluster_with_status
    {| cst_Phase := nextPhase (cst_Phase s) allReady clusterState; cst_Message := cst_Message s;
       cst_Conditions := SetStatusCondition (cst_Conditions s) cond;
       cst_ReadyMasters := readyMasters; cst_ReadyReplicas := readyReplicas;
       cst_AssignedSlots := assignedSlots; cst_ClusterState := clusterState; cst_Nodes := nodes |} rc.

(** The items of a list call whose error is ignored. *)
Definition items (r : result (list Pod)) : list Pod := match r with Ok l => l | Fail _ => [] end.

Definition updateClusterStatus (rc : RedisCluster) : prog KubeSig (result unit) :=
  masterPods ← listClusterPods rc ComponentMaster;
  replicaPods ← listClusterPods rc ComponentReplica;
  let readyMasters := wrap32 (countReadyPods (items masterPods)) in
  let readyReplicas := wrap32 (countReadyPods (items replicaPods)) in
  v ← clusterView rc;
  let '(clusterState, assignedSlots, nodes) := v in
  t ← kcall TimeNow;
  _ ← SetClusterMetrics (cluster_name rc) (cluster_ns rc) clusterState assignedSlots
        (wrap32 (zlen nodes)) readyMasters readyReplicas;
  _ ←? kcall (StatusUpdate CCluster
                (clusterStatusFor rc readyMasters readyReplicas t clusterState assignedSlots nodes));
  mret (Ok tt).

(** ** Deletion *)

Definition removeClusterFinalizer (rc : RedisCluster) : RedisCluster :=
  cluster_with_meta (with_finalizers (RemoveFinalizer (om_Finalizers (cluster_meta rc)) FinalizerName)
                       (cluster_meta rc)) rc.

Definition handleClusterDeletion (rc : RedisCluster) : prog KubeSig outcome_of :=
  if negb (ContainsFinalizer (om_Finalizers (cluster_meta rc)) FinalizerName) then mret (noResult, None)
  else
    _ ←! dropClaims (c_Storage (cluster_Spec rc)) (cluster_ns rc) {[ labelCluster := cluster_name rc ]};
    _ ← DeleteClusterMetrics (cluster_name rc) (cluster_ns rc);
    _ ← event "Normal" "Deleted" "RedisCluster instance cleaned up";
    u ← kcall (Update CCluster (removeClusterFinalizer rc));
    mret (noResult, err_of u).

(** ** Reconcile *)

(** From the life cycle to the result. *)
Definition finishCluster (rc : RedisCluster) (configHash : string) : prog KubeSig outcome_of :=
  l ← reconcileClusterLifecycle rc;
  let '(rc1, (result, lifecycleErr)) := l in
  rc2 ← tryClusterRollingFailover rc1 configHash;
  _ ← tryClusterHotReload rc2;
  _ ←! updateClusterStatus rc2;
  if bool_decide (is_Some lifecycleErr) || res_Requeue result || (0 <? res_RequeueAfter result)
  then mret (result, lifecycleErr)
  else mret (requeueAfter (30 * second), None).

Definition reconcileCluster (rc : RedisCluster) : prog KubeSig outcome_of :=
  h ← reconcileClusterConfigMap rc;
  match h with
  | Fail e =>
      _ ← setClusterFailedStatus rc "ConfigMapFailed" (error_text e);
      mret (noResult, Some e)
  | Ok configHash =>
      _ ←! reconcileClusterObjects rc configHash;
      _ ← tryServiceMonitor (c_EnableExporter (cluster_Spec rc)) (reconcileClusterServiceMonitor rc);
      finishCluster rc configHash
  end.

(** [doReconcile] of the cluster reconciler. *)
Definition doReconcileCluster (req : ObjectKey) : prog KubeSig outcome_of :=
  g ← kcall (Get CCluster req);
  match g with
  | Fail e => mret (noResult, if IsNotFound e then None else Some e)
  | Ok rc =>
      if bool_decide (is_Some (om_DeletionTimestamp (cluster_meta rc))) then handleClusterDeletion rc
      else if negb (ContainsFinalizer (om_Finalizers (cluster_meta rc)) FinalizerName) then
        _ ←! kcall (Update CCluster
               (cluster_with_meta
                  (with_finalizers (AddFinalizer (om_Finalizers (cluster_meta rc)) FinalizerName)
                     (cluster_meta rc)) rc));
        mret (requeue, None)
      else if String.eqb (phase rc) "" then
        rc' ←! kcall (StatusUpdate CCluster (set_phase PhaseInitializing rc));
        reconcileCluster rc'
      else reconcileCluster rc
  end.

(** [Reconcile] of the cluster reconciler. *)
Definition ReconcileCluster (req : ObjectKey) : prog KubeSig outcome_of :=
  reconcileWith KindCluster doReconcileCluster req.

End cluster.
