(* ===== verification/DeepCopy.v ===== *)
(** * api/v1alpha1/zz_generated.deepcopy.go

    The custom resources as they are in memory - pointers, maps and slices
    where [Api] has options, maps and lists - and their generated copies.  The
    copies of types of Kubernetes are parameters ([MemLib]) with the documented
    behaviour of DeepCopyInto.  What an object in memory denotes is a value of
    [Api], so the theorems also say when objects may be treated as values. *)

From S2P Require Import Prelude Go Effects Memory Api Resources Kube ApiServer ClusterCtrl.

Local Open Scope Z_scope.

Abbreviation strmap := (gmap string string).

(** [metav1.TypeMeta] *)
Record TypeMeta := { tm_Kind : string; tm_APIVersion : string }.

(** ** Objects in memory *)

(** Types of Kubernetes in memory, and what the cells they refer to hold. *)
Class MemTypes := {
  AffinityM : Type;
  TolerationM : Type;
  ResourcesM : Type;
  ConditionM : Type;
  MetaRestM : Type;
  ListMetaM : Type;
  (** what a [metav1.ListMeta] denotes *)
  ListMeta : Type;
  ForeignCell : Type
}.

Section types.
Context {K : KubeTypes} {T : MemTypes}.

Record ObjectMetaM := {
  omm_Name : string;
  omm_Namespace : string;
  omm_Labels : ptr strmap;
  omm_Annotations : ptr strmap;
  omm_Generation : Z;
  omm_CreationTimestamp : option Z;
  omm_DeletionTimestamp : ptr Z;
  omm_Finalizers : slice string;
  omm_Rest : MetaRestM
}.

Record StorageSpecM := { ssm_ClassName : ptr string; ssm_Size : string; ssm_KeepAfterDeletion : bool }.

Record RedisSpecM := {
  rm_Image : string;
  rm_Resources : ResourcesM;
  rm_Storage : ptr StorageSpecM;
  rm_RedisConfig : ptr strmap;
  rm_Auth : ptr AuthSpec;
  rm_TLS : ptr TLSSpec;
  rm_EnableExporter : ptr bool;
  rm_ExporterImage : string;
  rm_Affinity : ptr AffinityM;
  rm_Tolerations : slice TolerationM;
  rm_NodeSelector : ptr strmap
}.

Record RedisStatusM := {
  rstm_Phase : string;
  rstm_Message : string;
  rstm_Conditions : slice ConditionM;
  rstm_RedisVersion : string;
  rstm_ReadyReplicas : Z
}.

Record RedisM := {
  redism_TypeMeta : TypeMeta;
  redism_ObjectMeta : ObjectMetaM;
  redism_Spec : RedisSpecM;
  redism_Status : RedisStatusM
}.

Record RedisSentinelSpecM := {
  sm_Replicas : Z;
  sm_SentinelReplicas : Z;
  sm_Image : string;
  sm_SentinelImage : string;
  sm_Resources : ResourcesM;
  sm_SentinelResources : ResourcesM;
  sm_Storage : ptr StorageSpecM;
  sm_RedisConfig : ptr strmap;
  sm_SentinelConfig : ptr strmap;
  sm_Auth : ptr AuthSpec;
  sm_TLS : ptr TLSSpec;
  sm_EnableExporter : ptr bool;
  sm_ExporterImage : string;
  sm_Affinity : ptr AffinityM;
  sm_Tolerations : slice TolerationM;
  sm_NodeSelector : ptr strmap
}.

Record RedisSentinelStatusM := {
  sstm_Phase : string;
  sstm_Message : string;
  sstm_Conditions : slice ConditionM;
  sstm_MasterNode : string;
  sstm_ReadyReplicas : Z;
  sstm_ReadySentinels : Z
}.

Record RedisSentinelM := {
  sentinelm_TypeMeta : TypeMeta;
  sentinelm_ObjectMeta : ObjectMetaM;
  sentinelm_Spec : RedisSentinelSpecM;
  sentinelm_Status : RedisSentinelStatusM
}.

Record RedisClusterSpecM := {
  cm_Masters : Z;
  cm_ReplicasPerMaster : Z;
  cm_Image : string;
  cm_Resources : ResourcesM;
  cm_MasterResources : ptr ResourcesM;
  cm_ReplicaResources : ptr ResourcesM;
  cm_Storage : ptr StorageSpecM;
  cm_RedisConfig : ptr strmap;
  cm_Auth : ptr AuthSpec;
  cm_TLS : ptr TLSSpec;
  cm_EnableExporter : ptr bool;
  cm_ExporterImage : string;
  cm_MasterAffinity : ptr AffinityM;
  cm_MasterTolerations : slice TolerationM;
  cm_MasterNodeSelector : ptr strmap;
  cm_ReplicaAffinity : ptr AffinityM;
  cm_ReplicaTolerations : slice TolerationM;
  cm_ReplicaNodeSelector : ptr strmap
}.

Record RedisClusterStatusM := {
  cstm_Phase : string;
  cstm_Message : string;
  cstm_Conditions : slice ConditionM;
  cstm_ReadyMasters : Z;
  cstm_ReadyReplicas : Z;
  cstm_AssignedSlots : Z;
  cstm_ClusterState : string;
  cstm_Nodes : slice RedisNodeStatus
}.

Record RedisClusterM := {
  clusterm_TypeMeta : TypeMeta;
  clusterm_ObjectMeta : ObjectMetaM;
  clusterm_Spec : RedisClusterSpecM;
  clusterm_Status : RedisClusterStatusM
}.

(** [RedisList], [RedisSentinelList], [RedisClusterList] *)
Record ListM (T : Type) := { lm_TypeMeta : TypeMeta; lm_ListMeta : ListMetaM; lm_Items : slice T }.

(** What a cell holds: whatever the code takes the address of. *)
Inductive cell :=
| InString (x : string)
| InBool (x : bool)
| InTime (x : Z)
| InStrings (x : list string)
| InMap (x : strmap)
| InAuth (x : AuthSpec)
| InTLS (x : TLSSpec)
| InStorage (x : StorageSpecM)
| InAffinity (x : AffinityM)
| InResources (x : ResourcesM)
| InTolerations (x : list TolerationM)
| InConditions (x : list ConditionM)
| InRedisSpec (x : RedisSpecM)
| InRedisStatus (x : RedisStatusM)
| InRedis (x : RedisM)
| InRedises (x : list RedisM)
| InRedisList (x : ListM RedisM)
| InSentinelSpec (x : RedisSentinelSpecM)
| InSentinelStatus (x : RedisSentinelStatusM)
| InSentinel (x : RedisSentinelM)
| InSentinels (x : list RedisSentinelM)
| InSentinelList (x : ListM RedisSentinelM)
| InClusterSpec (x : RedisClusterSpecM)
| InNode (x : RedisNodeStatus)
| InNodes (x : list RedisNodeStatus)
| InClusterStatus (x : RedisClusterStatusM)
| InCluster (x : RedisClusterM)
| InClusters (x : list RedisClusterM)
| InClusterList (x : ListM RedisClusterM)
| InForeign (x : ForeignCell).

#[global] Instance cell_string : Cell (cell := cell) string :=
  {| to_cell := InString; of_cell c := match c with InString x => Some x | _ => None end; of_to_cell _ := eq_refl |}.
#[global] Instance cell_bool : Cell (cell := cell) bool :=
  {| to_cell := InBool; of_cell c := match c with InBool x => Some x | _ => None end; of_to_cell _ := eq_refl |}.
#[global] Instance cell_Z : Cell (cell := cell) Z :=
  {| to_cell := InTime; of_cell c := match c with InTime x => Some x | _ => None end; of_to_cell _ := eq_refl |}.
#[global] Instance cell_liststring : Cell (cell := cell) (list string) :=
  {| to_cell := InStrings; of_cell c := match c with InStrings x => Some x | _ => None end; of_to_cell _ := eq_refl |}.
#[global] Instance cell_strmap : Cell (cell := cell) strmap :=
  {| to_cell := InMap; of_cell c := match c with InMap x => Some x | _ => None end; of_to_cell _ := eq_refl |}.
#[global] Instance cell_AuthSpec : Cell (cell := cell) AuthSpec :=
  {| to_cell := InAuth; of_cell c := match c with InAuth x => Some x | _ => None end; of_to_cell _ := eq_refl |}.
#[global] Instance cell_TLSSpec : Cell (cell := cell) TLSSpec :=
  {| to_cell := InTLS; of_cell c := match c with InTLS x => Some x | _ => None end; of_to_cell _ := eq_refl |}.
#[global] Instance cell_StorageSpecM : Cell (cell := cell) StorageSpecM :=
  {| to_cell := InStorage; of_cell c := match c with InStorage x => Some x | _ => None end; of_to_cell _ := eq_refl |}.
#[global] Instance cell_AffinityM : Cell (cell := cell) AffinityM :=
  {| to_cell := InAffinity; of_cell c := match c with InAffinity x => Some x | _ => None end; of_to_cell _ := eq_refl |}.
#[global] Instance cell_ResourcesM : Cell (cell := cell) ResourcesM :=
  {| to_cell := InResources; of_cell c := match c with InResources x => Some x | _ => None end; of_to_cell _ := eq_refl |}.
#[global] Instance cell_listTolerationM : Cell (cell := cell) (list TolerationM) :=
  {| to_cell := InTolerations; of_cell c := match c with InTolerations x => Some x | _ => None end; of_to_cell _ := eq_refl |}.
#[global] Instance cell_listConditionM : Cell (cell := cell) (list ConditionM) :=
  {| to_cell := InConditions; of_cell c := match c with InConditions x => Some x | _ => None end; of_to_cell _ := eq_refl |}.
#[global] Instance cell_RedisSpecM : Cell (cell := cell) RedisSpecM :=
  {| to_cell := InRedisSpec; of_cell c := match c with InRedisSpec x => Some x | _ => None end; of_to_cell _ := eq_refl |}.
#[global] Instance cell_RedisStatusM : Cell (cell := cell) RedisStatusM :=
  {| to_cell := InRedisStatus; of_cell c := match c with InRedisStatus x => Some x | _ => None end; of_to_cell _ := eq_refl |}.
#[global] Instance cell_RedisM : Cell (cell := cell) RedisM :=
  {| to_cell := InRedis; of_cell c := match c with InRedis x => Some x | _ => None end; of_to_cell _ := eq_refl |}.
#[global] Instance cell_listRedisM : Cell (cell := cell) (list RedisM) :=
  {| to_cell := InRedises; of_cell c := match c with InRedises x => Some x | _ => None end; of_to_cell _ := eq_refl |}.
#[global] Instance cell_ListMRedisM : Cell (cell := cell) (ListM RedisM) :=
  {| to_cell := InRedisList; of_cell c := match c with InRedisList x => Some x | _ => None end; of_to_cell _ := eq_refl |}.
#[global] Instance cell_RedisSentinelSpecM : Cell (cell := cell) RedisSentinelSpecM :=
  {| to_cell := InSentinelSpec; of_cell c := match c with InSentinelSpec x => Some x | _ => None end; of_to_cell _ := eq_refl |}.
#[global] Instance cell_RedisSentinelStatusM : Cell (cell := cell) RedisSentinelStatusM :=
  {| to_cell := InSentinelStatus; of_cell c := match c with InSentinelStatus x => Some x | _ => None end; of_to_cell _ := eq_refl |}.
#[global] Instance cell_RedisSentinelM : Cell (cell := cell) RedisSentinelM :=
  {| to_cell := InSentinel; of_cell c := match c with InSentinel x => Some x | _ => None end; of_to_cell _ := eq_refl |}.
#[global] Instance cell_listRedisSentinelM : Cell (cell := cell) (list RedisSentinelM) :=
  {| to_cell := InSentinels; of_cell c := match c with InSentinels x => Some x | _ => None end; of_to_cell _ := eq_refl |}.
#[global] Instance cell_ListMRedisSentinelM : Cell (cell := cell) (ListM RedisSentinelM) :=
  {| to_cell := InSentinelList; of_cell c := match c with InSentinelList x => Some x | _ => None end; of_to_cell _ := eq_refl |}.
#[global] Instance cell_RedisClusterSpecM : Cell (cell := cell) RedisClusterSpecM :=
  {| to_cell := InClusterSpec; of_cell c := match c with InClusterSpec x => Some x | _ => None end; of_to_cell _ := eq_refl |}.
#[global] Instance cell_RedisNodeStatus : Cell (cell := cell) RedisNodeStatus :=
  {| to_cell := InNode; of_cell c := match c with InNode x => Some x | _ => None end; of_to_cell _ := eq_refl |}.
#[global] Instance cell_listRedisNodeStatus : Cell (cell := cell) (list RedisNodeStatus) :=
  {| to_cell := InNodes; of_cell c := match c with InNodes x => Some x | _ => None end; of_to_cell _ := eq_refl |}.
#[global] Instance cell_RedisClusterStatusM : Cell (cell := cell) RedisClusterStatusM :=
  {| to_cell := InClusterStatus; of_cell c := match c with InClusterStatus x => Some x | _ => None end; of_to_cell _ := eq_refl |}.
#[global] Instance cell_RedisClusterM : Cell (cell := cell) RedisClusterM :=
  {| to_cell := InCluster; of_cell c := match c with InCluster x => Some x | _ => None end; of_to_cell _ := eq_refl |}.
#[global] Instance cell_listRedisClusterM : Cell (cell := cell) (list RedisClusterM) :=
  {| to_cell := InClusters; of_cell c := match c with InClusters x => Some x | _ => None end; of_to_cell _ := eq_refl |}.
#[global] Instance cell_ListMRedisClusterM : Cell (cell := cell) (ListM RedisClusterM) :=
  {| to_cell := InClusterList; of_cell c := match c with InClusterList x => Some x | _ => None end; of_to_cell _ := eq_refl |}.

#[local] Abbreviation heap := (gmap loc cell).

(** ** The copies of Kubernetes types *)

(** What is known of an external type: what it denotes, its zero value, and
    that its DeepCopyInto copies. *)
Record Foreign (M V : Type) := {
  denotes : heap → M → V → Prop;
  denotes_mono : Monotone denotes;
  zero : M;
  DeepCopyInto : M → mem (cell := cell) M;
  DeepCopyInto_copies : copies denotes DeepCopyInto
}.

Class MemLib := {
  affinity : Foreign AffinityM Affinity;
  toleration : Foreign TolerationM Toleration;
  resources : Foreign ResourcesM ResourceRequirements;
  condition : Foreign ConditionM Condition;
  listMeta : Foreign ListMetaM ListMeta;
  (** the fields of an object's metadata that the operator does not read *)
  reads_MetaRest : heap → MetaRestM → MetaRest → Prop;
  MetaRest_mono : Monotone reads_MetaRest;
  zeroMetaRest : MetaRestM
}.

End types.

#[global] Existing Instance denotes_mono.
#[global] Existing Instance MetaRest_mono.
Arguments denotes {_ _ _} _ _ _ _.
Arguments zero {_ _ _} _.
Arguments DeepCopyInto {_ _ _} _ _ _.
Arguments lm_TypeMeta {_ _} _.
Arguments lm_ListMeta {_ _} _.
Arguments lm_Items {_ _} _.

Section denotation.
Context {K : KubeTypes} {T : MemTypes} {L : MemLib}.

#[local] Abbreviation heap := (gmap loc cell).

(** ** What objects in memory denote *)

Definition reads_ObjectMeta (h : heap) (x : ObjectMetaM) (v : ObjectMeta) : Prop :=
  omm_Name x = om_Name v ∧ omm_Namespace x = om_Namespace v ∧
  reads_map h (omm_Labels x) (om_Labels v) ∧
  reads_map h (omm_Annotations x) (om_Annotations v) ∧
  omm_Generation x = om_Generation v ∧ omm_CreationTimestamp x = om_CreationTimestamp v ∧
  reads_ptr reads_flat h (omm_DeletionTimestamp x) (om_DeletionTimestamp v) ∧
  reads_slice reads_flat h (omm_Finalizers x) (om_Finalizers v) ∧
  reads_MetaRest h (omm_Rest x) (om_Rest v).

Definition reads_StorageSpec (h : heap) (x : StorageSpecM) (v : StorageSpec) : Prop :=
  reads_ptr reads_flat h (ssm_ClassName x) (ss_ClassName v) ∧
  ssm_Size x = ss_Size v ∧ ssm_KeepAfterDeletion x = ss_KeepAfterDeletion v.

Definition reads_RedisSpec (h : heap) (x : RedisSpecM) (v : RedisSpec) : Prop :=
  rm_Image x = r_Image v ∧
  denotes resources h (rm_Resources x) (r_Resources v) ∧
  reads_ptr reads_StorageSpec h (rm_Storage x) (r_Storage v) ∧
  reads_option_map h (rm_RedisConfig x) (r_RedisConfig v) ∧
  reads_ptr reads_flat h (rm_Auth x) (r_Auth v) ∧
  reads_ptr reads_flat h (rm_TLS x) (r_TLS v) ∧
  reads_ptr reads_flat h (rm_EnableExporter x) (r_EnableExporter v) ∧
  rm_ExporterImage x = r_ExporterImage v ∧
  reads_ptr (denotes affinity) h (rm_Affinity x) (r_Affinity v) ∧
  reads_slice (denotes toleration) h (rm_Tolerations x) (r_Tolerations v) ∧
  reads_map h (rm_NodeSelector x) (r_NodeSelector v).

Definition reads_RedisStatus (h : heap) (x : RedisStatusM) (v : RedisStatus) : Prop :=
  rstm_Phase x = rst_Phase v ∧ rstm_Message x = rst_Message v ∧
  reads_slice (denotes condition) h (rstm_Conditions x) (rst_Conditions v) ∧
  rstm_RedisVersion x = rst_RedisVersion v ∧ rstm_ReadyReplicas x = rst_ReadyReplicas v.

Definition reads_Redis (h : heap) (x : RedisM) (v : TypeMeta * Redis) : Prop :=
  redism_TypeMeta x = v.1 ∧
  reads_ObjectMeta h (redism_ObjectMeta x) (redis_meta v.2) ∧
  reads_RedisSpec h (redism_Spec x) (redis_Spec v.2) ∧
  reads_RedisStatus h (redism_Status x) (redis_Status v.2).

Definition reads_RedisSentinelSpec (h : heap) (x : RedisSentinelSpecM) (v : RedisSentinelSpec) : Prop :=
  sm_Replicas x = s_Replicas v ∧ sm_SentinelReplicas x = s_SentinelReplicas v ∧
  sm_Image x = s_Image v ∧ sm_SentinelImage x = s_SentinelImage v ∧
  denotes resources h (sm_Resources x) (s_Resources v) ∧
  denotes resources h (sm_SentinelResources x) (s_SentinelResources v) ∧
  reads_ptr reads_StorageSpec h (sm_Storage x) (s_Storage v) ∧
  reads_option_map h (sm_RedisConfig x) (s_RedisConfig v) ∧
  reads_map h (sm_SentinelConfig x) (s_SentinelConfig v) ∧
  reads_ptr reads_flat h (sm_Auth x) (s_Auth v) ∧
  reads_ptr reads_flat h (sm_TLS x) (s_TLS v) ∧
  reads_ptr reads_flat h (sm_EnableExporter x) (s_EnableExporter v) ∧
  sm_ExporterImage x = s_ExporterImage v ∧
  reads_ptr (denotes affinity) h (sm_Affinity x) (s_Affinity v) ∧
  reads_slice (denotes toleration) h (sm_Tolerations x) (s_Tolerations v) ∧
  reads_map h (sm_NodeSelector x) (s_NodeSelector v).

Definition reads_RedisSentinelStatus (h : heap) (x : RedisSentinelStatusM) (v : RedisSentinelStatus) : Prop :=
  sstm_Phase x = sst_Phase v ∧ sstm_Message x = sst_Message v ∧
  reads_slice (denotes condition) h (sstm_Conditions x) (sst_Conditions v) ∧
  sstm_MasterNode x = sst_MasterNode v ∧ sstm_ReadyReplicas x = sst_ReadyReplicas v ∧
  sstm_ReadySentinels x = sst_ReadySentinels v.

Definition reads_RedisSentinel (h : heap) (x : RedisSentinelM) (v : TypeMeta * RedisSentinel) : Prop :=
  sentinelm_TypeMeta x = v.1 ∧
  reads_ObjectMeta h (sentinelm_ObjectMeta x) (sentinel_meta v.2) ∧
  reads_RedisSentinelSpec h (sentinelm_Spec x) (sentinel_Spec v.2) ∧
  reads_RedisSentinelStatus h (sentinelm_Status x) (sentinel_Status v.2).

Definition reads_RedisClusterSpec (h : heap) (x : RedisClusterSpecM) (v : RedisClusterSpec) : Prop :=
  cm_Masters x = c_Masters v ∧ cm_ReplicasPerMaster x = c_ReplicasPerMaster v ∧ cm_Image x = c_Image v ∧
  denotes resources h (cm_Resources x) (c_Resources v) ∧
  reads_ptr (denotes resources) h (cm_MasterResources x) (c_MasterResources v) ∧
  reads_ptr (denotes resources) h (cm_ReplicaResources x) (c_ReplicaResources v) ∧
  reads_ptr reads_StorageSpec h (cm_Storage x) (c_Storage v) ∧
  reads_option_map h (cm_RedisConfig x) (c_RedisConfig v) ∧
  reads_ptr reads_flat h (cm_Auth x) (c_Auth v) ∧
  reads_ptr reads_flat h (cm_TLS x) (c_TLS v) ∧
  reads_ptr reads_flat h (cm_EnableExporter x) (c_EnableExporter v) ∧
  cm_ExporterImage x = c_ExporterImage v ∧
  reads_ptr (denotes affinity) h (cm_MasterAffinity x) (c_MasterAffinity v) ∧
  reads_slice (denotes toleration) h (cm_MasterTolerations x) (c_MasterTolerations v) ∧
  reads_map h (cm_MasterNodeSelector x) (c_MasterNodeSelector v) ∧
  reads_ptr (denotes affinity) h (cm_ReplicaAffinity x) (c_ReplicaAffinity v) ∧
  reads_slice (denotes toleration) h (cm_ReplicaTolerations x) (c_ReplicaTolerations v) ∧
  reads_map h (cm_ReplicaNodeSelector x) (c_ReplicaNodeSelector v).

Definition reads_RedisClusterStatus (h : heap) (x : RedisClusterStatusM) (v : RedisClusterStatus) : Prop :=
  cstm_Phase x = cst_Phase v ∧ cstm_Message x = cst_Message v ∧
  reads_slice (denotes condition) h (cstm_Conditions x) (cst_Conditions v) ∧
  cstm_ReadyMasters x = cst_ReadyMasters v ∧ cstm_ReadyReplicas x = cst_ReadyReplicas v ∧
  cstm_AssignedSlots x = cst_AssignedSlots v ∧ cstm_ClusterState x = cst_ClusterState v ∧
  reads_slice reads_flat h (cstm_Nodes x) (cst_Nodes v).

Definition reads_RedisCluster (h : heap) (x : RedisClusterM) (v : TypeMeta * RedisCluster) : Prop :=
  clusterm_TypeMeta x = v.1 ∧
  reads_ObjectMeta h (clusterm_ObjectMeta x) (cluster_meta v.2) ∧
  reads_RedisClusterSpec h (clusterm_Spec x) (cluster_Spec v.2) ∧
  reads_RedisClusterStatus h (clusterm_Status x) (cluster_Status v.2).

(** A list of objects: its type, its metadata and its items. *)
Definition reads_list {M V} `{Cell (cell := cell) (list M)} (rd : heap → M → V → Prop) (h : heap) (x : ListM M)
    (v : TypeMeta * ListMeta * list V) : Prop :=
  lm_TypeMeta x = v.1.1 ∧ denotes listMeta h (lm_ListMeta x) v.1.2 ∧ reads_slice rd h (lm_Items x) v.2.

(** Every denotation is a conjunction of monotone ones. *)
Ltac monotone :=
  let Hs := fresh "Hs" in let H := fresh "H" in
  intros ? ? ? ? Hs H; red in H; repeat match type of H with _ ∧ _ =>
    let H1 := fresh "H" in destruct H as [H1 H] end;
  red; repeat match goal with |- _ ∧ _ => split end; first [assumption | eapply mono; eassumption].

#[global] Instance ObjectMeta_mono : Monotone reads_ObjectMeta.
Proof. monotone. Qed.
#[global] Instance StorageSpec_mono : Monotone reads_StorageSpec.
Proof. monotone. Qed.
#[global] Instance RedisSpec_mono : Monotone reads_RedisSpec.
Proof. monotone. Qed.
#[global] Instance RedisStatus_mono : Monotone reads_RedisStatus.
Proof. monotone. Qed.
#[global] Instance Redis_mono : Monotone reads_Redis.
Proof. monotone. Qed.
#[global] Instance RedisSentinelSpec_mono : Monotone reads_RedisSentinelSpec.
Proof. monotone. Qed.
#[global] Instance RedisSentinelStatus_mono : Monotone reads_RedisSentinelStatus.
Proof. monotone. Qed.
#[global] Instance RedisSentinel_mono : Monotone reads_RedisSentinel.
Proof. monotone. Qed.
#[global] Instance RedisClusterSpec_mono : Monotone reads_RedisClusterSpec.
Proof. monotone. Qed.
#[global] Instance RedisClusterStatus_mono : Monotone reads_RedisClusterStatus.
Proof. monotone. Qed.
#[global] Instance RedisCluster_mono : Monotone reads_RedisCluster.
Proof. monotone. Qed.
#[global] Instance list_mono {M V} `{Cell (cell := cell) (list M)} (rd : heap → M → V → Prop) `{!Monotone rd} :
  Monotone (reads_list rd).
Proof. monotone. Qed.

(** The DeepCopyInto of [metav1.ObjectMeta] *)
Class MetaLib := {
  ObjectMeta_DeepCopyInto : ObjectMetaM → mem (cell := cell) ObjectMetaM;
  ObjectMeta_DeepCopyInto_copies : copies reads_ObjectMeta ObjectMeta_DeepCopyInto
}.

End denotation.

(** ** The generated functions

    [DeepCopyInto] takes the receiver's value and gives the value of [*out];
    a field it does not mention is copied by [*out = *in].  [DeepCopy] is
    [copy_ptr] with the type's zero value: nil for nil, otherwise a new cell
    that DeepCopyInto fills. *)

Section functions.
Context {K : KubeTypes} {T : MemTypes} {L : MemLib} {M : MetaLib} {R : RangeOrder (cell := cell)}.

#[local] Abbreviation mem := (Memory.mem (cell := cell)).

Definition AuthSpec_DeepCopyInto (src : AuthSpec) : mem AuthSpec := mret src.
Definition AuthSpec_DeepCopy : ptr AuthSpec → mem (ptr AuthSpec) :=
  copy_ptr {| auth_SecretName := "" |} AuthSpec_DeepCopyInto.

Definition TLSSpec_DeepCopyInto (src : TLSSpec) : mem TLSSpec := mret src.
Definition TLSSpec_DeepCopy : ptr TLSSpec → mem (ptr TLSSpec) :=
  copy_ptr {| tls_SecretName := "" |} TLSSpec_DeepCopyInto.

Definition zeroStorageSpec : StorageSpecM :=
  {| ssm_ClassName := None; ssm_Size := ""; ssm_KeepAfterDeletion := false |}.

Definition StorageSpec_DeepCopyInto (src : StorageSpecM) : mem StorageSpecM :=
  className ← copy_ptr "" mret (ssm_ClassName src);
  mret {| ssm_ClassName := className; ssm_Size := ssm_Size src;
          ssm_KeepAfterDeletion := ssm_KeepAfterDeletion src |}.

Definition StorageSpec_DeepCopy : ptr StorageSpecM → mem (ptr StorageSpecM) :=
  copy_ptr zeroStorageSpec StorageSpec_DeepCopyInto.

(** *** Redis *)

Definition nil_slice {A} : slice A := Slice None 0 0.

Definition zeroRedisSpec : RedisSpecM :=
  {| rm_Image := ""; rm_Resources := zero resources; rm_Storage := None; rm_RedisConfig := None; rm_Auth := None;
     rm_TLS := None; rm_EnableExporter := None; rm_ExporterImage := ""; rm_Affinity := None;
     rm_Tolerations := nil_slice; rm_NodeSelector := None |}.

Definition RedisSpec_DeepCopyInto (src : RedisSpecM) : mem RedisSpecM :=
  resources' ← DeepCopyInto resources (rm_Resources src);
  storage ← copy_ptr zeroStorageSpec StorageSpec_DeepCopyInto (rm_Storage src);
  redisConfig ← copy_map (rm_RedisConfig src);
  auth ← copy_ptr {| auth_SecretName := "" |} mret (rm_Auth src);
  tls ← copy_ptr {| tls_SecretName := "" |} mret (rm_TLS src);
  enableExporter ← copy_ptr false mret (rm_EnableExporter src);
  affinity' ← copy_ptr (zero affinity) (DeepCopyInto affinity) (rm_Affinity src);
  tolerations ← copy_slice (zero toleration) (DeepCopyInto toleration) (rm_Tolerations src);
  nodeSelector ← copy_map (rm_NodeSelector src);
  mret {| rm_Image := rm_Image src; rm_Resources := resources'; rm_Storage := storage;
          rm_RedisConfig := redisConfig; rm_Auth := auth; rm_TLS := tls; rm_EnableExporter := enableExporter;
          rm_ExporterImage := rm_ExporterImage src; rm_Affinity := affinity'; rm_Tolerations := tolerations;
          rm_NodeSelector := nodeSelector |}.

Definition RedisSpec_DeepCopy : ptr RedisSpecM → mem (ptr RedisSpecM) :=
  copy_ptr zeroRedisSpec RedisSpec_DeepCopyInto.

Definition zeroRedisStatus : RedisStatusM :=
  {| rstm_Phase := ""; rstm_Message := ""; rstm_Conditions := nil_slice; rstm_RedisVersion := "";
     rstm_ReadyReplicas := 0 |}.

Definition RedisStatus_DeepCopyInto (src : RedisStatusM) : mem RedisStatusM :=
  conditions ← copy_slice (zero condition) (DeepCopyInto condition) (rstm_Conditions src);
  mret {| rstm_Phase := rstm_Phase src; rstm_Message := rstm_Message src; rstm_Conditions := conditions;
          rstm_RedisVersion := rstm_RedisVersion src; rstm_ReadyReplicas := rstm_ReadyReplicas src |}.

Definition RedisStatus_DeepCopy : ptr RedisStatusM → mem (ptr RedisStatusM) :=
  copy_ptr zeroRedisStatus RedisStatus_DeepCopyInto.

Definition zeroTypeMeta : TypeMeta := {| tm_Kind := ""; tm_APIVersion := "" |}.

Definition zeroObjectMeta : ObjectMetaM :=
  {| omm_Name := ""; omm_Namespace := ""; omm_Labels := None; omm_Annotations := None; omm_Generation := 0;
     omm_CreationTimestamp := None; omm_DeletionTimestamp := None; omm_Finalizers := nil_slice;
     omm_Rest := zeroMetaRest |}.

Definition zeroRedis : RedisM :=
  {| redism_TypeMeta := zeroTypeMeta; redism_ObjectMeta := zeroObjectMeta; redism_Spec := zeroRedisSpec;
     redism_Status := zeroRedisStatus |}.

Definition Redis_DeepCopyInto (src : RedisM) : mem RedisM :=
  objectMeta ← ObjectMeta_DeepCopyInto (redism_ObjectMeta src);
  spec ← RedisSpec_DeepCopyInto (redism_Spec src);
  status ← RedisStatus_DeepCopyInto (redism_Status src);
  mret {| redism_TypeMeta := redism_TypeMeta src; redism_ObjectMeta := objectMeta; redism_Spec := spec;
          redism_Status := status |}.

Definition Redis_DeepCopy : ptr RedisM → mem (ptr RedisM) := copy_ptr zeroRedis Redis_DeepCopyInto.

Definition zeroList {A} : ListM A :=
  {| lm_TypeMeta := zeroTypeMeta; lm_ListMeta := zero listMeta; lm_Items := nil_slice |}.

Definition RedisList_DeepCopyInto (src : ListM RedisM) : mem (ListM RedisM) :=
  listMeta' ← DeepCopyInto listMeta (lm_ListMeta src);
  items ← copy_slice zeroRedis Redis_DeepCopyInto (lm_Items src);
  mret {| lm_TypeMeta := lm_TypeMeta src; lm_ListMeta := listMeta'; lm_Items := items |}.

Definition RedisList_DeepCopy : ptr (ListM RedisM) → mem (ptr (ListM RedisM)) :=
  copy_ptr zeroList RedisList_DeepCopyInto.

(** *** RedisSentinel *)

Definition zeroRedisSentinelSpec : RedisSentinelSpecM :=
  {| sm_Replicas := 0; sm_SentinelReplicas := 0; sm_Image := ""; sm_SentinelImage := "";
     sm_Resources := zero resources; sm_SentinelResources := zero resources; sm_Storage := None;
     sm_RedisConfig := None; sm_SentinelConfig := None; sm_Auth := None; sm_TLS := None; sm_EnableExporter := None;
     sm_ExporterImage := ""; sm_Affinity := None; sm_Tolerations := nil_slice; sm_NodeSelector := None |}.

Definition RedisSentinelSpec_DeepCopyInto (src : RedisSentinelSpecM) : mem RedisSentinelSpecM :=
  resources' ← DeepCopyInto resources (sm_Resources src);
  sentinelResources ← DeepCopyInto resources (sm_SentinelResources src);
  storage ← copy_ptr zeroStorageSpec StorageSpec_DeepCopyInto (sm_Storage src);
  redisConfig ← copy_map (sm_RedisConfig src);
  sentinelConfig ← copy_map (sm_SentinelConfig src);
  auth ← copy_ptr {| auth_SecretName := "" |} mret (sm_Auth src);
  tls ← copy_ptr {| tls_SecretName := "" |} mret (sm_TLS src);
  enableExporter ← copy_ptr false mret (sm_EnableExporter src);
  affinity' ← copy_ptr (zero affinity) (DeepCopyInto affinity) (sm_Affinity src);
  tolerations ← copy_slice (zero toleration) (DeepCopyInto toleration) (sm_Tolerations src);
  nodeSelector ← copy_map (sm_NodeSelector src);
  mret {| sm_Replicas := sm_Replicas src; sm_SentinelReplicas := sm_SentinelReplicas src; sm_Image := sm_Image src;
          sm_SentinelImage := sm_SentinelImage src; sm_Resources := resources';
          sm_SentinelResources := sentinelResources; sm_Storage := storage; sm_RedisConfig := redisConfig;
          sm_SentinelConfig := sentinelConfig; sm_Auth := auth; sm_TLS := tls; sm_EnableExporter := enableExporter;
          sm_ExporterImage := sm_ExporterImage src; sm_Affinity := affinity'; sm_Tolerations := tolerations;
          sm_NodeSelector := nodeSelector |}.

Definition RedisSentinelSpec_DeepCopy : ptr RedisSentinelSpecM → mem (ptr RedisSentinelSpecM) :=
  copy_ptr zeroRedisSentinelSpec RedisSentinelSpec_DeepCopyInto.

Definition zeroRedisSentinelStatus : RedisSentinelStatusM :=
  {| sstm_Phase := ""; sstm_Message := ""; sstm_Conditions := nil_slice; sstm_MasterNode := "";
     sstm_ReadyReplicas := 0; sstm_ReadySentinels := 0 |}.

Definition RedisSentinelStatus_DeepCopyInto (src : RedisSentinelStatusM) : mem RedisSentinelStatusM :=
  conditions ← copy_slice (zero condition) (DeepCopyInto condition) (sstm_Conditions src);
  mret {| sstm_Phase := sstm_Phase src; sstm_Message := sstm_Message src; sstm_Conditions := conditions;
          sstm_MasterNode := sstm_MasterNode src; sstm_ReadyReplicas := sstm_ReadyReplicas src;
          sstm_ReadySentinels := sstm_ReadySentinels src |}.

Definition RedisSentinelStatus_DeepCopy : ptr RedisSentinelStatusM → mem (ptr RedisSentinelStatusM) :=
  copy_ptr zeroRedisSentinelStatus RedisSentinelStatus_DeepCopyInto.

Definition zeroRedisSentinel : RedisSentinelM :=
  {| sentinelm_TypeMeta := zeroTypeMeta; sentinelm_ObjectMeta := zeroObjectMeta;
     sentinelm_Spec := zeroRedisSentinelSpec; sentinelm_Status := zeroRedisSentinelStatus |}.

Definition RedisSentinel_DeepCopyInto (src : RedisSentinelM) : mem RedisSentinelM :=
  objectMeta ← ObjectMeta_DeepCopyInto (sentinelm_ObjectMeta src);
  spec ← RedisSentinelSpec_DeepCopyInto (sentinelm_Spec src);
  status ← RedisSentinelStatus_DeepCopyInto (sentinelm_Status src);
  mret {| sentinelm_TypeMeta := sentinelm_TypeMeta src; sentinelm_ObjectMeta := objectMeta;
          sentinelm_Spec := spec; sentinelm_Status := status |}.

Definition RedisSentinel_DeepCopy : ptr RedisSentinelM → mem (ptr RedisSentinelM) :=
  copy_ptr zeroRedisSentinel RedisSentinel_DeepCopyInto.

Definition RedisSentinelList_DeepCopyInto (src : ListM RedisSentinelM) : mem (ListM RedisSentinelM) :=
  listMeta' ← DeepCopyInto listMeta (lm_ListMeta src);
  items ← copy_slice zeroRedisSentinel RedisSentinel_DeepCopyInto (lm_Items src);
  mret {| lm_TypeMeta := lm_TypeMeta src; lm_ListMeta := listMeta'; lm_Items := items |}.

Definition RedisSentinelList_DeepCopy : ptr (ListM RedisSentinelM) → mem (ptr (ListM RedisSentinelM)) :=
  copy_ptr zeroList RedisSentinelList_DeepCopyInto.

(** *** RedisCluster *)

Definition zeroRedisClusterSpec : RedisClusterSpecM :=
  {| cm_Masters := 0; cm_ReplicasPerMaster := 0; cm_Image := ""; cm_Resources := zero resources;
     cm_MasterResources := None; cm_ReplicaResources := None; cm_Storage := None; cm_RedisConfig := None;
     cm_Auth := None; cm_TLS := None; cm_EnableExporter := None; cm_ExporterImage := ""; cm_MasterAffinity := None;
     cm_MasterTolerations := nil_slice; cm_MasterNodeSelector := None; cm_ReplicaAffinity := None;
     cm_ReplicaTolerations := nil_slice; cm_ReplicaNodeSelector := None |}.

Definition RedisClusterSpec_DeepCopyInto (src : RedisClusterSpecM) : mem RedisClusterSpecM :=
  resources' ← DeepCopyInto resources (cm_Resources src);
  masterResources ← copy_ptr (zero resources) (DeepCopyInto resources) (cm_MasterResources src);
  replicaResources ← copy_ptr (zero resources) (DeepCopyInto resources) (cm_ReplicaResources src);
  storage ← copy_ptr zeroStorageSpec StorageSpec_DeepCopyInto (cm_Storage src);
  redisConfig ← copy_map (cm_RedisConfig src);
  auth ← copy_ptr {| auth_SecretName := "" |} mret (cm_Auth src);
  tls ← copy_ptr {| tls_SecretName := "" |} mret (cm_TLS src);
  enableExporter ← copy_ptr false mret (cm_EnableExporter src);
  masterAffinity ← copy_ptr (zero affinity) (DeepCopyInto affinity) (cm_MasterAffinity src);
  masterTolerations ← copy_slice (zero toleration) (DeepCopyInto toleration) (cm_MasterTolerations src);
  masterNodeSelector ← copy_map (cm_MasterNodeSelector src);
  replicaAffinity ← copy_ptr (zero affinity) (DeepCopyInto affinity) (cm_ReplicaAffinity src);
  replicaTolerations ← copy_slice (zero toleration) (DeepCopyInto toleration) (cm_ReplicaTolerations src);
  replicaNodeSelector ← copy_map (cm_ReplicaNodeSelector src);
  mret {| cm_Masters := cm_Masters src; cm_ReplicasPerMaster := cm_ReplicasPerMaster src; cm_Image := cm_Image src;
          cm_Resources := resources'; cm_MasterResources := masterResources; cm_ReplicaResources := replicaResources;
          cm_Storage := storage; cm_RedisConfig := redisConfig; cm_Auth := auth; cm_TLS := tls;
          cm_EnableExporter := enableExporter; cm_ExporterImage := cm_ExporterImage src;
          cm_MasterAffinity := masterAffinity; cm_MasterTolerations := masterTolerations;
          cm_MasterNodeSelector := masterNodeSelector; cm_ReplicaAffinity := replicaAffinity;
          cm_ReplicaTolerations := replicaTolerations; cm_ReplicaNodeSelector := replicaNodeSelector |}.

Definition RedisClusterSpec_DeepCopy : ptr RedisClusterSpecM → mem (ptr RedisClusterSpecM) :=
  copy_ptr zeroRedisClusterSpec RedisClusterSpec_DeepCopyInto.

Definition RedisNodeStatus_DeepCopyInto (src : RedisNodeStatus) : mem RedisNodeStatus := mret src.

Definition zeroRedisNodeStatus : RedisNodeStatus :=
  {| ns_NodeID := ""; ns_PodName := ""; ns_IP := ""; ns_Role := ""; ns_Slots := ""; ns_MasterRef := "";
     ns_Health := "" |}.

Definition RedisNodeStatus_DeepCopy : ptr RedisNodeStatus → mem (ptr RedisNodeStatus) :=
  copy_ptr zeroRedisNodeStatus RedisNodeStatus_DeepCopyInto.

Definition zeroRedisClusterStatus : RedisClusterStatusM :=
  {| cstm_Phase := ""; cstm_Message := ""; cstm_Conditions := nil_slice; cstm_ReadyMasters := 0;
     cstm_ReadyReplicas := 0; cstm_AssignedSlots := 0; cstm_ClusterState := ""; cstm_Nodes := nil_slice |}.

Definition RedisClusterStatus_DeepCopyInto (src : RedisClusterStatusM) : mem RedisClusterStatusM :=
  conditions ← copy_slice (zero condition) (DeepCopyInto condition) (cstm_Conditions src);
  nodes ← copy_flat_slice zeroRedisNodeStatus (cstm_Nodes src);
  mret {| cstm_Phase := cstm_Phase src; cstm_Message := cstm_Message src; cstm_Conditions := conditions;
          cstm_ReadyMasters := cstm_ReadyMasters src; cstm_ReadyReplicas := cstm_ReadyReplicas src;
          cstm_AssignedSlots := cstm_AssignedSlots src; cstm_ClusterState := cstm_ClusterState src;
          cstm_Nodes := nodes |}.

Definition RedisClusterStatus_DeepCopy : ptr RedisClusterStatusM → mem (ptr RedisClusterStatusM) :=
  copy_ptr zeroRedisClusterStatus RedisClusterStatus_DeepCopyInto.

Definition zeroRedisCluster : RedisClusterM :=
  {| clusterm_TypeMeta := zeroTypeMeta; clusterm_ObjectMeta := zeroObjectMeta;
     clusterm_Spec := zeroRedisClusterSpec; clusterm_Status := zeroRedisClusterStatus |}.

Definition RedisCluster_DeepCopyInto (src : RedisClusterM) : mem RedisClusterM :=
  objectMeta ← ObjectMeta_DeepCopyInto (clusterm_ObjectMeta src);
  spec ← RedisClusterSpec_DeepCopyInto (clusterm_Spec src);
  status ← RedisClusterStatus_DeepCopyInto (clusterm_Status src);
  mret {| clusterm_TypeMeta := clusterm_TypeMeta src; clusterm_ObjectMeta := objectMeta;
          clusterm_Spec := spec; clusterm_Status := status |}.

Definition RedisCluster_DeepCopy : ptr RedisClusterM → mem (ptr RedisClusterM) :=
  copy_ptr zeroRedisCluster RedisCluster_DeepCopyInto.

Definition RedisClusterList_DeepCopyInto (src : ListM RedisClusterM) : mem (ListM RedisClusterM) :=
  listMeta' ← DeepCopyInto listMeta (lm_ListMeta src);
  items ← copy_slice zeroRedisCluster RedisCluster_DeepCopyInto (lm_Items src);
  mret {| lm_TypeMeta := lm_TypeMeta src; lm_ListMeta := listMeta'; lm_Items := items |}.

Definition RedisClusterList_DeepCopy : ptr (ListM RedisClusterM) → mem (ptr (ListM RedisClusterM)) :=
  copy_ptr zeroList RedisClusterList_DeepCopyInto.

(** *** DeepCopyObject

    A [runtime.Object] is an interface: [None] is the nil interface, which an
    interface that holds a nil pointer is not. *)

Inductive runtime_Object :=
| AsRedis (p : ptr RedisM)
| AsRedisList (p : ptr (ListM RedisM))
| AsRedisSentinel (p : ptr RedisSentinelM)
| AsRedisSentinelList (p : ptr (ListM RedisSentinelM))
| AsRedisCluster (p : ptr RedisClusterM)
| AsRedisClusterList (p : ptr (ListM RedisClusterM)).

(** [if c := in.DeepCopy(); c != nil { return c }; return nil] *)
Definition as_object {A} (box : ptr A → runtime_Object) (c : mem (ptr A)) : mem (option runtime_Object) :=
  p ← c; mret (match p with Some _ => Some (box p) | None => None end).

Definition Redis_DeepCopyObject (src : ptr RedisM) : mem (option runtime_Object) :=
  as_object AsRedis (Redis_DeepCopy src).
Definition RedisList_DeepCopyObject (src : ptr (ListM RedisM)) : mem (option runtime_Object) :=
  as_object AsRedisList (RedisList_DeepCopy src).
Definition RedisSentinel_DeepCopyObject (src : ptr RedisSentinelM) : mem (option runtime_Object) :=
  as_object AsRedisSentinel (RedisSentinel_DeepCopy src).
Definition RedisSentinelList_DeepCopyObject (src : ptr (ListM RedisSentinelM)) : mem (option runtime_Object) :=
  as_object AsRedisSentinelList (RedisSentinelList_DeepCopy src).
Definition RedisCluster_DeepCopyObject (src : ptr RedisClusterM) : mem (option runtime_Object) :=
  as_object AsRedisCluster (RedisCluster_DeepCopy src).
Definition RedisClusterList_DeepCopyObject (src : ptr (ListM RedisClusterM)) : mem (option runtime_Object) :=
  as_object AsRedisClusterList (RedisClusterList_DeepCopy src).

End functions.

(** ** They copy *)

(** Reads one field after the other into fresh memory: each step keeps what
    the original denotes and what has been copied so far. *)
Ltac lift_reads h h' Hs :=
  repeat match goal with
  | H : ?rd h ?x ?v |- _ => apply (mono (rd := rd) h h' x v Hs) in H
  | H : ?rd (h ∖ ?h0) ?x ?v |- _ =>
      apply (mono (rd := rd) (h ∖ h0) (h' ∖ h0) x v (fresh_cells_mono h0 h h' Hs)) in H
  | H : ?h0 ⊆ h |- _ => lazymatch goal with _ : h0 ⊆ h' |- _ => fail | _ => pose proof (transitivity H Hs) end
  end.

Create HintDb copying discriminated.
#[export] Hint Resolve copy_ptr_copies copy_slice_copies copy_map_copies copy_option_map_copies
  copy_flat_slice_copies mret_copies DeepCopyInto_copies ObjectMeta_DeepCopyInto_copies : copying.
#[export] Hint Extern 0 (Monotone _) => apply _ : copying.

Ltac copying :=
  let h := fresh "h" in let x := fresh "x" in let v := fresh "v" in let H := fresh "H" in
  apply copies_intro; intros h x v H; red in H;
  repeat match type of H with _ ∧ _ => let H1 := fresh "H" in destruct H as [H1 H] end;
  assert (h ⊆ h) by reflexivity;
  repeat match goal with
  | |- allocates ?h0 ?h (mbind _ (?f ?y)) _ =>
      eapply allocates_bind;
        [ eapply (allocates_copy _ f h0 h y); [eassumption|eassumption|eauto with copying|apply _]
        | let y' := fresh "y" in let h' := fresh "h" in let Hs := fresh "Hs" in let Hy := fresh "Hy" in
          intros y' h' Hs Hy; cbv beta in Hy; lift_reads h h' Hs ]
  end;
  apply allocates_ret; red; repeat match goal with |- _ ∧ _ => split end; assumption.

Section copying.
Context {K : KubeTypes} {T : MemTypes} {L : MemLib} {M : MetaLib} {R : RangeOrder (cell := cell)}.
#[local] Abbreviation heap := (gmap loc cell).
#[local] Abbreviation mem := (Memory.mem (cell := cell)).

Lemma StorageSpec_copies : copies reads_StorageSpec StorageSpec_DeepCopyInto.
Proof. unfold StorageSpec_DeepCopyInto. copying. Qed.

#[local] Hint Resolve StorageSpec_copies : copying.

Lemma RedisSpec_copies : copies reads_RedisSpec RedisSpec_DeepCopyInto.
Proof. unfold RedisSpec_DeepCopyInto. copying. Qed.
#[local] Hint Resolve RedisSpec_copies : copying.

Lemma RedisStatus_copies : copies reads_RedisStatus RedisStatus_DeepCopyInto.
Proof. unfold RedisStatus_DeepCopyInto. copying. Qed.
#[local] Hint Resolve RedisStatus_copies : copying.

Lemma Redis_copies : copies reads_Redis Redis_DeepCopyInto.
Proof. unfold Redis_DeepCopyInto. copying. Qed.
#[local] Hint Resolve Redis_copies : copying.

Lemma RedisSentinelSpec_copies : copies reads_RedisSentinelSpec RedisSentinelSpec_DeepCopyInto.
Proof. unfold RedisSentinelSpec_DeepCopyInto. copying. Qed.
#[local] Hint Resolve RedisSentinelSpec_copies : copying.

Lemma RedisSentinelStatus_copies : copies reads_RedisSentinelStatus RedisSentinelStatus_DeepCopyInto.
Proof. unfold RedisSentinelStatus_DeepCopyInto. copying. Qed.
#[local] Hint Resolve RedisSentinelStatus_copies : copying.

Lemma RedisSentinel_copies : copies reads_RedisSentinel RedisSentinel_DeepCopyInto.
Proof. unfold RedisSentinel_DeepCopyInto. copying. Qed.
#[local] Hint Resolve RedisSentinel_copies : copying.

Lemma RedisClusterSpec_copies : copies reads_RedisClusterSpec RedisClusterSpec_DeepCopyInto.
Proof. unfold RedisClusterSpec_DeepCopyInto. copying. Qed.
#[local] Hint Resolve RedisClusterSpec_copies : copying.

Lemma RedisClusterStatus_copies : copies reads_RedisClusterStatus RedisClusterStatus_DeepCopyInto.
Proof. unfold RedisClusterStatus_DeepCopyInto. copying. Qed.
#[local] Hint Resolve RedisClusterStatus_copies : copying.

Lemma RedisCluster_copies : copies reads_RedisCluster RedisCluster_DeepCopyInto.
Proof. unfold RedisCluster_DeepCopyInto. copying. Qed.
#[local] Hint Resolve RedisCluster_copies : copying.

Lemma RedisList_copies : copies (reads_list reads_Redis) RedisList_DeepCopyInto.
Proof. unfold RedisList_DeepCopyInto. copying. Qed.
#[local] Hint Resolve RedisList_copies : copying.

Lemma RedisSentinelList_copies : copies (reads_list reads_RedisSentinel) RedisSentinelList_DeepCopyInto.
Proof. unfold RedisSentinelList_DeepCopyInto. copying. Qed.
#[local] Hint Resolve RedisSentinelList_copies : copying.

Lemma RedisClusterList_copies : copies (reads_list reads_RedisCluster) RedisClusterList_DeepCopyInto.
Proof. unfold RedisClusterList_DeepCopyInto. copying. Qed.
#[local] Hint Resolve RedisClusterList_copies : copying.

(** A method DeepCopy and its DeepCopyObject return, without a panic, an
    object on fresh cells: the original is untouched, the copy denotes the same
    whatever becomes of all memory that existed before, the original whatever
    becomes of the new memory; nil is copied to nil, and to the nil
    interface. *)
Definition isolated {A V} `{Cell (cell := cell) A} (rd : heap → A → V → Prop) (box : ptr A → runtime_Object)
    (copy : ptr A → mem (ptr A)) (copyObject : ptr A → mem (option runtime_Object)) : Prop :=
  ∀ h p o, reads_ptr rd h p o → ∃ q n,
    copy p h = Some (q, h ∪ n) ∧
    copyObject p h = Some (match o with Some _ => Some (box q) | None => None end, h ∪ n) ∧
    h ##ₘ n ∧
    (∀ old, old ##ₘ n → reads_ptr rd (old ∪ n) q o) ∧
    (∀ new, h ##ₘ new → reads_ptr rd (h ∪ new) p o).

Lemma copies_isolated {A V} `{Cell (cell := cell) A} (rd : heap → A → V → Prop) `{!Monotone rd} box zero into :
  copies rd into → isolated rd box (copy_ptr zero into) (λ p, as_object box (copy_ptr zero into p)).
Proof.
  intros Hf h p o Hp. destruct (copy_ptr_copies rd zero into Hf h p o Hp) as (q & n & E & Hd & Hq).
  exists q, n. split_and!; [done| |done| |].
  - eapply then_run; [exact E|]. by destruct q, o.
  - intros old Ho. eapply mono; [|exact Hq]. by apply map_union_subseteq_r.
  - intros new _. eapply mono; [|exact Hp]. apply map_union_subseteq_l.
Qed.

(** C17: The copies of the custom resources are deep.  For an object of any of
    the six kinds, and for nil, whatever is in memory and in whatever order
    maps are visited, DeepCopy and DeepCopyObject end without a panic and
    return an object that denotes the same value of [Api] and lies entirely in
    new memory: nothing that happens to the memory that existed before -
    writes through the original included - changes what the copy denotes, and
    nothing that happens to the copy changes the original. *)
Theorem deep_copies_isolated :
  isolated reads_Redis AsRedis Redis_DeepCopy Redis_DeepCopyObject ∧
  isolated (reads_list reads_Redis) AsRedisList RedisList_DeepCopy RedisList_DeepCopyObject ∧
  isolated reads_RedisSentinel AsRedisSentinel RedisSentinel_DeepCopy RedisSentinel_DeepCopyObject ∧
  isolated (reads_list reads_RedisSentinel) AsRedisSentinelList RedisSentinelList_DeepCopy
    RedisSentinelList_DeepCopyObject ∧
  isolated reads_RedisCluster AsRedisCluster RedisCluster_DeepCopy RedisCluster_DeepCopyObject ∧
  isolated (reads_list reads_RedisCluster) AsRedisClusterList RedisClusterList_DeepCopy
    RedisClusterList_DeepCopyObject.
Proof.
  split_and!; (apply copies_isolated; [apply _|]);
    [ apply Redis_copies | apply RedisList_copies | apply RedisSentinel_copies | apply RedisSentinelList_copies
    | apply RedisCluster_copies | apply RedisClusterList_copies ].
Qed.

(** ** Objects that change while a copy is kept *)

Definition with_annotationsM (a : ptr strmap) (m : ObjectMetaM) : ObjectMetaM :=
  {| omm_Name := omm_Name m; omm_Namespace := omm_Namespace m; omm_Labels := omm_Labels m; omm_Annotations := a;
     omm_Generation := omm_Generation m; omm_CreationTimestamp := omm_CreationTimestamp m;
     omm_DeletionTimestamp := omm_DeletionTimestamp m; omm_Finalizers := omm_Finalizers m;
     omm_Rest := omm_Rest m |}.

Definition clusterM_with_meta (m : ObjectMetaM) (x : RedisClusterM) : RedisClusterM :=
  {| clusterm_TypeMeta := clusterm_TypeMeta x; clusterm_ObjectMeta := m; clusterm_Spec := clusterm_Spec x;
     clusterm_Status := clusterm_Status x |}.

(** [if rc.Annotations == nil { rc.Annotations = make(map[string]string) };
    rc.Annotations[lastConfigHashAnnotation] = hash] *)
Definition annotate (rc : ptr RedisClusterM) (hash : string) : mem unit :=
  x ← load rc;
  _ ← match omm_Annotations (clusterm_ObjectMeta x) with
      | None =>
          annotations ← new (∅ : strmap);
          store rc (clusterM_with_meta (with_annotationsM annotations (clusterm_ObjectMeta x)) x)
      | Some _ => mret tt
      end;
  x ← load rc;
  set_key (omm_Annotations (clusterm_ObjectMeta x)) lastConfigHashAnnotation hash.

(** [recordLastConfigHash] between its test and its call of Patch; the result
    is the copy that the patch is computed from. *)
Definition annotateCluster (rc : ptr RedisClusterM) (hash : string) : mem (ptr RedisClusterM) :=
  before ← RedisCluster_DeepCopy rc;
  _ ← annotate rc hash;
  mret before.

(** A cluster in memory of which no part refers to the cell of the object
    itself or shares the map of its annotations. *)
Definition unshared (h : heap) (l : loc) (tm : TypeMeta) (rc : RedisCluster) : Prop :=
  ∃ x rest, h !! l = Some (to_cell x) ∧ rest ⊆ h ∧ rest !! l = None ∧
    reads_RedisCluster rest (clusterM_with_meta (with_annotationsM None (clusterm_ObjectMeta x)) x)
      (tm, cluster_with_meta (with_annotations ∅ (cluster_meta rc)) rc) ∧
    match omm_Annotations (clusterm_ObjectMeta x) with
    | None => om_Annotations (cluster_meta rc) = ∅
    | Some la => la ≠ l ∧ rest !! la = None ∧ h !! la = Some (to_cell (om_Annotations (cluster_meta rc)))
    end.

Lemma annotated_reads h rest x a m tm rc :
  rest ⊆ h →
  reads_RedisCluster rest (clusterM_with_meta (with_annotationsM None (clusterm_ObjectMeta x)) x)
    (tm, cluster_with_meta (with_annotations ∅ (cluster_meta rc)) rc) →
  reads_map h a m →
  reads_RedisCluster h (clusterM_with_meta (with_annotationsM a (clusterm_ObjectMeta x)) x)
    (tm, cluster_with_meta (with_annotations m (cluster_meta rc)) rc).
Proof.
  intros Hs Hx Ha. apply (mono _ _ _ _ Hs) in Hx. destruct Hx as (H1 & H2 & H3 & H4). split_and!; try done.
  destruct H2 as (? & ? & ? & ? & ? & ? & ? & ? & ?). by split_and!.
Qed.

Lemma eta_cluster rc : cluster_with_meta (with_annotations (om_Annotations (cluster_meta rc)) (cluster_meta rc)) rc = rc.
Proof. by destruct rc as [[] ? ?]. Qed.

Lemma eta_clusterM x :
  clusterM_with_meta (with_annotationsM (omm_Annotations (clusterm_ObjectMeta x)) (clusterm_ObjectMeta x)) x = x.
Proof. by destruct x as [? [] ? ?]. Qed.

Lemma unshared_reads h l tm rc : unshared h l tm rc → reads_ptr reads_RedisCluster h (Some l) (Some (tm, rc)).
Proof.
  intros (x & rest & Hl & Hs & _ & Hx & Ha). exists x. split; [done|].
  rewrite <- (eta_clusterM x), <- (eta_cluster rc). eapply annotated_reads; [done|done|].
  destruct (omm_Annotations _); simpl; [apply Ha|done].
Qed.

Lemma set_key_run (h : heap) l (m : strmap) k v :
  h !! l = Some (to_cell m) → set_key (Some l) k v h = Some (tt, <[l := to_cell (<[k := v]> m)]> h).
Proof. intros Hl. eapply then_run; [by apply load_cell|]. by apply (store_cell h l m). Qed.

(** The writes of [annotateCluster], in a memory that holds the copy. *)
Lemma annotate_writes h n l tm rc hash :
  unshared h l tm rc → h ##ₘ n →
  ∃ h', annotate (Some l) hash (h ∪ n) = Some (tt, h') ∧
    n ⊆ h' ∧
    reads_ptr reads_RedisCluster h' (Some l)
      (Some (tm, cluster_with_annotation lastConfigHashAnnotation hash rc)).
Proof.
  intros (x & rest & Hl & Hs & Hrl & Hx & Ha) Hd.
  assert (n !! l = None) as Hnl by by eapply map_disjoint_Some_l.
  assert ((h ∪ n) !! l = Some (to_cell x)) as Hl1 by by apply lookup_union_Some_l.
  assert (rest ⊆ h ∪ n) as Hs1 by (etrans; [exact Hs|apply map_union_subseteq_l]).
  assert (n ⊆ h ∪ n) as Hn1 by by apply map_union_subseteq_r.
  destruct (omm_Annotations (clusterm_ObjectMeta x)) as [la|] eqn:Ea.
  - destruct Ha as (Hne & Hrla & Hla). assert (n !! la = None) by by eapply map_disjoint_Some_l.
    eexists. split_and!.
    + eapply then_run; [by apply load_cell|]. rewrite Ea. eapply then_run; [done|].
      eapply then_run; [by apply load_cell|]. rewrite Ea. apply set_key_run. by apply lookup_union_Some_l.
    + by apply insert_subseteq_r.
    + exists x. rewrite lookup_insert_ne by done. split; [done|].
      rewrite <- (eta_clusterM x), Ea. eapply (annotated_reads _ rest); [by apply insert_subseteq_r|exact Hx|].
      simpl. by rewrite lookup_insert_eq.
  - set (la := fresh (dom (h ∪ n))). pose proof (fresh_cell (h ∪ n)) as Hla. fold la in Hla.
    assert (la ≠ l) as Hne by (intros <-; by rewrite Hla in Hl1).
    set (x' := clusterM_with_meta (with_annotationsM (Some la) (clusterm_ObjectMeta x)) x).
    set (h2 := <[l := to_cell x']> (<[la := to_cell (∅ : strmap)]> (h ∪ n))).
    assert (h2 !! la = Some (to_cell (∅ : strmap))) as Hla2
      by (unfold h2; by rewrite lookup_insert_ne, lookup_insert_eq).
    pose proof (lookup_weaken_None _ _ _ Hla Hs1) as Hrla.
    pose proof (lookup_weaken_None _ _ _ Hla Hn1) as Hnla.
    eexists. split_and!.
    + eapply then_run; [by apply load_cell|]. rewrite Ea. eapply then_run.
      { eapply then_run; [done|]. apply (store_cell _ l x). by rewrite lookup_insert_ne. }
      eapply then_run; [by apply load_cell, lookup_insert_eq|]. by apply (set_key_run h2 la).
    + by repeat apply insert_subseteq_r.
    + exists x'. rewrite lookup_insert_ne by done. unfold h2. rewrite lookup_insert_eq. split; [done|].
      eapply (annotated_reads _ rest); [by repeat apply insert_subseteq_r|exact Hx|]. simpl.
      rewrite lookup_insert_eq. by rewrite Ha.
Qed.

(** C18: The merge patch of the configuration hash is computed from the object
    as it was.  In memory, [recordLastConfigHash] adds the annotation to the
    very object it has copied before; the copy still denotes the cluster as it
    was and the object the cluster with the annotation - whether or not it had
    annotations -, which are the two arguments of Patch that the model of
    recordLastConfigHash on values has. *)
Theorem config_hash_patch {KL : KubeLib} h l tm rc hash :
  unshared h l tm rc →
  ∃ before h',
    annotateCluster (Some l) hash h = Some (before, h') ∧
    reads_ptr reads_RedisCluster h' before (Some (tm, rc)) ∧
    reads_ptr reads_RedisCluster h' (Some l)
      (Some (tm, cluster_with_annotation lastConfigHashAnnotation hash rc)) ∧
    ∀ t out, exec (recordLastConfigHash rc hash) t out →
      Forall (λ e : Effects.event KubeSig, ∀ b a, ev_op e = PatchCluster b a →
        b = rc ∧ a = cluster_with_annotation lastConfigHashAnnotation hash rc) t.
Proof.
  intros Hu.
  destruct (copy_ptr_copies _ zeroRedisCluster _ RedisCluster_copies h (Some l) (Some (tm, rc)) (unshared_reads _ _ _ _ Hu))
    as (before & n & E & Hd & Hb).
  destruct (annotate_writes h n l tm rc hash Hu Hd) as (h' & E' & Hn & Ho).
  exists before, h'. split_and!; [|by eapply mono|done|].
  - eapply then_run; [exact E|]. by eapply then_run; [exact E'|].
  - intros t out. unfold recordLastConfigHash. case_bool; [intros [-> _]; constructor|].
    intros (r & t' & -> & H). exec_done H. repeat constructor; simpl in *; congruence.
Qed.

End copying.

(** ** A concrete memory *)

#[local] Existing Instance plain_types.
#[local] Abbreviation heap := (gmap loc cell).

(** Affinities are behind a pointer, the other types of Kubernetes flat. *)
Definition plain_mem : MemTypes := {|
  AffinityM := ptr string;
  TolerationM := string;
  ResourcesM := ResourceRequirements;
  ConditionM := Condition;
  MetaRestM := unit;
  ListMetaM := unit;
  ListMeta := unit;
  ForeignCell := unit
|}.
#[local] Existing Instance plain_mem.

Definition flat_foreign {M} (z : M) : Foreign M M :=
  {| denotes := reads_flat; denotes_mono := reads_flat_mono; zero := z; DeepCopyInto := mret;
     DeepCopyInto_copies := mret_copies |}.

Definition reads_plain_affinity (h : heap) (p : ptr string) (v : string) : Prop :=
  reads_ptr (H := cell_string) reads_flat h p (Some v).

#[local] Instance plain_affinity_mono : Monotone reads_plain_affinity.
Proof. intros h h' p v Hs H. exact (reads_ptr_mono (H := cell_string) reads_flat h h' p (Some v) Hs H). Qed.

Lemma plain_affinity_copies : copies reads_plain_affinity (copy_ptr (H := cell_string) "" mret).
Proof. intros h p v. apply (copy_ptr_copies reads_flat "" mret mret_copies h p (Some v)). Qed.

Definition plain_affinity : Foreign (ptr string) string :=
  {| denotes := reads_plain_affinity; denotes_mono := plain_affinity_mono; zero := None;
     DeepCopyInto := copy_ptr (H := cell_string) "" mret; DeepCopyInto_copies := plain_affinity_copies |}.

#[local] Instance plain_memlib : MemLib := {|
  affinity := plain_affinity : Foreign AffinityM Affinity;
  toleration := flat_foreign "" : Foreign TolerationM Toleration;
  resources := flat_foreign {| rr_Limits := ∅; rr_Requests := ∅; rr_Claims := [] |}
    : Foreign ResourcesM ResourceRequirements;
  condition := flat_foreign {| cond_Type := ""; cond_Status := ConditionUnknown; cond_ObservedGeneration := 0;
                               cond_LastTransitionTime := 0; cond_Reason := ""; cond_Message := "" |};
  listMeta := flat_foreign tt;
  reads_MetaRest _ _ _ := True;
  MetaRest_mono _ _ _ _ _ _ := I;
  zeroMetaRest := tt
|}.

#[local] Instance plain_range : RangeOrder (cell := cell) :=
  {| range_order _ m := map_to_list m; range_order_all _ _ := reflexivity _ |}.

Definition plain_meta_copy (src : ObjectMetaM) : mem (cell := cell) ObjectMetaM :=
  labels ← copy_map (omm_Labels src);
  annotations ← copy_map (omm_Annotations src);
  deletionTimestamp ← copy_ptr (H := cell_Z) 0 mret (omm_DeletionTimestamp src);
  finalizers ← copy_flat_slice (H := cell_liststring) "" (omm_Finalizers src);
  mret {| omm_Name := omm_Name src; omm_Namespace := omm_Namespace src; omm_Labels := labels;
          omm_Annotations := annotations; omm_Generation := omm_Generation src;
          omm_CreationTimestamp := omm_CreationTimestamp src; omm_DeletionTimestamp := deletionTimestamp;
          omm_Finalizers := finalizers; omm_Rest := omm_Rest src |}.

Lemma plain_meta_copies : copies reads_ObjectMeta plain_meta_copy.
Proof. unfold plain_meta_copy. copying. Qed.

#[local] Instance plain_metalib : MetaLib :=
  {| ObjectMeta_DeepCopyInto := plain_meta_copy; ObjectMeta_DeepCopyInto_copies := plain_meta_copies |}.

Definition in_memory_cluster : RedisClusterM :=
  {| clusterm_TypeMeta := {| tm_Kind := "RedisCluster"; tm_APIVersion := "redis.example.com/v1alpha1" |};
     clusterm_ObjectMeta :=
       {| omm_Name := "rc"; omm_Namespace := "default"; omm_Labels := None; omm_Annotations := Some 2%positive;
          omm_Generation := 3; omm_CreationTimestamp := Some 7; omm_DeletionTimestamp := None;
          omm_Finalizers := Slice (Some 3%positive) 1 1; omm_Rest := tt |};
     clusterm_Spec :=
       {| cm_Masters := 3; cm_ReplicasPerMaster := 1; cm_Image := "redis:7";
          cm_Resources := {| rr_Limits := ∅; rr_Requests := ∅; rr_Claims := [] |} : ResourcesM;
          cm_MasterResources := None; cm_ReplicaResources := None; cm_Storage := Some 4%positive;
          cm_RedisConfig := Some 6%positive; cm_Auth := None; cm_TLS := None; cm_EnableExporter := None;
          cm_ExporterImage := ""; cm_MasterAffinity := Some 7%positive; cm_MasterTolerations := nil_slice;
          cm_MasterNodeSelector := None; cm_ReplicaAffinity := Some 7%positive; cm_ReplicaTolerations := nil_slice;
          cm_ReplicaNodeSelector := None |};
     clusterm_Status :=
       {| cstm_Phase := "Ready"; cstm_Message := ""; cstm_Conditions := nil_slice; cstm_ReadyMasters := 3;
          cstm_ReadyReplicas := 3; cstm_AssignedSlots := 16384; cstm_ClusterState := "ok";
          cstm_Nodes := Slice (Some 9%positive) 0 1 |} |}.

Definition node_in_memory : RedisNodeStatus :=
  {| ns_NodeID := "a1"; ns_PodName := "rc-0"; ns_IP := "10.0.0.1"; ns_Role := "master"; ns_Slots := "0-5460";
     ns_MasterRef := ""; ns_Health := "ok" |}.

(** The cells but those of the object and its annotations.  The two affinities
    are one pointer. *)
Definition some_cells : heap :=
  {[ 3%positive := InStrings ["other"; FinalizerName];
     4%positive := InStorage {| ssm_ClassName := Some 5%positive; ssm_Size := "1Gi"; ssm_KeepAfterDeletion := true |};
     5%positive := InString "fast";
     6%positive := InMap {[ "maxmemory" := "1gb" ]};
     7%positive := InAffinity (Some 8%positive : AffinityM);
     8%positive := InString "spread";
     9%positive := InNodes [node_in_memory] ]}.

Definition some_memory : heap :=
  <[ 1%positive := InCluster in_memory_cluster ]>
    (<[ 2%positive := InMap {[ lastConfigHashAnnotation := "old" ]} ]> some_cells).

(** The value it denotes. *)
Definition denoted_cluster : RedisCluster :=
  {| cluster_meta :=
       {| om_Name := "rc"; om_Namespace := "default"; om_Labels := ∅;
          om_Annotations := {[ lastConfigHashAnnotation := "old" ]}; om_Generation := 3;
          om_CreationTimestamp := Some 7; om_DeletionTimestamp := None; om_Finalizers := [FinalizerName];
          om_Rest := tt |};
     cluster_Spec :=
       {| c_Masters := 3; c_ReplicasPerMaster := 1; c_Image := "redis:7";
          c_Resources := {| rr_Limits := ∅; rr_Requests := ∅; rr_Claims := [] |};
          c_MasterResources := None; c_ReplicaResources := None;
          c_Storage := Some {| ss_ClassName := Some "fast"; ss_Size := "1Gi"; ss_KeepAfterDeletion := true |};
          c_RedisConfig := Some {[ "maxmemory" := "1gb" ]}; c_Auth := None; c_TLS := None; c_EnableExporter := None;
          c_ExporterImage := ""; c_MasterAffinity := Some ("spread" : Affinity); c_MasterTolerations := [];
          c_MasterNodeSelector := ∅; c_ReplicaAffinity := Some ("spread" : Affinity); c_ReplicaTolerations := [];
          c_ReplicaNodeSelector := ∅ |};
     cluster_Status :=
       {| cst_Phase := "Ready"; cst_Message := ""; cst_Conditions := []; cst_ReadyMasters := 3;
          cst_ReadyReplicas := 3; cst_AssignedSlots := 16384; cst_ClusterState := "ok";
          cst_Nodes := [node_in_memory] |} |}.

Lemma some_memory_unshared : unshared some_memory 1%positive (clusterm_TypeMeta in_memory_cluster) denoted_cluster.
Proof.
  exists in_memory_cluster, some_cells. split; [reflexivity|].
  split; [by apply insert_subseteq_r; [reflexivity|apply insert_subseteq]|]. split; [reflexivity|].
  split; [|by split_and!].
  split; [reflexivity|]. split; [|split]; cbn; red; cbn; split_and!; try reflexivity.
  - exists ["other"; FinalizerName]. split_and!; [reflexivity|simpl; lia|repeat constructor].
  - eexists. split; [reflexivity|]. split_and!; [by eexists|reflexivity|reflexivity].
  - exists (Some 8%positive). split; [reflexivity|]. by exists "spread".
  - exists (Some 8%positive). split; [reflexivity|]. by exists "spread".
  - exists [node_in_memory]. split_and!; [reflexivity|simpl; lia|repeat constructor].
Qed.

Lemma deep_copies_isolated_witness :
  ∃ q n, RedisCluster_DeepCopy (Some 1%positive) some_memory = Some (q, some_memory ∪ n) ∧
    ∀ old, old ##ₘ n →
      reads_ptr reads_RedisCluster (old ∪ n) q (Some (clusterm_TypeMeta in_memory_cluster, denoted_cluster)).
Proof.
  destruct deep_copies_isolated as (_ & _ & _ & _ & H & _).
  destruct (H _ _ _ (unshared_reads _ _ _ _ some_memory_unshared)) as (q & n & E & _ & _ & Hq & _).
  exists q, n. exact (conj E Hq).
Defined.


(** The hash of [some_memory] changes: what the patch is based on and what it
    is computed for. *)
Lemma config_hash_patch_witness :
  ∃ before h',
    annotateCluster (Some 1%positive) "new" some_memory = Some (before, h') ∧
    reads_ptr reads_RedisCluster h' before (Some (clusterm_TypeMeta in_memory_cluster, denoted_cluster)) ∧
    reads_ptr reads_RedisCluster h' (Some 1%positive)
      (Some (clusterm_TypeMeta in_memory_cluster,
             cluster_with_annotation lastConfigHashAnnotation "new" denoted_cluster)).
Proof.
  destruct (config_hash_patch (KL := plain_lib) some_memory 1%positive _ _ "new" some_memory_unshared)
    as (before & h' & E & Hb & Ho & _).
  exists before, h'. exact (conj E (conj Hb Ho)).
Defined.
