(* ===== verification/Addressing.v ===== *)
(** * Addresses (theorems on rediscluster_controller.go and cluster.go)

    The controller names the nodes of a cluster by the DNS names of their
    pods; the cluster reports the addresses its nodes announce.  What follows
    for the operations of the cluster manager, which compare the two. *)

From S2P Require Import Prelude Go Effects Client Sys Cluster Slots Migration Rebalance Formation Api Webhook Resources Workloads Kube ApiServer ClusterCtrl.

Local Open Scope Z_scope.

Section addressing.
Context {K : KubeTypes}.

(** ** Names of pods *)

Lemma append_assoc (a b c : string) : (a +:+ b) +:+ c = a +:+ (b +:+ c).
Proof. induction a as [|x a IH]; [done|]. simpl. by rewrite IH. Qed.

Lemma append_inj_l (a b c : string) : a +:+ b = a +:+ c → b = c.
Proof. induction a as [|x a IH]; [done|]. intros [= H]. auto. Qed.

Lemma str_forall_append p a b : str_forall p (a +:+ b) = str_forall p a && str_forall p b.
Proof. induction a as [|x a IH]; [done|]. simpl. by rewrite IH, andb_assoc. Qed.

(** Digits followed by a dot determine the digits. *)
Lemma before_dot a b u v :
  str_forall (not_char ".") a = true → str_forall (not_char ".") b = true →
  a +:+ String "." u = b +:+ String "." v → a = b.
Proof.
  intros Ha Hb H. pose proof (index_byte_app "." a u Ha) as H1. pose proof (index_byte_app "." b v Hb) as H2.
  rewrite H, H2 in H1. injection H1 as H1.
  rewrite <- (str_take_app a (String "." u)), <- (str_take_app b (String "." v)), H. by rewrite H1.
Qed.

Lemma itoa_inj i j : itoa i = itoa j → i = j.
Proof. intros H. pose proof (parse_digits_itoa i) as Hi. rewrite H, parse_digits_itoa in Hi. congruence. Qed.

Lemma clusterMasterAddr_shape rc i :
  clusterMasterAddr rc i = (cluster_name rc +:+ "-masters-") +:+ (itoa i +:+ String "."
    (HeadlessServiceName (cluster_name rc) ComponentMaster +:+ "." +:+ cluster_ns rc +:+ ".svc.cluster.local:6379")).
Proof. unfold clusterMasterAddr, PodFQDN, ClusterMasterStatefulSetName. by rewrite !append_assoc. Qed.

Lemma clusterReplicaAddr_shape rc i :
  clusterReplicaAddr rc i = (cluster_name rc +:+ "-replicas-") +:+ (itoa i +:+ String "."
    (HeadlessServiceName (cluster_name rc) ComponentReplica +:+ "." +:+ cluster_ns rc +:+ ".svc.cluster.local:6379")).
Proof. unfold clusterReplicaAddr, PodFQDN, ClusterReplicaStatefulSetName. by rewrite !append_assoc. Qed.

Lemma numbered_inj a i j u v : a +:+ (itoa i +:+ String "." u) = a +:+ (itoa j +:+ String "." v) → i = j.
Proof. intros H%append_inj_l. apply itoa_inj. eapply before_dot; [| |exact H]; by apply itoa_not. Qed.

(** The addresses the controller computes are good addresses: each of
    them splits into the DNS name of the pod - its StatefulSet, its ordinal
    and the headless Service - and the Redis port, and different masters,
    different replicas, and a master and a replica never share one. *)
Lemma controller_addresses rc :
  (∀ i, splitAddr (clusterMasterAddr rc i) = Ok (PodFQDN (ClusterMasterStatefulSetName (cluster_name rc) +:+ "-" +:+ itoa i)
          (HeadlessServiceName (cluster_name rc) ComponentMaster) (cluster_ns rc), 6379)) ∧
  (∀ i, splitAddr (clusterReplicaAddr rc i) = Ok (PodFQDN (ClusterReplicaStatefulSetName (cluster_name rc) +:+ "-" +:+ itoa i)
          (HeadlessServiceName (cluster_name rc) ComponentReplica) (cluster_ns rc), 6379)) ∧
  (∀ i j, clusterMasterAddr rc i = clusterMasterAddr rc j → i = j) ∧
  (∀ i j, clusterReplicaAddr rc i = clusterReplicaAddr rc j → i = j) ∧
  (∀ i j, clusterMasterAddr rc i ≠ clusterReplicaAddr rc j).
Proof.
  split_and!.
  - intros i. apply split_host_port. unfold int64_range. lia.
  - intros i. apply split_host_port. unfold int64_range. lia.
  - intros i j. rewrite !clusterMasterAddr_shape. apply numbered_inj.
  - intros i j. rewrite !clusterReplicaAddr_shape. apply numbered_inj.
  - intros i j. rewrite clusterMasterAddr_shape, clusterReplicaAddr_shape, !append_assoc. by intros H%append_inj_l.
Qed.

(** ** Nodes known by IP *)

(** An address made of a literal IP and a port: hexadecimal digits, dots,
    colons. *)
Definition is_ip_char (c : ascii) : bool :=
  is_digit c || existsb (Ascii.eqb c) ["."; ":"; "a"; "b"; "c"; "d"; "e"; "f"]%char.

Definition announces_ip (n : ClusterNode) : Prop := str_forall is_ip_char (cn_Addr n) = true.

Lemma announced_not_named (nodes : list ClusterNode) (addr prefix rest : string) :
  Forall announces_ip nodes → addr = prefix +:+ rest → str_forall is_ip_char rest = false →
  Forall (λ n, cn_Addr n ≠ addr) nodes.
Proof.
  intros Hn -> Hr. eapply Forall_impl; [exact Hn|]. intros n Ha Hc. unfold announces_ip in Ha.
  by rewrite Hc, str_forall_append, Hr, andb_false_r in Ha.
Qed.

Lemma master_not_announced rc i nodes :
  Forall announces_ip nodes → Forall (λ n, cn_Addr n ≠ clusterMasterAddr rc i) nodes.
Proof.
  intros Hn. eapply announced_not_named; [done| |].
  - rewrite clusterMasterAddr_shape, append_assoc. reflexivity.
  - done.
Qed.

Lemma replica_not_announced rc i nodes :
  Forall announces_ip nodes → Forall (λ n, cn_Addr n ≠ clusterReplicaAddr rc i) nodes.
Proof.
  intros Hn. eapply announced_not_named; [done| |].
  - rewrite clusterReplicaAddr_shape, append_assoc. reflexivity.
  - done.
Qed.

(** A call whose only Redis commands are [calls] and that fails. *)
Definition fails_after (calls : list RedisClient.method) (t : list (Effects.event SysSig))
    (out : outcome (result unit)) : Prop :=
  redis_calls t `prefix_of` calls ∧ ∃ e, out = Done (Fail e).

(** The controller and the cluster do not mean the same addresses.  The
    nodes announce their pod IP (the start command passes [POD_IP]), and the
    controller asks the cluster manager for DNS names, which the manager
    looks up among the announced addresses.  While every node that CLUSTER
    NODES reports is known by a literal IP: rebalancing over the addresses of
    the controller calls nothing but CLUSTER NODES and moves no slot,
    however the slots are spread; removing a master or a replica fails after
    one CLUSTER NODES; and attaching a replica introduces it to the cluster
    but fails before it is told its master. *)
Lemma dns_addresses_unknown fuel rc t out :
  Forall (Forall announces_ip) (observe nodes_answer t) →
  (0 < masters rc → exec (ClusterManager.implementation fuel (ClusterManager.RebalanceSlots (clusterMasterAddr rc <$> seqZ 0 (masters rc)))) t out →
     Forall (λ m, ∃ a, m = RedisClient.ClusterNodes a) (redis_calls t) ∧ (Forall reply_ok t → out = Done (Ok tt))) ∧
  (∀ i, exec (ClusterManager.implementation fuel (ClusterManager.RemoveMaster (clusterMasterAddr rc 0) (clusterMasterAddr rc i))) t out →
     fails_after [RedisClient.ClusterNodes (clusterMasterAddr rc 0)] t out) ∧
  (∀ i, exec (ClusterManager.implementation fuel (ClusterManager.RemoveReplica (clusterMasterAddr rc 0) (clusterReplicaAddr rc i))) t out →
     fails_after [RedisClient.ClusterNodes (clusterMasterAddr rc 0)] t out) ∧
  (∀ i j, exec (ClusterManager.implementation fuel (ClusterManager.AddReplica (clusterReplicaAddr rc i) (clusterMasterAddr rc j))) t out →
     ∃ host port, fails_after [RedisClient.ClusterMeet (clusterMasterAddr rc j) host port;
                               RedisClient.ClusterNodes (clusterMasterAddr rc j)] t out).
Proof.
  intros Hn. split_and!.
  - intros Hm H. refine (rebalance_unlisted fuel _ t out _ H _).
    + intros E%(f_equal length). rewrite length_fmap, length_seqZ in E. simpl in E. lia.
    + eapply Forall_impl; [exact Hn|]. intros nodes Hnodes. apply Forall_fmap, Forall_forall. intros i _.
      by apply master_not_announced.
  - intros i H. exec_step_ok H; exec_simpl H.
    + apply Forall_cons in Hn as [Hn _]. rewrite nodeIDForAddr_absent in H by by apply master_not_announced.
      destruct H as [-> ->]. split; [by exists []|eauto].
    + destruct H as [-> ->]. split; [by exists []|eauto].
  - intros i H. exec_step_ok H; exec_simpl H.
    + apply Forall_cons in Hn as [Hn _]. rewrite nodeIDForAddr_absent in H by by apply replica_not_announced.
      destruct H as [-> ->]. split; [by exists []|eauto].
    + destruct H as [-> ->]. split; [by exists []|eauto].
  - intros i j H. cbn [ClusterManager.implementation] in H. unfold AddReplica in H.
    destruct (splitAddr (clusterReplicaAddr rc i)) as [[host port]|e].
    2: { destruct H as [-> ->]. exists "", 0. split; [apply prefix_nil|eauto]. }
    exists host, port. exec_step_ok H; exec_simpl H.
    2: { destruct H as [-> ->]. split; [by eexists [_]|eauto]. }
    exec_step_ok H; exec_simpl H.
    2: { destruct H as [-> ->]. split; [by exists []|eauto]. }
    apply Forall_cons in Hn as [Hn _]. rewrite nodeIDForAddr_absent in H by by apply master_not_announced.
    destruct H as [-> ->]. split; [by exists []|eauto].
Qed.
End addressing.

(** ** Witnesses *)

#[local] Existing Instance plain_types.

Lemma controller_addresses_witness :
  splitAddr (clusterMasterAddr (live_cluster 3 0 "Ready") 2)
  = Ok ("rc-masters-2.rc-master-headless.default.svc.cluster.local", 6379).
Proof. exact (proj1 (controller_addresses (live_cluster 3 0 "Ready")) 2). Defined.

(** Two masters, all slots on the first, known by their IPs. *)
Lemma dns_addresses_unknown_witness :
  let rc := live_cluster 2 0 "Ready" in
  let p := ClusterManager.implementation 1 (ClusterManager.RebalanceSlots (clusterMasterAddr rc <$> seqZ 0 2)) in
  let r := run (with_clock lopsided) p (tt, 0) in
  Forall (λ m, ∃ a, m = RedisClient.ClusterNodes a) (redis_calls (trace_of r)) ∧ result_of r = Done (Ok tt).
Proof.
  intros rc p r.
  destruct (dns_addresses_unknown 1 rc (trace_of r) (result_of r)) as [H _].
  - vm_compute. repeat constructor.
  - destruct H as [H1 H2]; [reflexivity|exact (run_exec (with_clock lopsided) p (tt, 0))|].
    split; [exact H1|]. apply H2. vm_compute. repeat constructor.
Defined.
