(* ===== verification/Lifecycle.v ===== *)
(** * The life cycle of a cluster (theorems on rediscluster_controller.go)

    The state machine that [reconcileClusterLifecycle] implements, as a step
    relation on phases, and the refinement of the relation by the code; the
    phases a cluster does not leave; the order of the StatefulSet update and
    the scaling; and that a live resource is always looked at again. *)

From S2P Require Import Prelude Go Effects Client Sys Cluster Api Webhook Resources Workloads Sha256 Kube ApiServer RedisCtrl SentinelCtrl ClusterCtrl.

Local Open Scope Z_scope.

Section lifecycle.
Context {K : KubeTypes} {L : KubeLib}.

(** ** Observations *)

(** The calls to the cluster manager, in order. *)
Definition manager_calls (t : list (Effects.event KubeSig)) : list ClusterManager.method :=
  observe (λ e : Effects.event KubeSig, match ev_op e : kube_op with ManagerCall m => Some m | _ => None end) t.

Lemma manager_calls_app t1 t2 : manager_calls (t1 ++ t2) = manager_calls t1 ++ manager_calls t2.
Proof. apply observe_app. Qed.

(** A program that does not call the manager. *)
Definition no_manager {A} (p : prog KubeSig A) : Prop :=
  only (S := KubeSig) (λ o : kube_op, match o with ManagerCall _ => False | _ => True end) p.

Lemma no_manager_calls {A} (p : prog KubeSig A) t out : no_manager p → exec p t out → manager_calls t = [].
Proof.
  intros Hp He. specialize (Hp t out He). clear He. induction Hp as [|[o r] t Ho _ IH]; [done|].
  unfold manager_calls, observe. rewrite omap_cons_eq. simpl. by destruct o.
Qed.

(** Decomposes a program into its calls; those to the manager remain. *)
Ltac manager_tac :=
  unfold no_manager, manager, kcall;
  only_tac.

Lemma no_manager_allMasterPodsReady rc : no_manager (allMasterPodsReady rc).
Proof. unfold allMasterPodsReady, listClusterPods. manager_tac. Qed.

Lemma no_manager_allPodsReady rc : no_manager (allPodsReady rc).
Proof. unfold allPodsReady, allMasterPodsReady, listClusterPods. manager_tac. Qed.

(** ** The state machine *)

(** The addresses of the masters of the spec. *)
Definition spec_masters (rc : RedisCluster) : list string := clusterMasterAddr rc <$> seqZ 0 (masters rc).

(** The calls that grow a cluster of [current] masters: introduce the new
    masters in order, rebalance over all, attach the replicas of the new. *)
Definition growth_plan (rc : RedisCluster) (current : Z) : list ClusterManager.method :=
  let new := seqZ current (masters rc - current) in
  ((λ i, ClusterManager.AddMaster (clusterMasterAddr rc 0) (clusterMasterAddr rc i)) <$> new)
  ++ [ClusterManager.RebalanceSlots (spec_masters rc)]
  ++ concat ((λ i, (λ j, ClusterManager.AddReplica (clusterReplicaAddr rc (replicaIndex rc i j)) (clusterMasterAddr rc i))
                     <$> seqZ 0 (replicasPerMaster rc)) <$> new).

(** The calls that remove one master: first its replicas, then itself. *)
Definition removal_plan (rc : RedisCluster) (i : Z) : list ClusterManager.method :=
  ((λ j, ClusterManager.RemoveReplica (clusterMasterAddr rc 0) (clusterReplicaAddr rc (replicaIndex rc i j)))
     <$> seqZ 0 (replicasPerMaster rc))
  ++ [ClusterManager.RemoveMaster (clusterMasterAddr rc 0) (clusterMasterAddr rc i)].

(** The calls that shrink it: rebalance over the remaining masters, then
    remove the others, the last first. *)
Definition shrink_plan (rc : RedisCluster) (current : Z) : list ClusterManager.method :=
  ClusterManager.RebalanceSlots (spec_masters rc)
  :: concat (removal_plan rc <$> rev (seqZ (masters rc) (current - masters rc))).

(** A plan that was followed up to some point, and to its end if [Ready] was
    reached; otherwise the cluster is [Scaling] and looked at again later. *)
Definition follows (plan calls : list ClusterManager.method) (after : string) (res : Result) : Prop :=
  (calls `prefix_of` plan ∧ after = PhaseScaling ∧ 0 < res_RequeueAfter res) ∨
  (calls = plan ∧ after = PhaseReady ∧ res = requeue).

(** The call that forms the cluster of the spec. *)
Definition forming (rc : RedisCluster) : ClusterManager.method :=
  ClusterManager.FormCluster (spec_masters rc) (clusterReplicaAddr rc <$> seqZ 0 (totalReplicas rc))
    (replicasPerMaster rc).

(** One step of the life cycle of a cluster resource: the phase before,
    what the cluster reported ([None] when it could not be reached), the
    calls made next, the phase after, and the result. *)
Inductive step (rc : RedisCluster) (before : string)
  : option ClusterState → list ClusterManager.method → string → Result → Prop :=
| step_starting :
    step rc before None [] PhaseInitializing (requeueAfter (15 * second))
| step_unreachable :
    step rc before None [] before (requeueAfter (10 * second))
| step_waiting s :
    cs_SlotsAssigned s = 0 →
    step rc before (Some s) [] PhaseInitializing (requeueAfter (15 * second))
| step_formed s :
    cs_SlotsAssigned s = 0 →
    step rc before (Some s) [forming rc] PhaseReady requeue
| step_not_formed s after :
    cs_SlotsAssigned s = 0 →
    step rc before (Some s) [forming rc] after (requeueAfter (30 * second))
| step_failing s :
    cs_SlotsAssigned s ≠ 0 → cs_State s = "fail" →
    step rc before (Some s) [] PhaseRecovering (requeueAfter (15 * second))
| step_steady s :
    cs_SlotsAssigned s ≠ 0 → cs_State s ≠ "fail" → (wrap32 (cs_Size s) ≤ 0 ∨ wrap32 (cs_Size s) = masters rc) →
    step rc before (Some s) []
      (if String.eqb before PhaseRecovering && String.eqb (cs_State s) "ok" then PhaseReady else before) noResult
| step_growing s calls after res :
    cs_SlotsAssigned s ≠ 0 → cs_State s ≠ "fail" → 0 < wrap32 (cs_Size s) < masters rc →
    follows (growth_plan rc (wrap32 (cs_Size s))) calls after res →
    step rc before (Some s) calls after res
| step_shrinking s calls after res :
    cs_SlotsAssigned s ≠ 0 → cs_State s ≠ "fail" → 0 < wrap32 (cs_Size s) → masters rc < wrap32 (cs_Size s) →
    follows (shrink_plan rc (wrap32 (cs_Size s))) calls after res →
    step rc before (Some s) calls after res.

(** ** Refinement *)

(** What a GetClusterState answered. *)
Definition state_answer (e : Effects.event KubeSig) : option (option ClusterState) :=
  match e with
  | Ev o r => match o return kube_ans o → option (option ClusterState) with
              | ManagerCall (ClusterManager.GetClusterState _) =>
                  λ r, match r with Ok s => Some (Some s) | Fail _ => Some None end
              | _ => λ _, None
              end r
  end.

(** What a loop calls, by what its body calls. *)
Definition calls_within {A} (plan : list ClusterManager.method) (p : prog KubeSig (result A)) : Prop :=
  ∀ t r, exec p t (Done r) → manager_calls t `prefix_of` plan ∧ (∀ a, r = Ok a → manager_calls t = plan).

Lemma for_each_calls {A} (g : A → list ClusterManager.method) (f : A → prog KubeSig (result unit)) l :
  (∀ x, calls_within (g x) (f x)) → calls_within (concat (g <$> l)) (for_each l f).
Proof.
  intros Hf. induction l as [|x l IH]; intros t r H; [by destruct H as [-> _]|].
  apply exec_for_each_cons in H as [(t1 & t2 & -> & H1 & H2)|[Hne H1]]; rewrite fmap_cons; cbn [concat].
  - destruct (Hf x _ _ H1) as [_ H3]. destruct (IH _ _ H2) as [H4 H5]. rewrite manager_calls_app, (H3 tt eq_refl).
    split; [by apply prefix_app|]. intros a Ha. by rewrite (H5 a Ha).
  - destruct (Hf x _ _ H1) as [H3 _]. split; [by apply prefix_app_r|]. intros [] ->. done.
Qed.

Lemma do_each_calls {A} (g : A → list ClusterManager.method) (f : A → prog KubeSig unit) l t :
  (∀ x t, exec (f x) t (Done tt) → manager_calls t = g x) →
  exec (do_each l f) t (Done tt) → manager_calls t = concat (g <$> l).
Proof.
  intros Hf. revert t. induction l as [|x l IH]; intros t H; [by destruct H as [-> _]|].
  apply exec_do_each_cons in H as [(t1 & t2 & -> & H1 & H2)|(h & ? & _)]; [|done].
  by rewrite manager_calls_app, (Hf _ _ H1), (IH _ H2).
Qed.

Lemma concat_singletons {A B} (f : A → B) l : concat ((λ x, [f x]) <$> l) = f <$> l.
Proof. induction l as [|x l IH]; [done|]. rewrite !fmap_cons. cbn. by rewrite IH. Qed.

Lemma do_each_one {A} (g : A → ClusterManager.method) (f : A → prog KubeSig unit) l t :
  (∀ x t, exec (f x) t (Done tt) → manager_calls t = [g x]) →
  exec (do_each l f) t (Done tt) → manager_calls t = g <$> l.
Proof. intros Hf H. rewrite <- concat_singletons. by apply (do_each_calls (λ x, [g x]) f). Qed.

Lemma attachReplicas_calls rc i t :
  exec (attachReplicas rc i) t (Done tt) →
  manager_calls t = (λ j, ClusterManager.AddReplica (clusterReplicaAddr rc (replicaIndex rc i j)) (clusterMasterAddr rc i))
                      <$> seqZ 0 (replicasPerMaster rc).
Proof. apply do_each_one. intros j t' H. exec_step H. by destruct H as [-> _]. Qed.

Lemma makeAddrs_done n f t l : exec (makeAddrs n f) t (Done l) → t = [] ∧ l = f <$> seqZ 0 n.
Proof. unfold makeAddrs. case_bool; [by intros [_ ?]|]. by intros [-> [= ->]]. Qed.

Lemma no_replicas rc {A} (f : Z → A) : (0 <? replicasPerMaster rc) = false → f <$> seqZ 0 (replicasPerMaster rc) = [].
Proof. intros H. by rewrite seqZ_nil by blia. Qed.

Lemma removeMaster_calls rc i : calls_within (removal_plan rc i) (removeMasterAndReplicas rc i).
Proof.
  intros t r H. apply exec_bind in H as [(t1 & [] & t2 & -> & H1 & H)|(h & ? & _)]; [|done].
  assert (manager_calls t1 = (λ j, ClusterManager.RemoveReplica (clusterMasterAddr rc 0)
            (clusterReplicaAddr rc (replicaIndex rc i j))) <$> seqZ 0 (replicasPerMaster rc)) as Hc.
  { destruct (0 <? replicasPerMaster rc) eqn:E; [|destruct H1 as [-> _]; by rewrite no_replicas].
    revert H1. apply do_each_one. intros j t' H'. exec_step H'. by destruct H' as [-> _]. }
  exec_step H. destruct H as [-> _]. rewrite manager_calls_app, Hc. by split.
Qed.

Lemma scalingDone_result rc d r c st t rc' res err :
  exec (scalingDone rc d r c st) t (Done (rc', (res, err))) →
  manager_calls t = [] ∧ phase rc' = PhaseReady ∧ res = requeue ∧ err = None.
Proof.
  intros H. do 4 exec_step H. destruct H as [-> [= -> -> ->]]. done.
Qed.

Lemma follows_partial plan calls : calls `prefix_of` plan →
  follows plan calls PhaseScaling (requeueAfter (15 * second)) ∧ follows plan calls PhaseScaling (requeueAfter (30 * second)).
Proof. intros H. by split; left. Qed.

Lemma prefix_mid {A} (a b c : list A) : a ++ b `prefix_of` a ++ b ++ c.
Proof. exists c. by rewrite (assoc_L (++)). Qed.

Lemma scale_out_follows rc n t rc' res err :
  exec (reconcileScaleOut rc n) t (Done (rc', (res, err))) →
  err = None ∧ follows (growth_plan rc n) (manager_calls t) (phase rc') res.
Proof.
  intros H. exec_step H. exec_simpl H. change (manager_calls (?e :: t0)) with (manager_calls t0).
  apply exec_bind in H as [(t1 & ready & t2 & -> & H1 & H)|(h & ? & _)]; [|done].
  apply (no_manager_calls _ _ _ (no_manager_allMasterPodsReady _)) in H1. rewrite manager_calls_app, H1.
  destruct ready; cbn [negb] in H.
  2: { destruct H as [-> [= -> -> ->]]. split; [done|]. by apply follows_partial, prefix_nil. }
  apply exec_bind in H as [(t3 & r3 & t4 & -> & H3 & H)|(h & ? & _)]; [|done].
  eapply (for_each_calls (λ i, [ClusterManager.AddMaster (clusterMasterAddr rc 0) (clusterMasterAddr rc i)])) in H3 as [H3 H3'].
  2: { intros i t' r' H'. exec_step H'. by destruct H' as [-> _]. }
  rewrite concat_singletons in H3, H3'. rewrite manager_calls_app.
  destruct r3 as [[]|e].
  2: { destruct H as [-> [= -> -> ->]]. rewrite app_nil_r. split; [done|]. apply follows_partial. by apply prefix_app_r. }
  rewrite (H3' tt eq_refl). clear H3 H3'. unfold growth_plan. cbv zeta.
  apply exec_bind in H as [(t5 & addrs & t6 & -> & H5 & H)|(h & ? & _)]; [|done].
  apply makeAddrs_done in H5 as [-> ->]. exec_step_ok H; exec_simpl H.
  2: { destruct H as [-> [= -> -> ->]]. split; [done|]. apply follows_partial.
       exact (prefix_mid (_ <$> _) [_] _). }
  apply exec_bind in H as [(t7 & [] & t8 & -> & H7 & H)|(h & ? & _)]; [|done].
  apply scalingDone_result in H as (H & Hp & -> & ->).
  split; [done|]. right. split_and!; [|done|done].
  enough (manager_calls (t7 ++ t8) = concat ((λ i, (λ j, ClusterManager.AddReplica (clusterReplicaAddr rc
    (replicaIndex rc i j)) (clusterMasterAddr rc i)) <$> seqZ 0 (replicasPerMaster rc)) <$> seqZ n (masters rc - n)))
    as <- by reflexivity.
  rewrite manager_calls_app, H, app_nil_r.
  destruct (0 <? replicasPerMaster (set_phase PhaseScaling rc)) eqn:E.
  - revert H7. apply do_each_calls. intros i t'. apply (attachReplicas_calls (set_phase PhaseScaling rc)).
  - destruct H7 as [-> _]. clear -E. induction (seqZ n (masters rc - n)) as [|i l IH]; [done|].
    rewrite fmap_cons. cbn [concat]. by rewrite <- IH, no_replicas.
Qed.

Lemma scale_in_follows rc n t rc' res err :
  exec (reconcileScaleIn rc n) t (Done (rc', (res, err))) →
  err = None ∧ follows (shrink_plan rc n) (manager_calls t) (phase rc') res.
Proof.
  intros H. exec_step H. exec_simpl H. change (manager_calls (?e :: t0)) with (manager_calls t0).
  apply exec_bind in H as [(t1 & addrs & t2 & -> & H1 & H)|(h & ? & _)]; [|done].
  apply makeAddrs_done in H1 as [-> ->]. exec_step_ok H; exec_simpl H.
  2: { destruct H as [-> [= -> -> ->]]. split; [done|]. apply follows_partial. by eexists. }
  apply exec_bind in H as [(t3 & r3 & t4 & -> & H3 & H)|(h & ? & _)]; [|done].
  apply (for_each_calls (removal_plan rc)) in H3 as [H3 H3']; [|intros i; apply (removeMaster_calls (set_phase PhaseScaling rc))].
  destruct r3 as [[]|e].
  - apply scalingDone_result in H as (H & Hp & -> & ->). split; [done|]. right. split_and!; [|done|done].
    change (ClusterManager.RebalanceSlots (spec_masters rc) :: manager_calls (t3 ++ t4) = shrink_plan rc n).
    by rewrite manager_calls_app, H, app_nil_r, (H3' tt eq_refl).
  - destruct H as [-> [= -> -> ->]]. rewrite app_nil_r. split; [done|]. apply follows_partial. by apply prefix_cons.
Qed.

Lemma formIfReady_step rc s t rc' res err :
  cs_SlotsAssigned s = 0 → exec (formIfReady rc) t (Done (rc', (res, err))) →
  err = None ∧ step rc (phase rc) (Some s) (manager_calls t) (phase rc') res.
Proof.
  intros Hs H. unfold formIfReady in H.
  apply exec_bind in H as [(t1 & ready & t2 & -> & H1 & H)|(h & ? & _)]; [|done].
  apply (no_manager_calls _ _ _ (no_manager_allPodsReady rc)) in H1.
  rewrite manager_calls_app, H1. destruct ready; simpl in H.
  2: { exec_done H. injection H0 as -> -> ->. split; [done|]. by constructor. }
  apply exec_bind in H as [(t3 & ms & t4 & -> & H3 & H)|(h & ? & _)]; [|done].
  apply makeAddrs_done in H3 as [-> ->].
  apply exec_bind in H as [(t5 & rs & t6 & -> & H5 & H)|(h & ? & _)]; [|done].
  apply makeAddrs_done in H5 as [-> ->]. exec_step_ok H.
  - exec_step H. exec_done H. injection H0 as -> -> ->. split; [done|]. by apply step_formed.
  - do 3 exec_step H. exec_done H. injection H0 as -> -> ->. split; [done|]. by apply step_not_formed.
Qed.


Lemma phase_set ph rc : phase (set_phase ph rc) = ph.
Proof. done. Qed.

Lemma noteRecovery_phase rc s t rc' :
  exec (noteRecovery rc s) t (Done rc') →
  manager_calls t = [] ∧ (rc' = rc ∨ rc' = set_phase PhaseReady rc) ∧
  phase rc' = if String.eqb (phase rc) PhaseRecovering && String.eqb (cs_State s) "ok"
              then PhaseReady else phase rc.
Proof.
  unfold noteRecovery. intros H. case_bool.
  - exec_step H. destruct H as [-> [= ->]]. split_and!; [done|by right|done].
  - destruct H as [-> [= ->]]. split_and!; [done|by left|done].
Qed.

Lemma scaleIfNeeded_step rc0 rc s before t rc' res err :
  rc = rc0 ∨ rc = set_phase PhaseReady rc0 →
  cs_SlotsAssigned s ≠ 0 → cs_State s ≠ "fail" →
  phase rc = (if String.eqb before PhaseRecovering && String.eqb (cs_State s) "ok" then PhaseReady else before) →
  exec (scaleIfNeeded rc s) t (Done (rc', (res, err))) →
  err = None ∧ step rc0 before (Some s) (manager_calls t) (phase rc') res.
Proof.
  intros Hrc Hs Hf Hph.
  assert (masters rc = masters rc0 ∧ (∀ n, growth_plan rc n = growth_plan rc0 n) ∧
          ∀ n, shrink_plan rc n = shrink_plan rc0 n) as (Hm & Hg & Hsh) by by destruct Hrc as [-> | ->].
  unfold scaleIfNeeded. case_bool.
  - apply andb_true_iff in Heqb as [H1 H2%negb_true_iff]. case_bool; intros H.
    + apply scale_out_follows in H as [H3 H4]. rewrite Hg in H4. split; [exact H3|]. apply step_growing; try done. blia.
    + apply scale_in_follows in H as [H3 H4]. rewrite Hsh in H4. split; [exact H3|]. apply step_shrinking; try done; blia.
  - intros [-> [= -> -> ->]]. split; [done|]. rewrite Hph. apply step_steady; try done.
    apply andb_false_iff in Heqb as [H1|H2%negb_false_iff]; blia.
Qed.

(** The life cycle refines [step], as a program over the methods of the
    manager. *)
Lemma lifecycle_refines_step rc t rc' res err :
  exec (reconcileClusterLifecycle true rc) t (Done (rc', (res, err))) →
  err = None ∧
  ∃ view calls, head (observe state_answer t) = Some view ∧
    manager_calls t = ClusterManager.GetClusterState (clusterMasterAddr rc 0) :: calls ∧
    step rc (phase rc) view calls (phase rc') res.
Proof.
  intros H. unfold reconcileClusterLifecycle in H. cbn [negb] in H. exec_step_ok H.
  - exec_simpl H.
    assert (err = None ∧ step rc (phase rc) (Some r) (manager_calls t0) (phase rc') res) as [He Hstep].
    2: { split; [done|]. exists (Some r), (manager_calls t0). done. }
    destruct (cs_SlotsAssigned r =? 0) eqn:E0; [apply Z.eqb_eq in E0; exact (formIfReady_step _ _ _ _ _ _ E0 H)|].
    destruct (String.eqb_spec (cs_State r) "fail") as [Hf|Hf].
    + unfold awaitRecovery in H. destruct (String.eqb_spec (phase rc) PhaseRecovering) as [Hp|Hp].
      * exec_done H. injection H0 as -> -> ->. split; [done|]. rewrite Hp. apply step_failing; [blia|done].
      * do 2 exec_step H. exec_done H. injection H0 as -> -> ->. split; [done|]. apply step_failing; [blia|done].
    + apply exec_bind in H as [(t1 & rc1 & t2 & -> & H1 & H)|(h & ? & _)]; [|done].
      apply noteRecovery_phase in H1 as (H1 & H2 & H3). rewrite manager_calls_app, H1.
      by apply (scaleIfNeeded_step rc rc1 r (phase rc) t2 rc' res err); [|blia| | |].
  - exec_simpl H.
    apply exec_bind in H as [(t1 & ready & t2 & -> & H1 & H)|(h & ? & _)]; [|done].
    apply (no_manager_calls _ _ _ (no_manager_allMasterPodsReady rc)) in H1.
    destruct ready; simpl in H; exec_done H; injection H0 as -> -> ->; (split; [done|]);
      exists None, []; (split; [done|]); (split; [|constructor]);
      rewrite app_nil_r; change (ClusterManager.GetClusterState (clusterMasterAddr rc 0) :: manager_calls t1
        = [ClusterManager.GetClusterState (clusterMasterAddr rc 0)]); by rewrite H1.
Qed.

(** ** Phases a cluster does not leave *)

(** A cluster that works and has the size of its spec. *)
Definition settled (rc : RedisCluster) (s : ClusterState) : Prop :=
  cs_SlotsAssigned s ≠ 0 ∧ cs_State s = "ok" ∧ wrap32 (cs_Size s) = masters rc.

Lemma settled_lifecycle rc s t l :
  settled rc s → phase rc ≠ PhaseRecovering → head (observe state_answer t) = Some (Some s) →
  exec (reconcileClusterLifecycle true rc) t (Done l) → l = (rc, (noResult, None)).
Proof.
  intros (Hs & Hok & Hsz) Hp Hh H. unfold reconcileClusterLifecycle in H. cbn [negb] in H.
  exec_step_ok H; [|discriminate Hh]. injection Hh as ->. exec_simpl H.
  rewrite (proj2 (Z.eqb_neq _ _) Hs), Hok in H. cbn in H. unfold noteRecovery, scaleIfNeeded in H.
  rewrite (proj2 (String.eqb_neq _ _) Hp) in H. cbn in H.
  rewrite Hsz, Z.eqb_refl, andb_false_r in H. by destruct H as [_ [= ->]].
Qed.

Lemma nextPhase_sticks ph ready state : ph ≠ "" → ph ≠ PhaseInitializing → nextPhase ph ready state = ph.
Proof.
  intros H1 H2. unfold nextPhase.
  by rewrite (proj2 (String.eqb_neq _ _) H1), (proj2 (String.eqb_neq _ _) H2).
Qed.

(** C26: The phases [Scaling] and [Failed] are never left by a cluster that
    has recovered by itself: when the cluster reports [ok], all its slots
    and the size of the spec, a reconciliation in one of these phases does
    nothing, and the status it writes, however many pods are ready, has the
    same phase again.  In [Scaling] the admission webhook then refuses every
    update of the resource, including the removal of its finalizer, and its
    deletion. *)
Theorem phase_sticks rc s t l :
  settled rc s → phase rc = PhaseScaling ∨ phase rc = PhaseFailed →
  head (observe state_answer t) = Some (Some s) →
  exec (reconcileClusterLifecycle true rc) t (Done l) →
  l = (rc, (noResult, None)) ∧
  ∀ readyMasters readyReplicas now state slots nodes,
    let stored := clusterStatusFor rc readyMasters readyReplicas now state slots nodes in
    phase stored = phase rc ∧
    (phase rc = PhaseScaling →
     allowed (ClusterHook.ValidateDelete stored) = false ∧
     ∀ update, allowed (ClusterHook.ValidateUpdate update (ORedisCluster stored)) = false).
Proof.
  intros Hset Hp Hh H. split; [eapply settled_lifecycle; try done; by destruct Hp as [-> | ->]|].
  intros rm rr now state slots nodes stored.
  assert (phase stored = phase rc) as Hst by by apply nextPhase_sticks; destruct Hp as [-> | ->].
  split; [done|]. intros Hsc. rewrite Hsc in Hst. change (cst_Phase (cluster_Status stored) = PhaseScaling) in Hst.
  split.
  - unfold ClusterHook.ValidateDelete. by rewrite Hst.
  - intros update. unfold ClusterHook.ValidateUpdate.
    destruct (ClusterHook.validateClusterSpec update) as [w [e|]]; [done|].
    repeat case_bool; try done. by rewrite Hst in *.
Qed.

(** ** The StatefulSet is scaled first *)

(** C25: The replicas of the master StatefulSet follow the spec before the
    cluster does.  Whenever a reconciliation calls the cluster manager at
    all, it has already, and successfully, applied a master StatefulSet whose
    replica count is the number of masters of the spec - also when that
    number went down, so that the pods of the masters to be removed are gone
    before [reconcileScaleIn] moves a slot off them. *)
Theorem statefulset_before_manager hasClient hasManager rc t out :
  exec (reconcileCluster hasClient hasManager rc) t out → manager_calls t ≠ [] →
  ∃ before after mutate,
    t = before ++ Ev (S := KubeSig)
          (CreateOrUpdate OStatefulSet
             {| key_Namespace := cluster_ns rc; key_Name := ClusterMasterStatefulSetName (cluster_name rc) |} mutate)
          (Ok tt) :: after ∧
    manager_calls before = [] ∧
    ∀ existing new, mutate existing = Ok new → sts_Replicas (sts_Spec new) = masters rc.
Proof.
  intros H Hm. exec_step_ok H; exec_simpl H.
  2: { exfalso. apply Hm. do 2 exec_step H. exec_done H. done. }
  exec_step_ok H; exec_simpl H.
  2: { exfalso. apply Hm. exec_done H. done. }
  destruct r0. eexists [_], _, _. split; [reflexivity|]. split; [done|].
  intros existing new. unfold mutateStatefulSet, own, result_map.
  destruct (SetControllerReference _ _ _ _); [|done]. intros [= <-]. simpl.
  unfold mutateStatefulSetSpec. by case_bool.
Qed.

(** ** A live resource is looked at again *)

Definition looked_at_again (o : outcome_of) : Prop :=
  o.2 = None → res_Requeue o.1 = true ∨ 0 < res_RequeueAfter o.1.

Lemma yields_or_return {A} (Q : outcome_of → Prop) (k : A → prog KubeSig outcome_of) p :
  (∀ a, yields Q (k a)) → (∀ e, Q (noResult, Some e)) → yields Q (or_return k p).
Proof. intros Hk He. apply yields_bind. intros [a|e]; [apply Hk|by apply yields_ret]. Qed.

Lemma finishCluster_again hasClient hasManager rc hash : yields looked_at_again (finishCluster hasClient hasManager rc hash).
Proof.
  unfold finishCluster. apply yields_bind. intros [rc1 [result err]].
  apply yields_bind. intros rc2. apply yields_bind. intros _.
  apply yields_or_return; [|done]. intros _. destruct (_ || (0 <? _)) eqn:E; apply yields_ret; [|by right].
  intros He. simpl in He. subst err. apply orb_true_iff in E as [E|E]; [by left|right; simpl; blia].
Qed.

Lemma reconcileRedis_again hasClient r : yields looked_at_again (reconcileRedis hasClient r).
Proof.
  unfold reconcileRedis. apply yields_bind. intros [h|e].
  - apply yields_or_return; [intros _|done]. apply yields_or_return; [intros _|done].
    do 2 (apply yields_bind; intros ?). apply yields_or_return; [intros _|done].
    apply yields_ret. by right.
  - apply yields_bind. intros _. by apply yields_ret.
Qed.

Lemma reconcileSentinel_again hasClient rs : yields looked_at_again (reconcileSentinel hasClient rs).
Proof.
  unfold reconcileSentinel. apply yields_bind. intros [h|e].
  - apply yields_or_return; [intros _|done].
    do 2 (apply yields_bind; intros ?). apply yields_or_return; [intros _|done].
    apply yields_ret. by right.
  - apply yields_bind. intros _. by apply yields_ret.
Qed.

Lemma reconcileCluster_again hasClient hasManager rc : yields looked_at_again (reconcileCluster hasClient hasManager rc).
Proof.
  unfold reconcileCluster. apply yields_bind. intros [h|e].
  - apply yields_or_return; [intros _|done]. apply yields_bind. intros _. apply finishCluster_again.
  - apply yields_bind. intros _. by apply yields_ret.
Qed.

(** A live resource: the finalizer is added, the phase initialised, or neither,
    and then it is reconciled. *)
Lemma live_again {k : custom} (hasFinalizer fresh : bool) (withFinalizer initialized obj : custom_type k)
    (reconcile : custom_type k → prog KubeSig outcome_of) :
  (∀ obj, yields looked_at_again (reconcile obj)) →
  yields looked_at_again
    (if negb hasFinalizer then _ ←! kcall (Update k withFinalizer); mret (requeue, None)
     else if fresh then obj' ←! kcall (StatusUpdate k initialized); reconcile obj'
     else reconcile obj).
Proof.
  intros H. destruct hasFinalizer; cbn [negb]; [destruct fresh|].
  - apply yields_or_return; [exact H|done].
  - apply H.
  - apply yields_or_return; [|done]. intros _. apply yields_ret. by left.
Qed.

(** The resource that a [Get] answered. *)
Definition got (k : custom) (e : Effects.event KubeSig) : option (custom_type k) :=
  match e with
  | Ev o r =>
      match o return kube_ans o → option (custom_type k) with
      | Get k' _ =>
          match k', k return result (custom_type k') → option (custom_type k) with
          | CRedis, CRedis | CSentinel, CSentinel | CCluster, CCluster =>
              λ r, match r with Ok obj => Some obj | Fail _ => None end
          | _, _ => λ _, None
          end
      | _ => λ _, None
      end r
  end.

Lemma got_ok k req obj : got k (Ev (S := KubeSig) (Get k req) (Ok obj)) = Some obj.
Proof. by destruct k. Qed.

(** The result of [Reconcile] is that of the reconciler, whose first call comes
    after the start time has been taken. *)
Lemma reconcileWith_get {k : custom} kind req (f : result (custom_type k) → prog KubeSig outcome_of) start obj t res :
  exec (reconcileWith kind (λ req, prog_bind f (kcall (Get k req))) req)
    (Ev (S := KubeSig) TimeNow start :: Ev (S := KubeSig) (Get k req) (Ok obj) :: t) (Done res) →
  ∃ t', exec (f (Ok obj)) t' (Done res).
Proof.
  intros (s & t' & E & H). apply (f_equal tail) in E. simpl in E. subst t'. exec_simpl H.
  apply exec_bind in H as [(t1 & r & t2 & Ht & H1 & H)|(h & [=] & _)].
  apply exec_bind in H as [(t3 & [] & t4 & -> & _ & H)|(h & [=] & _)]. hnf in H. destruct H as [-> [= ->]].
  destruct H1 as (a & t1' & -> & H1). apply (f_equal (λ t, head t ≫= got k)) in Ht.
  change (got k (Ev (S := KubeSig) (Get k req) (Ok obj)) = got k (Ev (S := KubeSig) (Get k req) a)) in Ht.
  rewrite got_ok in Ht. destruct a as [a|e].
  - rewrite got_ok in Ht. injection Ht as <-. by exists t1'.
  - by destruct k.
Qed.

(** C35: No resource is forgotten: a reconciliation ([Reconcile], the entry
    point) that reads an existing Redis, RedisSentinel or RedisCluster that is
    not being deleted, and returns no error, asks to be run again, at once or
    after a positive delay, on every path: when it adds the finalizer, when it
    initialises the phase, and whatever the reconciliation proper does. *)
Theorem always_requeued hasClient hasManager req start t res :
  res.2 = None →
  (∀ r, om_DeletionTimestamp (redis_meta r) = None →
     exec (Reconcile hasClient req)
       (Ev (S := KubeSig) TimeNow start :: Ev (S := KubeSig) (Get CRedis req) (Ok r) :: t) (Done res) →
     res_Requeue res.1 = true ∨ 0 < res_RequeueAfter res.1) ∧
  (∀ rs, om_DeletionTimestamp (sentinel_meta rs) = None →
     exec (ReconcileSentinel hasClient req)
       (Ev (S := KubeSig) TimeNow start :: Ev (S := KubeSig) (Get CSentinel req) (Ok rs) :: t) (Done res) →
     res_Requeue res.1 = true ∨ 0 < res_RequeueAfter res.1) ∧
  (∀ rc, om_DeletionTimestamp (cluster_meta rc) = None →
     exec (ReconcileCluster hasClient hasManager req)
       (Ev (S := KubeSig) TimeNow start :: Ev (S := KubeSig) (Get CCluster req) (Ok rc) :: t) (Done res) →
     res_Requeue res.1 = true ∨ 0 < res_RequeueAfter res.1).
Proof.
  intros He. split_and!; intros r Hd H.
  - destruct (reconcileWith_get (k := CRedis) KindRedis req _ _ _ _ _ H) as [t' H'].
    cbv beta iota in H'. rewrite Hd, bool_decide_false in H' by apply is_Some_None.
    eapply (live_again (k := CRedis)) in H'; [by apply H'|apply reconcileRedis_again].
  - destruct (reconcileWith_get (k := CSentinel) KindSentinel req _ _ _ _ _ H) as [t' H'].
    cbv beta iota in H'. rewrite Hd, bool_decide_false in H' by apply is_Some_None.
    eapply (live_again (k := CSentinel)) in H'; [by apply H'|apply reconcileSentinel_again].
  - destruct (reconcileWith_get (k := CCluster) KindCluster req _ _ _ _ _ H) as [t' H'].
    cbv beta iota in H'. rewrite Hd, bool_decide_false in H' by apply is_Some_None.
    eapply (live_again (k := CCluster)) in H'; [by apply H'|apply reconcileCluster_again].
Qed.
End lifecycle.

(** ** Witnesses *)

#[local] Existing Instance plain_types.

(** Scaling a cluster of three masters out to four. *)
Lemma lifecycle_refines_step_witness :
  let rc := live_cluster 4 0 "Ready" in
  let r := run apiserver (reconcileClusterLifecycle true rc) (serving rc (Ok (cluster_of_size 3))) in
  ∃ calls, manager_calls (trace_of r) = ClusterManager.GetClusterState (clusterMasterAddr rc 0) :: calls ∧
    ∃ after res, step rc "Ready" (Some (cluster_of_size 3)) calls after res.
Proof.
  intros rc r.
  destruct (lifecycle_refines_step rc (trace_of r) (set_phase PhaseReady (set_phase PhaseScaling rc)) requeue None)
    as (_ & view & calls & Hv & Hc & Hs).
  - apply (run_done apiserver (reconcileClusterLifecycle true rc)). vm_compute. reflexivity.
  - vm_compute in Hv. injection Hv as <-. exists calls. split; [exact Hc|].
    exists PhaseReady, requeue. exact Hs.
Defined.

Lemma phase_sticks_witness :
  let rc := live_cluster 3 0 "Scaling" in
  let r := run apiserver (reconcileClusterLifecycle true rc) (serving rc (Ok (cluster_of_size 3))) in
  allowed (ClusterHook.ValidateDelete (clusterStatusFor rc 3 0 0 "ok" 16384 [])) = false.
Proof.
  intros rc r.
  destruct (phase_sticks rc (cluster_of_size 3) (trace_of r) (rc, (noResult, None))) as [_ H].
  - split_and!; [discriminate|reflexivity|reflexivity].
  - left. reflexivity.
  - vm_compute. reflexivity.
  - apply (run_done apiserver (reconcileClusterLifecycle true rc)). vm_compute. reflexivity.
  - destruct (H 3 0 0 "ok" 16384 []) as [_ H2]. apply H2. reflexivity.
Defined.

(** Scaling in from four masters to three. *)
Lemma statefulset_before_manager_witness :
  let rc := live_cluster 3 0 "Ready" in
  let r := run apiserver (reconcileCluster true true rc) (serving rc (Ok (cluster_of_size 4))) in
  ∃ before after mutate,
    trace_of r = before ++ Ev (S := KubeSig)
          (CreateOrUpdate OStatefulSet {| key_Namespace := "default"; key_Name := "rc-masters" |} mutate)
          (Ok tt) :: after ∧
    manager_calls before = [].
Proof.
  intros rc r.
  destruct (statefulset_before_manager true true rc (trace_of r) (result_of r)) as (b & a & m & H1 & H2 & _).
  - exact (run_exec apiserver (reconcileCluster true true rc) (serving rc (Ok (cluster_of_size 4)))).
  - vm_compute. discriminate.
  - exists b, a, m. split; [exact H1|exact H2].
Defined.

(** A Sentinel setup without the finalizer: it is added, and the resource is
    looked at again at once. *)
Lemma always_requeued_witness :
  let req := {| key_Namespace := "default"; key_Name := "rs" |} in
  let w := serving (live_cluster 3 0 "Ready") (Ok (cluster_of_size 3)) in
  let r := run apiserver (ReconcileSentinel true req) w in
  result_of r = Done (requeue, None) ∧ (res_Requeue requeue = true ∨ 0 < res_RequeueAfter requeue).
Proof.
  intros req w r. assert (result_of r = Done (requeue, None)) as E by (vm_compute; reflexivity).
  split; [exact E|].
  destruct (always_requeued true true req 0 (tail (tail (trace_of r))) (requeue, None) eq_refl) as (_ & H & _).
  apply (H (sample_sentinel 3 3 None)); [reflexivity|].
  exact (run_done apiserver (ReconcileSentinel true req) w _ E).
Defined.
