(* ===== verification/Ownership.v ===== *)
(** * Ownership and deletion (theorems on the three reconcilers)

    Nothing is created for a resource before it carries the operator's
    finalizer, and the finalizer is removed only after the storage claims are
    dealt with. *)

From S2P Require Import Prelude Go Effects Client Sys Cluster Api Webhook Resources Workloads Sha256 Kube ApiServer RedisCtrl SentinelCtrl ClusterCtrl.

Local Open Scope Z_scope.

Section ownership.
Context {K : KubeTypes} {L : KubeLib}.

(** ** Observations *)

Definition custom_meta {k : custom} : custom_type k → ObjectMeta :=
  match k with CRedis => redis_meta | CSentinel => sentinel_meta | CCluster => cluster_meta end.

(** The metadata that a [Get] answered. *)
Definition got_meta (e : Effects.event KubeSig) : option ObjectMeta :=
  match e with
  | Ev o r => match o return kube_ans o → option ObjectMeta with
              | Get k _ => λ r, match r with Ok obj => Some (custom_meta obj) | Fail _ => None end
              | _ => λ _, None
              end r
  end.

(** The finalizers of the objects sent by [Update]. *)
Definition finalizer_updates (t : list (Effects.event KubeSig)) : list (list string) :=
  observe (λ e : Effects.event KubeSig,
    match ev_op e : kube_op with Update k obj => Some (om_Finalizers (custom_meta obj)) | _ => None end) t.

(** The objects applied, by kind and key. *)
Definition applied (t : list (Effects.event KubeSig)) : list (owned * ObjectKey) :=
  observe (λ e : Effects.event KubeSig,
    match ev_op e : kube_op with CreateOrUpdate k key _ => Some (k, key) | _ => None end) t.

(** The claims that were looked up, [None] when the lookup failed. *)
Definition claim_reads (t : list (Effects.event KubeSig)) : list (option (list PersistentVolumeClaim)) :=
  observe (λ e : Effects.event KubeSig,
    match e with
    | Ev o r => match o return kube_ans o → option (option (list PersistentVolumeClaim)) with
                | ListClaims _ _ => λ r, Some (match r with Ok l => Some l | Fail _ => None end)
                | GetClaim _ => λ r, Some (match r with Ok c => Some [c] | Fail _ => None end)
                | _ => λ _, None
                end r
    end) t.

(** The requests by which claims were looked up. *)
Definition claim_lookups (t : list (Effects.event KubeSig)) : list kube_op :=
  observe (λ e : Effects.event KubeSig,
    match ev_op e : kube_op with
    | ListClaims ns labels => Some (ListClaims ns labels)
    | GetClaim key => Some (GetClaim key)
    | _ => None
    end) t.

(** The claims that were deleted, with the error the code sees. *)
Definition deletions (t : list (Effects.event KubeSig)) : list (PersistentVolumeClaim * result unit) :=
  observe (λ e : Effects.event KubeSig,
    match e with
    | Ev o r => match o return kube_ans o → option (PersistentVolumeClaim * result unit) with
                | DeleteClaim pvc => λ r, Some (pvc, ignoreNotFound r)
                | _ => λ _, None
                end r
    end) t.

Lemma claim_reads_app t1 t2 : claim_reads (t1 ++ t2) = claim_reads t1 ++ claim_reads t2.
Proof. apply observe_app. Qed.
Lemma claim_lookups_app t1 t2 : claim_lookups (t1 ++ t2) = claim_lookups t1 ++ claim_lookups t2.
Proof. apply observe_app. Qed.
Lemma deletions_app t1 t2 : deletions (t1 ++ t2) = deletions t1 ++ deletions t2.
Proof. apply observe_app. Qed.
Lemma finalizer_updates_app t1 t2 : finalizer_updates (t1 ++ t2) = finalizer_updates t1 ++ finalizer_updates t2.
Proof. apply observe_app. Qed.

(** ** Dropping the claims *)

(** The deletions of claims that all went well. *)
Definition all_deleted (claims : list PersistentVolumeClaim) : list (PersistentVolumeClaim * result unit) :=
  (λ c, (c, Ok tt)) <$> claims.

(** Deletion in order up to the first claim that could not be deleted. *)
Definition deleted_until (found : list PersistentVolumeClaim) (e : error)
    (ds : list (PersistentVolumeClaim * result unit)) : Prop :=
  ∃ before c rest, found = before ++ c :: rest ∧ ds = all_deleted before ++ [(c, Fail e)].

(** What dropping the claims did: nothing when they are kept; otherwise one
    lookup, and every claim found was deleted, or all up to the one whose
    error it returns. *)
Definition dropped (lookup : kube_op) (storage : option StorageSpec) (t : list (Effects.event KubeSig))
    (out : outcome (result unit)) : Prop :=
  finalizer_updates t = [] ∧
  if dropsClaims storage
  then claim_lookups t = [lookup] ∧ ∃ found, claim_reads t = [found] ∧
       match out with
       | Done (Ok _) => deletions t = all_deleted (default [] found)
       | Done (Fail e) => deleted_until (default [] found) e (deletions t)
       | Halted _ => False
       end
  else claim_lookups t = [] ∧ claim_reads t = [] ∧ deletions t = [] ∧ out = Done (Ok tt).

Lemma exec_deleteClaims pvcs t out :
  exec (deleteClaims pvcs) t out →
  finalizer_updates t = [] ∧ claim_lookups t = [] ∧ claim_reads t = [] ∧
  match out with
  | Done (Ok _) => deletions t = all_deleted pvcs
  | Done (Fail e) => deleted_until pvcs e (deletions t)
  | Halted _ => False
  end.
Proof.
  revert t. induction pvcs as [|c pvcs IH]; intros t H.
  - exec_done H. by subst out.
  - apply exec_for_each_cons in H as [(t1 & t2 & -> & H1 & H2)|[Hne H1]].
    + exec_step H1. hnf in H1. destruct H1 as [-> [= He]]. apply IH in H2 as (H2 & H3 & H4 & H5).
      split_and!; [exact H2|exact H3|exact H4|].
      change (deletions ([Ev (S := KubeSig) (DeleteClaim c) r] ++ t2)) with ((c, ignoreNotFound r) :: deletions t2).
      rewrite <- He. destruct out as [[[]|e]|h]; [by rewrite H5| |done].
      destruct H5 as (before & c' & rest & -> & ->). by exists (c :: before), c', rest.
    + exec_step H1. exec_done H1. split_and!; [done|done|done|]. subst out.
      destruct (ignoreNotFound r) as [[]|e] eqn:He; [by destruct Hne|].
      exists [], c, pvcs. split; [done|]. cbn. by rewrite He.
Qed.

Lemma dropClaims_dropped storage ns labels t out :
  exec (dropClaims storage ns labels) t out → dropped (ListClaims ns labels) storage t out.
Proof.
  unfold dropClaims, dropped. destruct (dropsClaims storage); intros H.
  - exec_step_ok H; exec_simpl H.
    + apply exec_deleteClaims in H as (H1 & H2 & H3 & H4). split; [exact H1|]. split.
      * change (ListClaims ns labels :: claim_lookups t0 = [ListClaims ns labels]). by rewrite H2.
      * exists (Some r). split; [|exact H4]. change (Some r :: claim_reads t0 = [Some r]). by rewrite H3.
    + exec_done H. subst out. split; [done|]. split; [done|]. by exists None.
  - exec_done H. by subst out.
Qed.

Lemma dropRedisClaim_dropped r t out :
  exec (dropRedisClaim r) t out → dropped (GetClaim (redisClaimKey r)) (r_Storage (redis_Spec r)) t out.
Proof.
  unfold dropRedisClaim, dropped. destruct (dropsClaims (r_Storage (redis_Spec r))); intros H.
  - exec_step_ok H; exec_simpl H.
    + exec_step H. exec_done H. subst out. split; [done|]. split; [done|]. exists (Some [r0]). split; [done|].
      cbn. destruct (ignoreNotFound r1) as [[]|e]; [done|]. by exists [], r0, [].
    + exec_done H. subst out. split; [done|]. split; [done|]. by exists None.
  - exec_done H. by subst out.
Qed.

(** ** Deletion *)

(** Storage whose claims go with the resource. *)
Definition disposable (storage : option StorageSpec) : Prop :=
  ∃ st, storage = Some st ∧ ss_KeepAfterDeletion st = false.

Lemma dropsClaims_kept storage : ¬ disposable storage → dropsClaims storage = false.
Proof.
  unfold dropsClaims, disposable. destruct storage as [st|]; [|done]. intros H.
  apply negb_false_iff, not_false_iff_true. intros Hk. apply H. eauto.
Qed.

Lemma dropsClaims_disposable storage : dropsClaims storage = true ↔ disposable storage.
Proof.
  unfold dropsClaims, disposable. destruct storage as [st|]; [|naive_solver].
  rewrite negb_true_iff. naive_solver.
Qed.

(** What the deletion of a resource with the finalizer does, [obj] being the
    resource without it.  Claims that are kept are not touched; others are
    looked up once.  It ends by sending [obj], all claims found being deleted,
    or, when one of them cannot be deleted, with that error, nothing being
    sent. *)
Definition deletion_spec {k : custom} (lookup : kube_op) (storage : option StorageSpec) (fins : list string)
    (obj : custom_type k) (t : list (Effects.event KubeSig)) (out : outcome outcome_of) : Prop :=
  (¬ disposable storage → claim_lookups t = [] ∧ deletions t = []) ∧
  (disposable storage → claim_lookups t = [lookup]) ∧
  ((finalizer_updates t = [] ∧ disposable storage ∧ ∃ found e,
      claim_reads t = [Some found] ∧ deleted_until found e (deletions t) ∧ out = Done (noResult, Some e)) ∨
   (∃ before u, t = before ++ [Ev (S := KubeSig) (Update k obj) u] ∧ out = Done (noResult, err_of u) ∧
    om_Finalizers (custom_meta obj) = RemoveFinalizer fins FinalizerName ∧ finalizer_updates before = [] ∧
    (disposable storage →
       ∃ found, claim_reads before = [found] ∧ deletions before = all_deleted (default [] found)))).

(** Calls that have nothing to do with claims and finalizers. *)
Definition unrelated (t : list (Effects.event KubeSig)) : Prop :=
  finalizer_updates t = [] ∧ claim_lookups t = [] ∧ claim_reads t = [] ∧ deletions t = [].

Lemma unrelated_app t1 t2 : unrelated t1 → unrelated t2 → unrelated (t1 ++ t2).
Proof.
  intros (A1 & A2 & A3 & A4) (B1 & B2 & B3 & B4). unfold unrelated.
  by rewrite finalizer_updates_app, claim_lookups_app, claim_reads_app, deletions_app, A1, A2, A3, A4, B1, B2, B3, B4.
Qed.

(** Unrelated calls and then the update, whose error is returned. *)
Definition finishes {k : custom} (p : prog KubeSig outcome_of) (obj : custom_type k) : Prop :=
  ∀ t out, exec p t out → ∃ tu u, t = tu ++ [Ev (S := KubeSig) (Update k obj) u] ∧ unrelated tu ∧
    out = Done (noResult, err_of u).

Lemma finishes_update {k : custom} (obj : custom_type k) :
  finishes (prog_bind (λ u, Ret (noResult, err_of u)) (kcall (Update k obj))) obj.
Proof. intros t out H. exec_step H. exec_simpl H. exec_done H. by exists [], r. Qed.

Lemma finishes_bind {A} {k : custom} (obj : custom_type k) (f : A → prog KubeSig outcome_of) p :
  (∀ t out, exec p t out → unrelated t ∧ ∃ a, out = Done a) → (∀ a, finishes (f a) obj) →
  finishes (prog_bind f p) obj.
Proof.
  intros Hp Hf t out [(t1 & a & t2 & -> & H1 & H2)|(h & -> & H1)]%exec_bind.
  - apply Hp in H1 as [H1 _]. apply Hf in H2 as (tu & u & -> & H2 & Ho).
    exists (t1 ++ tu), u. rewrite (assoc_L (++)). split_and!; [done|by apply unrelated_app|done].
  - by apply Hp in H1 as (_ & a & [=]).
Qed.

(** The common end of the three deletions. *)
Lemma deletion_end {k : custom} lookup storage fins (drop : prog KubeSig (result unit))
    (rest : prog KubeSig outcome_of) (obj : custom_type k) t out :
  (∀ t out, exec drop t out → dropped lookup storage t out) →
  finishes rest obj → om_Finalizers (custom_meta obj) = RemoveFinalizer fins FinalizerName →
  exec (_ ←! drop; rest) t out → deletion_spec lookup storage fins obj t out.
Proof.
  intros Hd Hr Hf H.
  assert (∀ storage, disposable storage ∨ ¬ disposable storage) as Hdec.
  { intros st. destruct (dropsClaims st) eqn:E; [left; by apply dropsClaims_disposable|right].
    intros Hs%dropsClaims_disposable. congruence. }
  apply exec_bind in H as [(t1 & res & t2 & -> & H1 & H)|(h & -> & H1)]; apply Hd in H1 as [Hu H1].
  2: { destruct (dropsClaims storage); [by destruct H1 as (_ & ? & _ & [])|by destruct H1 as (_ & _ & _ & [=])]. }
  destruct (Hdec storage) as [Hs|Hs].
  - pose proof Hs as Hs'. apply dropsClaims_disposable in Hs'. rewrite Hs' in H1. destruct H1 as (Hl & found & Hc & H1).
    destruct res as [[]|e].
    + apply Hr in H as (tu & u & -> & (U1 & U2 & U3 & U4) & ->). unfold deletion_spec.
      rewrite (assoc_L (++)), !claim_lookups_app, Hl, U2. split_and!; [done|done|right].
      exists (t1 ++ tu), u. rewrite finalizer_updates_app, claim_reads_app, deletions_app, Hu, Hc, H1, U1, U3, U4, !app_nil_r.
      split_and!; try done. intros _. by exists found.
    + destruct H as [-> ->]. rewrite app_nil_r. split_and!; [done|done|left]. split_and!; [done|done|].
      destruct found as [found|]; [by exists found, e|]. destruct H1 as (before & c & claims & Hn & _). by destruct before.
  - pose proof (dropsClaims_kept storage Hs) as Hs'. rewrite Hs' in H1. destruct H1 as (Hl & Hc & Hdl & [= ->]).
    apply Hr in H as (tu & u & -> & (U1 & U2 & U3 & U4) & ->). unfold deletion_spec.
    rewrite (assoc_L (++)), !claim_lookups_app, !deletions_app, Hl, Hdl, U2, U4. split_and!; [done|done|right].
    exists (t1 ++ tu), u. rewrite finalizer_updates_app, Hu, U1. by split_and!.
Qed.

Lemma deletion_spec_app {k : custom} lookup storage fins (obj : custom_type k) t1 t2 out :
  unrelated t1 → deletion_spec lookup storage fins obj t2 out → deletion_spec lookup storage fins obj (t1 ++ t2) out.
Proof.
  intros (U1 & U2 & U3 & U4) (H1 & H2 & H3). unfold deletion_spec.
  rewrite finalizer_updates_app, claim_lookups_app, claim_reads_app, deletions_app, U1, U2, U3, U4.
  split_and!; [exact H1|exact H2|]. destruct H3 as [H3|(b & u & -> & H3)]; [by left|right].
  exists (t1 ++ b), u. rewrite finalizer_updates_app, claim_reads_app, deletions_app, U1, U3, U4.
  by rewrite (assoc_L (++)).
Qed.

Lemma unrelated_event ty reason msg t out : exec (event ty reason msg) t out → unrelated t ∧ ∃ a, out = Done a.
Proof. intros H. exec_step H. exec_done H. split; [done|]. eauto. Qed.

Lemma unrelated_metrics name ns t out : exec (DeleteClusterMetrics name ns) t out → unrelated t ∧ ∃ a, out = Done a.
Proof. intros H. do 5 (exec_step H; exec_simpl H). exec_done H. split; [done|]. eauto. Qed.

Lemma dropClaims_returns storage ns labels t h : ¬ exec (dropClaims storage ns labels) t (Halted h).
Proof.
  unfold dropClaims. destruct (dropsClaims storage); [|by intros [_ ?]].
  intros H. exec_step_ok H; exec_simpl H; [|by destruct H].
  revert t0 H. induction r as [|c r IH]; intros t H; [by destruct H|].
  apply exec_for_each_cons in H as [(t1 & t2 & -> & H1 & H2)|[Hne H1]]; [by apply IH in H2|].
  exec_step H1. by destruct H1.
Qed.

Lemma dropRedisClaim_returns r t h : ¬ exec (dropRedisClaim r) t (Halted h).
Proof.
  unfold dropRedisClaim. destruct (dropsClaims _); [|by intros [_ ?]].
  intros H. exec_step_ok H; exec_simpl H; [|by destruct H]. exec_step H. by destruct H.
Qed.

(** C3: Deleting a resource keeps its data when it should and never loses
    track of it otherwise.  With [KeepAfterDeletion], or without storage, no
    claim is looked up or deleted.  Without it the claims of this resource, by
    name or by labels, are looked up once and every one found is deleted, in
    order; only when all of them are gone (or were not found any more) is the
    resource sent again, once, as the last call, without the operator's
    finalizer.  If a claim cannot be deleted, nothing is sent, so the finalizer
    stays, and its error is returned - where docs/architecture.md says that a
    failed cleanup removes the finalizer all the same.  A failing lookup,
    however, is taken for an empty one, as that document has it. *)
Theorem deletion_drops_claims hasClient :
  (∀ r t out, ContainsFinalizer (om_Finalizers (redis_meta r)) FinalizerName = true →
     exec (handleDeletion r) t out →
     deletion_spec (k := CRedis)
       (GetClaim {| key_Namespace := om_Namespace (redis_meta r);
                    key_Name := "data-" +:+ om_Name (redis_meta r) +:+ "-0" |})
       (r_Storage (redis_Spec r)) (om_Finalizers (redis_meta r)) (removeRedisFinalizer r) t out) ∧
  (∀ rs t out, ContainsFinalizer (om_Finalizers (sentinel_meta rs)) FinalizerName = true →
     exec (handleSentinelDeletion hasClient rs) t out →
     deletion_spec (k := CSentinel)
       (ListClaims (om_Namespace (sentinel_meta rs)) (PodLabels (om_Name (sentinel_meta rs)) ComponentRedis))
       (s_Storage (sentinel_Spec rs)) (om_Finalizers (sentinel_meta rs)) (removeSentinelFinalizer rs) t out) ∧
  (∀ rc t out, ContainsFinalizer (om_Finalizers (cluster_meta rc)) FinalizerName = true →
     exec (handleClusterDeletion rc) t out →
     deletion_spec (k := CCluster)
       (ListClaims (cluster_ns rc) {[ labelCluster := cluster_name rc ]})
       (c_Storage (cluster_Spec rc)) (om_Finalizers (cluster_meta rc)) (removeClusterFinalizer rc) t out).
Proof.
  split_and!; intros r t out Hc H.
  - unfold handleDeletion in H. rewrite Hc in H. cbn [negb] in H.
    refine (deletion_end _ _ _ _ _ (removeRedisFinalizer r : custom_type CRedis) _ _ (dropRedisClaim_dropped r) _ _ H);
      [|done]. apply finishes_bind; [apply unrelated_event|]. intros _. apply finishes_update.
  - unfold handleSentinelDeletion in H. rewrite Hc in H. cbn [negb] in H.
    assert (∃ t1 t2, t = t1 ++ t2 ∧ unrelated t1 ∧ exec (_ ←! dropClaims (s_Storage (sentinel_Spec r)) (om_Namespace (sentinel_meta r))
      (PodLabels (om_Name (sentinel_meta r)) ComponentRedis);
      _ ← event "Normal" "Deleted" "RedisSentinel instance cleaned up";
      u ← kcall (Update CSentinel (removeSentinelFinalizer r));
      mret (noResult, err_of u)) t2 out) as (t1 & t2 & -> & Hu & H2).
    { destruct hasClient; [exec_step H; exec_simpl H|]; first [eexists [_], _; split; [reflexivity|] | exists [], t; split; [done|]]; done. }
    apply deletion_spec_app; [done|].
    refine (deletion_end _ _ _ _ _ (removeSentinelFinalizer r : custom_type CSentinel) _ _
              (dropClaims_dropped _ _ _) _ _ H2); [|done].
    apply finishes_bind; [apply unrelated_event|]. intros _. apply finishes_update.
  - unfold handleClusterDeletion in H. rewrite Hc in H. cbn [negb] in H.
    refine (deletion_end _ _ _ _ _ (removeClusterFinalizer r : custom_type CCluster) _ _
              (dropClaims_dropped _ _ _) _ _ H); [|done].
    apply finishes_bind; [apply unrelated_metrics|]. intros _.
    apply finishes_bind; [apply unrelated_event|]. intros _. apply finishes_update.
Qed.

(** ** The finalizer comes first *)

(** A program that applies no object. *)
Definition applies_nothing {A} (p : prog KubeSig A) : Prop :=
  only (S := KubeSig) (λ o : kube_op, match o with CreateOrUpdate _ _ _ => False | _ => True end) p.

Lemma applies_nothing_applied {A} (p : prog KubeSig A) t out : applies_nothing p → exec p t out → applied t = [].
Proof.
  intros Hp He. specialize (Hp t out He). clear He. induction Hp as [|[o r] t Ho _ IH]; [done|].
  unfold applied, observe. rewrite omap_cons_eq. simpl. by destruct o.
Qed.

(** What a reconciliation does before it applies anything: its first call
    reads a resource that is not being deleted and has the finalizer.  A
    resource without it is sent back with the finalizer added, and that is
    all. *)
Definition finalizer_before_objects (t : list (Effects.event KubeSig)) : Prop :=
  (applied t ≠ [] →
   ∃ m, head t ≫= got_meta = Some m ∧ om_DeletionTimestamp m = None ∧
        ContainsFinalizer (om_Finalizers m) FinalizerName = true) ∧
  (∀ m, head t ≫= got_meta = Some m → om_DeletionTimestamp m = None →
        ContainsFinalizer (om_Finalizers m) FinalizerName = false →
   finalizer_updates t = [AddFinalizer (om_Finalizers m) FinalizerName] ∧ length t = 2%nat).

Lemma nothing_applied t :
  applied t = [] → (∀ m, head t ≫= got_meta = Some m → is_Some (om_DeletionTimestamp m)) → finalizer_before_objects t.
Proof.
  intros Ha Hm. split; [done|]. intros m Hg Hd. destruct (Hm _ Hg) as [x Hx]. congruence.
Qed.

Lemma guarded_finalizer m t :
  head t ≫= got_meta = Some m → om_DeletionTimestamp m = None →
  ContainsFinalizer (om_Finalizers m) FinalizerName = true → finalizer_before_objects t.
Proof. intros Hg Hd Hf. split; [by eauto|]. intros m' Hg' _ Hf'. congruence. Qed.

Lemma handleDeletion_applies r : applies_nothing (handleDeletion r).
Proof. unfold handleDeletion, dropRedisClaim, applies_nothing, or_return, event, kcall. only_tac. Qed.

Lemma handleSentinelDeletion_applies hasClient rs : applies_nothing (handleSentinelDeletion hasClient rs).
Proof.
  unfold handleSentinelDeletion, dropClaims, deleteClaims, applies_nothing, or_return, event, kcall. only_tac.
Qed.

Lemma handleClusterDeletion_applies rc : applies_nothing (handleClusterDeletion rc).
Proof.
  unfold handleClusterDeletion, dropClaims, deleteClaims, DeleteClusterMetrics, applies_nothing, or_return, event, kcall.
  only_tac.
Qed.

(** One of the three reconcilers after its [Get] answered. *)
Ltac finalizer_step del H :=
  let Hdel := fresh "Hdel" in let Hfin := fresh "Hfin" in
  match type of H with context [bool_decide ?P] => destruct (bool_decide_reflect P) as [Hdel|Hdel] end;
  [ apply nothing_applied;
    [ apply (applies_nothing_applied _ _ _ del) in H; exact H
    | intros m Hm; injection Hm as <-; assumption ]
  | rewrite <- eq_None_not_Some in Hdel;
    match type of H with context [ContainsFinalizer ?a ?b] => destruct (ContainsFinalizer a b) eqn:Hfin end;
    [ eapply guarded_finalizer; [reflexivity|assumption|assumption]
    | split; [intros Ha; exfalso; apply Ha; cbn [negb] in H; exec_step_ok H; exec_simpl H; by exec_done H|];
      intros m Hm _ _; injection Hm as <-; cbn [negb] in H; exec_step_ok H; exec_simpl H; by exec_done H ] ].

(** C8: No object is created for a resource that does not carry the
    operator's finalizer yet.  Whenever a reconciliation applies a ConfigMap,
    a Service, a workload, a budget or a ServiceMonitor, its first call read
    a resource that is not being deleted and has the finalizer; a live
    resource without it is sent back once with the finalizer added and
    nothing else is called, so that whatever the operator creates is seen by
    its deletion. *)
Theorem finalizer_first hasClient hasManager req :
  (∀ t out, exec (doReconcile hasClient req) t out → finalizer_before_objects t) ∧
  (∀ t out, exec (doReconcileSentinel hasClient req) t out → finalizer_before_objects t) ∧
  (∀ t out, exec (doReconcileCluster hasClient hasManager req) t out → finalizer_before_objects t).
Proof.
  split_and!; intros t out H; exec_step_ok H; exec_simpl H;
    try by (exec_done H; apply nothing_applied).
  - finalizer_step (handleDeletion_applies r) H.
  - finalizer_step (handleSentinelDeletion_applies hasClient r) H.
  - finalizer_step (handleClusterDeletion_applies r) H.
Qed.
End ownership.

(** ** Witnesses *)

#[local] Existing Instance plain_types.

(** A cluster with two claims. *)
Definition claim_named (name : string) : PersistentVolumeClaim :=
  {| pvc_meta := meta name "default" ∅; pvc_AccessModes := []; pvc_Requests := ∅; pvc_StorageClassName := None |}.

Definition stored_cluster : RedisCluster :=
  let rc := sample_cluster 3 0 (Some (storage_of "1")) "Ready" in
  {| cluster_meta := with_finalizers [FinalizerName] (cluster_meta rc);
     cluster_Spec := cluster_Spec rc; cluster_Status := cluster_Status rc |}.

Definition two_claims : server :=
  {| sv_redis := Ok (sample_redis None); sv_sentinel := Ok (sample_sentinel 3 3 None); sv_cluster := Ok stored_cluster;
     sv_state := Fail (ExtErr "EOF"); sv_pods := []; sv_claims := [claim_named "data-0"; claim_named "data-1"] |}.

Lemma deletion_drops_claims_witness :
  let r := run apiserver (handleClusterDeletion stored_cluster) two_claims in
  deletion_spec (k := CCluster) (ListClaims "default" {[ labelCluster := "rc" ]}) (Some (storage_of "1")) [FinalizerName]
    (removeClusterFinalizer stored_cluster) (trace_of r) (result_of r) ∧
  deletions (trace_of r) = [(claim_named "data-0", Ok tt); (claim_named "data-1", Ok tt)].
Proof.
  intros r. split; [|vm_compute; reflexivity].
  destruct (deletion_drops_claims true) as (_ & _ & H).
  apply (H stored_cluster (trace_of r) (result_of r)); [reflexivity|].
  exact (run_exec apiserver (handleClusterDeletion stored_cluster) two_claims).
Defined.

Lemma finalizer_first_witness :
  let rc := live_cluster 3 0 "Ready" in
  let key := {| key_Namespace := "default"; key_Name := "rc" |} in
  let r := run apiserver (doReconcileCluster true true key) (serving rc (Ok (cluster_of_size 3))) in
  (applied (trace_of r) = [] → False) ∧
  ∃ m, head (trace_of r) ≫= got_meta = Some m ∧ has (om_Finalizers m) FinalizerName = true.
Proof.
  intros rc key r. assert (applied (trace_of r) = [] → False) as Hne by (vm_compute; discriminate).
  split; [exact Hne|]. destruct (finalizer_first true true key) as (_ & _ & H).
  destruct (H (trace_of r) (result_of r)
    (run_exec apiserver (doReconcileCluster true true key) (serving rc (Ok (cluster_of_size 3))))) as [H1 _].
  destruct (H1 Hne) as (m & Hm & _ & Hf). exists m. split; [exact Hm|exact Hf].
Defined.
