(* ===== verification/Converge.v ===== *)
(** * Convergence and status (theorems on the three reconcilers)

    What the mutate functions change of an existing object and what they
    leave alone; and when a resource is reported ready. *)

From S2P Require Import Prelude Go Effects Client Sys Cluster Api Webhook Resources Workloads Sha256 Kube ApiServer RedisCtrl SentinelCtrl ClusterCtrl.

Local Open Scope Z_scope.

Section converge.
Context {K : KubeTypes} {L : KubeLib}.

(** ** The mutate functions *)

(** [SetControllerReference] called again on its result changes nothing. *)
Definition idempotent_references : Prop :=
  ∀ kind name m rest rest',
    SetControllerReference kind name m rest = Ok rest' → SetControllerReference kind name m rest' = Ok rest'.

Lemma own_labels o labels m m' : own o (with_labels labels m) = Ok m' →
  om_Labels m' = labels ∧ om_Annotations m' = om_Annotations m ∧
  om_CreationTimestamp m' = om_CreationTimestamp m ∧
  SetControllerReference (ow_Kind o) (om_Name (ow_meta o)) (om_Rest (ow_meta o)) (om_Rest m) = Ok (om_Rest m').
Proof. unfold own, with_labels. simpl. destruct (SetControllerReference _ _ _ _); [|done]. by intros [= <-]. Qed.

Lemma own_again o labels m m' :
  idempotent_references → own o (with_labels labels m) = Ok m' → own o (with_labels labels m') = Ok m'.
Proof.
  intros Hi Ho. pose proof (own_labels _ _ _ _ Ho) as (Hl & _ & _ & Hr). apply Hi in Hr.
  unfold own, with_labels. simpl. rewrite Hr. destruct m'; simpl in *. by subst.
Qed.

Lemma own_annotated_again o labels annotations m m' :
  idempotent_references → own o (with_annotations annotations (with_labels labels m)) = Ok m' →
  own o (with_annotations annotations (with_labels labels m')) = Ok m' ∧
  om_CreationTimestamp m' = om_CreationTimestamp m.
Proof.
  intros Hi. unfold own, with_labels, with_annotations. simpl.
  destruct (SetControllerReference _ _ _ (om_Rest m)) eqn:E; [|done]. intros [= <-]. simpl.
  by rewrite (Hi _ _ _ _ _ E).
Qed.

Lemma result_map_ok {A B} (f : A → B) r b : result_map f r = Ok b → ∃ a, r = Ok a ∧ b = f a.
Proof. destruct r; [|done]. intros [= <-]. eauto. Qed.

Lemma isNew_eq m m' : om_CreationTimestamp m' = om_CreationTimestamp m → isNew m' = isNew m.
Proof. unfold isNew. by intros ->. Qed.

(** A mutate function that finds its own result does not change it. *)
Definition fixes {A} (mutate : A → result A) : Prop := ∀ existing new, mutate existing = Ok new → mutate new = Ok new.

Ltac fixes_tac Hi :=
  let existing := fresh "existing" in let new := fresh "new" in let m := fresh "m" in
  let H := fresh "H" in let Ht := fresh "Ht" in
  intros existing new H; apply result_map_ok in H as (m & H & ->);
  assert (Ht := H); apply own_labels in Ht as (_ & _ & Ht & _); apply isNew_eq in Ht;
  apply (own_again _ _ _ _ Hi) in H.

(** C21: Reconciliation converges.  Each mutate function of the reconcilers
    that is applied to its own result returns it unchanged - for a created
    object as well as for an updated one - so that a second reconciliation of
    the same spec sends no change; and on an object that exists already the
    fields the API server makes immutable or assigns itself stay: the
    selector, the service name and the claim templates of a StatefulSet, the
    selector of a Deployment, the cluster IP and the type of a Service, while
    its replicas, template, selector and ports are those desired. *)
Theorem mutations_converge (Hi : idempotent_references) (o : Owner) :
  (∀ d, fixes (mutateConfigMap o d)) ∧ (∀ d, fixes (mutateService o d)) ∧
  (∀ d, fixes (mutateClientService o d)) ∧ (∀ d, fixes (mutateStatefulSet o d)) ∧
  (∀ d, fixes (mutateDeployment o d)) ∧ (∀ d, fixes (mutatePDB o d)) ∧ (∀ d, fixes (mutateServiceMonitor o d)) ∧
  (∀ d e n, isNew (sts_meta e) = false → mutateStatefulSet o d e = Ok n →
     sts_Selector (sts_Spec n) = sts_Selector (sts_Spec e) ∧
     sts_ServiceName (sts_Spec n) = sts_ServiceName (sts_Spec e) ∧
     sts_VolumeClaimTemplates (sts_Spec n) = sts_VolumeClaimTemplates (sts_Spec e) ∧
     sts_Replicas (sts_Spec n) = sts_Replicas (sts_Spec d) ∧ sts_Template (sts_Spec n) = sts_Template (sts_Spec d)) ∧
  (∀ d e n, isNew (dep_meta e) = false → mutateDeployment o d e = Ok n →
     dep_Selector (dep_Spec n) = dep_Selector (dep_Spec e) ∧
     dep_Replicas (dep_Spec n) = dep_Replicas (dep_Spec d) ∧ dep_Template (dep_Spec n) = dep_Template (dep_Spec d)) ∧
  (∀ d e n, isNew (svc_meta e) = false → mutateService o d e = Ok n ∨ mutateClientService o d e = Ok n →
     svc_ClusterIP (svc_Spec n) = svc_ClusterIP (svc_Spec e) ∧ svc_Type (svc_Spec n) = svc_Type (svc_Spec e) ∧
     svc_Selector (svc_Spec n) = svc_Selector (svc_Spec d) ∧ svc_Ports (svc_Spec n) = svc_Ports (svc_Spec d)).
Proof.
  split_and!; intros d.
  - fixes_tac Hi. unfold mutateConfigMap. simpl. by rewrite H.
  - intros e n H. apply result_map_ok in H as (m & H & ->). apply own_annotated_again in H as [H Ht]; [|done].
    unfold mutateService. simpl. rewrite H. simpl. rewrite (isNew_eq _ _ Ht). by destruct (isNew (svc_meta e)).
  - fixes_tac Hi. unfold mutateClientService. simpl. rewrite H. simpl. rewrite Ht. by destruct (isNew (svc_meta existing)).
  - fixes_tac Hi. unfold mutateStatefulSet. simpl. rewrite H. simpl. rewrite Ht. by destruct (isNew (sts_meta existing)).
  - fixes_tac Hi. unfold mutateDeployment. simpl. rewrite H. simpl. rewrite Ht. by destruct (isNew (dep_meta existing)).
  - fixes_tac Hi. unfold mutatePDB. simpl. by rewrite H.
  - fixes_tac Hi. unfold mutateServiceMonitor. simpl. by rewrite H.
  - intros e n Hn H. apply result_map_ok in H as (m & _ & ->). simpl. by rewrite Hn.
  - intros e n Hn H. apply result_map_ok in H as (m & _ & ->). simpl. by rewrite Hn.
  - intros e n Hn H. destruct H as [H|H]; apply result_map_ok in H as (m & _ & ->); simpl; by rewrite Hn.
Qed.

(** ** Readiness *)

Context {HL : KubeLaws}.

(** The conditions of type Ready, as status, generation and reason. *)
Definition ready_condition (l : list Condition) : list (ConditionStatus * Z * string) :=
  (λ c, (cond_Status c, cond_ObservedGeneration c, cond_Reason c))
    <$> filter (λ c, cond_Type c = conditionReady) l.

Lemma ready_condition_set l c :
  cond_Type c = conditionReady →
  ready_condition (SetStatusCondition l c) = [(cond_Status c, cond_ObservedGeneration c, cond_Reason c)].
Proof. intros Hc. unfold ready_condition. destruct (set_condition l c) as [t Ht]. rewrite Hc in Ht. by rewrite Ht. Qed.

(** The Ready condition for a boolean. *)
Definition reported (m : ObjectMeta) (ready : bool) : list (ConditionStatus * Z * string) :=
  [if ready then (ConditionTrue, om_Generation m, reasonReady)
   else (ConditionFalse, om_Generation m, reasonReconciling)].

(** C24: What the status says is what was counted.  The status written for a
    resource has exactly one Ready condition, stamped with the generation it
    was computed for, and it is True exactly when as many pods are ready as
    the spec wants: one for a standalone instance, the Redis and the Sentinel
    pods of a Sentinel setup, masters and, where there are any, replicas of a
    cluster.  A standalone instance and a Sentinel setup have the phase Ready
    exactly then, and a cluster that is new or initializing becomes Ready
    only when, besides, it reports the state [ok]. *)
Theorem status_reports_readiness :
  (∀ n t r, let s := redis_Status (redisStatusFor n t r) in
     ready_condition (rst_Conditions s) = reported (redis_meta r) (0 <? n) ∧
     (rst_Phase s = PhaseReady ↔ 0 < n) ∧ rst_ReadyReplicas s = n) ∧
  (∀ a b t rs, int32_range a → int32_range b →
     let s := sentinel_Status (sentinelStatusFor a b t rs) in
     let ready := s_Replicas (sentinel_Spec rs) ≤ a ∧ s_SentinelReplicas (sentinel_Spec rs) ≤ b in
     ready_condition (sst_Conditions s) = reported (sentinel_meta rs) (bool_decide ready) ∧
     (sst_Phase s = PhaseReady ↔ ready) ∧ sst_ReadyReplicas s = a ∧ sst_ReadySentinels s = b) ∧
  (∀ rc m r t st sl ns, int32_range (masters rc * replicasPerMaster rc) →
     let s := cluster_Status (clusterStatusFor rc m r t st sl ns) in
     let ready := masters rc ≤ m ∧ (0 < replicasPerMaster rc → masters rc * replicasPerMaster rc ≤ r) in
     ready_condition (cst_Conditions s) = reported (cluster_meta rc) (bool_decide ready) ∧
     (phase rc = "" ∨ phase rc = PhaseInitializing → (cst_Phase s = PhaseReady ↔ ready ∧ st = "ok")) ∧
     cst_ReadyMasters s = m ∧ cst_ReadyReplicas s = r).
Proof.
  split_and!.
  - intros n t r s. subst s. cbn [redisStatusFor redis_Status rst_Conditions rst_Phase rst_ReadyReplicas redis_status redis_with_status].
    rewrite ready_condition_set by done. cbn. destruct (0 <? n) eqn:E; split_and!; try done.
    + split; [intros _; blia|done].
    + split; [|blia]. destruct (String.eqb_spec (rst_Phase (redis_Status r)) PhaseFailed) as [-> |]; done.
  - intros a b t rs Ha Hb s ready. subst s. unfold sentinelStatusFor. cbn [sentinel_Status sst_Conditions sst_Phase sst_ReadyReplicas sst_ReadySentinels sentinel_with_status].
    rewrite ready_condition_set by done. cbn. rewrite !wrap32_id by done.
    assert ((s_Replicas (sentinel_Spec rs) <=? a) && (s_SentinelReplicas (sentinel_Spec rs) <=? b) = bool_decide ready) as ->.
    { apply eq_true_iff_eq. rewrite andb_true_iff, bool_decide_eq_true. subst ready. split; intros []; split; blia. }
    case_bool_decide; split_and!; try done. split; [|done].
    by destruct (String.eqb_spec (sst_Phase (sentinel_Status rs)) PhaseFailed) as [-> |].
  - intros rc m r t st sl ns Hr s ready. subst s. unfold clusterStatusFor. cbn [cluster_Status cst_Conditions cst_Phase cst_ReadyMasters cst_ReadyReplicas cluster_with_status].
    rewrite ready_condition_set by done. cbn.
    assert (podsReady rc m r = bool_decide ready) as ->.
    { apply eq_true_iff_eq. unfold podsReady, totalReplicas. rewrite andb_true_iff, bool_decide_eq_true, wrap32_id by done.
      subst ready. destruct (0 <? replicasPerMaster rc) eqn:E; split; intros [H1 H2]; split; try done; blia. }
    split_and!; try done; [by case_bool_decide|]. intros Hp.
    assert (nextPhase (phase rc) (bool_decide ready) st = if bool_decide ready && String.eqb st "ok" then PhaseReady else PhaseInitializing) as Hn.
    { unfold nextPhase. by destruct Hp as [-> | ->]; cbn; destruct (bool_decide ready). }
    change (cst_Phase (cluster_Status rc)) with (phase rc). rewrite Hn.
    destruct (String.eqb_spec st "ok"); case_bool_decide; naive_solver.
Qed.
End converge.

(** ** Witnesses *)

#[local] Existing Instance plain_types.

(** The headless Service of a cluster after the server gave it an address. *)
Definition stored_service : Service :=
  let d := BuildHeadlessService "rc" "default" ComponentMaster in
  {| svc_meta := {| om_Name := "rc"; om_Namespace := "default"; om_Labels := ∅; om_Annotations := ∅;
                    om_Generation := 1; om_CreationTimestamp := Some 7; om_DeletionTimestamp := None;
                    om_Finalizers := []; om_Rest := tt |};
     svc_Spec := {| svc_Type := "NodePort"; svc_ClusterIP := "10.96.0.7"; svc_Selector := ∅;
                    svc_Ports := []; svc_PublishNotReadyAddresses := false; svc_Rest := tt |} |}.

Lemma mutations_converge_witness :
  let o := clusterOwner (live_cluster 3 0 "Ready") in
  let d := BuildHeadlessService "rc" "default" ComponentMaster in
  ∃ n, mutateService o d stored_service = Ok n ∧ mutateService o d n = Ok n ∧
       svc_ClusterIP (svc_Spec n) = "10.96.0.7" ∧ svc_Ports (svc_Spec n) = svc_Ports (svc_Spec d).
Proof.
  intros o d.
  destruct (mutations_converge (K := plain_types) ltac:(intros k n m [] [] _; reflexivity) o)
    as (_ & H1 & _ & _ & _ & _ & _ & _ & _ & H2).
  eexists. assert (mutateService o d stored_service = Ok _) as E by reflexivity.
  split; [exact E|]. split; [exact (H1 _ _ _ E)|].
  destruct (H2 d stored_service _ eq_refl (or_introl E)) as (Hc & _ & _ & Hp). split; [exact Hc|exact Hp].
Defined.

(** Three of three masters are ready, and the cluster works. *)
Lemma status_reports_readiness_witness :
  let s := cluster_Status (clusterStatusFor (live_cluster 3 0 "Initializing") 3 0 5 "ok" 16384 []) in
  ready_condition (cst_Conditions s) = [(ConditionTrue, 0, "Ready")] ∧ cst_Phase s = PhaseReady.
Proof.
  intros s. destruct (status_reports_readiness (K := plain_types)) as (_ & _ & H).
  destruct (H (live_cluster 3 0 "Initializing") 3 0 5 "ok" 16384 []) as (H1 & H2 & _).
  - unfold int32_range. vm_compute. split; [discriminate|reflexivity].
  - split; [exact H1|]. apply H2; [right; reflexivity|]. repeat split; vm_compute; discriminate.
Defined.
