(* ===== verification/Access.v ===== *)
(** * What the reconcilers may touch

    A type-and-effect discipline for internal/controller: a capability is a
    part of the environment a reconciler uses, [typed] says that a program
    uses no other and that every Prometheus series it touches is well formed,
    and each [Reconcile] is typed with the capabilities listed here.  From
    that follow the permissions it needs (all of them are in the
    [+kubebuilder:rbac] markers of its file), the absence of panics in the
    metrics ([Telemetry]) and what the watches must report ([Main]). *)

From S2P Require Import Prelude Go Effects Client Sys Cluster Api Resources Workloads Metrics Kube ApiServer RedisCtrl SentinelCtrl ClusterCtrl.

Local Open Scope Z_scope.

(** ** Capabilities *)

Create HintDb effects discriminated.

#[global] Instance owned_eq_dec : EqDecision owned.
Proof. solve_decision. Defined.
#[global] Instance custom_eq_dec : EqDecision custom.
Proof. solve_decision. Defined.

Inductive capability :=
| Self (c : custom)      (* the custom resource and its status *)
| Apply (k : owned)      (* create or update owned objects of a kind *)
| ReadPods | LabelPods | DropClaims | ReadSecrets
| UseRedis | UseManager
| Ambient                (* events, clock, maps, well-formed series *)
| Illformed.             (* a series that would make the library panic *)

#[global] Instance capability_eq_dec : EqDecision capability.
Proof. solve_decision. Defined.

(** Refutes membership in a list by computation. *)
Ltac not_in H :=
  exfalso;
  match type of H with ?x ∈ ?l =>
    let N := fresh in assert (N : bool_decide (x ∈ l) = false) by (vm_compute; reflexivity);
    by apply bool_decide_eq_false in N end.

(** Refutes a capability that is not in the effect of a controller. *)
Ltac not_capable H hasClient hasManager := destruct hasClient, hasManager; not_in H.

Section access.
Context {K : KubeTypes} {L : KubeLib}.

Definition capability_of (o : kube_op) : capability :=
  match o with
  | Get k _ | Update k _ | StatusUpdate k _ => Self k
  | PatchCluster _ _ => Self CCluster
  | PatchPod _ _ => LabelPods
  | ListPods _ _ => ReadPods
  | ListClaims _ _ | GetClaim _ | DeleteClaim _ => DropClaims
  | GetSecret _ => ReadSecrets
  | CreateOrUpdate k _ _ => Apply k
  | Metric m => if metric_typed m then Ambient else Illformed
  | Event _ _ _ | TimeNow | RangeMap _ => Ambient
  | RedisCall _ => UseRedis
  | ManagerCall _ => UseManager
  end.

Definition allows (e : list capability) (o : kube_op) : bool := bool_decide (capability_of o ∈ e).

(** The panic of [make] with a negative length is the only one. *)
Definition makeslice : halt := GoPanic "runtime error: makeslice: len out of range".

Definition typed {A} (e : list capability) (p : prog KubeSig A) : Prop :=
  within (S := KubeSig) (λ o, allows e o = true) (λ h, h = makeslice) p.

(** ** The effects of the reconcilers *)

Definition redis_effect (hasClient : bool) : list capability :=
  [Self CRedis; Apply OConfigMap; Apply OService; Apply OStatefulSet; Apply ODeployment; Apply OServiceMonitor;
   ReadPods; DropClaims; Ambient]
  ++ (if hasClient then [UseRedis; ReadSecrets] else []).

Definition sentinel_effect (hasClient : bool) : list capability :=
  [Self CSentinel; Apply OConfigMap; Apply OService; Apply OStatefulSet; Apply ODeployment; Apply OBudget;
   Apply OServiceMonitor; ReadPods; LabelPods; DropClaims; Ambient]
  ++ (if hasClient then [UseRedis] else []).

Definition cluster_effect (hasClient hasManager : bool) : list capability :=
  [Self CCluster; Apply OConfigMap; Apply OService; Apply OStatefulSet; Apply OBudget; Apply OServiceMonitor;
   ReadPods; DropClaims; Ambient]
  ++ (if hasClient then [UseRedis] else []) ++ (if hasManager then [UseManager] else []).

(** ** Typing the shared parts *)

Lemma typed_series e (vec : Collector) lvs (p : prog KubeSig unit) :
  length lvs = length (Labels vec) → typed e p → typed e (WithLabelValues vec lvs p).
Proof. intros Hl Hp. unfold WithLabelValues. by rewrite (proj2 (Nat.eqb_eq _ _) Hl). Qed.

(** Types a program from its syntax, its calls by computation; what the
    context and the lemmas of [effects] type is not unfolded. *)
Ltac typed_tac :=
  unfold typed;
  within_syntax ltac:(first [solve [auto with effects nocore] | apply typed_series; [reflexivity|unfold typed]]).

Lemma typed_record e kind start err : allows e TimeNow = true → typed e (RecordReconcile kind start err).
Proof.
  intros He. assert (He' : bool_decide (Ambient ∈ e) = true) by exact He.
  typed_tac.
Qed.

Lemma typed_reconcile e kind (p : ObjectKey → prog KubeSig outcome_of) req :
  allows e TimeNow = true → typed e (p req) → typed e (reconcileWith kind p req).
Proof.
  intros He Hp. pose proof (typed_record e). typed_tac.
Qed.

Lemma typed_push e addr config :
  allows e TimeNow = true → allows e (RedisCall (RedisClient.Ping addr)) = true → typed e (pushConfig addr config).
Proof. intros H1 H2. typed_tac. Qed.

(** ** Typing the reconcilers *)

Lemma Reconcile_typed hasClient req : typed (redis_effect hasClient) (Reconcile hasClient req).
Proof.
  apply typed_reconcile; [by destruct hasClient|].
  destruct hasClient; typed_tac; by apply typed_push.
Qed.

Lemma ReconcileSentinel_typed hasClient req : typed (sentinel_effect hasClient) (ReconcileSentinel hasClient req).
Proof. apply typed_reconcile; [by destruct hasClient|]. destruct hasClient; typed_tac. Qed.

Lemma ReconcileCluster_typed hasClient hasManager req :
  typed (cluster_effect hasClient hasManager) (ReconcileCluster hasClient hasManager req).
Proof.
  apply typed_reconcile; [by destruct hasClient, hasManager|].
  destruct hasClient, hasManager; typed_tac; by apply typed_push.
Qed.

(** The life cycle alone sends no command to Redis. *)
Lemma lifecycle_typed rc : typed (cluster_effect false true) (reconcileClusterLifecycle true rc).
Proof. typed_tac. Qed.

(** ** The three controllers *)

(** The program that runs for a request of a controller. *)
Definition reconciler (hasClient hasManager : bool) (k : custom) (req : ObjectKey) : prog KubeSig outcome_of :=
  match k with
  | CRedis => Reconcile hasClient req
  | CSentinel => ReconcileSentinel hasClient req
  | CCluster => ReconcileCluster hasClient hasManager req
  end.

Definition effect_of (hasClient hasManager : bool) (k : custom) : list capability :=
  match k with
  | CRedis => redis_effect hasClient
  | CSentinel => sentinel_effect hasClient
  | CCluster => cluster_effect hasClient hasManager
  end.

Lemma reconciler_typed hasClient hasManager k req :
  typed (effect_of hasClient hasManager k) (reconciler hasClient hasManager k req).
Proof. destruct k; [apply Reconcile_typed|apply ReconcileSentinel_typed|apply ReconcileCluster_typed]. Qed.

(** Every call of an execution has a capability of the controller, and the
    only panic is that of [make]. *)
Lemma reconciler_exec hasClient hasManager k req t out :
  exec (reconciler hasClient hasManager k req) t out →
  Forall (λ e : Effects.event KubeSig, capability_of (ev_op e : kube_op) ∈ effect_of hasClient hasManager k) t
  ∧ ∀ h, out = Halted h → h = makeslice.
Proof.
  intros He. destruct (within_exec _ _ _ _ _ (reconciler_typed hasClient hasManager k req) He) as [H1 H2].
  split; [|done]. eapply Forall_impl; [exact H1|]. intros e Ha. by apply bool_decide_eq_true in Ha.
Qed.

(** ** Permissions *)

(** A [+kubebuilder:rbac] marker; the generated role is config/rbac/role.yaml. *)
Record rule := Grant { groups : string; resources : list string; verbs : list string }.

Definition everything : list string := ["get"; "list"; "watch"; "create"; "update"; "patch"; "delete"].

Definition core_rule : rule :=
  Grant "" ["pods"; "services"; "configmaps"; "secrets"; "persistentvolumeclaims"; "events"] everything.

(** The markers of redis_controller.go. *)
Definition redisRules : list rule :=
  [Grant "redis.example.com" ["redis"] everything;
   Grant "redis.example.com" ["redis/status"] ["get"; "update"; "patch"];
   Grant "redis.example.com" ["redis/finalizers"] ["update"];
   Grant "apps" ["statefulsets"; "deployments"] everything;
   core_rule;
   Grant "monitoring.coreos.com" ["servicemonitors"] everything].

(** The markers of redissentinel_controller.go. *)
Definition sentinelRules : list rule :=
  [Grant "redis.example.com" ["redissentinels"] everything;
   Grant "redis.example.com" ["redissentinels/status"] ["get"; "update"; "patch"];
   Grant "redis.example.com" ["redissentinels/finalizers"] ["update"];
   Grant "apps" ["statefulsets"; "deployments"] everything;
   core_rule;
   Grant "policy" ["poddisruptionbudgets"] everything;
   Grant "monitoring.coreos.com" ["servicemonitors"] everything].

(** The markers of rediscluster_controller.go. *)
Definition clusterRules : list rule :=
  [Grant "redis.example.com" ["redisclusters"] everything;
   Grant "redis.example.com" ["redisclusters/status"] ["get"; "update"; "patch"];
   Grant "redis.example.com" ["redisclusters/finalizers"] ["update"];
   Grant "apps" ["statefulsets"] everything;
   core_rule;
   Grant "policy" ["poddisruptionbudgets"] everything;
   Grant "monitoring.coreos.com" ["servicemonitors"] everything;
   Grant "coordination.k8s.io" ["leases"] everything].

Definition rules_of (k : custom) : list rule :=
  match k with CRedis => redisRules | CSentinel => sentinelRules | CCluster => clusterRules end.

(** A request to the API server: group, resource (with its subresource) and
    verb. *)
Definition request : Type := string * string * string.

Definition member (x : string) (l : list string) : bool := existsb (String.eqb x) l.

Definition grants (rules : list rule) (q : request) : bool :=
  let '(g, r, v) := q in existsb (λ m, String.eqb g (groups m) && member r (resources m) && member v (verbs m)) rules.

Definition plural (k : custom) : string :=
  match k with CRedis => "redis" | CSentinel => "redissentinels" | CCluster => "redisclusters" end.

Definition resource_of (k : owned) : string * string :=
  match k with
  | OConfigMap => ("", "configmaps")
  | OService => ("", "services")
  | OStatefulSet => ("apps", "statefulsets")
  | ODeployment => ("apps", "deployments")
  | OBudget => ("policy", "poddisruptionbudgets")
  | OServiceMonitor => ("monitoring.coreos.com", "servicemonitors")
  end.

(** Reads go through the cache of the manager, which lists and watches. *)
Definition cached (g r : string) : list request := [(g, r, "get"); (g, r, "list"); (g, r, "watch")].

(** What a call of the reconciler of [self] asks of the API server.
    [CreateOrUpdate] reads, then creates or updates; the owner reference it
    sets blocks the deletion of its owner, which asks for [update] on the
    finalizers of the owner. *)
Definition requests (self : custom) (o : kube_op) : list request :=
  match o with
  | Get k _ => cached "redis.example.com" (plural k)
  | Update k _ => [("redis.example.com", plural k, "update")]
  | StatusUpdate k _ => [("redis.example.com", plural k +:+ "/status", "update")]
  | PatchCluster _ _ => [("redis.example.com", plural CCluster, "patch")]
  | PatchPod _ _ => [("", "pods", "patch")]
  | ListPods _ _ => cached "" "pods"
  | ListClaims _ _ | GetClaim _ => cached "" "persistentvolumeclaims"
  | GetSecret _ => cached "" "secrets"
  | DeleteClaim _ => [("", "persistentvolumeclaims", "delete")]
  | CreateOrUpdate k _ _ =>
      let '(g, r) := resource_of k in
      cached g r ++ [(g, r, "create"); (g, r, "update");
                     ("redis.example.com", plural self +:+ "/finalizers", "update")]
  | Event _ _ _ => [("", "events", "create"); ("", "events", "patch")]
  | _ => []
  end.

(** A capability is only as wide as the rules of its controller. *)
Lemma capability_granted hasClient hasManager self o :
  capability_of o ∈ effect_of hasClient hasManager self →
  forallb (grants (rules_of self)) (requests self o) = true.
Proof.
  intros H. destruct o; try (by destruct self); try destruct k; destruct self; try reflexivity;
    not_capable H hasClient hasManager.
Qed.

(** C13: No reconciliation is refused for want of permission: whatever the
    API server and Redis answer, every request that the reconciler of a kind
    makes - reads through the cache, status updates, patches of pods,
    deletions of claims, events, the creation and update of each owned object
    with its owner reference - is granted by the RBAC markers in the file of
    that very reconciler. *)
Theorem reconcilers_authorized hasClient hasManager k req t out :
  exec (reconciler hasClient hasManager k req) t out →
  Forall (λ e : Effects.event KubeSig, forallb (grants (rules_of k)) (requests k (ev_op e)) = true) t.
Proof.
  intros [H _]%reconciler_exec. eapply Forall_impl; [exact H|]. intros e He.
  exact (capability_granted _ _ _ _ He).
Qed.

End access.

#[local] Existing Instance plain_types.
#[local] Existing Instance plain_lib.

Lemma reconcilers_authorized_witness :
  Forall (λ e : Effects.event KubeSig, forallb (grants clusterRules) (requests CCluster (ev_op e)) = true)
    (trace_of (run apiserver (reconciler true true CCluster {| key_Namespace := "default"; key_Name := "rc" |})
       (serving (live_cluster 4 1 "Ready") (Ok (cluster_of_size 3))))).
Proof. eapply (reconcilers_authorized true true CCluster), run_exec. Defined.
