(* ===== verification/Telemetry.v ===== *)
(** * The exported metrics (theorems on internal/metrics)

    Every series the reconcilers touch is well formed, so the Prometheus
    library does not panic; and the gauges of a cluster are exported while
    the cluster exists. *)

From S2P Require Import Prelude Go Effects Client Sys Cluster Api Resources Workloads Metrics Kube ApiServer RedisCtrl SentinelCtrl ClusterCtrl Ownership Access.

Local Open Scope Z_scope.

Section telemetry.
Context {K : KubeTypes} {L : KubeLib}.

Lemma typed_calls hc hm k (t : list (Effects.event KubeSig)) :
  Forall (λ e : Effects.event KubeSig, capability_of (ev_op e : kube_op) ∈ effect_of hc hm k) t →
  Forall (λ e : Effects.event KubeSig, match ev_op e : kube_op with Metric m => metric_typed m = true | _ => True end) t.
Proof.
  intros H. eapply Forall_impl; [exact H|]. intros [o r] He. simpl in *.
  destruct o as [| | | | | | | | | | | |m| | | |]; try done.
  simpl in He. destruct (metric_typed m); [done|]. destruct k; not_capable He hc hm.
Qed.

(** C12: The Prometheus library never panics.  The collectors that [init]
    registers have well-formed, distinct names - the three series of each
    histogram included - and well-formed, unreserved labels, so MustRegister
    accepts them; and in every execution of every reconciler each operation on
    a series is on one of them, is of the collector's type and has one value
    per label, so no execution ends in the panic of WithLabelValues. *)
Theorem metrics_well_typed :
  registry_ok metrics.registered = true ∧
  ∀ hasClient hasManager k req t out,
    exec (reconciler hasClient hasManager k req) t out →
    out ≠ Halted (GoPanic cardinality) ∧
    Forall (λ e : Effects.event KubeSig, match ev_op e : kube_op with Metric m => metric_typed m = true | _ => True end) t.
Proof.
  split; [reflexivity|]. intros hc hm k req t out [H1 H2]%reconciler_exec. split.
  - intros ->. by specialize (H2 _ eq_refl).
  - by eapply typed_calls.
Qed.

(** ** Gauges over many reconciliations *)

(** The operations on series of a trace, in order. *)
Definition metric_ops (t : list (Effects.event KubeSig)) : list metric_op :=
  observe (λ e : Effects.event KubeSig, match ev_op e : kube_op with Metric m => Some m | _ => None end) t.

Lemma metric_ops_app t1 t2 : metric_ops (t1 ++ t2) = metric_ops t1 ++ metric_ops t2.
Proof. apply observe_app. Qed.

(** The gauges that are exported after any number of reconciliations of any
    resources, in any order. *)
Inductive exported_gauges : gauges → Prop :=
| gauges_start : exported_gauges ∅
| gauges_round g hasClient hasManager k req t out :
    exported_gauges g → exec (reconciler hasClient hasManager k req) t out →
    exported_gauges (gauges_after g (metric_ops t)).

(** A series of a registered gauge, with one value per label. *)
Definition gauge_series (s : string * list string) : Prop :=
  ∃ c, c ∈ metrics.registered ∧ Vec c = GaugeVec ∧ Name c = s.1 ∧ length (Labels c) = length s.2.

Lemma typed_ops t :
  Forall (λ e : Effects.event KubeSig, match ev_op e : kube_op with Metric m => metric_typed m = true | _ => True end) t →
  Forall (λ o, metric_typed o = true) (metric_ops t).
Proof.
  induction 1 as [|[o r] t Ho _ IH]; [constructor|].
  unfold metric_ops, observe. rewrite omap_cons_eq. simpl in *. destruct o; try exact IH. by constructor.
Qed.

Lemma gauges_typed g os :
  (∀ s, is_Some (g !! s) → gauge_series s) → Forall (λ o, metric_typed o = true) os →
  ∀ s, is_Some (gauges_after g os !! s) → gauge_series s.
Proof.
  intros Hg H. revert g Hg. induction H as [|o os Ho _ IH]; intros g Hg; [done|].
  simpl. apply IH. intros s Hs. destruct o as [|c l v| |c l]; simpl in Hs; try by apply Hg.
  - destruct (decide ((Name c, l) = s)) as [<-|Hne]; [|by rewrite lookup_insert_ne in Hs; auto].
    unfold metric_typed in Ho. simpl in Ho. apply andb_true_iff in Ho as [[H1 H2]%andb_true_iff H3].
    apply bool_decide_eq_true in H1, H2. apply Nat.eqb_eq in H3. by exists c.
  - destruct (decide ((Name c, l) = s)) as [<-|Hne]; [|by rewrite lookup_delete_ne in Hs; auto].
    rewrite lookup_delete_eq in Hs. by destruct Hs.
Qed.

(** Only series of registered gauges are ever exported. *)
Lemma exported_typed g s : exported_gauges g → is_Some (g !! s) → gauge_series s.
Proof.
  intros H. revert s. induction H as [|g hc hm k req t out _ IH He]; [intros s [x Hx]; by rewrite lookup_empty in Hx|].
  apply gauges_typed; [done|]. apply typed_ops. apply reconciler_exec in He as [He _].
  by eapply typed_calls.
Qed.

(** ** Deletion of a cluster *)

(** A program that touches no gauge. *)
Definition no_gauge (o : kube_op) : Prop :=
  match o with Metric (GaugeSet _ _ _) | Metric (SeriesDelete _ _) => False | _ => True end.

Lemma no_gauge_after {A} (p : prog KubeSig A) g t out :
  only (S := KubeSig) no_gauge p → exec p t out → gauges_after g (metric_ops t) = g.
Proof.
  intros Hp He. specialize (Hp t out He). clear He. induction Hp as [|[o r] t Ho _ IH]; [done|].
  unfold metric_ops, observe. rewrite omap_cons_eq. simpl in *. by destruct o as [| | | | | | | | | | | |[]| | | |].
Qed.

Lemma no_gauge_dropClaims storage ns labels : only (S := KubeSig) no_gauge (dropClaims storage ns labels).
Proof. unfold dropClaims, deleteClaims, kcall. only_tac. Qed.

Lemma no_gauge_record kind start err : only (S := KubeSig) no_gauge (RecordReconcile kind start err).
Proof. unfold RecordReconcile, Inc, ObserveSince, WithLabelValues, kcall. only_tac; exact I. Qed.

(** The gauges of one cluster; every registered gauge with two labels is one
    of them. *)
Definition per_cluster : list string :=
  Name <$> [metrics.ClusterState; metrics.ClusterAssignedSlots; metrics.ClusterKnownNodes;
            metrics.ClusterMasterCount; metrics.ClusterReplicaCount].

Lemma gauge_series_cluster n name ns : gauge_series (n, [name; ns]) → n ∈ per_cluster.
Proof.
  intros (c & Hc & Hv & Hn & Hl). simpl in *. subst n. unfold metrics.registered in Hc.
  repeat (apply elem_of_cons in Hc as [->|Hc]; [first [by vm_compute in Hv|by vm_compute in Hl|apply (bool_decide_unpack _); vm_compute; exact I]|]).
  by apply not_elem_of_nil in Hc.
Qed.

(** [DeleteClusterMetrics] removes the series of one cluster and no other. *)
Lemma DeleteClusterMetrics_after name ns g t out :
  exported_gauges g → exec (DeleteClusterMetrics name ns) t out →
  ∀ n l, gauges_after g (metric_ops t) !! (n, l) = if decide (l = [name; ns]) then None else g !! (n, l).
Proof.
  intros Hg H n l. do 5 (exec_step H; exec_simpl H). exec_done H.
  change (metric_ops _) with ((λ c, SeriesDelete c [name; ns]) <$>
    [metrics.ClusterState; metrics.ClusterAssignedSlots; metrics.ClusterKnownNodes;
     metrics.ClusterMasterCount; metrics.ClusterReplicaCount]).
  case_decide as Hl; [subst l|apply gauges_after_other; repeat (constructor; [simpl; congruence|]); constructor].
  cbn [fmap list_fmap gauges_after fold_left gauge_step].
  destruct (decide (n ∈ per_cluster)) as [Hn|Hn].
  - repeat (apply elem_of_cons in Hn as [->|Hn];
      [by rewrite ?lookup_delete_ne, lookup_delete_eq by done|]).
    by apply not_elem_of_nil in Hn.
  - destruct (g !! (n, [name; ns])) eqn:Hs.
    { destruct Hn. apply (gauge_series_cluster n name ns), (exported_typed g); [done|by rewrite Hs]. }
    rewrite !lookup_delete_None. by repeat right.
Qed.

(** The cluster that a [Get] answered. *)
Definition got_cluster (e : Effects.event KubeSig) : option RedisCluster :=
  match e with
  | Ev o r => match o return kube_ans o → option RedisCluster with
              | Get k _ => match k return result (custom_type k) → option RedisCluster with
                           | CCluster => λ r, match r with Ok rc => Some rc | Fail _ => None end
                           | _ => λ _, None
                           end
              | _ => λ _, None
              end r
  end.

(** C16: A deleted cluster is no longer exported.  After any history of
    reconciliations (of any resources, with any answers) a reconciliation that
    reads a cluster under deletion with the operator's finalizer leaves every
    series of other clusters as it was and none with the name and namespace of
    this one; unless a claim could not be deleted: then it returns the error,
    is retried, and has changed no series. *)
Theorem deleted_cluster_exports_nothing hasClient hasManager g rc req t out :
  exported_gauges g →
  head t ≫= got_cluster = Some rc →
  is_Some (om_DeletionTimestamp (cluster_meta rc)) →
  ContainsFinalizer (om_Finalizers (cluster_meta rc)) FinalizerName = true →
  exec (doReconcileCluster hasClient hasManager req) t out →
  let after := gauges_after g (metric_ops t) in
  (∀ n l, after !! (n, l) = if decide (l = [cluster_name rc; cluster_ns rc]) then None else g !! (n, l)) ∨
  (after = g ∧ ∃ e, out = Done (noResult, Some e)).
Proof.
  intros Hg Hhead Hdel Hfin H after. destruct H as (r & t' & -> & H). exec_simpl H.
  destruct r as [rc'|e]; simpl in Hhead; [injection Hhead as ->|done].
  rewrite bool_decide_true in H by done. unfold handleClusterDeletion in H. rewrite Hfin in H. cbn [negb] in H.
  change (after) with (gauges_after g (metric_ops t')). clear after.
  apply exec_bind in H as [(t1 & [u|e] & t2 & -> & H1 & H2)|(h & _ & H1)].
  - pose proof (no_gauge_after _ g _ _ (no_gauge_dropClaims _ _ _) H1) as Hd. left. intros n l.
    rewrite metric_ops_app, gauges_after_app, Hd.
    apply exec_bind in H2 as [(t3 & [] & t4 & -> & H3 & H4)|(h & _ & H3)].
    + rewrite metric_ops_app, gauges_after_app.
      erewrite (no_gauge_after _ _ t4); [by eapply DeleteClusterMetrics_after| |exact H4].
      unfold event, kcall. only_tac.
    + do 5 (exec_step H3; exec_simpl H3). by exec_done H3.
  - destruct H2 as [-> ->]. rewrite app_nil_r, (no_gauge_after _ g _ _ (no_gauge_dropClaims _ _ _) H1). eauto.
  - by apply dropClaims_returns in H1.
Qed.

End telemetry.

#[local] Existing Instance plain_types.
#[local] Existing Instance plain_lib.

Lemma metrics_well_typed_witness :
  let r := run apiserver (reconciler true true CCluster {| key_Namespace := "default"; key_Name := "rc" |})
             (serving (live_cluster 4 1 "Ready") (Ok (cluster_of_size 3))) in
  result_of r ≠ Halted (GoPanic cardinality) ∧
  Forall (λ e : Effects.event KubeSig, match ev_op e : kube_op with Metric m => metric_typed m = true | _ => True end)
    (trace_of r).
Proof.
  exact (proj2 metrics_well_typed true true CCluster {| key_Namespace := "default"; key_Name := "rc" |} _ _
           (run_exec apiserver (reconciler true true CCluster {| key_Namespace := "default"; key_Name := "rc" |})
              (serving (live_cluster 4 1 "Ready") (Ok (cluster_of_size 3))))).
Defined.

(** The same cluster, under deletion. *)
Definition dying_cluster : RedisCluster :=
  let rc := live_cluster 3 0 "Ready" in
  let m := cluster_meta rc in
  {| cluster_meta := {| om_Name := om_Name m; om_Namespace := om_Namespace m; om_Labels := om_Labels m;
       om_Annotations := om_Annotations m; om_Generation := om_Generation m;
       om_CreationTimestamp := om_CreationTimestamp m; om_DeletionTimestamp := Some 1;
       om_Finalizers := om_Finalizers m; om_Rest := om_Rest m |};
     cluster_Spec := cluster_Spec rc; cluster_Status := cluster_Status rc |}.

(** A reconciliation of the live cluster exports its gauges, and one of the
    dying cluster removes them. *)
Lemma deleted_cluster_exports_nothing_witness :
  let req := {| key_Namespace := "default"; key_Name := "rc" |} in
  let r1 := run apiserver (reconciler true true CCluster req) (serving (live_cluster 3 0 "Ready") (Ok (cluster_of_size 3))) in
  let g := gauges_after ∅ (metric_ops (trace_of r1)) in
  let r2 := run apiserver (doReconcileCluster true true req) (serving dying_cluster (Ok (cluster_of_size 3))) in
  g !! ("redis_cluster_known_nodes", ["rc"; "default"]) = Some 2 ∧
  gauges_after g (metric_ops (trace_of r2)) !! ("redis_cluster_known_nodes", ["rc"; "default"]) = None.
Proof.
  intros req r1 g r2. split; [vm_compute; reflexivity|].
  destruct (deleted_cluster_exports_nothing true true g dying_cluster req (trace_of r2) (result_of r2)) as [H|[_ [e He]]].
  - exact (gauges_round ∅ true true CCluster req (trace_of r1) (result_of r1) gauges_start
      (run_exec apiserver (reconciler true true CCluster req) (serving (live_cluster 3 0 "Ready") (Ok (cluster_of_size 3))))).
  - vm_compute. reflexivity.
  - vm_compute. by eexists.
  - vm_compute. reflexivity.
  - exact (run_exec apiserver (doReconcileCluster true true req) (serving dying_cluster (Ok (cluster_of_size 3)))).
  - rewrite H. reflexivity.
  - vm_compute in He. discriminate He.
Defined.
