(* ===== verification/Tls.v ===== *)
(** * internal/redis/client.go: NewTLSConfig

    The TLS configuration of the client from PEM files.  The files are read
    by calls ([tls.LoadX509KeyPair], [os.ReadFile]); the pool of x509 is the
    parameter [X509]. *)

From S2P Require Import Prelude Go Effects Client.

Local Open Scope Z_scope.

(** crypto/tls and crypto/x509: certificates with their key, and pools. *)
Class X509 := {
  Certificate : Type;
  CertPool : Type;
  NewCertPool : CertPool;
  (** the pool with the certificates found, and whether there was any *)
  AppendCertsFromPEM : CertPool → string → CertPool * bool
}.

Section tls.
Context {X : X509}.

Inductive file_op := LoadX509KeyPair (certFile keyFile : string) | ReadFile (name : string).

Definition file_ans (o : file_op) : Type :=
  match o with LoadX509KeyPair _ _ => result Certificate | ReadFile _ => result string end.

Definition FileSig : sig := {| op := file_op; ans := file_ans |}.

(** [tls.Config], the fields the code sets. *)
Record Config := { Certificates : list Certificate; RootCAs : CertPool; MinVersion : Z }.

(** [tls.VersionTLS12] *)
Definition VersionTLS12 : Z := 771.

Definition NewTLSConfig (certFile keyFile caFile : string) : prog FileSig (result Config) :=
  cert ←? call (S := FileSig) (LoadX509KeyPair certFile keyFile)
    orelse (λ e, Errorf "loading TLS key pair: %w" [AErr e]);
  caPEM ←? call (S := FileSig) (ReadFile caFile)
    orelse (λ e, Errorf "reading CA certificate: %w" [AErr e]);
  match AppendCertsFromPEM NewCertPool caPEM with
  | (_, false) => mret (Fail (Errorf "failed to parse CA certificate" []))
  | (pool, true) =>
      mret (Ok {| Certificates := [cert]; RootCAs := pool; MinVersion := VersionTLS12 |})
  end.

Definition loaded (certFile keyFile : string) (r : result Certificate) : event FileSig :=
  Ev (S := FileSig) (LoadX509KeyPair certFile keyFile) r.
Definition read (name : string) (r : result string) : event FileSig := Ev (S := FileSig) (ReadFile name) r.

(** Every error on the way to a TLS configuration is reported, wrapped
    with what failed, and nothing is read after it; a configuration is only
    returned with the key pair of the two files, with exactly the
    certificates of the CA file as roots (at least one), and for TLS 1.2 or
    later. *)
Lemma NewTLSConfig_errors certFile keyFile caFile t out :
  exec (NewTLSConfig certFile keyFile caFile) t out ↔
    (∃ e, t = [loaded certFile keyFile (Fail e)]
          ∧ out = Done (Fail (Errorf "loading TLS key pair: %w" [AErr e]))) ∨
    (∃ cert e, t = [loaded certFile keyFile (Ok cert); read caFile (Fail e)]
          ∧ out = Done (Fail (Errorf "reading CA certificate: %w" [AErr e]))) ∨
    (∃ cert pem, t = [loaded certFile keyFile (Ok cert); read caFile (Ok pem)] ∧
       match AppendCertsFromPEM NewCertPool pem with
       | (pool, true) =>
           ∃ c, out = Done (Ok c) ∧ Certificates c = [cert] ∧ RootCAs c = pool ∧ MinVersion c = VersionTLS12
       | (_, false) => out = Done (Fail (Errorf "failed to parse CA certificate" []))
       end).
Proof.
  unfold NewTLSConfig, bind_ok, call, loaded, read. split.
  - intros H. exec_step_ok H; exec_simpl H; [|exec_done H; left; eauto].
    right. exec_step_ok H; exec_simpl H; [|exec_done H; left; eauto].
    right. exists r, r0. destruct (AppendCertsFromPEM NewCertPool r0) as [pool []]; destruct H as [-> ->]; eauto 10.
  - intros [(e & -> & ->)|[(c & e & -> & ->)|(c & pem & -> & H)]].
    + by eexists _, _.
    + eexists _, _. split; [done|]. by eexists _, _.
    + eexists _, _. split; [done|]. eexists _, _. split; [done|]. simpl.
      destruct (AppendCertsFromPEM NewCertPool pem) as [pool []]; [|by rewrite H].
      destruct H as ([cs p v] & -> & H1 & H2 & H3). simpl in *. by subst.
Qed.

End tls.

(** Certificates as text, and a pool as the texts that say they are one. *)
#[local] Instance plain_x509 : X509 :=
  {| Certificate := string; CertPool := list string; NewCertPool := [];
     AppendCertsFromPEM := λ pool pem,
       if has_prefix "-----BEGIN" pem then (pem :: pool, true) else (pool, false) |}.

Lemma NewTLSConfig_errors_witness :
  exec (NewTLSConfig "tls.crt" "tls.key" "ca.crt")
    [loaded "tls.crt" "tls.key" (Ok "pair"); read "ca.crt" (Ok "garbage")]
    (Done (Fail (Errorf "failed to parse CA certificate" []))).
Proof. apply NewTLSConfig_errors. right. right. exists "pair", "garbage". split; reflexivity. Defined.
