(* ===== verification/Main.v ===== *)
(** * cmd/main.go and api/v1alpha1/groupversion_info.go

    The operator's entry point: what [init] and [main] ask of the libraries -
    registration of metrics and schemes, flags, the manager, its controllers,
    webhooks and probes - as a program whose result is the exit status.  A
    controller is registered with the reconciler it runs and the kinds it
    watches, so the theorems of the other files apply to what the binary
    runs. *)

From S2P Require Import Prelude Go Effects Client Sys Cluster Api Resources Workloads Metrics Kube ApiServer RedisCtrl SentinelCtrl ClusterCtrl Access.

Local Open Scope Z_scope.

(** ** Schemes *)

Definition GroupVersion : string * string := ("redis.example.com", "v1alpha1").

(** The types that the [init] functions of the package register with
    [SchemeBuilder]. *)
Definition SchemeBuilder : list string :=
  ["Redis"; "RedisList"; "RedisCluster"; "RedisClusterList"; "RedisSentinel"; "RedisSentinelList"].

(** The packages whose [AddToScheme] is called, with the API group each is
    named after; that of client-go adds all groups of Kubernetes. *)
Inductive scheme_package := clientgoscheme | redisv1alpha1 | monitoringv1 | appsv1 | corev1 | policyv1.

Definition scheme_group (s : scheme_package) : option string :=
  match s with
  | clientgoscheme => None
  | redisv1alpha1 => Some GroupVersion.1
  | monitoringv1 => Some "monitoring.coreos.com"
  | appsv1 => Some "apps"
  | corev1 => Some ""
  | policyv1 => Some "policy"
  end.

(** ** Flags *)

Record Flags := {
  metricsAddr : string;
  probeAddr : string;
  enableLeaderElection : bool;
  webhookPort : Z;
  enableWebhooks : bool
}.

(** The flags with their defaults. *)
Definition defaultFlags : list (string * string) :=
  [("metrics-bind-address", ":8080"); ("health-probe-bind-address", ":8081"); ("leader-elect", "false");
   ("webhook-port", "9443"); ("enable-webhooks", "false")].

(** ** Controllers *)

Section main.
(** [tls.Config] *)
Context {TLS : Type} {K : KubeTypes} {L : KubeLib}.

(** The fields of a reconciler; the [RedisClient] and the one the
    [ClusterManager] was made from are given by their options. *)
Record Reconciler := {
  rec_kind : custom;
  rec_RedisClient : option (ClientOptions TLS);
  rec_ClusterManager : option (ClientOptions TLS);
  rec_Recorder : string
}.

(** What a controller watches: the kind it is for and the kinds it owns. *)
Record Watches := { For : custom; Owns : list owned }.

(** [ctrl.Options], the fields [main] sets. *)
Record Options := {
  opt_Scheme : list scheme_package;
  opt_MetricsBindAddress : string;
  opt_WebhookPort : Z;
  opt_HealthProbeBindAddress : string;
  opt_LeaderElection : bool;
  opt_LeaderElectionID : string
}.

(** The calls into the libraries; [CompleteController] ends
    [NewControllerManagedBy(mgr)], [CompleteWebhook] ends
    [NewWebhookManagedBy(mgr)].  [flag.Parse] ends the process itself, with
    status 2, on a malformed command line, and [GetConfigOrDie] with status 1
    when there is no configuration; so [ParseFlags] only answers with flags. *)
Inductive main_op :=
| MustRegister (cs : list Collector)
| AddToScheme (s : scheme_package)
| ParseFlags (flags : list (string * string))
| GetConfigOrDie
| NewManager (o : Options)
| CompleteController (w : Watches) (r : Reconciler)
| CompleteWebhook (k : custom)
| AddHealthzCheck (name : string)
| AddReadyzCheck (name : string)
| Start.

Definition main_ans (o : main_op) : Type :=
  match o with
  | MustRegister _ => unit
  | ParseFlags _ => Flags
  | _ => result unit
  end.

Definition MainSig : sig := {| op := main_op; ans := main_ans |}.

Definition mcall (o : main_op) : prog MainSig (main_ans o) := Call (S := MainSig) o Ret.

(** *** SetupWithManager of the reconcilers *)

Definition RedisWatches : Watches :=
  {| For := CRedis; Owns := [OStatefulSet; ODeployment; OService; OConfigMap] |}.

Definition SentinelWatches : Watches :=
  {| For := CSentinel; Owns := [OStatefulSet; ODeployment; OService; OConfigMap; OBudget] |}.

Definition ClusterWatches : Watches :=
  {| For := CCluster; Owns := [OStatefulSet; OService; OConfigMap; OBudget] |}.

Definition watches_of (k : custom) : Watches :=
  match k with CRedis => RedisWatches | CSentinel => SentinelWatches | CCluster => ClusterWatches end.

Definition SetupWithManager (r : Reconciler) : prog MainSig (result unit) :=
  mcall (CompleteController (watches_of (rec_kind r)) r).

(** [SetupWebhookWithManager] *)
Definition SetupWebhookWithManager (k : custom) : prog MainSig (result unit) := mcall (CompleteWebhook k).

(** *** What main builds *)

Definition redisOpts : ClientOptions TLS := DefaultClientOptions.

Definition redisReconciler : Reconciler :=
  {| rec_kind := CRedis; rec_RedisClient := None; rec_ClusterManager := None; rec_Recorder := "redis-controller" |}.

Definition sentinelReconciler : Reconciler :=
  {| rec_kind := CSentinel; rec_RedisClient := None; rec_ClusterManager := None;
     rec_Recorder := "redissentinel-controller" |}.

Definition clusterReconciler : Reconciler :=
  {| rec_kind := CCluster; rec_RedisClient := Some redisOpts; rec_ClusterManager := Some redisOpts;
     rec_Recorder := "rediscluster-controller" |}.

Definition schemes : list scheme_package :=
  [clientgoscheme; redisv1alpha1; monitoringv1; appsv1; corev1; policyv1].

Definition managerOptions (f : Flags) : Options :=
  {| opt_Scheme := schemes; opt_MetricsBindAddress := metricsAddr f; opt_WebhookPort := webhookPort f;
     opt_HealthProbeBindAddress := probeAddr f; opt_LeaderElection := enableLeaderElection f;
     opt_LeaderElectionID := "redis-operator.example.com" |}.

(** ** The program *)

(** [if err := p; err != nil { log; os.Exit(1) }] *)
Definition or_exit (k : prog MainSig Z) (p : prog MainSig (result unit)) : prog MainSig Z :=
  prog_bind (λ r, match r with Ok _ => k | Fail _ => Ret 1 end) p.

#[local] Notation "'must' p ; k" := (or_exit k p) (at level 10, p at level 100, k at level 200, only parsing).

(** [utilruntime.Must(AddToScheme(scheme))] *)
Definition mustAdd (s : scheme_package) : prog MainSig unit :=
  r ← mcall (AddToScheme s);
  match r with Ok _ => mret tt | Fail e => panic (error_text e) end.

(** The [init] functions, that of the imported package metrics first. *)
Definition init : prog MainSig unit :=
  _ ← mcall (MustRegister metrics.registered);
  do_each schemes mustAdd.

(** [if enableWebhooks { ... }], then [k] *)
Definition registerWebhooks (enabled : bool) (k : prog MainSig Z) : prog MainSig Z :=
  if enabled then
    must SetupWebhookWithManager CRedis;
    must SetupWebhookWithManager CSentinel;
    must SetupWebhookWithManager CCluster;
    k
  else k.

Definition main : prog MainSig Z :=
  f ← mcall (ParseFlags defaultFlags);
  must mcall GetConfigOrDie;
  must mcall (NewManager (managerOptions f));
  must SetupWithManager redisReconciler;
  must SetupWithManager sentinelReconciler;
  must SetupWithManager clusterReconciler;
  registerWebhooks (enableWebhooks f)
    (must mcall (AddHealthzCheck "healthz");
     must mcall (AddReadyzCheck "readyz");
     must mcall Start;
     mret 0).

(** The process: its exit status. *)
Definition process : prog MainSig Z := _ ← init; main.

(** ** Specification *)

(** Whether a call failed. *)
Definition failed (e : Effects.event MainSig) : bool :=
  match e with
  | Ev o r => match o return main_ans o → bool with
              | MustRegister _ | ParseFlags _ => λ _, false
              | _ => λ r, negb (is_ok r)
              end r
  end.

(** A straight line of steps, each of which ends the process with status 1
    when it fails. *)
Fixpoint straight (steps : list main_op) (t : list (Effects.event MainSig)) (out : outcome Z) : Prop :=
  match steps with
  | [] => t = [] ∧ out = Done 0
  | o :: steps' =>
      ∃ e t', t = e :: t' ∧ ev_op e = o ∧
        if failed e then t' = [] ∧ out = Done 1 else straight steps' t' out
  end.

(** What the process does with given flags: the manager, the controllers, the
    webhooks if they are enabled, the probes, and only then the manager runs. *)
Definition steps_of (f : Flags) : list main_op :=
  [GetConfigOrDie; NewManager (managerOptions f);
   CompleteController RedisWatches redisReconciler;
   CompleteController SentinelWatches sentinelReconciler;
   CompleteController ClusterWatches clusterReconciler]
  ++ (if enableWebhooks f then CompleteWebhook <$> [CRedis; CSentinel; CCluster] else [])
  ++ [AddHealthzCheck "healthz"; AddReadyzCheck "readyz"; Start].

(** One step of each. *)
Ltac step_in H :=
  let r := fresh "r" in let t := fresh "t" in
  destruct H as (r & t & -> & H); cbn [prog_bind] in H;
  eexists (Ev (S := MainSig) _ r), t; split; [done|]; split; [done|];
  destruct r; cbn [failed main_ans is_ok negb]; [|exact H].

Ltac step_out H :=
  let o := fresh "o" in let r := fresh "r" in let t := fresh "t" in let Ho := fresh in
  destruct H as ([o r] & t & -> & Ho & H); cbn [ev_op] in Ho; subst o;
  exists r, t; split; [done|]; destruct r; cbn [prog_bind failed main_ans is_ok negb] in *; [|exact H].

(** [main] is the straight line of its steps. *)
Lemma main_straight t out :
  exec main t out ↔
  ∃ f t', t = Ev (S := MainSig) (ParseFlags defaultFlags) f :: t' ∧ straight (steps_of f) t' out.
Proof.
  split.
  - intros (f & t' & -> & H). exists f, t'. split; [done|]. cbn [prog_bind] in H.
    destruct f as [? ? ? ? []]; cbn [steps_of enableWebhooks registerWebhooks fmap list_fmap app straight] in *;
      repeat step_in H; exact H.
  - intros (f & t' & -> & H). exists f, t'. split; [done|]. cbn [prog_bind].
    destruct f as [? ? ? ? []]; cbn [steps_of enableWebhooks registerWebhooks fmap list_fmap app straight] in *;
      repeat step_out H; exact H.
Qed.

(** The calls of a trace, and that none failed. *)
Definition ops (t : list (Effects.event MainSig)) : list main_op := (λ e : Effects.event MainSig, ev_op e : main_op) <$> t.
Definition clean (t : list (Effects.event MainSig)) : Prop := Forall (λ e, failed e = false) t.

Lemma ops_app t1 t2 : ops (t1 ++ t2) = ops t1 ++ ops t2.
Proof. apply fmap_app. Qed.

(** A trace whose last call, and no other, failed. *)
Definition stopped (t : list (Effects.event MainSig)) : Prop :=
  ∃ t0 e, t = t0 ++ [e] ∧ clean t0 ∧ failed e = true.

Lemma stopped_app t1 t2 : clean t1 → stopped t2 → stopped (t1 ++ t2).
Proof.
  intros H (t0 & e & -> & H0 & He). exists (t1 ++ t0), e. rewrite (assoc_L (++)).
  split_and!; [done|by apply Forall_app|done].
Qed.

Lemma straight_cases steps t out :
  straight steps t out →
  (out = Done 0 ∧ ops t = steps ∧ clean t) ∨ (out = Done 1 ∧ ops t `prefix_of` steps ∧ stopped t).
Proof.
  revert t. induction steps as [|o steps IH]; intros t.
  - intros [-> ->]. left. split_and!; [done|done|constructor].
  - intros (e & t' & -> & Ho & H). destruct (failed e) eqn:He.
    + destruct H as [-> ->]. right. split; [done|]. split; [|by exists [], e; split_and!; [|constructor|]].
      exists steps. unfold ops. simpl. by rewrite Ho.
    + destruct (IH _ H) as [(-> & H1 & H2)|(-> & H1 & H2)]; [left|right]; (split; [done|]);
        change (ops (e :: t')) with ((ev_op e : main_op) :: ops t'); rewrite Ho.
      * split; [by rewrite H1|by constructor].
      * split; [by apply prefix_cons|]. apply (stopped_app [e] t'); [by repeat constructor|done].
Qed.

(** What the [init] functions call. *)
Definition boot : list main_op := MustRegister metrics.registered :: (AddToScheme <$> schemes).

Lemma schemes_cases l t out :
  exec (do_each l mustAdd) t out →
  (out = Done tt ∧ ops t = AddToScheme <$> l ∧ clean t) ∨
  ((∃ msg, out = Halted (GoPanic msg)) ∧ ops t `prefix_of` (AddToScheme <$> l) ∧ stopped t).
Proof.
  revert t. induction l as [|s l IH]; intros t.
  - intros [-> ->]. left. split_and!; [done|done|constructor].
  - rewrite exec_do_each_cons. intros [(t1 & t2 & -> & H1 & H2)|(h & -> & H1)].
    + exec_step_ok H1; [|by destruct H1]. exec_done H1. destruct (IH _ H2) as [(-> & H3 & H4)|(Hout & H3 & H4)]; [left|right].
      * split_and!; [done|by rewrite ops_app, H3|by constructor].
      * split_and!; [done|rewrite ops_app; by apply prefix_cons|]. apply stopped_app; [by repeat constructor|done].
    + exec_step_ok H1; [by destruct H1|]. destruct H1 as [-> [= ->]]. right. split; [eauto|]. split; [by eexists|].
      by exists [], (Ev (S := MainSig) (AddToScheme s) (Fail r)); split_and!; [|constructor|].
Qed.

(** The flags that were parsed. *)
Definition parsed (t : list (Effects.event MainSig)) : list Flags :=
  observe (λ e : Effects.event MainSig,
    match e with
    | Ev o r => match o return main_ans o → option Flags with ParseFlags _ => Some | _ => λ _, None end r
    end) t.

Lemma parsed_app t1 t2 : parsed (t1 ++ t2) = parsed t1 ++ parsed t2.
Proof. apply observe_app. Qed.

Definition no_flags (o : main_op) : Prop := match o with ParseFlags _ => False | _ => True end.

Lemma parsed_none t : Forall no_flags (ops t) → parsed t = [].
Proof.
  induction t as [|[o r] t IH]; [done|]. intros [Ho H]%Forall_cons.
  unfold parsed, observe. rewrite omap_cons_eq. simpl in *. destruct o; try done; by apply IH.
Qed.

Lemma parsed_prefix t l : ops t `prefix_of` l → Forall no_flags l → parsed t = [].
Proof. intros [k ->] [H _]%Forall_app. by apply parsed_none. Qed.

Lemma schemes_no_flags : Forall no_flags (AddToScheme <$> schemes).
Proof. by repeat constructor. Qed.

Lemma steps_no_flags f : Forall no_flags (steps_of f).
Proof. destruct f as [? ? ? ? []]; by repeat constructor. Qed.

(** Everything the process calls, in order, if nothing fails. *)
Definition whole (f : Flags) : list main_op := boot ++ ParseFlags defaultFlags :: steps_of f.

(** C11: The operator starts completely or not at all.  Whatever the libraries
    answer, the process makes the calls of [whole] in order - metrics,
    schemes, flags, manager, the three controllers, the webhooks exactly when
    they are enabled, the probes, and the manager's Start last - up to the
    first that fails.  If none fails, Start included, it exits with status 0;
    otherwise that call is its last, so the manager was not started without
    everything before it, and it exits with status 1 (or panics, when it is
    the registration of a scheme). *)
Theorem process_starts_configured t out :
  exec process t out →
  ∃ f, (∀ f', f' ∈ parsed t → f' = f) ∧ ops t `prefix_of` whole f ∧
    ((out = Done 0 ∧ ops t = whole f ∧ clean t) ∨
     (stopped t ∧ (out = Done 1 ∨ ∃ msg, out = Halted (GoPanic msg)))).
Proof.
  intros H. unfold process, init in H. apply exec_bind in H as [(t1 & [] & t2 & -> & H1 & H2)|(h & -> & H1)];
    destruct H1 as ([] & t' & -> & H1); exec_simpl H1.
  - apply schemes_cases in H1 as [(_ & H3 & H4)|([msg [=]] & _)].
    apply main_straight in H2 as (f & t3 & -> & H2). exists f.
    change (ops _) with (MustRegister metrics.registered :: ops (t' ++ Ev (S := MainSig) (ParseFlags defaultFlags) f :: t3)).
    rewrite ops_app, H3.
    assert (Hc : clean (Ev (S := MainSig) (MustRegister metrics.registered) tt :: t' ++
                        [Ev (S := MainSig) (ParseFlags defaultFlags) f])) by
      (constructor; [done|]; apply Forall_app; split; [done|by repeat constructor]).
    assert (Hp : parsed (t' ++ Ev (S := MainSig) (ParseFlags defaultFlags) f :: t3) = f :: parsed t3).
    { rewrite parsed_app, (parsed_prefix t' (AddToScheme <$> schemes)); [done|by rewrite H3|apply schemes_no_flags]. }
    assert (Hs : ops t3 `prefix_of` steps_of f) by (destruct (straight_cases _ _ _ H2) as [(_ & -> & _)|(_ & H5 & _)]; done).
    split; [change (parsed _) with (parsed (t' ++ Ev (S := MainSig) (ParseFlags defaultFlags) f :: t3));
      rewrite Hp, (parsed_prefix t3 (steps_of f)) by (done || apply steps_no_flags); intros f' ->%list_elem_of_singleton; done|].
    destruct (straight_cases _ _ _ H2) as [(-> & H5 & H6)|(-> & H5 & H6)].
    + unfold whole, boot. simpl. rewrite <- H5. split; [done|]. left. split_and!; [done|done|].
      constructor; [done|]. apply Forall_app. split; [done|]. by constructor.
    + split; [by apply prefix_cons, prefix_app, prefix_cons|]. right. split; [|by left].
      apply (stopped_app _ t3) in Hc; [|done]. by rewrite <- app_comm_cons, <- (assoc_L (++)) in Hc.
  - apply schemes_cases in H1 as [([=] & _)|(Hout & H3 & H4)].
    destruct Hout as [msg [= ->]]. exists (Build_Flags "" "" false 0 false). split_and!.
    + change (parsed _) with (parsed t'). rewrite (parsed_prefix t' (AddToScheme <$> schemes));
        [by intros f' ?%not_elem_of_nil|done|apply schemes_no_flags].
    + apply prefix_cons. by apply prefix_app_r.
    + right. split; [|by eauto]. apply (stopped_app [_] t'); [by repeat constructor|done].
Qed.

(** ** What the deployed controllers do *)

Lemma process_controllers t out w r :
  exec process t out → CompleteController w r ∈ ops t →
  r ∈ [redisReconciler; sentinelReconciler; clusterReconciler] ∧ w = watches_of (rec_kind r).
Proof.
  intros H Hr.
  assert (within (S := MainSig) (λ o : main_op, match o with
            | CompleteController w r => r ∈ [redisReconciler; sentinelReconciler; clusterReconciler] ∧
                                        w = watches_of (rec_kind r)
            | _ => True end) (λ _, True) process) as Hw.
  { unfold process, init, main, mustAdd, SetupWithManager, SetupWebhookWithManager, registerWebhooks, or_exit, mcall.
    within_tac; (hnf; split; [set_solver|done]). }
  destruct (within_exec _ _ _ _ _ Hw H) as [Ha _]. unfold ops in Hr.
  apply list_elem_of_fmap in Hr as (e & He & Hin). rewrite Forall_forall in Ha. specialize (Ha e Hin).
  by rewrite <- He in Ha.
Qed.

(** The reconciler that a registered controller runs. *)
Definition deployed (r : Reconciler) (req : ObjectKey) : prog KubeSig outcome_of :=
  reconciler (bool_decide (is_Some (rec_RedisClient r))) (bool_decide (is_Some (rec_ClusterManager r))) (rec_kind r) req.

(** C19: The shipped operator notices changes to the objects it owns.  Every
    controller that the process registers is for the kind its reconciler
    reconciles, is allowed to watch that kind and those it owns, and owns
    every kind that its reconciler ever applies, in any execution - except
    ServiceMonitors, whose changes nothing reacts to; and every API group a
    reconciler addresses is in the scheme of the manager. *)
Theorem owned_kinds_watched t out w r :
  exec process t out → CompleteController w r ∈ ops t →
  For w = rec_kind r ∧
  Forall (λ q, grants (rules_of (rec_kind r)) q = true)
    (cached GroupVersion.1 (plural (For w)) ++ (Owns w ≫= λ k, cached (resource_of k).1 (resource_of k).2)) ∧
  ∀ req t' out', exec (deployed r req) t' out' →
    Forall (λ e : Effects.event KubeSig,
      match ev_op e : kube_op with
      | CreateOrUpdate k _ _ => k ∈ Owns w ∨ k = OServiceMonitor
      | _ => True
      end ∧
      Forall (λ q : request, Some q.1.1 ∈ scheme_group <$> schemes) (requests (rec_kind r) (ev_op e))) t'.
Proof.
  intros H Hr. destruct (process_controllers t out w r H Hr) as [Hin ->]. clear H Hr.
  split; [by destruct (rec_kind r)|]. split.
  { destruct (rec_kind r); repeat constructor. }
  intros req t' out' He. apply reconciler_exec in He as [He _]. eapply Forall_impl; [exact He|].
  intros [o a] Ho. cbn [ev_op] in *. split.
  - destruct o; try exact I. simpl in Ho. destruct k, (rec_kind r); try (by right); try (by left; set_solver);
      not_capable Ho (bool_decide (is_Some (rec_RedisClient r))) (bool_decide (is_Some (rec_ClusterManager r))).
  - destruct o; try destruct k; try destruct k0; destruct (rec_kind r); repeat constructor; set_solver.
Qed.

(** C14: What the client of the shipped operator can reach.  The reconcilers
    of Redis and RedisSentinel that the process registers send no command to
    Redis at all, in any execution: configuration is not reloaded, the
    Sentinel is never asked for the master, so pod 0 is labelled the master
    for ever.  The reconciler of RedisCluster has a client and a manager, and
    whatever method they call, the connection is opened without a password
    and without TLS. *)
Theorem deployed_clients t out w r :
  exec process t out → CompleteController w r ∈ ops t →
  (rec_kind r ≠ CCluster → ∀ req t' out', exec (deployed r req) t' out' →
     Forall (λ e : Effects.event KubeSig,
       match ev_op e : kube_op with RedisCall _ | ManagerCall _ => False | _ => True end) t') ∧
  (rec_kind r = CCluster → is_Some (rec_RedisClient r) ∧ is_Some (rec_ClusterManager r)) ∧
  (∀ opts, rec_RedisClient r = Some opts ∨ rec_ClusterManager r = Some opts →
     ∀ m t' out', exec (client.client_method opts m) t' out' →
       Forall (λ e : Effects.event (GoRedisSig TLS),
         match ev_op e : GoRedis.lib_call TLS with
         | GoRedis.NewClient o => GoRedis.Password _ o = "" ∧ GoRedis.TLSConfig _ o = None
         | _ => True
         end) t').
Proof.
  intros H Hr. destruct (process_controllers t out w r H Hr) as [Hin _]. clear H Hr.
  rewrite !elem_of_cons, elem_of_nil in Hin.
  split_and!.
  - intros Hk req t' out' He. apply reconciler_exec in He as [He _]. eapply Forall_impl; [exact He|].
    intros [o a] Ho. destruct Hin as [->|[->|[->|[]]]]; [| |done];
      destruct o; first [exact I | not_in Ho].
  - by destruct Hin as [->|[->|[->|[]]]].
  - intros opts Ho m t' out' He. assert (opts = redisOpts) as -> by
      (destruct Hin as [->|[->|[->|[]]]]; destruct Ho as [[= <-]|[= <-]]; done).
    destruct (within_exec _ _ _ _ _ (method_connects redisOpts m) He) as [Hc _].
    eapply Forall_impl; [exact Hc|]. intros [[o|c x|x] a]; simpl; [by intros ->|done|done].
Qed.

End main.

(** ** A concrete start *)

#[local] Existing Instance plain_types.
#[local] Existing Instance plain_lib.

(** Libraries in which everything succeeds but the calls listed in [broken],
    and the flags ask for webhooks. *)
Definition libs (broken : main_op (TLS := unit) → bool) : handler (MainSig (TLS := unit)) unit := λ o w,
  let r := if broken o then Fail (ExtErr "refused") else Ok tt in
  (match o return main_ans o with
   | MustRegister _ => tt
   | ParseFlags _ => {| metricsAddr := ":8080"; probeAddr := ":8081"; enableLeaderElection := true;
                        webhookPort := 9443; enableWebhooks := true |}
   | _ => r
   end, w).

Definition all_well (o : main_op (TLS := unit)) : bool := false.
Definition no_webhooks (o : main_op (TLS := unit)) : bool := match o with CompleteWebhook _ => true | _ => false end.

Lemma process_starts_configured_witness :
  (∃ f, ops (trace_of (run (libs all_well) process tt)) `prefix_of` whole (TLS := unit) f ∧ enableWebhooks f = true) ∧
  stopped (trace_of (run (libs no_webhooks) process tt)).
Proof.
  split.
  - destruct (process_starts_configured (TLS := unit) _ _ (run_exec (libs all_well) process tt)) as (f & Hf & H & _).
    exists f. split; [exact H|]. rewrite <- (Hf _ (proj2 (list_elem_of_singleton _ _) eq_refl)). reflexivity.
  - destruct (process_starts_configured (TLS := unit) _ _ (run_exec (libs no_webhooks) process tt))
      as (f & _ & _ & [[H _]|[H _]]); [vm_compute in H; discriminate H|exact H].
Defined.

Lemma registered_sentinel :
  CompleteController SentinelWatches (sentinelReconciler (TLS := unit)) ∈ ops (trace_of (run (libs all_well) process tt)).
Proof. vm_compute. do 11 right. left. Qed.

Lemma owned_kinds_watched_witness :
  Forall (λ q, grants sentinelRules q = true)
    (cached "redis.example.com" "redissentinels" ++ (Owns SentinelWatches ≫= λ k, cached (resource_of k).1 (resource_of k).2)).
Proof.
  exact (proj1 (proj2 (owned_kinds_watched (TLS := unit) _ _ SentinelWatches sentinelReconciler
           (run_exec (libs all_well) process tt) registered_sentinel))).
Defined.

(** The Sentinel reconciler, deployed, on a resource with four ready pods. *)
Lemma deployed_clients_witness :
  Forall (λ e : Effects.event KubeSig, match ev_op e : kube_op with RedisCall _ | ManagerCall _ => False | _ => True end)
    (trace_of (run apiserver (deployed (sentinelReconciler (TLS := unit)) {| key_Namespace := "default"; key_Name := "rs" |})
       (serving (live_cluster 3 0 "Ready") (Ok (cluster_of_size 3))))).
Proof.
  refine (proj1 (deployed_clients (TLS := unit) _ _ SentinelWatches sentinelReconciler
            (run_exec (libs all_well) process tt) registered_sentinel) _ _ _ _
            (run_exec apiserver (deployed sentinelReconciler {| key_Namespace := "default"; key_Name := "rs" |})
               (serving (live_cluster 3 0 "Ready") (Ok (cluster_of_size 3))))).
  discriminate.
Defined.
