(* ===== verification/Link.v ===== *)
(** * The layers put together

    The controllers call the cluster manager, Redis and the clock; the
    manager is the program of [Cluster].  [linked] runs a program of
    internal/controller over that implementation: its calls of the API server
    remain, those of the manager become calls of Redis.  The theorems carry
    the life cycle over to the commands that Redis receives. *)

From S2P Require Import Prelude Go Effects Client Sys Cluster Rebalance Api Resources Workloads Kube ApiServer RedisCtrl SentinelCtrl ClusterCtrl Addressing Lifecycle Access.

Local Open Scope Z_scope.

Section link.
Context {K : KubeTypes} {L : KubeLib}.
Context (fuel : nat).

(** ** The linked signature *)

Inductive link_op := Api (o : kube_op) | Below (o : sys_op).

Definition link_ans (o : link_op) : Type := match o with Api o => kube_ans o | Below o => sys_ans o end.

Definition LinkSig : sig := {| op := link_op; ans := link_ans |}.

Definition api (o : kube_op) : prog LinkSig (kube_ans o) := Call (S := LinkSig) (Api o) Ret.
Definition below (o : sys_op) : prog LinkSig (sys_ans o) := Call (S := LinkSig) (Below o) Ret.

(** A program of internal/redis among the others. *)
Definition embed {A} (p : prog SysSig A) : prog LinkSig A := interp (S := SysSig) below p.

(** What becomes of each call of a controller. *)
Definition route (o : kube_op) : prog LinkSig (kube_ans o) :=
  match o return prog LinkSig (kube_ans o) with
  | ManagerCall m => embed (ClusterManager.implementation fuel m)
  | RedisCall m => below (Sys.Redis m)
  | TimeNow => below Now
  | RangeMap ks => below (Range ks)
  | o' => api o'
  end.

Definition linked {A} (p : prog KubeSig A) : prog LinkSig A := interp (S := KubeSig) route p.

(** ** Observations *)

(** The part of a trace that internal/redis and the clock see. *)
Definition below_events (t : list (Effects.event LinkSig)) : list (Effects.event SysSig) :=
  observe (λ e : Effects.event LinkSig,
    match e with
    | Ev o r => match o return link_ans o → option (Effects.event SysSig) with
                | Below o => λ r, Some (Ev (S := SysSig) o r)
                | Api _ => λ _, None
                end r
    end) t.

(** The commands sent to Redis, in order. *)
Definition sent (t : list (Effects.event LinkSig)) : list RedisClient.method := redis_calls (below_events t).

Lemma below_app t1 t2 : below_events (t1 ++ t2) = below_events t1 ++ below_events t2.
Proof. apply observe_app. Qed.

Lemma sent_app t1 t2 : sent (t1 ++ t2) = sent t1 ++ sent t2.
Proof. unfold sent. by rewrite below_app, redis_calls_app. Qed.

(** An embedded program runs as it does alone. *)
Lemma exec_embed {A} (p : prog SysSig A) t out : exec (embed p) t out → exec p (below_events t) out.
Proof.
  revert t. induction p as [a|h|o k IH]; intros t; simpl; [by intros [-> ->]|by intros [-> ->]|].
  intros (r & t' & -> & H). exists r, (below_events t'). split; [done|]. by apply IH.
Qed.

(** ** The manager below a controller *)

Definition no_redis (o : kube_op) : Prop := match o with RedisCall _ => False | _ => True end.

(** A method of the manager that ran to its end. *)
Definition ran (m : ClusterManager.method) (t : list (Effects.event SysSig)) : Prop :=
  ∃ r, exec (ClusterManager.implementation fuel m) t (Done r).

(** When the controller sends nothing itself, Redis receives what the methods
    of the manager send, one after the other. *)
Lemma linked_sent es t :
  implements (S := KubeSig) route es t → Forall (λ e : Effects.event KubeSig, no_redis (ev_op e)) es →
  ∃ ts, Forall2 ran (manager_calls es) ts ∧ sent t = concat (redis_calls <$> ts).
Proof.
  revert t. induction es as [|[o r] es IH]; intros t; [intros -> _; by exists []|].
  intros (t1 & t2 & -> & H1 & H2) [Ho Hes]%Forall_cons. destruct (IH _ H2 Hes) as (ts & H3 & H4).
  rewrite sent_app, H4. unfold manager_calls, observe. rewrite omap_cons_eq.
  destruct o as [| | | | | | | | | | | | | | | |m]; simpl in Ho; try done;
    try (destruct H1 as (a & t' & -> & -> & _); by exists ts).
  apply exec_embed in H1. exists (below_events t1 :: ts). split; [|done].
  constructor; [by exists r|done].
Qed.

(** C1: The life cycle of a cluster, down to Redis, is the state machine
    [step].  Every reconciliation first asks the first master for the state of
    the cluster, makes one step of the machine, and sends to Redis, besides
    the commands of that question, exactly the commands of the manager methods
    of the step, run to their end one after the other, by the manager's own
    code.  The machine forms the cluster of the spec only when no slot is
    assigned, waits when the cluster fails or cannot be reached, and does
    nothing when the sizes agree.  It grows a cluster that reports fewer
    masters than the spec by introducing the missing masters in order,
    rebalancing over all and attaching the new replicas, and shrinks one that
    reports more by rebalancing over the remaining masters and then removing
    each other master, the last first, after its replicas; it reaches the
    phase Ready only at the end of such a plan, stays in Scaling and comes
    back later when it stops before, and never returns an error. *)
Theorem linked_lifecycle_refines rc t rc' res err :
  exec (linked (reconcileClusterLifecycle true rc)) t (Done (rc', (res, err))) →
  err = None ∧
  ∃ state calls t0 ts,
    exec (ClusterManager.implementation fuel (ClusterManager.GetClusterState (clusterMasterAddr rc 0))) t0 (Done state) ∧
    step rc (phase rc) (match state with Ok s => Some s | Fail _ => None end) calls (phase rc') res ∧
    Forall2 ran calls ts ∧
    sent t = redis_calls t0 ++ concat (redis_calls <$> ts).
Proof.
  intros (es & H & Hi)%exec_interp.
  destruct (within_exec _ _ _ _ _ (lifecycle_typed rc) H) as [Htyped _].
  pose proof (lifecycle_refines_step _ _ _ _ _ H) as (-> & view & calls & Hv & Hc & Hstep).
  split; [done|]. destruct H as (state & es' & -> & _).
  assert (Hes : Forall (λ e : Effects.event KubeSig, no_redis (ev_op e)) es').
  { apply Forall_cons in Htyped as [_ Htyped]. eapply Forall_impl; [exact Htyped|].
    by intros [[] ?]. }
  destruct Hi as (t1 & t2 & -> & H1 & H2). apply exec_embed in H1.
  destruct (linked_sent _ _ H2 Hes) as (ts & H3 & H4). injection Hc as Hc.
  exists state, calls, (below_events t1), ts. rewrite sent_app, H4. change (manager_calls es' = calls) in Hc.
  rewrite <- Hc. split_and!; [done| |done|done].
  rewrite Hc. by destruct state; injection Hv as ->.
Qed.

(** ** Scaling a cluster whose nodes are known by IP *)

(** The clusters that CLUSTER INFO described. *)
Definition info_answer (e : Effects.event SysSig) : option ClusterInfo :=
  match e with
  | Ev o r => match o return sys_ans o → option ClusterInfo with
              | Sys.Redis (RedisClient.ClusterInfo _) =>
                  λ r, match r with Ok i => Some i | Fail _ => None end
              | _ => λ _, None
              end r
  end.

(** Commands that change neither slots nor membership but by introduction. *)
Definition harmless (m : RedisClient.method) : Prop :=
  match m with
  | RedisClient.ClusterInfo _ | RedisClient.ClusterNodes _ | RedisClient.ClusterMeet _ _ _ => True
  | _ => False
  end.

(** The calls with which the life cycle scales. *)
Inductive scaling (rc : RedisCluster) : ClusterManager.method → Prop :=
| scaling_state a : scaling rc (ClusterManager.GetClusterState a)
| scaling_add a b : scaling rc (ClusterManager.AddMaster a b)
| scaling_rebalance : scaling rc (ClusterManager.RebalanceSlots (spec_masters rc))
| scaling_attach i j : scaling rc (ClusterManager.AddReplica (clusterReplicaAddr rc i) (clusterMasterAddr rc j))
| scaling_detach i : scaling rc (ClusterManager.RemoveReplica (clusterMasterAddr rc 0) (clusterReplicaAddr rc i))
| scaling_remove i : scaling rc (ClusterManager.RemoveMaster (clusterMasterAddr rc 0) (clusterMasterAddr rc i)).
#[local] Hint Constructors scaling : core.

Definition by_ip (t : list (Effects.event SysSig)) : Prop := Forall (Forall announces_ip) (observe nodes_answer t).

Lemma by_ip_app t1 t2 : by_ip (t1 ++ t2) ↔ by_ip t1 ∧ by_ip t2.
Proof. unfold by_ip. rewrite observe_app. apply Forall_app. Qed.

Lemma harmless_prefix l k : l `prefix_of` k → Forall harmless k → Forall harmless l.
Proof. intros [j ->] [H _]%Forall_app. exact H. Qed.

Lemma scaling_harmless rc m t out :
  scaling rc m → exec (ClusterManager.implementation fuel m) t out → by_ip t → Forall harmless (redis_calls t).
Proof.
  intros Hm H Hip. destruct Hm; [| |pose proof (dns_addresses_unknown fuel rc t out Hip) as (Hreb & Hrem & Hdet & Hatt)..].
  - cbn in H. exec_step_ok H; exec_simpl H; [exec_step_ok H; exec_simpl H|]; destruct H as [-> _]; by repeat constructor.
  - cbn in H. unfold AddMaster in H. destruct (splitAddr b) as [[ip port]|e]; [exec_step H|]; destruct H as [-> _];
      by repeat constructor.
  - destruct (decide (0 < masters rc)) as [Hpos|Hneg].
    + destruct (Hreb Hpos H) as [Hc _]. eapply Forall_impl; [exact Hc|]. by intros ? [a ->].
    + unfold spec_masters in H. rewrite seqZ_nil in H by lia. destruct H as [-> _]. constructor.
  - destruct (Hatt i j H) as (host & port & Hp & _). eapply harmless_prefix; [exact Hp|]. by repeat constructor.
  - destruct (Hdet i H) as [Hp _]. eapply harmless_prefix; [exact Hp|]. by repeat constructor.
  - destruct (Hrem i H) as [Hp _]. eapply harmless_prefix; [exact Hp|]. by repeat constructor.
Qed.

(** The calls the controller makes when it scales [rc]. *)
Definition scales (rc : RedisCluster) (o : kube_op) : Prop :=
  match o with ManagerCall m => scaling rc m | RedisCall _ => False | _ => True end.

Definition harmless_by_ip (t : list (Effects.event LinkSig)) : Prop :=
  by_ip (below_events t) → Forall harmless (sent t).

Lemma harmless_by_ip_app t1 t2 : harmless_by_ip t1 → harmless_by_ip t2 → harmless_by_ip (t1 ++ t2).
Proof.
  intros H1 H2. unfold harmless_by_ip. rewrite below_app, sent_app, by_ip_app. intros [? ?].
  apply Forall_app. split; [by apply H1|by apply H2].
Qed.

Lemma route_harmless rc o t out : scales rc o → exec (route o) t out → harmless_by_ip t.
Proof.
  intros Ho H Hip. destruct o; simpl in Ho; try done; try (destruct H as (r & t' & -> & -> & _); constructor).
  apply exec_embed in H. by eapply scaling_harmless.
Qed.

Lemma scales_harmless {A} rc (p : prog KubeSig A) t out :
  within (S := KubeSig) (scales rc) (λ _, True) p → exec (linked p) t out → harmless_by_ip t.
Proof.
  intros Hp. apply (interp_safe (S := KubeSig) route (scales rc) harmless_by_ip (λ _, True)); try done.
  - intros _. constructor.
  - apply harmless_by_ip_app.
  - intros o t1 out1. apply route_harmless.
Qed.

Lemma makeAddrs_scales {A} rc n f (k : list string → prog KubeSig A) :
  within (S := KubeSig) (scales rc) (λ _, True) (k (f <$> seqZ 0 n)) →
  within (S := KubeSig) (scales rc) (λ _, True) (prog_bind k (makeAddrs n f)).
Proof. intros Hk. unfold makeAddrs. by destruct (n <? 0). Qed.

Ltac scales_tac :=
  within_syntax ltac:(first
    [ apply makeAddrs_scales
    | hnf; match goal with
           | |- scaling _ (ClusterManager.AddMaster _ _) => apply scaling_add
           | |- scaling ?r (ClusterManager.RebalanceSlots _) => exact (scaling_rebalance r)
           | |- scaling ?r (ClusterManager.AddReplica (clusterReplicaAddr _ ?i) (clusterMasterAddr _ ?j)) =>
               exact (scaling_attach r i j)
           | |- scaling ?r (ClusterManager.RemoveReplica _ (clusterReplicaAddr _ ?i)) => exact (scaling_detach r i)
           | |- scaling ?r (ClusterManager.RemoveMaster _ (clusterMasterAddr _ ?i)) => exact (scaling_remove r i)
           end ]).

Lemma scaleIfNeeded_scales rc rc1 s :
  rc1 = rc ∨ rc1 = set_phase PhaseReady rc →
  within (S := KubeSig) (scales rc) (λ _, True) (scaleIfNeeded rc1 s).
Proof. intros [-> | ->]; unfold scaleIfNeeded, reconcileScaleOut, reconcileScaleIn, allMasterAddrs; scales_tac. Qed.

(** The life cycle once slots are assigned. *)
Lemma assigned_scales rc s :
  cs_SlotsAssigned s ≠ 0 →
  within (S := KubeSig) (scales rc) (λ _, True)
    (if cs_SlotsAssigned s =? 0 then formIfReady rc
     else if String.eqb (cs_State s) "fail" then awaitRecovery rc
     else rc' ← noteRecovery rc s; scaleIfNeeded rc' s).
Proof.
  intros Hs. rewrite (proj2 (Z.eqb_neq _ _) Hs). destruct (String.eqb (cs_State s) "fail"); [scales_tac|].
  unfold noteRecovery. destruct (_ && _); cbn [prog_bind mbind prog_mbind].
  - split; [exact I|]. intros ?. by apply scaleIfNeeded_scales; right.
  - by apply scaleIfNeeded_scales; left.
Qed.

(** The state of the cluster and what it was read from. *)
Lemma GetClusterState_read addr t s :
  exec (ClusterManager.implementation fuel (ClusterManager.GetClusterState addr)) t (Done (Ok s)) →
  ∃ i nodes, observe info_answer t = [i] ∧ observe nodes_answer t = [nodes] ∧
    cs_SlotsAssigned s = ci_SlotsAssigned i ∧ cs_State s = ci_State i ∧ cs_Size s = ci_ClusterSize i.
Proof.
  intros H. cbn in H. exec_step_ok H; exec_simpl H; [|exec_done H].
  exec_step_ok H; exec_simpl H; [|exec_done H]. destruct H as [-> [= ->]]. by eexists _, _.
Qed.

Lemma GetClusterState_unread addr t e :
  exec (ClusterManager.implementation fuel (ClusterManager.GetClusterState addr)) t (Done (Fail e)) →
  observe nodes_answer t = [].
Proof.
  intros H. cbn in H. exec_step_ok H; exec_simpl H; [|by destruct H as [-> _]].
  exec_step_ok H; exec_simpl H; [by destruct H|by destruct H as [-> _]].
Qed.

(** Scaling in only ends well when masters were removed. *)
Lemma scale_in_removes rc n es rc' res err :
  masters rc < n → exec (reconcileScaleIn rc n) es (Done (rc', (res, err))) →
  (phase rc' = PhaseScaling ∧ 0 < res_RequeueAfter res) ∨
  ∃ i, Ev (S := KubeSig) (ManagerCall (ClusterManager.RemoveMaster (clusterMasterAddr rc 0) (clusterMasterAddr rc i)))
         (Ok tt) ∈ es.
Proof.
  intros Hn H. exec_step H. exec_simpl H.
  apply exec_bind in H as [(t1 & addrs & t2 & -> & H1 & H)|(h & ? & _)]; [|done].
  apply makeAddrs_done in H1 as [-> ->]. exec_step_ok H; exec_simpl H.
  2: { destruct H as [-> [= -> -> ->]]. by left. }
  apply exec_bind in H as [(t3 & r3 & t4 & -> & H3 & H)|(h & ? & _)]; [|done].
  destruct r3 as [[]|e]; [|destruct H as [-> [= -> -> ->]]; by left]. right.
  apply exec_for_each_ok in H3 as (ts & -> & Hts).
  change (masters (set_phase PhaseScaling rc)) with (masters rc) in Hts.
  replace (n - masters rc) with ((n - masters rc - 1) + 1) in Hts by lia.
  rewrite seqZ_singleton_app, rev_app_distr in Hts by lia. cbn [rev app] in Hts.
  apply Forall2_cons_inv_l in Hts as (tx & ts' & Hx & _ & ->).
  apply exec_bind in Hx as [(t5 & [] & t6 & -> & _ & Hx)|(h & ? & _)]; [|done].
  destruct Hx as (x & t7 & -> & [-> [= <-]]).
  exists (masters rc + (n - masters rc - 1)). cbn [concat]. set_solver.
Qed.

(** Removing a master by the address of the controller fails. *)
Lemma remove_fails rc i t :
  by_ip t → ¬ exec (ClusterManager.implementation fuel
                      (ClusterManager.RemoveMaster (clusterMasterAddr rc 0) (clusterMasterAddr rc i))) t (Done (Ok tt)).
Proof.
  intros Hip H. pose proof (dns_addresses_unknown fuel rc t (Done (Ok tt)) Hip) as (_ & Hrem & _).
  by destruct (Hrem i H) as [_ [e ?]].
Qed.

(** The life cycle of a cluster that is too large, over the manager. *)
Lemma shrinking_stays rc s es t2 rc' res err :
  cs_SlotsAssigned s ≠ 0 → cs_State s ≠ "fail" → 0 < masters rc < wrap32 (cs_Size s) →
  exec (rc1 ← noteRecovery rc s; scaleIfNeeded rc1 s) es (Done (rc', (res, err))) →
  implements (S := KubeSig) route es t2 → by_ip (below_events t2) →
  phase rc' = PhaseScaling ∧ 0 < res_RequeueAfter res.
Proof.
  intros Hs Hf Hsz H Hi Hip.
  apply exec_bind in H as [(e1 & rc1 & e2 & -> & H1 & H)|(h & ? & _)]; [|done].
  apply noteRecovery_phase in H1 as (_ & Hrc & _). unfold scaleIfNeeded in H.
  assert (masters rc1 = masters rc) as Hm by by destruct Hrc as [-> | ->].
  rewrite Hm, (proj2 (Z.ltb_lt _ _)), (proj2 (Z.eqb_neq _ _)), (proj2 (Z.ltb_ge _ _)) in H by lia.
  cbn [negb andb] in H. rewrite <- Hm in Hsz.
  apply scale_in_removes in H as [H|[i Hin]]; [exact H| |lia]. exfalso.
  destruct (implements_elem (S := KubeSig) route (e1 ++ e2) t2 _ (proj2 (elem_of_app _ _ _) (or_intror Hin)) Hi)
    as (ta & tb & tc & -> & Hrun).
  rewrite !below_app, !by_ip_app in Hip. destruct Hip as (_ & Hip & _).
  apply exec_embed in Hrun. apply (remove_fails rc i _ Hip). by destruct Hrc as [-> | ->].
Qed.

Lemma asks rc : scales rc (ManagerCall (ClusterManager.GetClusterState (clusterMasterAddr rc 0))).
Proof. apply scaling_state. Qed.

(** A program that only calls the API server calls nothing below. *)
Definition api_only (o : kube_op) : Prop :=
  match o with ManagerCall _ | RedisCall _ | TimeNow | RangeMap _ => False | _ => True end.

Lemma api_only_below {A} (p : prog KubeSig A) t out :
  within (S := KubeSig) api_only (λ _, True) p → exec (linked p) t out → below_events t = [].
Proof.
  apply (interp_safe (S := KubeSig) route api_only (λ t, below_events t = []) (λ _, True)); [done| |].
  - intros t1 t2 H1 H2. by rewrite below_app, H1, H2.
  - intros o t1 out1 Ho H. destruct o; simpl in Ho; try done; by destruct H as (r & t' & -> & -> & _).
Qed.

(** C10: Scaling never takes effect on a cluster whose nodes are known by
    IP, as those the operator starts are.  Whatever the API server and Redis
    answer, while every node CLUSTER NODES reports is known by a literal IP
    and slots are assigned, one run of the life cycle, down to Redis, only
    asks for the state and introduces nodes: it moves no slot, assigns no
    replica, resets and forgets no node, also when it ends in the phase Ready
    after scaling out.  And it never completes scaling in: a cluster with
    more masters than its spec is left in the phase Scaling, to be retried,
    unless its state could not be read. *)
Theorem scaling_moves_no_slot rc t out :
  exec (linked (reconcileClusterLifecycle true rc)) t out →
  let b := below_events t in
  by_ip b → Forall (λ i, ci_SlotsAssigned i ≠ 0) (observe info_answer b) →
  Forall harmless (sent t) ∧
  ∀ rc' res err, out = Done (rc', (res, err)) →
    Forall (λ i, ci_State i ≠ "fail" ∧ 0 < masters rc < wrap32 (ci_ClusterSize i)) (observe info_answer b) →
    (phase rc' = PhaseScaling ∧ 0 < res_RequeueAfter res) ∨ observe nodes_answer b = [].
Proof.
  intros H b Hip Hassigned. unfold linked, reconcileClusterLifecycle in H. cbn [negb] in H.
  apply exec_bind in H as [(t1 & state & t2 & -> & H1 & H)|(h & -> & H1)].
  2: { split; [|done]. by apply (route_harmless rc _ t _ (asks rc) H1). }
  pose proof (route_harmless rc _ t1 _ (asks rc) H1) as Hh1.
  apply exec_embed in H1. unfold b in *. clear b. rewrite below_app in *.
  destruct state as [s|e].
  - destruct (GetClusterState_read _ _ _ H1) as (i & nodes & Hi & Hn & Hsl & Hst & Hsz).
    rewrite observe_app, Hi in Hassigned. apply Forall_cons in Hassigned as [Hassigned _].
    rewrite <- Hsl in Hassigned. cbn [prog_bind] in H. split.
    + apply harmless_by_ip_app; [done| |by rewrite below_app].
      exact (scales_harmless rc _ t2 out (assigned_scales rc s Hassigned) H).
    + intros rc' res err -> Hshrink. left.
      rewrite observe_app, Hi in Hshrink. apply Forall_cons in Hshrink as [[Hf Hm] _].
      rewrite <- Hst in Hf. rewrite <- Hsz in Hm. apply by_ip_app in Hip as [_ Hip].
      apply exec_interp in H as (es & H & Himp).
      rewrite (proj2 (Z.eqb_neq _ _) Hassigned), (proj2 (String.eqb_neq _ _) Hf) in H.
      exact (shrinking_stays rc s es t2 rc' res err Hassigned Hf Hm H Himp Hip).
  - match type of H with exec (_ _ _ _ _ ?p) _ _ => change (exec (linked p) t2 out) in H end.
    apply by_ip_app in Hip as [Hip1 Hip2].
    split.
    + rewrite sent_app. apply Forall_app. split; [by apply Hh1|].
      eapply (scales_harmless rc); [|exact H|exact Hip2]. scales_tac.
    + intros rc' res err -> _. right. rewrite observe_app, (GetClusterState_unread _ _ _ H1).
      assert (below_events t2 = []) as ->; [|done].
      eapply api_only_below; [|exact H]. within_tac.
Qed.

End link.

(** ** A concrete environment *)

#[local] Existing Instance plain_types.
#[local] Existing Instance plain_lib.

(** The API server above a Redis that agrees to everything. *)
Definition whole_stack : handler LinkSig (server * (unit * Z)) := λ o w,
  match o return link_ans o * (server * (unit * Z)) with
  | Api o => let '(r, s) := apiserver o w.1 in (r, (s, w.2))
  | Below o => let '(r, s) := with_clock agreeable o w.2 in (r, (w.1, s))
  end.

(** Three masters that the spec wants to be two. *)
Definition shrinking_run :=
  run whole_stack (linked 1 (reconcileClusterLifecycle true (live_cluster 2 0 "Ready")))
    (serving (live_cluster 2 0 "Ready") (Ok (cluster_of_size 3)), (tt, 0)).

Lemma linked_lifecycle_refines_witness :
  ∃ view calls ts,
    step (live_cluster 2 0 "Ready") "Ready" view calls "Scaling" (requeueAfter (30 * second)) ∧
    Forall2 (ran 1) calls ts.
Proof.
  destruct (linked_lifecycle_refines 1 (live_cluster 2 0 "Ready") (trace_of shrinking_run)
              (set_phase PhaseScaling (live_cluster 2 0 "Ready")) (requeueAfter (30 * second)) None)
    as (_ & state & calls & t0 & ts & _ & H2 & H3 & _).
  - apply (run_done whole_stack (linked 1 (reconcileClusterLifecycle true (live_cluster 2 0 "Ready")))).
    vm_compute. reflexivity.
  - exists (match state with Ok s => Some s | Fail _ => None end), calls, ts. split; [exact H2|exact H3].
Defined.

Lemma scaling_moves_no_slot_witness :
  Forall harmless (sent (trace_of shrinking_run)) ∧
  phase (set_phase PhaseScaling (live_cluster 2 0 "Ready")) = PhaseScaling.
Proof.
  destruct (scaling_moves_no_slot 1 (live_cluster 2 0 "Ready") (trace_of shrinking_run) (result_of shrinking_run)) as [H1 H2].
  - exact (run_exec whole_stack (linked 1 (reconcileClusterLifecycle true (live_cluster 2 0 "Ready")))
             (serving (live_cluster 2 0 "Ready") (Ok (cluster_of_size 3)), (tt, 0))).
  - vm_compute. repeat constructor.
  - vm_compute. repeat (constructor; [discriminate|]). constructor.
  - split; [exact H1|].
    assert (result_of shrinking_run = Done (set_phase PhaseScaling (live_cluster 2 0 "Ready"), (requeueAfter (30 * second), None)))
      as Hr by (vm_compute; reflexivity).
    assert (Forall (λ i, ci_State i ≠ "fail" ∧ 0 < masters (live_cluster 2 0 "Ready") < wrap32 (ci_ClusterSize i))
              (observe info_answer (below_events (trace_of shrinking_run)))) as Hi.
    { assert (observe info_answer (below_events (trace_of shrinking_run))
              = match fst (agreeable (RedisClient.ClusterInfo "") tt) with Ok i => [i] | Fail _ => [] end) as ->
        by (vm_compute; reflexivity).
      constructor; [|constructor]. split; [discriminate|]. split; reflexivity. }
    destruct (H2 _ _ _ Hr Hi) as [[H _]|H]; [exact H|]. vm_compute in H. discriminate H.
Defined.
