(* ===== verification/Progress.v ===== *)
(** * A cluster becomes ready (theorems on rediscluster_controller.go)

    Many reconciliations of one cluster resource in an environment that
    cooperates: the API server stores what it is sent, with status and
    metadata updated separately, the pods become ready, and the cluster
    manager forms the cluster.  [agrees] says so, as a relation that leaves
    every other answer open. *)

From S2P Require Import Prelude Go Effects Client Sys Cluster Api Webhook Resources Workloads Sha256 Kube ApiServer RedisCtrl SentinelCtrl ClusterCtrl.

Local Open Scope Z_scope.

(** The stored resource, and whether the Redis Cluster has been formed. *)
Record world {K : KubeTypes} := World { stored : RedisCluster; formed : bool }.

Section progress.
Context {K : KubeTypes} {L : KubeLib} {KL : KubeLaws}.

(** ** The environment *)

Definition same_meta (m m' : ObjectMeta) : Prop :=
  om_Name m = om_Name m' ∧ om_Namespace m = om_Namespace m' ∧
  om_DeletionTimestamp m = om_DeletionTimestamp m' ∧ om_Finalizers m = om_Finalizers m'.

(** The object consists of these parts; the server may change the rest of the
    metadata. *)
Definition consists (rc : RedisCluster) (m : ObjectMeta) (spec : RedisClusterSpec) (status : RedisClusterStatus) : Prop :=
  same_meta (cluster_meta rc) m ∧ cluster_Spec rc = spec ∧ cluster_Status rc = status.

(** What a cluster reports that is not formed yet, or works. *)
Definition reports (w : world) (s : ClusterState) : Prop :=
  if formed w
  then cs_SlotsAssigned s ≠ 0 ∧ cs_State s = "ok" ∧ wrap32 (cs_Size s) = masters (stored w)
  else cs_SlotsAssigned s = 0.

(** All pods of the masters and of the replicas are ready. *)
Definition pods_ready (w : world) (labels : gmap string string) (pods : list Pod) : Prop :=
  (labels = PodLabels (cluster_name (stored w)) ComponentMaster → countReadyPods pods = masters (stored w)) ∧
  (labels = PodLabels (cluster_name (stored w)) ComponentReplica → countReadyPods pods = totalReplicas (stored w)).

Definition agrees (w : world) (o : op KubeSig) : ans KubeSig o → world → Prop :=
  match o return kube_ans o → world → Prop with
  | Get k _ =>
      match k return result (custom_type k) → world → Prop with
      | CCluster => λ r w', r = Ok (stored w) ∧ w' = w
      | _ => λ _ w', w' = w
      end
  | Update k obj =>
      match k return custom_type k → result (custom_type k) → world → Prop with
      | CCluster => λ obj r w', r = Ok (stored w') ∧ formed w' = formed w ∧
          consists (stored w') (cluster_meta obj) (cluster_Spec obj) (cluster_Status (stored w))
      | _ => λ _ _ w', w' = w
      end obj
  | StatusUpdate k obj =>
      match k return custom_type k → result (custom_type k) → world → Prop with
      | CCluster => λ obj r w', r = Ok (stored w') ∧ formed w' = formed w ∧
          consists (stored w') (cluster_meta (stored w)) (cluster_Spec (stored w)) (cluster_Status obj)
      | _ => λ _ _ w', w' = w
      end obj
  | PatchCluster _ after => λ r w', r = Ok (stored w') ∧ formed w' = formed w ∧
      consists (stored w') (cluster_meta after) (cluster_Spec (stored w)) (cluster_Status (stored w))
  | ListPods _ labels => λ r w', w' = w ∧ ∃ pods, r = Ok pods ∧ pods_ready w labels pods
  | CreateOrUpdate _ _ _ => λ r w', w' = w ∧ r = Ok tt
  | ManagerCall m =>
      match m return ClusterManager.reply m → world → Prop with
      | ClusterManager.GetClusterState _ => λ r w', w' = w ∧ ∃ s, r = Ok s ∧ reports w s
      | ClusterManager.FormCluster _ _ _ => λ r w', r = Ok tt ∧ w' = World _ (stored w) true
      | _ => λ _ w', w' = w
      end
  | _ => λ _ w', w' = w
  end.

Abbreviation ens p w Q := (ensures (S := KubeSig) agrees p w Q).

(** Calls that leave the world alone. *)
Definition inert (o : op KubeSig) : Prop :=
  match (o : kube_op) with
  | Event _ _ _ | Metric _ | TimeNow | RangeMap _ | RedisCall _ | ListPods _ _ | CreateOrUpdate _ _ _ => True
  | ManagerCall (ClusterManager.GetClusterState _) => True
  | _ => False
  end.

Lemma inert_world o r w w' : inert o → agrees w o r w' → w' = w.
Proof. destruct o; simpl; try done; try (by intros _ [-> _]). destruct m; try done. by intros _ [-> _]. Qed.

Lemma ens_inert {A} (p : prog KubeSig A) w (Q : A → world → Prop) :
  within inert (λ _, False) p → (∀ a, Q a w) → ens p w Q.
Proof. apply ensures_inert. intros o r w1 w2. apply inert_world. Qed.

(** ** Sizes *)

(** Sizes that the admission webhook admits: no overflow, nothing negative. *)
Definition sized (rc : RedisCluster) : Prop :=
  0 ≤ masters rc ∧ wrap32 (masters rc) = masters rc ∧ 0 ≤ totalReplicas rc.

(** The copy of the resource in memory: spec and identity are the stored
    ones; the status may be ahead. *)
Definition copy_of (rc : RedisCluster) (w : world) : Prop :=
  cluster_Spec rc = cluster_Spec (stored w) ∧ same_meta (cluster_meta rc) (cluster_meta (stored w)).

Lemma copy_sizes rc w :
  copy_of rc w → masters rc = masters (stored w) ∧ totalReplicas rc = totalReplicas (stored w) ∧
  replicasPerMaster rc = replicasPerMaster (stored w) ∧ cluster_name rc = cluster_name (stored w).
Proof.
  intros [Hs (Hn & _)]. unfold masters, totalReplicas, masters, replicasPerMaster, cluster_name. by rewrite Hs, Hn.
Qed.

(** ** Pods *)

Lemma ens_master_pods rc w (Q : bool → world → Prop) :
  copy_of rc w → sized (stored w) → Q true w → ens (allMasterPodsReady rc) w Q.
Proof.
  intros Hc (_ & Hw & _) HQ. destruct (copy_sizes _ _ Hc) as (Hm & _ & _ & Hn).
  simpl. intros r w' [-> (pods & -> & Hp & _)]. rewrite Hn in Hp. cbn.
  rewrite (Hp eq_refl), Hw, Hm, Z.leb_refl. exact HQ.
Qed.

Lemma wrap32_total rc : wrap32 (totalReplicas rc) = totalReplicas rc.
Proof. apply wrap32_id, wrap32_range. Qed.

Lemma ens_pods rc w (Q : bool → world → Prop) :
  copy_of rc w → sized (stored w) → Q true w → ens (allPodsReady rc) w Q.
Proof.
  intros Hc Hs HQ. unfold allPodsReady. apply ensures_bind, ens_master_pods; [done|done|]. cbn [negb].
  case_bool; [exact HQ|]. destruct (copy_sizes _ _ Hc) as (_ & Ht & _ & Hn).
  simpl. intros r w' [-> (pods & -> & _ & Hp)]. rewrite Hn in Hp. cbn.
  rewrite (Hp eq_refl), wrap32_total, Ht, Z.leb_refl. exact HQ.
Qed.

(** ** The life cycle *)

Lemma ens_makeAddrs n f w (Q : list string → world → Prop) :
  0 ≤ n → Q (f <$> seqZ 0 n) w → ens (makeAddrs n f) w Q.
Proof. intros Hn HQ. unfold makeAddrs. by rewrite (proj2 (Z.ltb_ge _ _) Hn). Qed.

(** A cluster that is not formed is formed at once. *)
Lemma ens_form rc w :
  copy_of rc w → sized (stored w) →
  ens (formIfReady rc) w (λ l w', w' = World _ (stored w) true ∧ l = (set_phase PhaseReady rc, (requeue, None))).
Proof.
  intros Hc Hs. destruct (copy_sizes _ _ Hc) as (Hm & Ht & _). pose proof Hs as (H0 & _ & H1).
  unfold formIfReady. apply ensures_bind, ens_pods; [done|done|]. cbn [negb].
  apply ensures_bind, ens_makeAddrs; [by rewrite Hm|].
  apply ensures_bind, ens_makeAddrs; [by rewrite Ht|].
  simpl. intros r w1 [-> ->]. by intros _ w2 ->.
Qed.

(** One life cycle: it forms the cluster, or finds it in order. *)
Lemma ens_lifecycle rc w :
  copy_of rc w → sized (stored w) → phase rc ≠ PhaseRecovering →
  ens (reconcileClusterLifecycle true rc) w (λ l w',
    w' = World _ (stored w) true ∧
    if formed w then l = (rc, (noResult, None)) else l = (set_phase PhaseReady rc, (requeue, None))).
Proof.
  intros Hc Hs Hp. destruct (copy_sizes _ _ Hc) as (Hm & _). unfold reconcileClusterLifecycle. cbn [negb].
  simpl. intros r w1 [-> (s & -> & Hr)]. unfold reports in Hr. destruct w as [rc0 []]; simpl in *.
  - destruct Hr as (H1 & H2 & H3). rewrite (proj2 (Z.eqb_neq _ _) H1), H2. cbn.
    unfold noteRecovery, scaleIfNeeded. rewrite (proj2 (String.eqb_neq _ _) Hp). cbn.
    rewrite H3, Hm, Z.eqb_refl, andb_false_r. by split.
  - rewrite Hr. cbn [Z.eqb]. eapply ensures_mono; [by apply ens_form|]. by intros l w' [-> ->].
Qed.

(** ** Failover and hot reload *)

(** What a step of a formed cluster keeps: the resource but for the rest of
    its metadata, and the copy, whose phase may fall back to the stored one
    when the answer of a patch replaces it. *)
Definition kept (rc : RedisCluster) (w : world) (rc' : RedisCluster) (w' : world) : Prop :=
  formed w' = formed w ∧ copy_of rc' w' ∧ cluster_Spec (stored w') = cluster_Spec (stored w) ∧
  same_meta (cluster_meta (stored w')) (cluster_meta (stored w)) ∧
  cluster_Status (stored w') = cluster_Status (stored w) ∧
  (phase rc' = phase rc ∨ phase rc' = phase (stored w)).

Lemma same_meta_refl m : same_meta m m.
Proof. done. Qed.

Lemma same_meta_sym m m' : same_meta m m' → same_meta m' m.
Proof. intros (? & ? & ? & ?). by split_and!. Qed.

Lemma same_meta_trans m1 m2 m3 : same_meta m1 m2 → same_meta m2 m3 → same_meta m1 m3.
Proof. intros (? & ? & ? & ?) (? & ? & ? & ?). split_and!; congruence. Qed.

Lemma kept_refl rc w : copy_of rc w → kept rc w rc w.
Proof. intros H. split_and!; try done; try apply H. by left. Qed.

Lemma ens_record rc w hash : copy_of rc w → ens (recordLastConfigHash rc hash) w (kept rc w).
Proof.
  intros Hc. unfold recordLastConfigHash. case_bool; [by apply kept_refl|].
  simpl. intros r w' (-> & Hf & Hm & Hs & Hst). cbn.
  assert (same_meta (cluster_meta (stored w')) (cluster_meta (stored w))) as Hm'.
  { destruct Hm as (H1 & H2 & H3 & H4), Hc as (_ & H5 & H6 & H7 & H8). simpl in *. split_and!; congruence. }
  split_and!; try done. right. unfold phase. by rewrite Hst.
Qed.

Lemma inert_failoverAll nodes : within (S := KubeSig) inert (λ _, False) (failoverAll nodes).
Proof. unfold failoverAll. within_tac. Qed.

Lemma inert_pushConfig addr config : within (S := KubeSig) inert (λ _, False) (pushConfig addr config).
Proof. unfold pushConfig. within_tac. Qed.

Lemma ens_failover rc w hash : copy_of rc w → ens (tryClusterRollingFailover true true rc hash) w (kept rc w).
Proof.
  intros Hc. unfold tryClusterRollingFailover. cbn [negb orb].
  case_bool; [by apply ens_record|]. case_bool; [by apply ens_record|].
  apply ensures_bind. intros r w' [-> (s & -> & _)]. cbn [ensures].
  apply ensures_bind, ens_inert; [apply inert_failoverAll|]. intros ? ? w' ->. by apply ens_record.
Qed.

Lemma inert_reload rc : within (S := KubeSig) inert (λ _, False) (tryClusterHotReload true rc).
Proof.
  unfold tryClusterHotReload. destruct (c_RedisConfig _); [|exact I].
  apply within_do_each. intros i. apply inert_pushConfig.
Qed.

(** ** Status *)

Lemma nextPhase_ready ph : ph = PhaseReady ∨ ph = PhaseInitializing → nextPhase ph true "ok" = PhaseReady.
Proof. by intros [-> | ->]. Qed.

(** The status that is written for a formed cluster with all pods ready. *)
Lemma ens_status rc w :
  copy_of rc w → sized (stored w) → formed w = true → phase rc = PhaseReady ∨ phase rc = PhaseInitializing →
  ens (updateClusterStatus true rc) w (λ r w',
    r = Ok tt ∧ formed w' = true ∧ phase (stored w') = PhaseReady ∧
    cluster_Spec (stored w') = cluster_Spec (stored w) ∧
    same_meta (cluster_meta (stored w')) (cluster_meta (stored w))).
Proof.
  intros Hc Hs Hf Hp. destruct (copy_sizes _ _ Hc) as (Hm & Ht & Hr & Hn). pose proof Hs as (_ & Hw & _).
  unfold updateClusterStatus, clusterView. cbn [negb].
  apply ensures_bind. intros r1 w1 [-> (p1 & -> & Hp1 & _)]. cbn [ensures].
  apply ensures_bind. intros r2 w2 [-> (p2 & -> & _ & Hp2)]. cbn [ensures].
  rewrite Hn in Hp1, Hp2. specialize (Hp1 eq_refl). specialize (Hp2 eq_refl).
  apply ensures_bind, ensures_bind. intros r3 w3 [-> (s & -> & Hrep)]. unfold reports in Hrep. rewrite Hf in Hrep.
  destruct Hrep as (_ & Hok & _). cbn [ensures mret prog_ret].
  apply ensures_bind. intros t w4 ->. cbn [ensures].
  apply ensures_bind, ens_inert; [by repeat (split; [exact I|intros ?])|]. intros ?.
  apply ensures_bind. intros r5 w5 (-> & Hf5 & Hm5 & Hs5 & Hst5). cbn [ensures].
  split_and!; [done|by rewrite Hf5| |done|done].
  unfold phase. rewrite Hst5. cbn [clusterStatusFor cluster_with_status cluster_Status cst_Phase items].
  unfold podsReady. rewrite Hp1, Hp2, wrap32_total, Hw, Hm, Ht, Hr, Z.leb_refl, Hok.
  cbn [andb]. replace (if 0 <? _ then _ else true) with true by (case_bool; [by rewrite Z.leb_refl|done]).
  by apply nextPhase_ready.
Qed.

(** ** Objects *)

(** A program that succeeds and leaves the world alone. *)
Definition succeeds (p : prog KubeSig (result unit)) : Prop :=
  ∀ w (Q : result unit → world → Prop), Q (Ok tt) w → ens p w Q.

Lemma succeeds_apply k key mutate : succeeds (kcall (CreateOrUpdate k key mutate)).
Proof. intros w Q HQ. simpl. by intros r w' [-> ->]. Qed.

Lemma succeeds_bind p (f : unit → prog KubeSig (result unit)) :
  succeeds p → succeeds (f tt) → succeeds (bind_ok id f p).
Proof. intros Hp Hf w Q HQ. apply ensures_bind, Hp. by apply Hf. Qed.

Lemma succeeds_for_each {A} (l : list A) f : (∀ x, succeeds (f x)) → succeeds (for_each l f).
Proof. intros Hf. induction l as [|x l IH]; [by intros w Q HQ|]. by apply succeeds_bind. Qed.

Lemma succeeds_objects rc hash : succeeds (reconcileClusterObjects rc hash).
Proof.
  unfold reconcileClusterObjects. apply succeeds_bind; [apply succeeds_apply|].
  apply succeeds_bind; [case_bool; [apply succeeds_apply|by intros w Q HQ]|].
  apply succeeds_bind; apply succeeds_for_each; intros x; apply succeeds_apply.
Qed.

(** ** One reconciliation *)

(** The outcome of a reconciliation that is to be repeated. *)
Definition repeats (o : outcome_of) : Prop :=
  o.2 = None ∧ (res_Requeue o.1 = true ∨ 0 < res_RequeueAfter o.1).

(** The states after each stage: the resource is new; it has the finalizer;
    the cluster serves. *)
Definition alive (w : world) : Prop :=
  sized (stored w) ∧ om_DeletionTimestamp (cluster_meta (stored w)) = None.
Definition guarded (w : world) : Prop :=
  alive w ∧ ContainsFinalizer (om_Finalizers (cluster_meta (stored w))) FinalizerName = true.
Definition serving_world (w : world) : Prop :=
  guarded w ∧ formed w = true ∧ phase (stored w) = PhaseReady.

Lemma guarded_same w w' :
  guarded w → cluster_Spec (stored w') = cluster_Spec (stored w) →
  same_meta (cluster_meta (stored w')) (cluster_meta (stored w)) → guarded w'.
Proof.
  intros [[Hs Hd] Hf] Hsp (H1 & H2 & H3 & H4).
  unfold guarded, alive, sized, masters, totalReplicas, masters, replicasPerMaster in *.
  by rewrite Hsp, H3, H4.
Qed.

Lemma ens_finish rc w hash :
  copy_of rc w → guarded w →
  phase rc = PhaseReady ∨ phase rc = PhaseInitializing →
  phase (stored w) = PhaseReady ∨ phase (stored w) = PhaseInitializing →
  ens (finishCluster true true rc hash) w (λ o w', repeats o ∧ serving_world w').
Proof.
  intros Hc Hg Hp Hps. pose proof Hg as [[Hs _] _]. unfold finishCluster.
  apply ensures_bind. eapply ensures_mono.
  { apply ens_lifecycle; [done|done|]. by destruct Hp as [-> | ->]. }
  intros [rc1 [res err]] w1 [-> Hl].
  assert (copy_of rc1 (World _ (stored w) true) ∧ (phase rc1 = PhaseReady ∨ phase rc1 = PhaseInitializing) ∧ err = None)
    as (Hc1 & Hp1 & ->).
  { destruct (formed w); injection Hl as -> -> ->; (split; [exact Hc|]); (split; [|done]); [done|by left]. }
  apply ensures_bind. eapply ensures_mono; [by apply ens_failover|].
  intros rc2 w2 (Hf2 & Hc2 & Hs2 & Hm2 & Hst2 & Hp2). cbn [formed stored] in *.
  assert (Hg2 : guarded w2) by by apply (guarded_same w).
  apply ensures_bind, ens_inert; [apply inert_reload|]. intros _. apply ensures_bind.
  eapply ensures_mono.
  { apply ens_status; [done|apply Hg2|done|]. destruct Hp2 as [-> | ->]; [exact Hp1|exact Hps]. }
  intros r w3 (-> & Hf3 & Hp3 & Hs3 & Hm3).
  assert (serving_world w3) by (split; [by apply (guarded_same w2)|done]).
  destruct (bool_decide _ || _ || (0 <? _)) eqn:E; (split; [|done]); (split; [done|]); [|by right].
  apply orb_true_iff in E as [[E|E]%orb_true_iff|E]; [done|by left|right; simpl; blia].
Qed.

Lemma ens_reconcile rc w :
  copy_of rc w → guarded w →
  phase rc = PhaseReady ∨ phase rc = PhaseInitializing →
  phase (stored w) = PhaseReady ∨ phase (stored w) = PhaseInitializing →
  ens (reconcileCluster true true rc) w (λ o w', repeats o ∧ serving_world w').
Proof.
  intros Hc Hg Hp Hps. unfold reconcileCluster, reconcileClusterConfigMap.
  apply ensures_bind, ensures_bind. intros r w' [-> ->]. cbn [ensures mret prog_ret].
  apply ensures_bind, succeeds_objects, ensures_bind. unfold tryServiceMonitor.
  destruct (c_EnableExporter _) as [[]|]; [|by apply ens_finish..].
  apply ensures_bind. intros r2 w2 [-> ->]. by apply ens_finish.
Qed.

(** The three stages of [doReconcile]. *)
Lemma ens_first req w :
  alive w → phase (stored w) = "" → ContainsFinalizer (om_Finalizers (cluster_meta (stored w))) FinalizerName = false →
  ens (doReconcileCluster true true req) w (λ o w',
    repeats o ∧ guarded w' ∧ phase (stored w') = "").
Proof.
  intros [Hs Hd] Hp Hf. unfold doReconcileCluster. apply ensures_bind. intros r w' [-> ->]. cbn [ensures].
  rewrite Hd. cbn. rewrite Hf. cbn [negb].
  intros r2 w2 (-> & Hfo & (H1 & H2 & H3 & H4) & Hsp & Hst). cbn in *. split; [by split; [|left]|].
  split.
  - unfold guarded, alive, sized, masters, totalReplicas, masters, replicasPerMaster.
    rewrite Hsp, H3, H4, Hd. split; [done|]. apply add_contains.
  - unfold phase. by rewrite Hst.
Qed.

Lemma ens_second req w :
  guarded w → phase (stored w) = "" →
  ens (doReconcileCluster true true req) w (λ o w', repeats o ∧ serving_world w').
Proof.
  intros Hg Hp. pose proof Hg as [[Hs Hd] Hf]. unfold doReconcileCluster.
  apply ensures_bind. intros r w' [-> ->]. cbn [ensures]. rewrite Hd. cbn. rewrite Hf, Hp. cbn.
  intros r2 w2 (-> & Hfo & Hm & Hsp & Hst).
  assert (phase (stored w2) = PhaseInitializing) as Hp2 by (unfold phase; by rewrite Hst).
  apply ens_reconcile; [done|by apply (guarded_same w)|by right|by right].
Qed.

Lemma ens_later req w :
  serving_world w → ens (doReconcileCluster true true req) w (λ o w', repeats o ∧ serving_world w').
Proof.
  intros (Hg & Hfo & Hp). pose proof Hg as [[Hs Hd] Hf]. unfold doReconcileCluster.
  apply ensures_bind. intros r w' [-> ->]. cbn [ensures]. rewrite Hd. cbn. rewrite Hf, Hp. cbn.
  apply ens_reconcile; [done|done|by left|by left].
Qed.

(** [Reconcile] around [doReconcile]. *)
Lemma ens_Reconcile req w (Q : outcome_of → world → Prop) :
  ens (doReconcileCluster true true req) w Q → ens (ReconcileCluster true true req) w Q.
Proof.
  intros H. unfold ReconcileCluster, reconcileWith. apply ensures_bind. intros t w' ->. cbn [ensures].
  apply ensures_bind. eapply ensures_mono; [exact H|]. intros o w' HQ.
  apply ensures_bind, ens_inert; [|by intros ?].
  unfold RecordReconcile. destruct (o.2); by repeat (split; [exact I|intros ?]).
Qed.

(** ** Many reconciliations *)

(** Reconciliations of one request, one after the other, with their outcomes. *)
Inductive rounds (req : ObjectKey) : list (outcome outcome_of) → world → world → Prop :=
| rounds_none w : rounds req [] w w
| rounds_more t out outs w w1 w2 :
    exec (ReconcileCluster true true req) t out → allowed_trace (S := KubeSig) agrees w t w1 →
    rounds req outs w1 w2 → rounds req (out :: outs) w w2.

(** A reconciliation without panic or error that asks to be repeated. *)
Definition fine (out : outcome outcome_of) : Prop := ∃ o, out = Done o ∧ repeats o.

Lemma round_stage req (P : world → Prop) t out w w1 :
  ens (doReconcileCluster true true req) w (λ o w', repeats o ∧ P w') →
  exec (ReconcileCluster true true req) t out → allowed_trace (S := KubeSig) agrees w t w1 → fine out ∧ P w1.
Proof.
  intros He H Ht. destruct (ensures_exec (S := KubeSig) agrees _ _ _ _ _ _ (ens_Reconcile _ _ _ He) H Ht)
    as (o & -> & Ho & HP). split; [by exists o|done].
Qed.

Lemma serving_rounds req outs w w' :
  serving_world w → rounds req outs w w' → Forall fine outs ∧ serving_world w'.
Proof.
  intros Hw H. induction H as [w|t out outs w w1 w2 H Ht _ IH]; [by split|].
  destruct (round_stage req serving_world _ _ _ _ (ens_later req w Hw) H Ht) as [H1 H2].
  destruct (IH H2) as [H3 H4]. split; [by constructor|done].
Qed.

Lemma guarded_rounds req outs w w' :
  guarded w → phase (stored w) = "" → rounds req outs w w' →
  Forall fine outs ∧ (outs ≠ [] → serving_world w').
Proof.
  intros Hw Hp H. destruct H as [w|t out outs w w1 w2 H Ht Hr]; [by split|].
  destruct (round_stage req serving_world _ _ _ _ (ens_second req w Hw Hp) H Ht) as [H1 H2].
  destruct (serving_rounds _ _ _ _ H2 Hr) as [H3 H4]. split; [by constructor|done].
Qed.

(** C2: A new cluster becomes ready and stays ready.  In every environment
    that cooperates (the API server stores what it is sent, the pods become
    ready, the manager can form the cluster; whatever else it answers, errors
    of single Redis commands included), every sequence of reconciliations of
    a new RedisCluster of an admissible size runs without panic or error,
    each asks to be repeated, and from the second on the cluster has been
    formed and the stored resource is in the phase Ready. *)
Theorem cluster_becomes_ready req outs w w' :
  alive w → phase (stored w) = "" → rounds req outs w w' →
  Forall fine outs ∧
  ((2 ≤ length outs)%nat → formed w' = true ∧ phase (stored w') = PhaseReady).
Proof.
  intros Hw Hp H.
  destruct (ContainsFinalizer (om_Finalizers (cluster_meta (stored w))) FinalizerName) eqn:Hf.
  - destruct (guarded_rounds _ _ _ _ (conj Hw Hf) Hp H) as [H1 H2]. split; [done|].
    intros Hn. apply H2. by intros ->; simpl in Hn; lia.
  - destruct H as [w|t out outs w w1 w2 H Ht Hr]; [split; [constructor|simpl; lia]|].
    destruct (round_stage req (λ w', guarded w' ∧ phase (stored w') = "") _ _ _ _ (ens_first req w Hw Hp Hf) H Ht)
      as [H1 [H2 H3]].
    destruct (guarded_rounds _ _ _ _ H2 H3 Hr) as [H4 H5]. split; [by constructor|].
    intros Hn. apply H5. by intros ->; simpl in Hn; lia.
Qed.

End progress.

(** ** A concrete environment *)

#[local] Existing Instance plain_types.
#[local] Existing Instance plain_lib.
#[local] Existing Instance plain_laws.

Definition with_parts (m : ObjectMeta) (spec : RedisClusterSpec) (status : RedisClusterStatus) : RedisCluster :=
  {| cluster_meta := m; cluster_Spec := spec; cluster_Status := status |}.

Definition some_pods (n : Z) : list Pod := replicate (Z.to_nat n) (ready_pod "rc-0" "10.0.0.1" "master").

(** The server and the cluster, as [agrees] wants them. *)
Definition cooperative : handler KubeSig world := λ o w,
  let old := stored w in
  let store rc := (Ok rc, World _ rc (formed w)) in
  match o return kube_ans o * world with
  | Get k _ => match k return result (custom_type k) * world with
               | CCluster => (Ok old, w)
               | _ => (Fail (ApiStatus "NotFound" ""), w)
               end
  | Update k obj => match k return custom_type k → result (custom_type k) * world with
                    | CCluster => λ obj, store (with_parts (cluster_meta obj) (cluster_Spec obj) (cluster_Status old))
                    | _ => λ obj, (Ok obj, w)
                    end obj
  | StatusUpdate k obj => match k return custom_type k → result (custom_type k) * world with
                          | CCluster => λ obj, store (with_parts (cluster_meta old) (cluster_Spec old) (cluster_Status obj))
                          | _ => λ obj, (Ok obj, w)
                          end obj
  | PatchCluster _ after => store (with_parts (cluster_meta after) (cluster_Spec old) (cluster_Status old))
  | ListPods _ labels =>
      (Ok (some_pods (if decide (labels = PodLabels (cluster_name old) ComponentMaster) then masters old
                      else totalReplicas old)), w)
  | ManagerCall m =>
      match m return ClusterManager.reply m * world with
      | ClusterManager.GetClusterState _ =>
          (Ok (if formed w then cluster_of_size (masters old)
               else {| cs_State := "fail"; cs_SlotsAssigned := 0; cs_SlotsOK := 0; cs_SlotsPFail := 0;
                       cs_SlotsFail := 0; cs_KnownNodes := 1; cs_Size := 0; cs_Nodes := [] |}), w)
      | ClusterManager.FormCluster _ _ _ => (Ok tt, World _ old true)
      | ClusterManager.VerifySlotCoverage _ => (Ok true, w)
      | _ => (Ok tt, w)
      end
  | o' => (fst (apiserver o' (serving old (Ok (cluster_of_size 3)))), w)
  end.

(** It cooperates on every cluster of these sizes. *)
Definition small (w : world) : bool := (masters (stored w) =? 3) && (totalReplicas (stored w) =? 3).

Lemma labels_differ name : PodLabels name ComponentReplica ≠ PodLabels name ComponentMaster.
Proof. intros H. apply (f_equal (lookup labelComponent)) in H. vm_compute in H. discriminate H. Qed.

Lemma cooperative_agrees o w : small w = true → agrees w o (fst (cooperative o w)) (snd (cooperative o w)).
Proof.
  intros [Hm Ht]%andb_true_iff. apply Z.eqb_eq in Hm, Ht.
  destruct o; try destruct k; try destruct m; try (by split); simpl.
  - split; [done|]. eexists. split; [done|]. split.
    + intros ->. rewrite decide_True by done. by rewrite Hm.
    + intros ->. rewrite decide_False by apply labels_differ. by rewrite Ht.
  - split; [done|]. eexists. split; [done|]. unfold reports.
    destruct (formed w); [|done]. split_and!; [done|done|]. rewrite Hm. reflexivity.
Qed.

(** A new cluster of three masters with a replica each, and its first two
    reconciliations. *)
Definition new_world : world := World _ (sample_cluster 3 1 None "") false.
Definition request_rc : ObjectKey := {| key_Namespace := "default"; key_Name := "rc" |}.
Definition round1 := run cooperative (ReconcileCluster true true request_rc) new_world.
Definition round2 := run cooperative (ReconcileCluster true true request_rc) (world_of round1).

Lemma cluster_becomes_ready_witness :
  rounds request_rc [result_of round1; result_of round2] new_world (world_of round2) ∧
  formed (world_of round2) = true ∧ phase (stored (world_of round2)) = PhaseReady.
Proof.
  assert (rounds request_rc [result_of round1; result_of round2] new_world (world_of round2)) as Hr.
  { eapply rounds_more; [exact (run_exec cooperative (ReconcileCluster true true request_rc) new_world)| |].
    { apply (run_allowed (S := KubeSig) agrees small cooperative _ new_world cooperative_agrees). vm_compute. reflexivity. }
    eapply rounds_more; [exact (run_exec cooperative (ReconcileCluster true true request_rc) (world_of round1))| |constructor].
    apply (run_allowed (S := KubeSig) agrees small cooperative _ (world_of round1) cooperative_agrees). vm_compute. reflexivity. }
  split; [exact Hr|].
  destruct (cluster_becomes_ready request_rc [result_of round1; result_of round2] new_world (world_of round2)) as [_ H].
  - vm_compute. repeat split; discriminate.
  - reflexivity.
  - exact Hr.
  - apply H. simpl. lia.
Defined.
