(* ===== verification/Rollout.v ===== *)
(** * Roles and configuration changes (theorems on the reconcilers)

    The role labels of a Sentinel setup, the parameters that are changed on a
    running instance, and the failovers before a restart. *)

From S2P Require Import Prelude Go Effects Client Sys Cluster Api Webhook Resources Config Workloads Sha256 Kube ApiServer RedisCtrl SentinelCtrl ClusterCtrl.

Local Open Scope Z_scope.

Section rollout.
Context {K : KubeTypes} {L : KubeLib}.

(** ** Observations *)

(** CONFIG SET: address, parameter and value. *)
Definition config_sets (t : list (Effects.event KubeSig)) : list (string * string * string) :=
  observe (λ e : Effects.event KubeSig,
    match ev_op e : kube_op with RedisCall (RedisClient.ConfigSet a k v) => Some (a, k, v) | _ => None end) t.

(** CLUSTER FAILOVER, by address. *)
Definition failovers (t : list (Effects.event KubeSig)) : list string :=
  observe (λ e : Effects.event KubeSig,
    match ev_op e : kube_op with RedisCall (RedisClient.ClusterFailover a) => Some a | _ => None end) t.

(** The cluster states that were read. *)
Definition states (t : list (Effects.event KubeSig)) : list ClusterState :=
  observe (λ e : Effects.event KubeSig,
    match e with
    | Ev o r => match o return kube_ans o → option ClusterState with
                | ManagerCall (ClusterManager.GetClusterState _) =>
                    λ r, match r with Ok s => Some s | Fail _ => None end
                | _ => λ _, None
                end r
    end) t.

(** ** Role labels *)

Definition role_of (p : Pod) : string := default "" (om_Labels (pod_meta p) !! RoleLabelKey).

Definition relabelled (master : string) (p : Pod) : Pod := pod_with_role (desiredRole master p) p.

(** The patches that bring the labels of some pods up to date. *)
Definition label_patches (master : string) (pods : list Pod) : list (Pod * Pod) :=
  (λ p, (p, relabelled master p)) <$> filter (λ p, role_of p ≠ desiredRole master p) pods.

(** The calls of a trace, without their answers. *)
Definition calls (t : list (Effects.event KubeSig)) : list kube_op := (λ e : Effects.event KubeSig, ev_op e : kube_op) <$> t.

Lemma calls_app t1 t2 : calls (t1 ++ t2) = calls t1 ++ calls t2.
Proof. apply fmap_app. Qed.

Lemma role_relabelled master p : role_of (relabelled master p) = desiredRole master p.
Proof. unfold role_of, relabelled. simpl. by rewrite lookup_insert_eq. Qed.

(** The pods after the patches. *)
Definition labelled (master : string) (p : Pod) : Pod :=
  if String.eqb (role_of p) (desiredRole master p) then p else relabelled master p.

Lemma role_labelled master p : role_of (labelled master p) = desiredRole master p.
Proof.
  unfold labelled. destruct (String.eqb_spec (role_of p) (desiredRole master p)); [done|]. apply role_relabelled.
Qed.

Lemma exec_labelPods master pods t out :
  exec (do_each pods (labelPod master)) t out →
  out = Done tt ∧ calls t = (λ pq : Pod * Pod, PatchPod pq.1 pq.2) <$> label_patches master pods.
Proof.
  revert t. induction pods as [|p pods IH]; intros t H; [by destruct H as [-> ->]|].
  apply exec_do_each_cons in H as [(t1 & t2 & -> & H1 & H2)|(h & -> & H1)];
    unfold labelPod in H1; fold (role_of p) in H1; unfold label_patches;
    destruct (String.eqb_spec (role_of p) (desiredRole master p)) as [E|E].
  - destruct H1 as [-> _]. rewrite filter_cons_False by (intros Hn; by destruct Hn). by apply IH.
  - rewrite filter_cons_True by done. exec_step H1. exec_simpl H1. destruct H1 as [-> _].
    destruct (IH _ H2) as (-> & HP). unfold label_patches in HP. by rewrite !fmap_cons, <- HP.
  - by destruct H1.
  - exec_step H1. by destruct H1.
Qed.

(** The name of the first pod with an IP. *)
Definition pod_at (ip : string) (pods : list Pod) : option string :=
  (λ p, om_Name (pod_meta p)) <$> head (filter (λ p, pod_PodIP p = ip) pods).

Lemma podWithIP_spec ip pods otherwise : podWithIP ip pods otherwise = default otherwise (pod_at ip pods).
Proof.
  unfold pod_at. induction pods as [|p pods IH]; [done|]. simpl.
  destruct (String.eqb_spec (pod_PodIP p) ip) as [E|E].
  - by rewrite filter_cons_True.
  - by rewrite filter_cons_False, IH.
Qed.

(** The requests by which the code asks Sentinel for the master, and lists the
    Redis pods of the setup. *)
Definition ask_master (rs : RedisSentinel) : kube_op :=
  RedisCall (RedisClient.SentinelGetMasterAddr (sentinelAddr rs) sentinelMasterName).

Definition list_pods (rs : RedisSentinel) : kube_op :=
  ListPods (om_Namespace (sentinel_meta rs)) (PodLabels (om_Name (sentinel_meta rs)) ComponentRedis).

(** How the master is found.  Without a client nobody is asked, and it is pod
    0; it is also pod 0 when Sentinel does not answer with a host.  When it
    does, the pods are listed, and the master is the first pod with that IP;
    pod 0 if there is none or the list fails. *)
Inductive finds_master (hasClient : bool) (rs : RedisSentinel) : list (Effects.event KubeSig) → string → Prop :=
| no_client :
    hasClient = false → finds_master hasClient rs [] (om_Name (sentinel_meta rs) +:+ "-0")
| unnamed (a : result (string * Z)) :
    hasClient = true → match a with Ok (host, _) => host = "" | Fail _ => True end →
    finds_master hasClient rs [Ev (S := KubeSig) (ask_master rs) a] (om_Name (sentinel_meta rs) +:+ "-0")
| named (host : string) (port : Z) (l : result (list Pod)) :
    hasClient = true → host ≠ "" →
    finds_master hasClient rs
      [Ev (S := KubeSig) (ask_master rs) (Ok (host, port)); Ev (S := KubeSig) (list_pods rs) l]
      (default (om_Name (sentinel_meta rs) +:+ "-0") (match l with Ok pods => pod_at host pods | Fail _ => None end)).

Lemma exec_findMasterPod hasClient rs t out :
  exec (findMasterPod hasClient rs) t out → ∃ master, out = Done master ∧ finds_master hasClient rs t master.
Proof.
  unfold findMasterPod. intros H. destruct hasClient; cbn [negb] in H.
  2: { destruct H as [-> ->]. eexists. split; [done|]. by constructor. }
  exec_step_ok H; exec_simpl H.
  2: { destruct H as [-> ->]. eexists. split; [done|]. by apply (unnamed true rs (Fail r)). }
  destruct r as [host port]. destruct (String.eqb_spec host "") as [E|E].
  { destruct H as [-> ->]. eexists. split; [done|]. by apply (unnamed true rs (Ok (host, port))). }
  exec_step_ok H; exec_simpl H; destruct H as [-> ->]; eexists; (split; [done|]).
  - rewrite podWithIP_spec. by apply (named true rs host port (Ok r)).
  - by apply (named true rs host port (Fail r)).
Qed.

(** Among distinctly named pods at most one has a given name. *)
Lemma one_by_name (P : Pod → Prop) `{!∀ p, Decision (P p)} name (pods : list Pod) :
  (∀ p, P p ↔ om_Name (pod_meta p) = name) → NoDup (om_Name ∘ pod_meta <$> pods) →
  (length (filter P pods) ≤ 1)%nat.
Proof.
  intros HP. induction pods as [|p pods IH]; [simpl; lia|]. rewrite fmap_cons.
  intros [Hp Hnd]%NoDup_cons. rewrite filter_cons. case_decide as E; [|by apply IH]. apply HP in E.
  enough (filter P pods = []) as -> by done. destruct (filter P pods) as [|q qs] eqn:Eq; [done|].
  assert (q ∈ filter P pods) as [Hq Hin]%list_elem_of_filter by (rewrite Eq; by left).
  destruct Hp. apply list_elem_of_fmap. exists q. apply HP in Hq. simpl in *. split; [congruence|done].
Qed.

(** C22: The role labels route clients to one master, the pod Sentinel names.
    Every pass, whatever is answered, first finds the master as [finds_master]
    says: with a client, Sentinel is asked, and when it names a host, the first
    pod with that IP is the master; pod 0 is only the fallback.  Then the pods
    are listed.  If that fails nothing else is done.  Otherwise exactly the
    pods whose label differs from their role are patched, once each and in
    order, whether or not earlier patches succeed, and nothing else is called;
    a patch changes nothing but that label; afterwards a pod is labelled master
    exactly if it is the master and replica otherwise, so that at most one pod
    of distinctly named pods is labelled master; and the status names the
    master. *)
Theorem role_labels_single_master hasClient rs t out :
  exec (reconcileRoleLabels hasClient rs) t out →
  ∃ asked master listed patched,
    t = asked ++ Ev (S := KubeSig) (list_pods rs) listed :: patched ∧
    finds_master hasClient rs asked master ∧
    match listed with
    | Fail _ => patched = [] ∧ out = Done rs
    | Ok pods =>
        out = Done (sentinel_master master rs) ∧
        calls patched = (λ pq : Pod * Pod, PatchPod pq.1 pq.2) <$> label_patches master pods ∧
        (∀ p, role_of (labelled master p) = if decide (om_Name (pod_meta p) = master) then RoleMaster else RoleReplica) ∧
        (∀ p k, k ≠ RoleLabelKey → om_Labels (pod_meta (labelled master p)) !! k = om_Labels (pod_meta p) !! k) ∧
        (NoDup (om_Name ∘ pod_meta <$> pods) →
         (length (filter (λ p, role_of (labelled master p) = RoleMaster) pods) ≤ 1)%nat)
    end.
Proof.
  intros H. unfold reconcileRoleLabels in H.
  apply exec_bind in H as [(t1 & master & t2 & -> & H1 & H)|(h & -> & H1)];
    apply exec_findMasterPod in H1 as (m & [= <-] & Hm).
  exists t1, master. exec_step_ok H; exec_simpl H.
  2: { destruct H as [-> ->]. by exists (Fail r), []. }
  exists (Ok r), t. split; [done|]. split; [exact Hm|].
  apply exec_bind in H as [(t3 & [] & t4 & -> & H2 & H)|(h & -> & H2)];
    apply exec_labelPods in H2 as (Ho & Hp); [|done].
  destruct H as [-> ->]. rewrite app_nil_r.
  assert (∀ p, role_of (labelled master p) = if decide (om_Name (pod_meta p) = master) then RoleMaster else RoleReplica)
    as Hrole.
  { intros p. rewrite role_labelled. unfold desiredRole.
    destruct (String.eqb_spec (om_Name (pod_meta p)) master); by case_decide. }
  split_and!; [done|done|exact Hrole| |].
  - intros p k Hk. unfold labelled. case_bool; [done|]. simpl. by rewrite lookup_insert_ne.
  - intros Hnd. apply (one_by_name _ master); [|done]. intros p. rewrite Hrole. by case_decide.
Qed.

(** ** Hot reload *)

(** The hot-reloadable parameters of a configuration, for an address. *)
Definition hot_params (addr : string) (config : gmap string string) : list (string * string * string) :=
  (λ kv : string * string, (addr, kv.1, kv.2)) <$> filter (λ kv, hotReloadable kv.1 = true) (map_to_list config).

Lemma hot_params_from (config : gmap string string) (addr : string) l :
  Forall (λ kv : string * string, config !! kv.1 = Some kv.2) l →
  (λ k, (addr, k, default "" (config !! k))) <$> filter (λ k, hotReloadable k = true) l.*1
  = (λ kv : string * string, (addr, kv.1, kv.2)) <$> filter (λ kv, hotReloadable kv.1 = true) l.
Proof.
  induction 1 as [|[k v] l Hkv _ IH]; [done|]. rewrite fmap_cons. cbn [fst snd] in *.
  destruct (decide (hotReloadable k = true)).
  - rewrite !filter_cons_True by done. rewrite !fmap_cons, IH. cbn. by rewrite Hkv.
  - by rewrite !filter_cons_False by done.
Qed.

Lemma exec_pushConfig addr config t out :
  exec (pushConfig addr config) t out → out = Done tt ∧ config_sets t ≡ₚ hot_params addr config.
Proof.
  intros H. exec_step H. exec_simpl H.
  assert (out = Done tt ∧ config_sets t0 =
    (λ k, (addr, k, default "" (config !! k))) <$> filter (λ k, hotReloadable k = true) (`r)) as [-> Hs].
  { revert H. generalize (`r). intros ks. revert t0. induction ks as [|k ks IH]; intros t H; [by destruct H as [-> ->]|].
    apply exec_do_each_cons in H as [(t1 & t2 & -> & H1 & H2)|(h & -> & H1)]; destruct (hotReloadable k) eqn:E.
    - exec_step H1. exec_simpl H1. destruct H1 as [-> _]. destruct (IH _ H2) as [-> IH'].
      rewrite filter_cons_True by done. rewrite fmap_cons, <- IH'. done.
    - destruct H1 as [-> _]. rewrite filter_cons_False by (by rewrite E). by apply IH.
    - exec_step H1. by destruct H1.
    - by destruct H1. }
  split; [done|]. change (config_sets t0 ≡ₚ hot_params addr config). rewrite Hs, (proj2_sig r).
  unfold hot_params, keys. rewrite hot_params_from; [done|].
  apply Forall_forall. intros [k v]. apply elem_of_map_to_list.
Qed.

Lemma exec_push_all rc (config : gmap string string) idxs t out :
  exec (do_each idxs (λ i, pushConfig (clusterMasterAddr rc i) config)) t out →
  out = Done tt ∧ config_sets t ≡ₚ concat ((λ i, hot_params (clusterMasterAddr rc i) config) <$> idxs).
Proof.
  revert t. induction idxs as [|i idxs IH]; intros t H; [by destruct H as [-> ->]|].
  apply exec_do_each_cons in H as [(t1 & t2 & -> & H1 & H2)|(h & -> & H1)].
  - apply exec_pushConfig in H1 as [_ H1]. destruct (IH _ H2) as [-> IH']. split; [done|].
    unfold config_sets in *. rewrite observe_app, fmap_cons. cbn [concat]. by rewrite H1, IH'.
  - by apply exec_pushConfig in H1 as [[=] _].
Qed.

(** C34: Only parameters that Redis can change at run time are pushed to a
    running instance.  With a client and a configuration, the CONFIG SET
    calls of a reconciliation are, in some order, exactly one per
    hot-reloadable parameter of the configuration and address, with the
    configured value: the Service of a standalone instance (nothing when its
    Secret cannot be read), every master - but no replica - of a cluster.
    The loop always runs to its end, whatever the calls answer. *)
Theorem hot_reload_parameters :
  (∀ r config t out, r_RedisConfig (redis_Spec r) = Some config → exec (tryHotReload true r) t out →
     out = Done tt ∧ (config_sets t ≡ₚ hot_params (redisAddr r) config ∨
                      (is_Some (r_Auth (redis_Spec r)) ∧ config_sets t = []))) ∧
  (∀ rc config t out, c_RedisConfig (cluster_Spec rc) = Some config → exec (tryClusterHotReload true rc) t out →
     out = Done tt ∧
     config_sets t ≡ₚ concat ((λ i, hot_params (clusterMasterAddr rc i) config) <$> seqZ 0 (masters rc))) ∧
  (∀ addr config a k v, (a, k, v) ∈ hot_params addr config ↔ a = addr ∧ hotReloadable k = true ∧ config !! k = Some v).
Proof.
  split_and!.
  - intros r config t out Hc H. unfold tryHotReload in H. rewrite Hc in H. cbv iota in H.
    destruct (r_Auth (redis_Spec r)) as [auth|] eqn:Ha.
    + exec_step_ok H; exec_simpl H.
      * apply exec_pushConfig in H as [-> H]. split; [done|]. by left.
      * destruct H as [-> ->]. split; [done|]. right. eauto.
    + apply exec_pushConfig in H as [-> H]. split; [done|]. by left.
  - intros rc config t out Hc H. unfold tryClusterHotReload in H. rewrite Hc in H. cbv iota in H. by apply exec_push_all.
  - intros addr config a k v. unfold hot_params. rewrite list_elem_of_fmap. split.
    + intros ([k' v'] & [= -> -> ->] & [Hh Hin]%list_elem_of_filter). apply elem_of_map_to_list in Hin. done.
    + intros (-> & Hh & Hl). exists (k, v). split; [done|]. apply list_elem_of_filter. split; [done|].
      by apply elem_of_map_to_list.
Qed.

(** ** Failover before a restart *)

Lemma masterIDSet_elem nodes id :
  id ∈ keys (masterIDSet nodes) ↔ ∃ n, n ∈ nodes ∧ nodeIsMaster n = true ∧ cn_NodeID n = id.
Proof.
  rewrite keys_elem. unfold masterIDSet.
  enough (∀ m : gmap string bool, is_Some (fold_left (λ m n, if nodeIsMaster n then <[cn_NodeID n := true]> m else m) nodes m !! id)
          ↔ is_Some (m !! id) ∨ ∃ n, n ∈ nodes ∧ nodeIsMaster n = true ∧ cn_NodeID n = id) as Hg.
  { rewrite Hg, lookup_empty. split; [intros [[? [=]]|?]; done|by right]. }
  induction nodes as [|n nodes IH]; intros m; simpl.
  - split; [by left|]. intros [?|(n & Hn & _)]; [done|]. by apply not_elem_of_nil in Hn.
  - rewrite IH. destruct (nodeIsMaster n) eqn:E.
    + rewrite lookup_insert_is_Some. setoid_rewrite elem_of_cons. split.
      * intros [[<-|[_ H]]|(n' & ? & H)]; [right; exists n; eauto|by left|right; exists n'; eauto].
      * intros [H|(n' & [->|Hn] & Hm & Hi)]; [|by left; left|by right; eauto].
        left. destruct (decide (cn_NodeID n = id)); [by left|by right].
    + setoid_rewrite elem_of_cons. split.
      * intros [H|(n' & ? & H)]; [by left|right; exists n'; eauto].
      * intros [H|(n' & [->|Hn] & Hm & Hi)]; [by left|congruence|right; eauto].
Qed.

Lemma firstReplica_spec nodes id n :
  firstReplica nodes id = Some n → n ∈ nodes ∧ cn_MasterID n = id ∧ nodeIsMaster n = false.
Proof.
  unfold firstReplica. intros H%head_Some_elem_of. apply list_elem_of_filter in H as [H Hn].
  apply andb_true_iff in H as [H1%String.eqb_eq H2%negb_true_iff]. done.
Qed.

(** The replicas that are asked to take over. *)
Definition successors (nodes : list ClusterNode) (ids : list string) : list string :=
  omap (λ id, cn_Addr <$> firstReplica nodes id) ids.

Lemma exec_failoverAll nodes t out :
  exec (failoverAll nodes) t out →
  ∃ ids, ids ≡ₚ keys (masterIDSet nodes) ∧ failovers t = successors nodes ids ∧ states t = [].
Proof.
  intros H. exec_step H. exec_simpl H. exists (`r). split; [exact (proj2_sig r)|].
  assert (∀ ids t0, exec (do_each ids (λ masterID, match firstReplica nodes masterID with
      | Some n => _ ← kcall (RedisCall (RedisClient.ClusterFailover (cn_Addr n))); mret tt
      | None => mret tt end)) t0 out → failovers t0 = successors nodes ids ∧ states t0 = []) as Hloop.
  { clear. intros ids. induction ids as [|id ids IH]; intros t H; [by destruct H as [-> ->]|]. unfold successors.
    rewrite omap_cons_eq. apply exec_do_each_cons in H as [(t1 & t2 & -> & H1 & H2)|(h & -> & H1)];
      destruct (firstReplica nodes id) as [n|]; cbn [fmap option_fmap option_map].
    - exec_step H1. exec_simpl H1. destruct H1 as [-> _]. destruct (IH _ H2) as [IH1 IH2].
      unfold successors in IH1. rewrite <- IH1. done.
    - destruct H1 as [-> _]. by apply IH.
    - exec_step H1. by destruct H1.
    - by destruct H1. }
  exact (Hloop _ _ H).
Qed.

Lemma recordLastConfigHash_quiet rc hash t out :
  exec (recordLastConfigHash rc hash) t out → failovers t = [] ∧ states t = [].
Proof.
  unfold recordLastConfigHash. case_bool; [by intros [-> _]|]. intros H. exec_step H. exec_simpl H. by destruct H as [-> _].
Qed.

(** C23: Failovers are forced only for a restart.  A reconciliation calls
    CLUSTER FAILOVER only when the configuration hash recorded on the resource
    differs from the current one and the configuration holds a parameter
    that cannot be changed at run time; then, for every master that the
    cluster reports, once, in some order, it asks the first replica of that
    master, if it has one, and never a master. *)
Theorem failover_one_replica_per_master hasClient hasManager rc hash t out :
  exec (tryClusterRollingFailover hasClient hasManager rc hash) t out → failovers t ≠ [] →
  (∃ last, om_Annotations (cluster_meta rc) !! lastConfigHashAnnotation = Some last ∧ last ≠ "" ∧ last ≠ hash) ∧
  (∃ config k, c_RedisConfig (cluster_Spec rc) = Some config ∧ is_Some (config !! k) ∧ hotReloadable k = false) ∧
  ∃ st ids, states t = [st] ∧ NoDup ids ∧ failovers t = successors (cs_Nodes st) ids ∧
    (∀ id, id ∈ ids ↔ ∃ m, m ∈ cs_Nodes st ∧ nodeIsMaster m = true ∧ cn_NodeID m = id) ∧
    (∀ a, a ∈ failovers t → ∃ n, n ∈ cs_Nodes st ∧ cn_Addr n = a ∧ nodeIsMaster n = false ∧ cn_MasterID n ∈ ids).
Proof.
  intros H Hne. unfold tryClusterRollingFailover in H.
  destruct (negb hasClient || negb hasManager); [by destruct H as [-> _]|].
  destruct (String.eqb _ "" || _) eqn:E; [by apply recordLastConfigHash_quiet in H as [H _]|].
  destruct (restartNeeded rc) eqn:Er; cbn [negb] in H; [|by apply recordLastConfigHash_quiet in H as [H _]].
  exec_step_ok H; exec_simpl H; [|by apply recordLastConfigHash_quiet in H as [H _]].
  split_and!.
  - apply orb_false_iff in E as [E1%String.eqb_neq E2%String.eqb_neq].
    destruct (om_Annotations (cluster_meta rc) !! lastConfigHashAnnotation) as [last|]; [|done]. by exists last.
  - unfold restartNeeded in Er. apply existsb_exists in Er as (k & Hin%list_elem_of_In & Hh%negb_true_iff).
    apply keys_elem in Hin. destruct (c_RedisConfig (cluster_Spec rc)) as [config|]; [by exists config, k|].
    destruct Hin as [? [=]].
  - assert (∃ t1 t2, t0 = t1 ++ t2 ∧ (∃ o, exec (failoverAll (cs_Nodes r)) t1 o) ∧ failovers t2 = [] ∧ states t2 = [])
      as (t1 & t2 & -> & (o & H1) & Hf & Hs).
    { apply exec_bind in H as [(t1 & [] & t2 & -> & H1 & H)|(h & -> & H1)].
      - exists t1, t2. split_and!; eauto; exec_step H; exec_simpl H;
          by apply recordLastConfigHash_quiet in H as [? ?].
      - exists t0, []. rewrite app_nil_r. eauto. }
    apply exec_failoverAll in H1 as (ids & Hids & Hf1 & Hs1). exists r, ids.
    assert (failovers (Ev (S := KubeSig) (ManagerCall (ClusterManager.GetClusterState (clusterMasterAddr rc 0))) (Ok r) :: t1 ++ t2)
            = successors (cs_Nodes r) ids) as Hfo.
    { change (failovers (t1 ++ t2) = successors (cs_Nodes r) ids). unfold failovers in *.
      by rewrite observe_app, Hf1, Hf, app_nil_r. }
    assert (∀ id, id ∈ ids ↔ ∃ m, m ∈ cs_Nodes r ∧ nodeIsMaster m = true ∧ cn_NodeID m = id) as Hid.
    { intros id. by rewrite Hids, masterIDSet_elem. }
    split_and!; [|rewrite Hids; apply keys_NoDup|exact Hfo|exact Hid|].
    + change (r :: states (t1 ++ t2) = [r]). unfold states in *. by rewrite observe_app, Hs1, Hs.
    + rewrite Hfo. intros a Ha. unfold successors in Ha. apply list_elem_of_omap in Ha as (id & Hin & Ha).
      destruct (firstReplica (cs_Nodes r) id) as [n|] eqn:En; [|done]. injection Ha as <-.
      apply firstReplica_spec in En as (H1 & <- & H2). by exists n.
Qed.
End rollout.

(** ** Witnesses *)

#[local] Existing Instance plain_types.

(** Sentinel names a pod that is not pod 0: it becomes the master and pod 0 a
    replica. *)
Definition failed_over : handler KubeSig server := λ o w,
  match o return kube_ans o * server with
  | RedisCall (RedisClient.SentinelGetMasterAddr _ _) => (Ok ("10.0.0.2", 6379), w)
  | o => apiserver o w
  end.

Lemma role_labels_single_master_witness :
  let rs := sample_sentinel 3 3 None in
  let w := serving (live_cluster 3 0 "") (Fail (ExtErr "EOF")) in
  let r := run failed_over (reconcileRoleLabels true rs) w in
  (om_Name ∘ pod_meta ∘ fst <$> label_patches "rc-1" (sv_pods w)) = ["rc-0"; "rc-1"] ∧
  ∃ asked pods patched,
    trace_of r = asked ++ Ev (S := KubeSig) (list_pods rs) (Ok pods) :: patched ∧
    finds_master true rs asked "rc-1" ∧
    calls patched = (λ pq : Pod * Pod, PatchPod pq.1 pq.2) <$> label_patches "rc-1" pods.
Proof.
  intros rs w r. split; [vm_compute; reflexivity|].
  assert (result_of r = Done (sentinel_master "rc-1" rs)) as E by (vm_compute; reflexivity).
  destruct (role_labels_single_master true rs (trace_of r) (Done (sentinel_master "rc-1" rs)))
    as (asked & master & listed & patched & Ht & Hm & H).
  - exact (run_done failed_over (reconcileRoleLabels true rs) w _ E).
  - destruct listed as [pods|e]; [|destruct H as [_ H]; discriminate H].
    destruct H as (Ho & Hp & _). injection Ho as <-. exists asked, pods, patched.
    exact (conj Ht (conj Hm Hp)).
Defined.

(** A cluster with one hot-reloadable parameter and one that needs a restart,
    last applied with another configuration. *)
Definition reconfigured : RedisCluster :=
  let rc := live_cluster 2 1 "Ready" in
  let spec := cluster_Spec rc in
  {| cluster_meta := with_annotations {[ lastConfigHashAnnotation := "old" ]} (cluster_meta rc);
     cluster_Spec :=
       {| c_Masters := c_Masters spec; c_ReplicasPerMaster := c_ReplicasPerMaster spec; c_Image := c_Image spec;
          c_Resources := c_Resources spec; c_MasterResources := None; c_ReplicaResources := None; c_Storage := None;
          c_RedisConfig := Some {[ "appendonly" := "yes"; "maxmemory" := "1gb" ]}; c_Auth := None; c_TLS := None;
          c_EnableExporter := None; c_ExporterImage := ""; c_MasterAffinity := None; c_MasterTolerations := [];
          c_MasterNodeSelector := ∅; c_ReplicaAffinity := None; c_ReplicaTolerations := [];
          c_ReplicaNodeSelector := ∅ |};
     cluster_Status := cluster_Status rc |}.

Lemma hot_reload_parameters_witness :
  let w := serving reconfigured (Fail (ExtErr "EOF")) in
  let r := run apiserver (tryClusterHotReload true reconfigured) w in
  config_sets (trace_of r) ≡ₚ
    [(clusterMasterAddr reconfigured 0, "maxmemory", "1gb"); (clusterMasterAddr reconfigured 1, "maxmemory", "1gb")].
Proof.
  intros w r. destruct hot_reload_parameters as (_ & H & _).
  destruct (H reconfigured {[ "appendonly" := "yes"; "maxmemory" := "1gb" ]} (trace_of r) (result_of r) eq_refl
              (run_exec apiserver (tryClusterHotReload true reconfigured) w)) as [_ H2].
  exact H2.
Defined.

Lemma failover_one_replica_per_master_witness :
  let w := serving reconfigured (Ok (cluster_of_size 2)) in
  let r := run apiserver (tryClusterRollingFailover true true reconfigured "new") w in
  failovers (trace_of r) = ["10.0.0.2:6379"] ∧
  ∃ st ids, states (trace_of r) = [st] ∧ NoDup ids ∧ failovers (trace_of r) = successors (cs_Nodes st) ids.
Proof.
  intros w r. assert (failovers (trace_of r) = ["10.0.0.2:6379"]) as E by (vm_compute; reflexivity).
  split; [exact E|].
  destruct (failover_one_replica_per_master true true reconfigured "new" (trace_of r) (result_of r)
              (run_exec apiserver (tryClusterRollingFailover true true reconfigured "new") w))
    as (_ & _ & st & ids & H1 & H2 & H3 & _).
  - rewrite E. discriminate.
  - exists st, ids. split; [exact H1|]. split; [exact H2|exact H3].
Defined.
